(* ===== verification/_CoqProject ===== *)
-Q . S2P
Prelude.v
Buddy.v
Pmm.v
PmmLists.v
PmmProof.v
PmmInv.v
PmmBoot.v
PmmSpec.v
PageAlloc.v
Vmm.v
VmmSlab.v
VmmMap.v
Bytes.v
Sha256.v
Sha256Proof.v
AesGcm.v
Aes256.v
AesProof.v
AesEquiv.v
GhashEquiv.v
Glue.v
Locks.v
ListHead.v
Strings.v
Printk.v
Coc.v
Ipc.v
IpcProof.v
Asm.v
Hal.v
StartAsm.v
Trace.v
Float.v
Neri.v
NeriProof.v
Sched.v
SchedProof.v
KStack.v
SchedCreate.v
SchedLife.v
Entry.v
Vfs.v
VfsProof.v
Boot.v
NeriScore.v
CcProc.v
Syscall.v
SyscallProof.v
Kernel.v
KernelTypes.v
Tools.v
Nerictl.v
NerictlProof.v
Cortexcrypt.v
InitTool.v
ToolsSafe.v
ToolsRun.v
Main.v
BootLife.v
