(* ===== verification/Prelude.v ===== *)
(** * Nekros: a verification library for the kernel sources

    Nekros is a small x86-64 kernel in C.  This library models it at the level of the
    source, machine integers, links in memory and error codes included, and proves what
    the parts promise each other.

    ** The program

    - [mm/pmm.c] hands out physical pages (a binary buddy allocator whose free
      lists live in the free pages); [mm/vmm.c] builds on it page tables, vmalloc
      and the kernel heap ([kmalloc], [kfree]).
    - [include/nekros/types.h] holds the primitives all files share: integer
      types, intrusive lists, ticket locks, read-write locks.
    - [kernel/sched.c] keeps tasks on sixteen run queues; it allocates from the
      heap and the page allocator, and asks the resource manager [drivers/neri] to
      admit, place and account tasks.
    - [drivers/neri] has a pool (admission), a telemetry bus (energy counters), a
      cost engine, an optimiser fed by a window of samples, a dispatcher (ring
      buffer) and a security module (anomaly score, sealed snapshots).
    - [kernel/syscall.c] is the gate for user tasks: it checks numbers, arguments,
      pointers and the pledge mask, then runs a handler on top of all the others.
    - [fs/vfs.c] has inodes, directories, devices, files in memory and descriptors;
      [ipc/ipc.c] channels with authenticated messages in shared pages;
      [crypto/coc.c] a hash chain of kernel events, which the channels write to;
      [kernel/trace.c] rings of signed events between the kernel and a reader.
    - [drivers/cortexcrypto/core/cc_proc.c] attests tasks, seals memory and
      checkpoints, and has a second kind of channel over vmalloc.
    - [arch/x86/hal] detects the processor, sets up interrupts and guards the
      model-specific registers; [arch/x86/kernel] has the interrupt stubs and the
      context switch in assembly, [arch/x86/boot] the start code; [kernel/printk.c] and [include/nekros/string.h]
      print and parse; [init/nekros_main.c] reads the memory map and starts it all.
    - [crypto/] and [drivers/cortexcrypto/core/aes256.c] hold SHA-256, HMAC, HKDF
      and two separately written implementations of AES-256-GCM.
    - [tools/] has three user programs: init, nerictl and cortexcrypt.

    ** Files

    - [Prelude] (this file): fixed-width arithmetic as explicit reductions of [Z],
      the macros of types.h, the three outcomes of a C computation ([Done], [Panic]
      for a call of [panic], [Fault] for an access the hardware or the language
      does not define), tactics, the hint database [nekros], shared lemmas.
    - [Buddy]: blocks as address and order; the block invariant [Core] and how it
      moves under split, merge, mark and unmark.  Pure combinatorics.
    - [Pmm]: all of mm/pmm.c at pointer level.  [PmmLists]: the links in the free
      pages stand for lists.  [PmmProof], [PmmInv]: the invariant [Inv] and its
      preservation.  [PmmBoot]: [pmm_init] and [pmm_add_region] establish it.
      [PmmSpec]: the abstract allocator, the simulation, and its consequences.
    - [PageAlloc]: the class stating what a client of the page allocator may rely
      on, with the buddy allocator as its instance.
    - [Vmm]: all of mm/vmm.c (page tables as words of the direct map, a TLB, the
      slab caches, stack canaries).  [VmmSlab]: the heap invariant and the
      correctness of small allocations, against [PageAlloc].  [VmmMap]: the page
      tables as a tree of distinct pages, the TLB, mapping and unmapping; vmalloc.
    - [Bytes], [Sha256], [Sha256Proof]: crypto/sha256.c and its agreement with the
      one-shot definitions of the standards.
    - [AesGcm], [Aes256]: the two AES-256-GCM implementations.  [AesProof]: round
      trip of both through the class [Aead].  [AesEquiv], [GhashEquiv]: they compute
      the same function.  [Glue]: the aliases of kernel/glue.c.
    - [Locks]: ticket lock ([spin_trylock] included) and read-write lock as step relations
      over any number of interleaving threads.
    - [ListHead]: the intrusive lists, [ring] and the operations on it.
    - [Strings], [Printk]: string.h, lib/string.c and printk.c; buffers are lists that
      end where the readable memory ends.
    - [Coc]: crypto/coc.c and the unbounded history it stands for.  [Ipc], [IpcProof]:
      ipc/ipc.c over the page allocator and the chain.
    - [Asm]: the interrupt stubs and the context switch as lists of instructions over a
      machine of registers and memory.  [Hal]: arch/x86/hal and the interrupt table of
      kernel/glue.c; exceptions reach it through the stubs.  [StartAsm]: entry.S, from the
      boot loader to 64-bit code, with its page tables and descriptors.
    - [Trace]: kernel/trace.c, and writer and reader as a step relation with one step
      per shared access.
    - [Float]: the C type [float] as SpecFloat has it, on the SSE and the x87 unit.
      [Neri], [NeriProof]: the resource manager, its features in [float].  [NeriScore]:
      the scores the security module can report.
    - [Sched], [SchedProof]: kernel/sched.c over the modelled heap, page allocator
      and resource manager.  [KStack]: stacks held beside the heap, another instance of
      [PageAlloc].  [SchedCreate]: [task_create] over all of them.  [SchedLife]: runs of
      creations, ticks, yields and exits on any processors.  [Entry]: the layout of
      [struct task] against the offsets of the context switch.
    - [Vfs], [VfsProof]: fs/vfs.c over the heap, the console and the resource manager.
    - [Boot]: the memory-map parser, the fingerprint and the task lookup of
      init/nekros_main.c.  [CcProc]: cc_proc.c.
    - [Syscall]: kernel/syscall.c over the scheduler's state, with the functions of other
      subsystems as a parameter.  [SyscallProof]: what the gate guarantees, against the
      class [Callees] of what it needs of them.  [Kernel]: the file system and CortexCrypto
      behind the gate, and the instance.  [KernelTypes]: the C types as an invariant of it.
    - [Tools]: user programs as trees of system calls, the class [OS] of what they run on,
      and the kernel as an instance.  [Nerictl], [Cortexcrypt], [InitTool]: the three
      programs.  [NerictlProof], [ToolsSafe], [ToolsRun]: what they print, that they stay
      in their buffers and pledges whatever they are answered, and how they fare.
    - [Main]: [nekros_main] as the composition of all of these, and [init_process].
      [BootLife]: the boot ends in a state from which the runs of [SchedLife] start.

    ** What the theorems show

    - Page allocator: every call refines an abstract allocator of disjoint aligned
      blocks; no page is handed out twice or lost in any run after boot; allocation
      fails exactly when no free block is large enough; free buddies the bitmap
      knows of are merged; bad arguments change nothing.
    - Heap: [kmalloc] of a slab size returns 8-byte-cookied memory that overlaps no
      object in use and leaves the contents of those alone; [kfree] takes it back
      and the next request of the class gets it again.
    - Page tables: [vmm_map] and [vmm_unmap] change exactly the translations of their
      range, over any page allocator; after unmapping no cached translation is left.
    - Scheduler: [schedule] keeps the run-queue invariant and dispatches the task
      of least virtual runtime of the highest non-empty band; [task_create] gives a
      READY task a record and a stack of its own, or gives everything back, and its caller can
      tell from the pointer; a task
      created on an idle CPU is the next to run; a time slice is four ticks; exit of the
      running task faults on its NULL links.  In no run is a task lost, current on two
      processors, or without a stack of its own, and nothing panics.
    - System calls: with the file system and CortexCrypto behind it, a call writes user
      memory only where its arguments allow, its flag is released when the handler
      returns, and every field keeps its C type; pointer checks cannot be bypassed by
      wrap-around; pledge is enforced; what pledging again, and yielding, do.
    - Tools: [nerictl status] prints exactly the pool's figures; the programs never leave
      their buffers or their pledge; init runs for ever; pledged programs are killed by
      the scrubbing of their mask.
    - Resource manager: the pool's counters are the sums of the live grants; every
      weight, signal and sample stays in its range; the ring is a bounded FIFO;
      sealed snapshots open again; the anomaly level gates admission, but no run of the
      kernel reaches the level that closes it.
    - Cryptography: streaming equals one-shot hashing for every chunking; HMAC and
      HKDF equal their definitions; decryption inverts encryption and rejects
      changed tags; the two GCM implementations agree; published test vectors.
    - Channels, custody, tracing: a channel is a FIFO of authenticated messages, and
      receiving waits for a bounded number of polls; the custody array is a window on
      the whole history, and equal heads mean equal histories or a SHA-256 collision;
      in any interleaving the trace reader gets whole entries in order.
    - Files: path resolution equals component-wise lookup on any tree; what is
      written reads back; descriptors are checked; texts fit their buffers.
    - CortexCrypto: the nonces drawn for a key never repeat.
    - Interrupts and switches: the stubs save and restore every register; a switch away
      and back restores the callee-saved ones.  Runtime register writes are contained.
    - Printing: [printk] stays in its buffer and prints what the format says; printed
      numbers parse back.
    - Boot: the parser ends on every well-formed map and registers its RAM; where the
      regions it leaves are manageable, the boot reaches the state of the scheduler's runs.
      The first page tables map exactly the addresses C relies on.
    - Locks: the ticket lock refines a FIFO queue of threads (mutual exclusion, in
      order) as long as no [spin_trylock] is overtaken by 65536 tickets; the read-write lock
      excludes writers from everyone.

    The theorems without a claim number state further behaviour, and at the end of
    most files what the code does where it departs from its comments or its intent:
    among them that vmalloc's range is not addressable ([VmmMap.kmalloc_large]), so
    that large allocations, trace rings, growing files, secure memory and
    CortexCrypto's channels fail; that on a PC's memory map nothing is registered
    ([Boot.pc_map_registers_nothing]); that the hardware layer faults at the APIC's
    usual address ([Hal.hal_init_outcome]); that the stubs exchange the vector and the
    error code, so that timer interrupts and system calls are taken for exceptions
    ([Hal.interrupts_panic]); that the context switch uses other fields of the task than
    it means to ([Entry.switch_slots], [Entry.new_task_jumps_to_zero]); that the first
    task does not survive its first yield ([Main.init_does_not_survive]); and that the start
    code turns away a Multiboot2 loader ([StartAsm.loader_refused]), maps high addresses
    1 MB below where the linker puts them ([StartAsm.high_half_displaced]) and loads a task
    register it has no descriptor for ([StartAsm.long_mode_start_faults]).  The C code is
    modelled as it would run were it reached.  The theorems
    about system calls and user programs are about the C side of the gate, from
    [nekros_syscall_dispatch] on; those about scheduling about the choice of the task
    and the bookkeeping, up to the call of [__switch_to].

    ** Bounds and fuel

    Loops with a bound in the source recurse on that bound.  The others carry fuel
    computed from their input, and the theorems, being about the results and not
    conditional on them, show it suffices: eleven orders for the searches of pmm.c,
    one step per page for [add_blocks], one per byte for the hashing and counter
    loops, one per link cell for [list_for_each] (a walk that outlasts it visits a
    cell twice and does not end in C; it is a [Fault]).  The number of page frames
    the bitmap covers, the regions and the number of threads are arbitrary.
    [Ipc.ipc_wait] has the source's bound of 1000001 polls; the formatter and the path
    walk get one unit per character.  The parser of [Boot] is the one loop that may not
    end in C: without fuel it is [None], and one unit per byte of the structure is
    enough for every well-formed one.
    [Aes256.ghash] is shown equal to the other implementation up to the length at
    which its 32-bit index would wrap.  [NeriScore.within] bisects to depth 16, which
    reaches single values of the two inputs.

    A function body that runs under its spin lock is one step; what the locks
    themselves guarantee is in [Locks].  Hardware reads (MSRs, time stamp counter,
    processor number) are arguments.  Accesses of the kernel to its own static data
    do not fault; accesses through pointers read from memory can.  User memory is a map of
    its own, all of it readable and writable; the buffers of one system call do not
    overlap; a program's buffers lie from its stack pointer on.  C's [float] operations
    round to nearest in the unit's format.

    ** Not modelled

    The wait for the serial transmitter, [syscall_init] and other functions that only print;
    [sha256] of kernel/glue.c, which calls a function no source has; attributes and barriers of
    the compiler in types.h (the steps of [Locks] and [Trace] are in the order of the source).
    The invariant of the page allocator asks for regions that start at a multiple of 4 MB;
    [BootLife.boot_starts_life] takes that of the memory map.  Other regions can be handed out
    twice ([PmmSpec.unaligned_node_double_allocates]). *)

From stdpp Require Export base tactics numbers list gmap.
From Stdlib Require Export ZArith Lia.

#[export] Set Default Goal Selector "!".

Open Scope Z_scope.

(** ** Machine integers

    A C unsigned integer of width [w] is a [Z] kept in [0, 2^w) by an explicit
    reduction; a signed [int] is a [Z] in two's complement range. *)

Definition u8 (x : Z) : Z := x mod 2 ^ 8.
Definition u16 (x : Z) : Z := x mod 2 ^ 16.
Definition u32 (x : Z) : Z := x mod 2 ^ 32.
Definition u64 (x : Z) : Z := x mod 2 ^ 64.
Definition s32 (x : Z) : Z := (x + 2 ^ 31) mod 2 ^ 32 - 2 ^ 31.
Definition s64 (x : Z) : Z := (x + 2 ^ 63) mod 2 ^ 64 - 2 ^ 63.

(** Pointers that carry an error number. *)
Definition IS_ERR (p : Z) : bool := u64 (- 4096) <? p.
Definition ERR_PTR (e : Z) : Z := u64 e.
Definition PTR_ERR (p : Z) : Z := s64 p.

(** Truth value of a C integer. *)
Definition truthy (x : Z) : bool := negb (x =? 0).

Definition shl64 (x n : Z) : Z := u64 (Z.shiftl x n).
Definition shl32 (x n : Z) : Z := u32 (Z.shiftl x n).
Definition not64 (x : Z) : Z := u64 (Z.lnot x).
Definition not32 (x : Z) : Z := u32 (Z.lnot x).

(** ** Macros of include/nekros/types.h *)

Definition ALIGN (x a : Z) : Z := Z.land (u64 (x + a - 1)) (not64 (u64 (a - 1))).
Definition ALIGN_DOWN (x a : Z) : Z := Z.land x (not64 (u64 (a - 1))).
Definition MIN (a b : Z) : Z := if a <? b then a else b.
Definition MAX (a b : Z) : Z := if b <? a then a else b.

Definition PAGE_SHIFT : Z := 12.
Definition PAGE_SIZE : Z := 4096.
Definition KERNEL_VIRT_BASE : Z := 0xFFFFFFFF80000000.
Definition virt_to_phys (v : Z) : Z := (u64 (v - KERNEL_VIRT_BASE)).
Definition phys_to_virt (p : Z) : Z := (u64 (p + KERNEL_VIRT_BASE)).
Definition NCPUS_MAX : Z := 256.

Definition EPERM : Z := 1.
Definition ENOENT : Z := 2.
Definition ESRCH : Z := 3.
Definition EBADF : Z := 9.
Definition ENOMEM : Z := 12.
Definition EACCES : Z := 13.
Definition EFAULT : Z := 14.
Definition EBUSY : Z := 16.
Definition ENODEV : Z := 19.
Definition EINVAL : Z := 22.
Definition ENFILE : Z := 23.
Definition EMFILE : Z := 24.
Definition ENOTTY : Z := 25.
Definition EFBIG : Z := 27.
Definition ERANGE : Z := 34.
Definition EAGAIN : Z := 35.
Definition ENOSYS : Z := 38.
Definition EBADMSG : Z := 74.
Definition EMSGSIZE : Z := 90.
Definition ENOBUFS : Z := 105.
Definition ENOTCONN : Z := 107.

(** ** Physical memory, seen through the kernel's direct map

    64-bit words indexed by virtual address; a word never written reads 0. *)

Abbreviation memory := (gmap Z Z).
Definition mread (m : memory) (a : Z) : Z := default 0 (m !! a).
Definition mwrite (m : memory) (a v : Z) : memory := <[a := v]> m.

(** [memset(va, 0, bytes)] on whole words. *)
Fixpoint mzero (m : memory) (va : Z) (words : nat) : memory :=
  match words with
  | O => m
  | S n => mzero (mwrite m va 0) (u64 (va + 8)) n
  end.

(** ** Calls that may not return

    [panic] stops the kernel; a [Fault] is an access the hardware refuses (a NULL or
    unmapped pointer, a division by zero). *)

Inductive outcome (A : Type) := Done (a : A) | Panic | Fault.
Arguments Done {A} _.
Arguments Panic {A}.
Arguments Fault {A}.

#[export] Instance outcome_ret : MRet outcome := fun _ a => Done a.
#[export] Instance outcome_bind : MBind outcome :=
  fun _ _ f o => match o with Done a => f a | Panic => Panic | Fault => Fault end.
(** An operation whose only failure is a fault. *)
Definition faulting {A} (o : option A) : outcome A := match o with Some a => Done a | None => Fault end.

(** ** Tactics *)

(** Booleans of the source's conditions to propositions. *)
Ltac b2p :=
  repeat match goal with
  | H : andb _ _ = true |- _ => apply andb_true_iff in H as [? ?]
  | H : andb _ _ = false |- _ => apply andb_false_iff in H
  | H : orb _ _ = false |- _ => apply orb_false_iff in H as [? ?]
  | H : orb _ _ = true |- _ => apply orb_true_iff in H
  | H : negb _ = true |- _ => apply negb_true_iff in H
  | H : negb _ = false |- _ => apply negb_false_iff in H
  | H : (_ =? _) = true |- _ => apply Z.eqb_eq in H
  | H : (_ =? _) = false |- _ => apply Z.eqb_neq in H
  | H : (_ <? _) = true |- _ => apply Z.ltb_lt in H
  | H : (_ <? _) = false |- _ => apply Z.ltb_ge in H
  | H : (_ <=? _) = true |- _ => apply Z.leb_le in H
  | H : (_ <=? _) = false |- _ => apply Z.leb_gt in H
  | H : Nat.leb _ _ = true |- _ => apply Nat.leb_le in H
  | H : Nat.leb _ _ = false |- _ => apply Nat.leb_gt in H
  | H : Nat.ltb _ _ = true |- _ => apply Nat.ltb_lt in H
  | H : Nat.ltb _ _ = false |- _ => apply Nat.ltb_ge in H
  | H : Nat.eqb _ _ = true |- _ => apply Nat.eqb_eq in H
  | H : Nat.eqb _ _ = false |- _ => apply Nat.eqb_neq in H
  | H : truthy _ = true |- _ => unfold truthy in H
  | H : truthy _ = false |- _ => unfold truthy in H
  end.

(** Case split on the condition of a conditional. *)
Ltac casei :=
  match goal with
  | |- context [if ?c then _ else _] => let E := fresh "E" in destruct c eqn:E
  end.
Ltac casei_in H :=
  match type of H with
  | context [if ?c then _ else _] => let E := fresh "E" in destruct c eqn:E
  end.

(** Linear arithmetic with division and remainder by constants. *)
Ltac zdm := Z.to_euclidean_division_equations; lia.

(** Range facts about the fixed-width reductions. *)
Ltac wrap_small := unfold u8, u16, u32, u64 in *; rewrite ?Z.mod_small in * by lia.

Lemma u64_small (x : Z) : 0 <= x < 2 ^ 64 -> u64 x = x.
Proof. apply Z.mod_small. Qed.
Lemma u32_small (x : Z) : 0 <= x < 2 ^ 32 -> u32 x = x.
Proof. apply Z.mod_small. Qed.
Lemma u8_small (x : Z) : 0 <= x < 2 ^ 8 -> u8 x = x.
Proof. apply Z.mod_small. Qed.
Lemma s32_small (x : Z) : - 2 ^ 31 <= x < 2 ^ 31 -> s32 x = x.
Proof. intros. unfold s32. rewrite Z.mod_small; lia. Qed.
Lemma u64_range (x : Z) : 0 <= u64 x < 2 ^ 64.
Proof. unfold u64. apply Z.mod_pos_bound. lia. Qed.
Lemma u32_range (x : Z) : 0 <= u32 x < 2 ^ 32.
Proof. unfold u32. apply Z.mod_pos_bound. lia. Qed.
Lemma u8_range (x : Z) : 0 <= u8 x < 2 ^ 8.
Proof. unfold u8. apply Z.mod_pos_bound. lia. Qed.

(** ** Automation database *)
Create HintDb nekros discriminated.
#[export] Hint Resolve u64_range u32_range u8_range : nekros.

(** ** Memory lemmas *)
Lemma mread_mwrite_eq m a v : mread (mwrite m a v) a = v.
Proof. unfold mread, mwrite. by rewrite lookup_insert_eq. Qed.
Lemma mread_mwrite_ne m a b v : a <> b -> mread (mwrite m a v) b = mread m b.
Proof. intros. unfold mread, mwrite. by rewrite lookup_insert_ne. Qed.
Lemma mread_mwrite m a b v :
  mread (mwrite m a v) b = if a =? b then v else mread m b.
Proof.
  destruct (Z.eqb_spec a b); subst; [apply mread_mwrite_eq | by apply mread_mwrite_ne].
Qed.

(** ** Powers of two and alignment *)
Lemma pow2_pos (k : Z) : 0 <= k -> 0 < 2 ^ k.
Proof. intros. apply Z.pow_pos_nonneg; lia. Qed.
#[export] Hint Resolve pow2_pos : nekros.

Lemma land_ones_mod (x n : Z) : 0 <= n -> Z.land x (2 ^ n - 1) = x mod 2 ^ n.
Proof. intros. replace (2 ^ n - 1) with (Z.ones n); [by apply Z.land_ones|]. rewrite Z.ones_equiv. lia. Qed.

Lemma land_not64 (x n : Z) : 0 <= x < 2 ^ 64 -> 0 <= n < 64 ->
  Z.land x (not64 (u64 (2 ^ n - 1))) = x / 2 ^ n * 2 ^ n.
Proof.
  intros Hx Hn. unfold not64. rewrite (u64_small (2 ^ n - 1)).
  2:{ pose proof (pow2_pos n). pose proof (Z.pow_lt_mono_r 2 n 64). lia. }
  unfold u64. rewrite <- Z.land_ones, (Z.land_comm (Z.lnot _)), Z.land_assoc, Z.land_ones, Z.mod_small by lia.
  replace (2 ^ n - 1) with (Z.ones n) by (rewrite Z.ones_equiv; lia).
  rewrite <- Z.ldiff_land, Z.ldiff_ones_r, Z.shiftl_mul_pow2, Z.shiftr_div_pow2 by lia. done.
Qed.

Lemma ALIGN_DOWN_spec (x n : Z) : 0 <= x < 2 ^ 64 -> 0 <= n < 64 ->
  ALIGN_DOWN x (2 ^ n) = x / 2 ^ n * 2 ^ n.
Proof. apply land_not64. Qed.

Lemma ALIGN_spec (x n : Z) : 0 <= x -> 0 <= n < 64 -> x + 2 ^ n - 1 < 2 ^ 64 ->
  ALIGN x (2 ^ n) = (x + 2 ^ n - 1) / 2 ^ n * 2 ^ n.
Proof.
  intros. pose proof (pow2_pos n). unfold ALIGN. rewrite (u64_small (x + 2 ^ n - 1)) by lia.
  apply land_not64; lia.
Qed.

(** ** Bits *)
Lemma truthy_bit x n : 0 <= n -> truthy (Z.land (Z.shiftr x n) 1) = Z.testbit x n.
Proof.
  intros. change 1 with (2 ^ 1 - 1). rewrite land_ones_mod by lia. change (2 ^ 1) with 2.
  rewrite <- Z.bit0_mod, Z.shiftr_spec, Z.add_0_l by lia. unfold truthy.
  by destruct (Z.testbit x n).
Qed.

Lemma shl64_bit x k i : 0 <= k -> 0 <= i ->
  Z.testbit (shl64 x k) i = (i <? 64) && Z.testbit x (i - k).
Proof.
  intros. unfold shl64, u64. destruct (Z.ltb_spec i 64); simpl.
  - by rewrite Z.mod_pow2_bits_low, Z.shiftl_spec by lia.
  - by rewrite Z.mod_pow2_bits_high by lia.
Qed.

(** Testing one bit with a mask. *)
Lemma truthy_mask x n : 0 <= n < 64 -> truthy (Z.land x (shl64 1 n)) = Z.testbit x n.
Proof.
  intros Hn. assert (shl64 1 n = 2 ^ n) as ->.
  { unfold shl64, u64. rewrite Z.shiftl_1_l. apply Z.mod_small. split; [lia|]. apply Z.pow_lt_mono_r; lia. }
  unfold truthy. destruct (Z.testbit x n) eqn:E.
  - apply negb_true_iff, Z.eqb_neq. intros H. apply (f_equal (fun z => Z.testbit z n)) in H.
    rewrite Z.land_spec, E, Z.pow2_bits_true, Z.bits_0 in H by lia. done.
  - apply negb_false_iff, Z.eqb_eq, Z.bits_inj'. intros i Hi. rewrite Z.land_spec, Z.bits_0, Z.pow2_bits_eqb by lia.
    destruct (Z.eqb_spec n i) as [->|]; [by rewrite E | by rewrite andb_false_r].
Qed.

Lemma shl32_bit x k i : 0 <= k -> 0 <= i ->
  Z.testbit (shl32 x k) i = (i <? 32) && Z.testbit x (i - k).
Proof.
  intros. unfold shl32, u32. destruct (Z.ltb_spec i 32); simpl.
  - by rewrite Z.mod_pow2_bits_low, Z.shiftl_spec by lia.
  - by rewrite Z.mod_pow2_bits_high by lia.
Qed.
