(* ===== verification/Buddy.v ===== *)
(** * Buddy blocks: the combinatorics behind mm/pmm.c

    Blocks are pairs (physical address, order).  [Core] is the block invariant of
    the allocator for one page-usage map, a set of free blocks, a set of
    allocated blocks and a set of pages exempt from the "clear means free" rule
    (the block an operation is working on).  The lemmas say how the invariant
    moves when a block is split, marked, unmarked, merged with its buddy or
    handed back; they are about addresses only, not about pointers. *)

From S2P Require Import Prelude.

Module Buddy.

Definition block : Type := Z * nat.

(** Bytes of an order-[k] block. *)
Definition bsize (k : nat) : Z := PAGE_SIZE * 2 ^ Z.of_nat k.

Lemma bsize_pos k : 0 < bsize k.
Proof. unfold bsize, PAGE_SIZE. pose proof (pow2_pos (Z.of_nat k)). lia. Qed.
Lemma bsize_S k : bsize (S k) = 2 * bsize k.
Proof. unfold bsize. rewrite Nat2Z.inj_succ, Z.pow_succ_r by lia. lia. Qed.
Lemma bsize_0 : bsize 0 = 4096.
Proof. reflexivity. Qed.
Lemma bsize_le k k' : (k <= k')%nat -> (bsize k | bsize k').
Proof.
  intros. exists (2 ^ Z.of_nat (k' - k)). unfold bsize.
  replace (Z.of_nat k') with (Z.of_nat (k' - k) + Z.of_nat k) by lia.
  rewrite Z.pow_add_r by lia. lia.
Qed.
Lemma bsize_page k : (4096 | bsize k).
Proof. exists (2 ^ Z.of_nat k). unfold bsize, PAGE_SIZE. lia. Qed.
Lemma bsize_max k : (k <= 10)%nat -> (bsize k | 2 ^ 22).
Proof. intros. change (2 ^ 22) with (bsize 10). by apply bsize_le. Qed.
#[export] Hint Resolve bsize_pos bsize_le bsize_page : nekros.

(** Page number [q] lies in block [b]. *)
Definition inb (b : block) (q : Z) : Prop := b.1 <= 4096 * q < b.1 + bsize b.2.

Definition overlap (b c : block) : Prop :=
  b.1 < c.1 + bsize c.2 /\ c.1 < b.1 + bsize b.2.

(** The other half of the order-[S k] block that contains [p]. *)
Definition bud (p : Z) (k : nat) : Z :=
  if Z.even (p / bsize k) then p + bsize k else p - bsize k.

(** A managed address range (a [pmm_node]). *)
Definition range : Type := Z * Z.
Definition range_ok (r : range) : Prop :=
  (2 ^ 22 | r.1) /\ 0x1000000 <= r.1 /\ r.1 <= r.2 /\ r.2 <= 2 ^ 31.

(** A block that lies, aligned, in one of the ranges. *)
Definition wfb (N : list range) (b : block) : Prop :=
  (b.2 <= 10)%nat /\ (bsize b.2 | b.1) /\
  exists r, r ∈ N /\ r.1 <= b.1 /\ b.1 + bsize b.2 <= r.2.

Definition disjoint_ranges (N : list range) : Prop :=
  forall i j r r', N !! i = Some r -> N !! j = Some r' -> i <> j -> r.2 <= r'.1 \/ r'.2 <= r.1.

Definition clear (used : Z -> bool) (b : block) : Prop := forall q, inb b q -> used q = false.
Definition marked (used : Z -> bool) (b : block) : Prop := forall q, inb b q -> used q = true.

Record Core (used : Z -> bool) (N : list range) (Fr Al : block -> Prop) (X : Z -> Prop) : Prop := {
  core_wf : forall b, Fr b \/ Al b -> wfb N b;
  core_disj : forall b c, Fr b \/ Al b -> Fr c \/ Al c -> overlap b c -> b = c;
  core_apart : forall b, Fr b -> Al b -> False;
  core_uniform : forall b, Fr b -> clear used b \/ marked used b;
  core_cover : forall q, used q = false -> X q \/ exists b, Fr b /\ inb b q;
  core_buddies : forall p k, (k < 10)%nat -> Fr (p, k) -> Fr (bud p k, k) ->
    clear used (p, k) -> clear used (bud p k, k) -> False;
  core_total : forall r q, r ∈ N -> r.1 <= 4096 * q < r.2 ->
    X q \/ exists b, (Fr b \/ Al b) /\ inb b q
}.

(** ** Alignment arithmetic *)

Lemma wfb_aligned N b : wfb N b -> (bsize b.2 | b.1).
Proof. intros (_ & ? & _). done. Qed.

Lemma bud_cases p k : (bsize k | p) ->
  ((bsize (S k) | p) /\ bud p k = p + bsize k) \/
  ((bsize (S k) | p - bsize k) /\ bud p k = p - bsize k).
Proof.
  intros [c ->]. pose proof (bsize_pos k). unfold bud. rewrite Z.div_mul by lia.
  rewrite bsize_S. destruct (Z.even c) eqn:E.
  - apply Z.even_spec in E as [d ->]. left. split; [|done]. exists d. lia.
  - rewrite <- Z.negb_odd in E. apply negb_false_iff, Z.odd_spec in E as [d ->].
    right. split; [|done]. exists d. lia.
Qed.

Lemma bud_low r j : (bsize (S j) | r) -> bud r j = r + bsize j.
Proof.
  intros [x ->]. pose proof (bsize_pos j). unfold bud. rewrite bsize_S.
  replace (x * (2 * bsize j)) with ((2 * x) * bsize j) by lia.
  rewrite Z.div_mul by lia. by rewrite Z.even_mul.
Qed.

Lemma bud_aligned p k : (bsize k | p) -> (bsize k | bud p k).
Proof.
  intros Hp. unfold bud.
  casei; [apply Z.divide_add_r | apply Z.divide_sub_r]; auto using Z.divide_refl.
Qed.

Lemma bud_involutive p k : (bsize k | p) -> bud (bud p k) k = p.
Proof.
  intros [c ->]. pose proof (bsize_pos k). unfold bud. rewrite Z.div_mul by lia.
  destruct (Z.even c) eqn:E.
  - replace (c * bsize k + bsize k) with ((c + 1) * bsize k) by lia.
    rewrite Z.div_mul by lia. rewrite Z.even_add, E. simpl. lia.
  - replace (c * bsize k - bsize k) with ((c - 1) * bsize k) by lia.
    rewrite Z.div_mul by lia. rewrite Z.even_sub, E. simpl. lia.
Qed.

(** Two aligned blocks that overlap: the smaller one lies in the larger one. *)
Lemma aligned_nest p k p' k' :
  (k <= k')%nat -> (bsize k | p) -> (bsize k' | p') -> overlap (p, k) (p', k') ->
  p' <= p /\ p + bsize k <= p' + bsize k'.
Proof.
  intros Hk Hp Hp' [H1 H2]. simpl in *.
  destruct (bsize_le k k' Hk) as [c Hc]. destruct Hp as [a ->], Hp' as [b ->].
  pose proof (bsize_pos k). pose proof (bsize_pos k'). rewrite Hc in *.
  assert (a < b * c + c) by (apply (Z.mul_lt_mono_pos_r (bsize k)); lia).
  assert (b * c < a + 1) by (apply (Z.mul_lt_mono_pos_r (bsize k)); lia).
  split.
  - replace (b * (c * bsize k)) with ((b * c) * bsize k) by lia.
    apply Z.mul_le_mono_nonneg_r; lia.
  - replace (b * (c * bsize k) + c * bsize k) with ((b * c + c) * bsize k) by lia.
    replace (a * bsize k + bsize k) with ((a + 1) * bsize k) by lia.
    apply Z.mul_le_mono_nonneg_r; lia.
Qed.

Lemma overlap_sym b c : overlap b c -> overlap c b.
Proof. intros [? ?]. by split. Qed.

Lemma inb_overlap b c q : inb b q -> inb c q -> overlap b c.
Proof. unfold inb, overlap. lia. Qed.

(** The first page of an aligned block. *)
Lemma first_page b : (bsize b.2 | b.1) -> inb b (b.1 / 4096) /\ 4096 * (b.1 / 4096) = b.1.
Proof.
  intros H. assert (4096 | b.1) as [c Hc] by (etrans; [apply bsize_page | done]).
  pose proof (bsize_pos b.2). unfold inb. rewrite Hc, Z.div_mul by lia. lia.
Qed.

(** ** The clear-region lemma

    A clear, aligned region that no exempt page touches lies in one free block of
    at least its order: this is what entitles the coalescing loop to unlink a
    buddy it only looked up in the bitmap. *)

Section clear_region.
Context (used : Z -> bool) (N : list range) (Fr Al : block -> Prop) (X : Z -> Prop).
Context (HC : Core used N Fr Al X).

Lemma clear_sub b c : clear used b -> (forall q, inb c q -> inb b q) -> clear used c.
Proof. unfold clear. auto. Qed.

(** What a free block that meets the region looks like. *)
Lemma meets_covers p k r j :
  Fr (p, k) -> (j <= k)%nat -> (bsize j | r) -> overlap (r, j) (p, k) ->
  p <= r /\ r + bsize j <= p + bsize k.
Proof.
  intros Hf Hk Hr Ho. apply (aligned_nest r j p k); auto.
  exact (wfb_aligned _ _ (core_wf _ _ _ _ _ HC _ (or_introl Hf))).
Qed.

Definition covered (r : Z) (j : nat) : Prop :=
  exists b, Fr b /\ (j <= b.2)%nat /\ b.1 <= r /\ r + bsize j <= b.1 + bsize b.2.

Lemma covered_page r : clear used (r, 0%nat) -> (bsize 0 | r) ->
  (forall q, inb (r, 0%nat) q -> ~ X q) -> covered r 0.
Proof.
  intros Hcl Hr HX. destruct (first_page (r, 0%nat) Hr) as [Hin Hpg]. simpl in *.
  destruct (core_cover _ _ _ _ _ HC _ (Hcl _ Hin)) as [?|([p k] & Hb & Hq)]; [by edestruct HX|].
  exists (p, k). split; [done|]. split; [simpl; lia|].
  apply meets_covers; auto; [lia|]. by apply (inb_overlap _ _ (r / 4096)).
Qed.

(** Two covered halves: they are not two clear buddies, so one block has both. *)
Lemma covered_join r j : (j < 10)%nat -> (bsize (S j) | r) -> clear used (r, S j) ->
  covered r j -> covered (r + bsize j) j -> covered r (S j).
Proof.
  intros Hj Hr Hcl ([p1 k1] & Hf1 & Hk1 & Hl1 & Hu1) ([p2 k2] & Hf2 & Hk2 & Hl2 & Hu2).
  simpl in *. pose proof (bsize_pos j). pose proof (bsize_S j).
  destruct (decide (S j <= k1)%nat).
  { exists (p1, k1). split; [done|]. split; [done|]. apply meets_covers; auto.
    unfold overlap; simpl; lia. }
  destruct (decide (S j <= k2)%nat).
  { exists (p2, k2). split; [done|]. split; [done|]. apply meets_covers; auto.
    unfold overlap; simpl; lia. }
  assert (k1 = j) as -> by lia. assert (k2 = j) as -> by lia.
  assert (p1 = r) as -> by lia. assert (p2 = r + bsize j) as -> by lia.
  exfalso. apply (core_buddies _ _ _ _ _ HC r j); rewrite ?(bud_low _ _ Hr); auto;
    (eapply clear_sub; [exact Hcl | unfold inb; simpl; lia]).
Qed.

Lemma clear_region_covered j r :
  (j <= 10)%nat -> (bsize j | r) -> clear used (r, j) -> (forall q, inb (r, j) q -> ~ X q) ->
  covered r j.
Proof.
  revert r. induction j as [|j IH]; intros r Hj Hr Hcl HX; [by apply covered_page|].
  pose proof (bsize_S j) as HS. pose proof (bsize_pos j).
  assert (bsize j | r) by (etrans; [|exact Hr]; exists 2; lia).
  apply covered_join; [lia | done | done | |]; (apply IH; [lia | | |]); auto.
  all: try (eapply clear_sub; [exact Hcl|]); try (intros q Hq; apply HX; revert Hq);
    unfold inb; simpl; try lia.
  apply Z.divide_add_r; [done | apply Z.divide_refl].
Qed.

End clear_region.

(** ** How the invariant moves *)

Definition addb (S : block -> Prop) (b : block) : block -> Prop := fun c => S c \/ c = b.
Definition delb (S : block -> Prop) (b : block) : block -> Prop := fun c => S c /\ c <> b.

Section transitions.
Context (N : list range).
Implicit Types (used : Z -> bool) (Fr Al : block -> Prop) (X : Z -> Prop).

(** Disjoint, well-formed families are closed under replacing blocks by parts of
    their union. *)
Definition family (S : block -> Prop) : Prop :=
  (forall b, S b -> wfb N b) /\ (forall b c, S b -> S c -> overlap b c -> b = c).

Lemma core_family used Fr Al X : Core used N Fr Al X -> family (fun b => Fr b \/ Al b).
Proof. intros HC. split; [apply (core_wf _ _ _ _ _ HC) | apply (core_disj _ _ _ _ _ HC)]. Qed.

Lemma family_ext (S T : block -> Prop) : family S -> (forall b, T b -> S b) -> family T.
Proof. intros [H1 H2] HT. split; eauto. Qed.

Lemma overlap_refl b : overlap b b.
Proof. pose proof (bsize_pos b.2). unfold overlap. lia. Qed.

(** Adding a block whose every overlap is with the removed blocks. *)
Lemma family_add (S : block -> Prop) b :
  family S -> wfb N b -> (forall c, S c -> overlap b c -> c = b) -> family (addb S b).
Proof.
  intros [H1 H2] Hb Ho. split.
  - intros c [?| ->]; auto.
  - intros c d [Hc| ->] [Hd| ->] Hov; auto; [by apply Ho, overlap_sym | symmetry; by apply Ho].
Qed.

Lemma core_take used Fr Al X b :
  Core used N Fr Al X -> Fr b ->
  Core used N (delb Fr b) (addb Al b) (fun q => X q \/ inb b q).
Proof.
  intros HC Hb. split.
  - intros c [[? ?]|[?| ->]]; apply (core_wf _ _ _ _ _ HC); auto.
  - intros c d Hc Hd. apply (core_disj _ _ _ _ _ HC).
    + destruct Hc as [[? ?]|[?| ->]]; auto.
    + destruct Hd as [[? ?]|[?| ->]]; auto.
  - intros c [Hc Hne] [Ha| ->]; [by eapply (core_apart _ _ _ _ _ HC) | done].
  - intros c [Hc _]. by apply (core_uniform _ _ _ _ _ HC).
  - intros q Hq. destruct (core_cover _ _ _ _ _ HC q Hq) as [?|(c & Hc & Hin)]; [by left; left|].
    destruct (decide (c = b)) as [->|]; [by left; right | right; by exists c].
  - intros p k Hk [H1 _] [H2 _]. by apply (core_buddies _ _ _ _ _ HC).
  - intros r q Hr Hq. destruct (core_total _ _ _ _ _ HC r q Hr Hq) as [?|(c & Hc & Hin)]; [by left; left|].
    destruct (decide (c = b)) as [->|]; [by left; right|]. right. exists c. unfold addb, delb. tauto.
Qed.

Lemma wfb_half p a : wfb N (p, S a) -> wfb N (p, a) /\ wfb N (p + bsize a, a).
Proof.
  intros (Hk & Hd & r & Hr & Hlo & Hhi). simpl in *. rewrite bsize_S in Hd, Hhi.
  pose proof (bsize_pos a).
  assert (bsize a | p) by (etrans; [|exact Hd]; exists 2; lia).
  split; (split; [simpl; lia|]); split; simpl.
  - done.
  - exists r. simpl. auto with lia.
  - apply Z.divide_add_r; [done | apply Z.divide_refl].
  - exists r. simpl. auto with lia.
Qed.

(** Nothing else overlaps the block an operation holds. *)
Lemma core_alone used Fr Al X h c :
  Core used N Fr Al X -> Al h -> Fr c \/ delb Al h c -> overlap h c -> False.
Proof.
  intros HC Hh Hc Ho. assert (c = h) as ->.
  { symmetry. apply (core_disj _ _ _ _ _ HC); auto. destruct Hc as [?|[? ?]]; auto. }
  destruct Hc as [Hc|[_ ?]]; [by apply (core_apart _ _ _ _ _ HC _ Hc) | done].
Qed.

Lemma core_rest_family used Fr Al X h :
  Core used N Fr Al X -> family (fun c => Fr c \/ delb Al h c).
Proof.
  intros HC. eapply family_ext; [apply (core_family _ _ _ _ HC)|]. intros c [?|[? ?]]; auto.
Qed.

Lemma split_family used Fr Al X p a :
  Core used N Fr Al X -> Al (p, S a) ->
  family (addb (addb (fun c => Fr c \/ delb Al (p, S a) c) (p, a)) (p + bsize a, a)).
Proof.
  intros HC Hh. pose proof (bsize_pos a) as Hpos. pose proof (bsize_S a) as HS.
  destruct (wfb_half p a) as [W1 W2]; [by apply (core_wf _ _ _ _ _ HC); right|].
  apply family_add; [apply family_add; [by eapply core_rest_family | done |] | done |].
  - intros c Hc Ho. destruct (core_alone _ _ _ _ (p, S a) c HC Hh Hc).
    unfold overlap in *; simpl in *; lia.
  - intros c [Hc| ->] Ho; [destruct (core_alone _ _ _ _ (p, S a) c HC Hh Hc)|];
      unfold overlap in *; simpl in *; lia.
Qed.

(** No free block pairs up with the half that is pushed. *)
Lemma split_buddies used Fr Al X p a p' k :
  Core used N Fr Al X -> Al (p, S a) -> (k < 10)%nat ->
  addb Fr (p + bsize a, a) (p', k) -> addb Fr (p + bsize a, a) (bud p' k, k) ->
  clear used (p', k) -> clear used (bud p' k, k) -> False.
Proof.
  intros HC Hh Hk H1 H2 C1 C2. pose proof (bsize_pos a) as Hpos. pose proof (bsize_S a) as HS.
  assert (wfb N (p, S a)) as W by (apply (core_wf _ _ _ _ _ HC); auto).
  assert (bud p a = p + bsize a) as Hbud by apply bud_low, W.
  assert (bsize a | p) as Hd by apply (wfb_half p a W).
  assert (~ Fr (p, a)) as Hnp.
  { intros Hf. apply (core_alone _ _ _ _ (p, S a) (p, a) HC Hh); auto. unfold overlap; simpl; lia. }
  destruct H1 as [H1|[= -> ->]], H2 as [H2|H2].
  - by apply (core_buddies _ _ _ _ _ HC p' k).
  - injection H2 as H2 ->. apply Hnp. assert (p' = p) as <-; [|done].
    rewrite <- Hbud in H2. rewrite <- (bud_involutive p' a), H2, bud_involutive; auto.
    exact (wfb_aligned _ _ (core_wf _ _ _ _ _ HC _ (or_introl H1))).
  - apply Hnp. rewrite <- Hbud, bud_involutive in H2; auto.
  - injection H2 as H2. rewrite <- Hbud, bud_involutive in H2; auto. lia.
Qed.

Lemma sub_uniform used b c :
  clear used b \/ marked used b -> (forall q, inb c q -> inb b q) -> clear used c \/ marked used c.
Proof. intros [Hu|Hu] Hs; [left|right]; intros q Hq; auto. Qed.

Lemma core_split used Fr Al X p a :
  Core used N Fr Al X -> Al (p, S a) -> (clear used (p, S a) \/ marked used (p, S a)) ->
  Core used N (addb Fr (p + bsize a, a)) (addb (delb Al (p, S a)) (p, a))
    (fun q => X q /\ ~ inb (p + bsize a, a) q).
Proof.
  intros HC Hh Hu. pose proof (bsize_pos a) as Hpos. pose proof (bsize_S a) as HS.
  destruct (split_family _ _ _ _ _ _ HC Hh) as [F1 F2]. split.
  - intros c Hc. apply F1. unfold addb in *. tauto.
  - intros c d Hc Hd. apply F2; unfold addb in *; tauto.
  - intros c [Hc| ->] [[Ha _]|Hp].
    + by apply (core_apart _ _ _ _ _ HC _ Hc).
    + subst. apply (core_alone _ _ _ _ (p, S a) (p, a) HC Hh); auto. unfold overlap; simpl; lia.
    + assert ((p + bsize a, a) = (p, S a)) as [= ? ?]; [|lia].
      apply (core_disj _ _ _ _ _ HC); auto. unfold overlap; simpl; lia.
    + injection Hp. lia.
  - intros c [Hc| ->]; [by apply (core_uniform _ _ _ _ _ HC)|].
    eapply sub_uniform; [exact Hu|]. unfold inb; simpl; lia.
  - intros q Hq. destruct (core_cover _ _ _ _ _ HC q Hq) as [?|(c & Hc & Hin)].
    + destruct (decide (p + bsize a <= 4096 * q < p + bsize a + bsize a)) as [Hin|Hin]; [right|by left].
      exists (p + bsize a, a). split; [by right | done].
    + right. exists c. split; [by left | done].
  - intros p' k. by apply (split_buddies used Fr Al X).
  - intros r q Hr Hq.
    destruct (decide (p + bsize a <= 4096 * q < p + bsize a + bsize a)) as [Hin|Hin].
    { right. exists (p + bsize a, a). unfold addb. auto. }
    destruct (core_total _ _ _ _ _ HC r q Hr Hq) as [?|(c & Hc & Hic)]; [by left|]. right.
    destruct (decide (c = (p, S a))) as [->|Hne].
    + exists (p, a). unfold addb. split; [auto|]. unfold inb in *. simpl in *. lia.
    + exists c. unfold addb, delb. tauto.
Qed.

(** Setting and clearing the bits of the held block. *)
Lemma outside_held used Fr Al X h c q :
  Core used N Fr Al X -> Al h -> Fr c -> inb c q -> inb h q -> False.
Proof.
  intros HC Hh Hc H1 H2. apply (core_alone _ _ _ _ h c HC Hh); auto. by eapply inb_overlap.
Qed.

Lemma core_reuse used used' Fr Al X X' h :
  Core used N Fr Al X -> Al h -> (forall q, ~ inb h q -> used' q = used q) ->
  (forall q, used' q = false -> ~ inb h q -> X q -> X' q) ->
  (forall q, used' q = false -> inb h q -> X' q) ->
  (forall q, X q -> X' q \/ inb h q) ->
  Core used' N Fr Al X'.
Proof.
  intros HC Hh Hout HX1 HX2 HX3.
  assert (forall c q, Fr c -> inb c q -> used' q = used q) as Hsame.
  { intros c q Hc Hq. apply Hout. intros ?. by eapply outside_held. }
  assert (forall c, Fr c -> clear used' c -> clear used c) as Hcl.
  { intros c Hc Hu q Hq. rewrite <- (Hsame c q); auto. }
  split.
  - apply (core_wf _ _ _ _ _ HC).
  - apply (core_disj _ _ _ _ _ HC).
  - apply (core_apart _ _ _ _ _ HC).
  - intros c Hc. destruct (core_uniform _ _ _ _ _ HC c Hc) as [Hu|Hu]; [left|right];
      intros q Hq; rewrite (Hsame c q); auto.
  - intros q Hq. destruct (decide (h.1 <= 4096 * q < h.1 + bsize h.2)) as [Hin|Hin]; [left; auto|].
    rewrite Hout in Hq by done. destruct (core_cover _ _ _ _ _ HC q Hq) as [?|?]; [left|by right].
    apply HX1; auto. by rewrite Hout.
  - intros p k Hk H1 H2 C1 C2. by apply (core_buddies _ _ _ _ _ HC p k); auto.
  - intros r q Hr Hq. destruct (core_total _ _ _ _ _ HC r q Hr Hq) as [Hx|?]; [|by right].
    destruct (HX3 q Hx); [by left|]. right. eauto.
Qed.

(** Handing the held block over to the free set. *)
Lemma core_release used Fr Al X p k :
  Core used N Fr Al X -> Al (p, k) -> (clear used (p, k) \/ marked used (p, k)) ->
  (forall q, X q -> inb (p, k) q) ->
  ((k < 10)%nat -> Fr (bud p k, k) -> clear used (bud p k, k) -> False) ->
  Core used N (addb Fr (p, k)) (delb Al (p, k)) (fun _ => False).
Proof.
  intros HC Hh Hu HX Hb. assert (bsize k | p) as Hd.
  { exact (wfb_aligned _ _ (core_wf _ _ _ _ _ HC _ (or_intror Hh))). }
  split.
  - intros c [[?| ->]|[? ?]]; apply (core_wf _ _ _ _ _ HC); auto.
  - intros c d Hc Hc'. apply (core_disj _ _ _ _ _ HC).
    + destruct Hc as [[?| ->]|[? ?]]; auto.
    + destruct Hc' as [[?| ->]|[? ?]]; auto.
  - intros c [Hc| ->] [Ha Hne]; [by eapply (core_apart _ _ _ _ _ HC) | done].
  - intros c [Hc| ->]; [by apply (core_uniform _ _ _ _ _ HC) | done].
  - intros q Hq. right. destruct (core_cover _ _ _ _ _ HC q Hq) as [?|(c & Hc & Hin)].
    + exists (p, k). split; [by right | auto].
    + exists c. split; [by left | done].
  - intros p' k' Hk [H1|[= -> ->]] [H2|H2] C1 C2.
    + by apply (core_buddies _ _ _ _ _ HC p' k').
    + injection H2 as H2 ->. apply Hb; auto; rewrite <- H2, bud_involutive; auto;
        exact (wfb_aligned _ _ (core_wf _ _ _ _ _ HC _ (or_introl H1))).
    + by apply Hb.
    + injection H2 as H2. pose proof (bsize_pos k). unfold bud in H2. casei_in H2; lia.
  - intros r q Hr Hq. right. destruct (core_total _ _ _ _ _ HC r q Hr Hq) as [Hx|(c & Hc & Hin)].
    + exists (p, k). unfold addb. auto.
    + exists c. unfold addb, delb. destruct (decide (c = (p, k))); tauto.
Qed.

(** ** Coalescing *)

Definition merged (p : Z) (k : nat) : block := (Z.min p (bud p k), S k).

Lemma merged_shape p k : (bsize k | p) ->
  (bsize (S k) | (merged p k).1) /\
  ((merged p k = (p, S k) /\ bud p k = p + bsize k) \/
   (merged p k = (p - bsize k, S k) /\ bud p k = p - bsize k)).
Proof.
  intros Hd. pose proof (bsize_pos k). unfold merged.
  destruct (bud_cases p k Hd) as [[H1 ->]|[H1 ->]]; simpl.
  - rewrite Z.min_l by lia. auto.
  - rewrite Z.min_r by lia. auto.
Qed.

Lemma merged_inb p k q : (bsize k | p) ->
  inb (merged p k) q <-> inb (p, k) q \/ inb (bud p k, k) q.
Proof.
  intros Hd. pose proof (bsize_S k). pose proof (bsize_pos k).
  destruct (merged_shape p k Hd) as [_ [[-> ->]|[-> ->]]]; unfold inb; simpl; lia.
Qed.

Lemma merged_overlap p k c : (bsize k | p) ->
  overlap (merged p k) c -> overlap (p, k) c \/ overlap (bud p k, k) c.
Proof.
  intros Hd. pose proof (bsize_S k). pose proof (bsize_pos k). pose proof (bsize_pos c.2).
  destruct (merged_shape p k Hd) as [_ [[-> ->]|[-> ->]]]; unfold overlap; simpl; lia.
Qed.

Lemma bud_ne p k : bud p k <> p.
Proof. pose proof (bsize_pos k). unfold bud. casei; lia. Qed.

Lemma bud_disjoint p k : (bsize k | p) -> overlap (p, k) (bud p k, k) -> False.
Proof.
  intros Hd. pose proof (bsize_pos k).
  destruct (merged_shape p k Hd) as [_ [[_ ->]|[_ ->]]]; unfold overlap; simpl; lia.
Qed.

(** A clear buddy is on the free list of its order. *)
Lemma buddy_is_free used Fr Al X p k :
  Core used N Fr Al X -> Al (p, k) -> (k < 10)%nat -> (forall q, X q -> inb (p, k) q) ->
  clear used (bud p k, k) -> Fr (bud p k, k).
Proof.
  intros HC Hh Hk HX Hcl. pose proof (bsize_S k) as HS. pose proof (bsize_pos k) as Hpos.
  assert (bsize k | p) as Hd.
  { exact (wfb_aligned _ _ (core_wf _ _ _ _ _ HC _ (or_intror Hh))). }
  destruct (clear_region_covered used N Fr Al X HC k (bud p k)) as ([p' k'] & Hf & Hk' & Hlo & Hhi);
    [lia | by apply bud_aligned | done | |].
  { intros q Hq Hx. apply (bud_disjoint p k Hd). eapply inb_overlap; eauto. }
  simpl in *. assert (bsize k' | p') as Hd'.
  { exact (wfb_aligned _ _ (core_wf _ _ _ _ _ HC _ (or_introl Hf))). }
  destruct (decide (k' = k)) as [->|Hne].
  { replace (bud p k) with p' by lia. done. }
  exfalso. apply (core_alone _ _ _ _ (p, k) (p', k') HC Hh); auto.
  destruct (merged_shape p k Hd) as [Hm Hs].
  assert (p' <= (merged p k).1 /\ (merged p k).1 + bsize (S k) <= p' + bsize k') as Hn.
  { apply (aligned_nest (merged p k).1 (S k) p' k'); auto; [lia|].
    destruct Hs as [[Hs Hb]|[Hs Hb]]; rewrite Hb, Hs in *; unfold overlap; simpl in *; lia. }
  destruct Hs as [[Hs Hb]|[Hs Hb]]; rewrite Hb, Hs in *; unfold overlap; simpl in *; lia.
Qed.

Lemma core_merge used Fr Al X p k :
  Core used N Fr Al X -> Al (p, k) -> Fr (bud p k, k) -> wfb N (merged p k) ->
  Core used N (delb Fr (bud p k, k)) (addb (delb Al (p, k)) (merged p k))
    (fun q => X q \/ inb (merged p k) q).
Proof.
  intros HC Hh Hf Hw. assert (bsize k | p) as Hd.
  { exact (wfb_aligned _ _ (core_wf _ _ _ _ _ HC _ (or_intror Hh))). }
  assert (forall c, delb Fr (bud p k, k) c \/ delb Al (p, k) c -> overlap (merged p k) c -> False) as Hno.
  { intros c Hc Ho. apply merged_overlap in Ho as [Ho|Ho]; [| |done].
    - apply (core_alone _ _ _ _ (p, k) c HC Hh); auto. destruct Hc as [[? ?]|?]; auto.
    - assert ((bud p k, k) = c) as <-.
      { apply (core_disj _ _ _ _ _ HC); auto. destruct Hc as [[? ?]|[? ?]]; auto. }
      destruct Hc as [[_ ?]|[Ha _]]; [done | by apply (core_apart _ _ _ _ _ HC _ Hf)]. }
  assert (family (addb (fun c => delb Fr (bud p k, k) c \/ delb Al (p, k) c) (merged p k))) as [F1 F2].
  { apply family_add; [|done|]; [|intros c Hc Ho; by destruct (Hno c Hc)].
    eapply family_ext; [apply (core_family _ _ _ _ HC)|]. intros c [[? ?]|[? ?]]; auto. }
  split.
  - intros c Hc. apply F1. unfold addb in *. tauto.
  - intros c d Hc Hd'. apply F2; unfold addb in *; tauto.
  - intros c [Hc Hne] [[Ha _]| ->]; [by apply (core_apart _ _ _ _ _ HC _ Hc)|].
    apply (Hno (merged p k)); [by left | apply overlap_refl].
  - intros c [Hc _]. by apply (core_uniform _ _ _ _ _ HC).
  - intros q Hq. destruct (core_cover _ _ _ _ _ HC q Hq) as [?|(c & Hc & Hin)]; [auto|].
    destruct (decide (c = (bud p k, k))) as [->|]; [|right; by exists c].
    left. right. apply merged_inb; auto.
  - intros p' k' Hk [H1 _] [H2 _]. by apply (core_buddies _ _ _ _ _ HC).
  - intros r q Hr Hq. destruct (core_total _ _ _ _ _ HC r q Hr Hq) as [?|(c & Hc & Hin)]; [by left; left|].
    destruct (decide (c = (bud p k, k))) as [->|]; [left; right; apply merged_inb; auto|].
    destruct (decide (c = (p, k))) as [->|]; [left; right; apply merged_inb; auto|].
    right. exists c. unfold addb, delb. tauto.
Qed.

(** The merged block stays in the range that holds both halves. *)
Lemma wfb_merged r p k :
  disjoint_ranges N -> Forall range_ok N -> (k < 10)%nat ->
  r ∈ N -> (bsize k | p) -> r.1 <= p -> p + bsize k <= r.2 ->
  r.1 <= bud p k < r.2 -> wfb N (bud p k, k) -> wfb N (merged p k).
Proof.
  intros HN HR Hk Hr Hd H1 H2 H3 (_ & _ & r' & Hr' & H4 & H5). simpl in *.
  assert (r' = r) as ->.
  { apply list_elem_of_lookup in Hr as [i Hi], Hr' as [j Hj].
    destruct (decide (i = j)) as [->|Hne]; [congruence|].
    pose proof (bsize_pos k). destruct (HN i j r r' Hi Hj Hne); lia. }
  pose proof (bsize_S k). destruct (merged_shape p k Hd) as [Hm Hs].
  split; [simpl; lia|]. split; [done|]. exists r. split; [done|].
  destruct Hs as [[-> Hb]|[-> Hb]]; rewrite Hb in *; simpl; lia.
Qed.

(** Handing out a new, marked block to the free set. *)
Lemma core_add used Fr Al X b :
  Core used N Fr Al X -> wfb N b -> marked used b ->
  (forall c, Fr c \/ Al c -> ~ overlap b c) ->
  Core used N (addb Fr b) Al (fun q => X q /\ ~ inb b q).
Proof.
  intros HC Hw Hm Hno.
  assert (family (addb (fun c => Fr c \/ Al c) b)) as [F1 F2].
  { apply family_add; [by eapply core_family | done |]. intros c Hc Ho. by destruct (Hno c Hc). }
  split.
  - intros c Hc. apply F1. unfold addb in *. tauto.
  - intros c d Hc Hd. apply F2; unfold addb in *; tauto.
  - intros c [Hc| ->] Ha; [by apply (core_apart _ _ _ _ _ HC c)|].
    apply (Hno b); [by right | apply overlap_refl].
  - intros c [Hc| ->]; [by apply (core_uniform _ _ _ _ _ HC) | by right].
  - intros q Hq. destruct (core_cover _ _ _ _ _ HC q Hq) as [?|(c & Hc & Hin)].
    { left. split; [done|]. intros Hin. by rewrite (Hm q Hin) in Hq. }
    right. exists c. split; [by left | done].
  - intros p k Hk H1 H2 C1 C2.
    assert (forall c, addb Fr b c -> clear used c -> (bsize c.2 | c.1) -> Fr c) as Hold.
    { intros c [?| ->] Hc Hd; [done|]. destruct (first_page b Hd) as [Hin _].
      specialize (Hc _ Hin). by rewrite (Hm _ Hin) in Hc. }
    assert (bsize k | p) as Hd.
    { destruct H1 as [H1|[= <-]]; [|by destruct Hw as (_ & ? & _)].
      exact (wfb_aligned _ _ (core_wf _ _ _ _ _ HC _ (or_introl H1))). }
    apply (core_buddies _ _ _ _ _ HC p k); auto. apply Hold; auto. by apply bud_aligned.
  - intros r q Hr Hq. destruct (decide (b.1 <= 4096 * q < b.1 + bsize b.2)) as [Hin|Hin].
    { right. exists b. unfold addb. auto. }
    destruct (core_total _ _ _ _ _ HC r q Hr Hq) as [?|(c & Hc & Hic)]; [by left|].
    right. exists c. unfold addb. tauto.
Qed.

Lemma core_ext used used' Fr Fr' Al Al' X X' :
  Core used N Fr Al X -> (forall q, used' q = used q) -> (forall b, Fr' b <-> Fr b) ->
  (forall b, Al' b <-> Al b) -> (forall q, X q -> X' q) -> Core used' N Fr' Al' X'.
Proof.
  intros HC Hu HF HA HX.
  assert (forall b, clear used' b <-> clear used b) as Hc.
  { intros b. unfold clear. by setoid_rewrite Hu. }
  assert (forall b, marked used' b <-> marked used b) as Hm.
  { intros b. unfold marked. by setoid_rewrite Hu. }
  split.
  - intros b. rewrite HF, HA. apply (core_wf _ _ _ _ _ HC).
  - intros b c. rewrite !HF, !HA. apply (core_disj _ _ _ _ _ HC).
  - intros b. rewrite HF, HA. apply (core_apart _ _ _ _ _ HC).
  - intros b. rewrite HF, Hc, Hm. apply (core_uniform _ _ _ _ _ HC).
  - intros q. rewrite Hu. intros Hq. setoid_rewrite HF.
    destruct (core_cover _ _ _ _ _ HC q Hq) as [?|?]; auto.
  - intros p k. rewrite !HF, !Hc. apply (core_buddies _ _ _ _ _ HC).
  - intros r q Hr Hq. setoid_rewrite HF. setoid_rewrite HA.
    destruct (core_total _ _ _ _ _ HC r q Hr Hq) as [?|?]; auto.
Qed.

End transitions.

Lemma core_more_ranges used N r Fr Al X :
  Core used N Fr Al X ->
  Core used (N ++ [r]) Fr Al (fun q => X q \/ r.1 <= 4096 * q < r.2).
Proof.
  intros HC. split; try apply HC.
  - intros b Hb. destruct (core_wf _ _ _ _ _ HC b Hb) as (? & ? & r' & ? & ?).
    split; [done|]. split; [done|]. exists r'. split; [apply elem_of_app; by left | done].
  - intros q Hq. destruct (core_cover _ _ _ _ _ HC q Hq) as [?|?]; auto.
  - intros r' q [Hr| ->%list_elem_of_singleton]%elem_of_app Hq; [|auto].
    destruct (core_total _ _ _ _ _ HC r' q Hr Hq) as [?|?]; auto.
Qed.

End Buddy.
