(* ===== verification/Pmm.v ===== *)
(** * mm/pmm.c: the binary buddy allocator of physical pages

    The data and every operation of mm/pmm.c, at pointer level: a free block
    stores its [next]/[prev] links in the page itself (words [b] and [b + 8] of
    the direct map), the nodes hold the list heads per order, and the bitmap is
    the byte array at [pmm_bitmap].  The bodies between [spin_lock] and
    [spin_unlock] are translated as single steps. *)

From S2P Require Import Prelude.

Module Pmm.

Definition PMM_MAX_ORDER : Z := 10.
Definition PMM_MAX_NODES : Z := 8.

(** [struct pmm_node]; [free] has [PMM_MAX_ORDER + 1] list heads (virtual
    addresses, 0 is NULL). *)
Record pmm_node := mk_node {
  free : list Z;
  free_pages : Z;
  total_pages : Z;
  base : Z;
  limit : Z
}.

Definition zero_node : pmm_node := mk_node (replicate 11 0) 0 0 0 0.

(** The file's static state, and the memory it writes its links to.
    [pmm_bitmap] is [None] for a NULL pointer, else the bytes it points to. *)
Record pmm := mk_pmm {
  mem : memory;
  pmm_nodes : list pmm_node;
  pmm_nnodes : Z;
  g_total_ram_pages : Z;
  g_free_ram_pages : Z;
  pmm_bitmap : option (Z -> Z);
  pmm_bitmap_pages : Z;
  pmm_total_pages : Z
}.

Definition with_mem (s : pmm) (m : memory) : pmm :=
  mk_pmm m (pmm_nodes s) (pmm_nnodes s) (g_total_ram_pages s) (g_free_ram_pages s)
    (pmm_bitmap s) (pmm_bitmap_pages s) (pmm_total_pages s).
Definition with_node (s : pmm) (i : nat) (nd : pmm_node) : pmm :=
  mk_pmm (mem s) (<[i := nd]> (pmm_nodes s)) (pmm_nnodes s) (g_total_ram_pages s)
    (g_free_ram_pages s) (pmm_bitmap s) (pmm_bitmap_pages s) (pmm_total_pages s).
Definition with_g_free (s : pmm) (x : Z) : pmm :=
  mk_pmm (mem s) (pmm_nodes s) (pmm_nnodes s) (g_total_ram_pages s) x
    (pmm_bitmap s) (pmm_bitmap_pages s) (pmm_total_pages s).
Definition with_bitmap (s : pmm) (b : option (Z -> Z)) : pmm :=
  mk_pmm (mem s) (pmm_nodes s) (pmm_nnodes s) (g_total_ram_pages s) (g_free_ram_pages s)
    b (pmm_bitmap_pages s) (pmm_total_pages s).
Definition set_head (nd : pmm_node) (ord : nat) (b : Z) : pmm_node :=
  mk_node (<[ord := b]> (free nd)) (free_pages nd) (total_pages nd) (base nd) (limit nd).
Definition set_free_pages (nd : pmm_node) (x : Z) : pmm_node :=
  mk_node (free nd) x (total_pages nd) (base nd) (limit nd).

Definition head (nd : pmm_node) (ord : nat) : Z := nth ord (free nd) 0.
Definition node (s : pmm) (i : nat) : pmm_node := nth i (pmm_nodes s) zero_node.

(** ** Bitmap *)

Definition bitmap_bound (s : pmm) : Z := u64 (u64 (pmm_bitmap_pages s * PAGE_SIZE) * 8).

Definition bitmap_set (s : pmm) (pfn : Z) : pmm :=
  match pmm_bitmap s with
  | None => s
  | Some bm =>
      if bitmap_bound s <=? pfn then s
      else with_bitmap s (Some (fun i =>
             if i =? pfn / 8 then Z.lor (bm i) (u8 (shl32 1 (pfn mod 8))) else bm i))
  end.

Definition bitmap_clear (s : pmm) (pfn : Z) : pmm :=
  match pmm_bitmap s with
  | None => s
  | Some bm =>
      if bitmap_bound s <=? pfn then s
      else with_bitmap s (Some (fun i =>
             if i =? pfn / 8 then Z.land (bm i) (u8 (not32 (shl32 1 (pfn mod 8)))) else bm i))
  end.

Definition bitmap_test (s : pmm) (pfn : Z) : bool :=
  match pmm_bitmap s with
  | None => true
  | Some bm =>
      if bitmap_bound s <=? pfn then true
      else truthy (Z.land (Z.shiftr (bm (pfn / 8)) (pfn mod 8)) 1)
  end.

(** [for (k = 0; k < n; k++) bitmap_set(pfn + k)] and the clearing loop. *)
Fixpoint bitmap_set_range (s : pmm) (pfn : Z) (n : nat) : pmm :=
  match n with
  | O => s
  | S n' => bitmap_set_range (bitmap_set s pfn) (u64 (pfn + 1)) n'
  end.
Fixpoint bitmap_clear_range (s : pmm) (pfn : Z) (n : nat) : pmm :=
  match n with
  | O => s
  | S n' => bitmap_clear_range (bitmap_clear s pfn) (u64 (pfn + 1)) n'
  end.

(** The [buddy_free] scan: stop at the first page whose bit is set. *)
Fixpoint range_is_free (s : pmm) (pfn : Z) (n : nat) : bool :=
  match n with
  | O => true
  | S n' => if bitmap_test s pfn then false else range_is_free s (u64 (pfn + 1)) n'
  end.

(** ** Free lists: [b->next] is the word at [b], [b->prev] the word at [b + 8] *)

Definition fl_push (s : pmm) (i ord : nat) (pa : Z) : pmm :=
  let nd := node s i in
  let b := phys_to_virt pa in
  let m := mwrite (mem s) b (head nd ord) in
  let m := mwrite m (b + 8) 0 in
  let m := if truthy (head nd ord) then mwrite m (head nd ord + 8) b else m in
  with_node (with_mem s m) i (set_head nd ord b).

Definition fl_pop (s : pmm) (i ord : nat) : pmm * Z :=
  let nd := node s i in
  let b := head nd ord in
  if b =? 0 then (s, 0)
  else
    let nxt := mread (mem s) b in
    let nd' := set_head nd ord nxt in
    let m := if truthy nxt then mwrite (mem s) (nxt + 8) 0 else mem s in
    (with_node (with_mem s m) i nd', virt_to_phys b).

Definition fl_remove (s : pmm) (i ord : nat) (pa : Z) : pmm :=
  let nd := node s i in
  let b := phys_to_virt pa in
  let nxt := mread (mem s) b in
  let prv := mread (mem s) (b + 8) in
  let s1 := if truthy prv then with_mem s (mwrite (mem s) prv nxt)
            else with_node s i (set_head nd ord nxt) in
  let nxt' := mread (mem s1) b in
  if truthy nxt'
  then with_mem s1 (mwrite (mem s1) (nxt' + 8) (mread (mem s1) (b + 8)))
  else s1.

(** ** Buddies and nodes *)

Definition buddy_of (pa : Z) (ord : nat) (node_base : Z) : Z :=
  let offset := (u64 (pa - node_base)) in
  let size := shl64 PAGE_SIZE (Z.of_nat ord) in
  (u64 (node_base + Z.lxor offset size)).

Fixpoint node_of_from (s : pmm) (pa : Z) (i fuel : nat) : option nat :=
  match fuel with
  | O => None
  | S f =>
      if (base (node s i) <=? pa) && (pa <? limit (node s i)) then Some i
      else node_of_from s pa (S i) f
  end.
Definition pmm_node_of (s : pmm) (pa : Z) : option nat :=
  node_of_from s pa 0 (Z.to_nat (pmm_nnodes s)).

(** ** Allocation *)

(** [while (avail <= PMM_MAX_ORDER && !nd->free[avail]) avail++];
    at most [11 - ord] iterations, so that much fuel reaches the exit test. *)
Fixpoint find_avail (nd : pmm_node) (avail fuel : nat) : nat :=
  match fuel with
  | O => avail
  | S f => if head nd avail =? 0 then find_avail nd (S avail) f else avail
  end.

(** [while (avail > ord) { avail--; fl_push(nd, avail, pa + (PAGE_SIZE << avail)); }] *)
Fixpoint split_down (s : pmm) (i : nat) (pa : Z) (ord avail : nat) : pmm :=
  match avail with
  | O => s
  | S a =>
      if (ord <=? a)%nat
      then split_down (fl_push s i a (u64 (pa + shl64 PAGE_SIZE (Z.of_nat a)))) i pa ord a
      else s
  end.

(** The body of the node loop once a non-empty order was found. *)
Definition alloc_from (s : pmm) (i ord avail : nat) : pmm * Z :=
  let (s1, pa) := fl_pop s i avail in
  let s2 := split_down s1 i pa ord avail in
  let nd := node s2 i in
  let s3 := with_node s2 i (set_free_pages nd (u64 (free_pages nd - 2 ^ Z.of_nat ord))) in
  let s4 := bitmap_set_range s3 (pa / PAGE_SIZE) (2 ^ ord)%nat in
  (with_g_free s4 (u64 (g_free_ram_pages s4 - 2 ^ Z.of_nat ord)), pa).

Fixpoint alloc_loop (s : pmm) (ord i fuel : nat) : pmm * Z :=
  match fuel with
  | O => (s, 0)
  | S f =>
      let avail := find_avail (node s i) ord (11 - ord) in
      if (10 <? avail)%nat then alloc_loop s ord (S i) f
      else alloc_from s i ord avail
  end.

Definition pmm_alloc_pages (s : pmm) (ord : Z) : pmm * Z :=
  if (ord <? 0) || (PMM_MAX_ORDER <? ord) then (s, 0)
  else alloc_loop s (Z.to_nat ord) 0 (Z.to_nat (pmm_nnodes s)).

Definition pmm_alloc_page (s : pmm) : pmm * Z := pmm_alloc_pages s 0.

(** ** Release *)

(** The coalescing loop: [ord] climbs to at most [PMM_MAX_ORDER], so
    [10 - ord] iterations suffice. *)
Fixpoint coalesce (s : pmm) (i : nat) (pa : Z) (ord fuel : nat) : pmm * Z * nat :=
  match fuel with
  | O => (s, pa, ord)
  | S f =>
      let nd := node s i in
      let buddy := buddy_of pa ord (base nd) in
      if (buddy <? base nd) || (limit nd <=? buddy) then (s, pa, ord)
      else if negb (range_is_free s (buddy / PAGE_SIZE) (2 ^ ord)%nat) then (s, pa, ord)
      else coalesce (fl_remove s i ord buddy) i (MIN pa buddy) (S ord) f
  end.

Definition free_into (s : pmm) (i : nat) (pa : Z) (ord : nat) : pmm :=
  let s1 := bitmap_clear_range s (pa / PAGE_SIZE) (2 ^ ord)%nat in
  let '(s2, pa', ord') := coalesce s1 i pa ord (10 - ord) in
  let s3 := fl_push s2 i ord' pa' in
  let nd := node s3 i in
  let s4 := with_node s3 i (set_free_pages nd (u64 (free_pages nd + 2 ^ Z.of_nat ord'))) in
  with_g_free s4 (u64 (g_free_ram_pages s4 + 2 ^ Z.of_nat ord')).

Definition pmm_free_pages (s : pmm) (pa ord : Z) : pmm :=
  if (pa =? 0) || (ord <? 0) || (PMM_MAX_ORDER <? ord) then s
  else match pmm_node_of s pa with
       | None => s
       | Some i => free_into s i pa (Z.to_nat ord)
       end.

Definition pmm_free_page (s : pmm) (pa : Z) : pmm := pmm_free_pages s pa 0.

(** ** Regions *)

(** [while (ord > 0 && ((pa & (size - 1)) || pa + size > end)) { ord--; size >>= 1; }] *)
Fixpoint fit_order (pa end_ : Z) (ord : nat) : nat :=
  let size := shl64 PAGE_SIZE (Z.of_nat ord) in
  match ord with
  | O => O
  | S o =>
      if truthy (Z.land pa (u64 (size - 1))) || (end_ <? (u64 (pa + size)))
      then fit_order pa end_ o else ord
  end.

(** The carving loop; every round advances by at least a page, so
    [(end - start) / PAGE_SIZE] rounds reach [end]. *)
Fixpoint add_blocks (s : pmm) (i : nat) (pa end_ : Z) (fuel : nat) : pmm :=
  match fuel with
  | O => s
  | S f =>
      if pa <? end_ then
        let ord := fit_order pa end_ 10 in
        let s1 := fl_push s i ord pa in
        let nd := node s1 i in
        let s2 := with_node s1 i (set_free_pages nd (u64 (free_pages nd + 2 ^ Z.of_nat ord))) in
        add_blocks s2 i (u64 (pa + shl64 PAGE_SIZE (Z.of_nat ord))) end_ f
      else s
  end.

Definition PMM_RESERVED : Z := 0x1000000.

(** [nd->total_pages += pages; g_total_ram_pages += pages; pmm_total_pages += pages;]
    then the carving loop and [g_free_ram_pages = nd->free_pages]. *)
Definition fill_node (s : pmm) (i : nat) (start end_ : Z) : pmm :=
  let pages := (u64 (end_ - start)) / PAGE_SIZE in
  let nd := node s i in
  let nd' := mk_node (free nd) (free_pages nd) (u64 (total_pages nd + pages)) (base nd) (limit nd) in
  let s1 := mk_pmm (mem s) (<[i := nd']> (pmm_nodes s)) (pmm_nnodes s)
              (u64 (g_total_ram_pages s + pages)) (g_free_ram_pages s) (pmm_bitmap s)
              (pmm_bitmap_pages s) (u64 (pmm_total_pages s + pages)) in
  let s2 := add_blocks s1 i start end_ (Z.to_nat pages) in
  with_g_free s2 (free_pages (node s2 i)).

Definition pmm_add_region (s : pmm) (base_ length_ : Z) : pmm :=
  let start := ALIGN base_ PAGE_SIZE in
  let end_ := ALIGN_DOWN (u64 (base_ + length_)) PAGE_SIZE in
  if end_ <=? start then s
  else
    let start := if start <? PMM_RESERVED then PMM_RESERVED else start in
    if end_ <=? start then s
    else match pmm_node_of s start with
         | None =>
             if PMM_MAX_NODES <=? pmm_nnodes s then s
             else
               let i := Z.to_nat (pmm_nnodes s) in
               let nd := node s i in
               let s1 := mk_pmm (mem s)
                           (<[i := mk_node (free nd) (free_pages nd) (total_pages nd) start end_]>
                              (pmm_nodes s))
                           (u32 (pmm_nnodes s + 1)) (g_total_ram_pages s) (g_free_ram_pages s)
                           (pmm_bitmap s) (pmm_bitmap_pages s) (pmm_total_pages s) in
               fill_node s1 i start end_
         | Some i =>
             let nd := node s i in
             let nd' := if limit nd <? end_
                        then mk_node (free nd) (free_pages nd) (total_pages nd) (base nd) end_
                        else nd in
             fill_node (with_node s i nd') i start end_
         end.

(** [pmm_init]: [old] is what the bytes from [phys_to_virt(bitmap_pa)] on held
    before; the [memset] sets the first [bitmap_size] of them to 0xFF. *)
Definition pmm_init (s : pmm) (old : Z -> Z) (bitmap_pa bitmap_size : Z) : pmm :=
  let bm := fun i => if (0 <=? i) && (i <? bitmap_size) then 0xFF else old i in
  mk_pmm (mem s) (pmm_nodes s) 0 0 0
    (if phys_to_virt bitmap_pa =? 0 then None else Some bm)
    (ALIGN bitmap_size PAGE_SIZE / PAGE_SIZE) (pmm_total_pages s).

Definition pmm_stats (s : pmm) : Z * Z := (g_total_ram_pages s, g_free_ram_pages s).

(** The state before [pmm_init]: zeroed static storage. *)
Definition pmm_bss : pmm := mk_pmm ∅ (replicate 8 zero_node) 0 0 0 None 0 0.

End Pmm.
