(* ===== verification/PmmLists.v ===== *)
(** * Free lists of mm/pmm.c: representation and refinement

    [dll] relates the links stored in the free pages to the list of physical
    addresses they denote.  [fl_push], [fl_pop] and [fl_remove] are shown to be
    cons, tail and removal on those lists, with every other list of every node
    untouched. *)

From S2P Require Import Prelude Buddy Pmm.
Import Pmm.

Module PmmLists.

Abbreviation va := phys_to_virt.

(** A page the direct map can address: above the reserved 16 MB, below 2 GB. *)
Definition ok_pa (pa : Z) : Prop := 0x1000000 <= pa < 2 ^ 31 /\ (4096 | pa).

Lemma va_ok pa : ok_pa pa -> va pa = pa + KERNEL_VIRT_BASE.
Proof. intros [? _]. unfold phys_to_virt, KERNEL_VIRT_BASE. apply u64_small. lia. Qed.

Lemma va_nonzero pa : ok_pa pa -> va pa <> 0.
Proof. intros H. rewrite va_ok by done. destruct H. unfold KERNEL_VIRT_BASE. lia. Qed.

Lemma va_truthy pa : ok_pa pa -> truthy (va pa) = true.
Proof. intros H. unfold truthy. apply negb_true_iff, Z.eqb_neq. by apply va_nonzero. Qed.

Lemma va_phys pa : ok_pa pa -> virt_to_phys (va pa) = pa.
Proof.
  intros H. rewrite va_ok by done. destruct H. unfold virt_to_phys.
  rewrite Z.add_simpl_r. apply u64_small. lia.
Qed.

(** Words of distinct pages are distinct. *)
Lemma va_apart x y : ok_pa x -> ok_pa y -> x <> y ->
  va x <> va y /\ va x <> va y + 8 /\ va x + 8 <> va y /\ va x + 8 <> va y + 8.
Proof.
  intros Hx Hy Hne. rewrite !va_ok by done. destruct Hx as [_ [a ->]], Hy as [_ [b ->]]. lia.
Qed.

(** ** The representation predicate *)

Fixpoint dll (m : memory) (prv : Z) (l : list Z) (hd : Z) : Prop :=
  match l with
  | [] => hd = 0
  | pa :: l' => hd = va pa /\ mread m (va pa + 8) = prv /\ dll m (va pa) l' (mread m (va pa))
  end.

(** Addresses a list occupies. *)
Definition fp (l : list Z) (a : Z) : Prop := exists x, x ∈ l /\ (a = va x \/ a = va x + 8).

Lemma dll_frame m m' prv l hd :
  (forall a, fp l a -> mread m' a = mread m a) -> dll m prv l hd -> dll m' prv l hd.
Proof.
  revert prv hd. induction l as [|x l IH]; intros prv hd Hf; simpl; [done|].
  intros (-> & H1 & H2).
  rewrite !Hf by (exists x; set_solver). split; [done|]. split; [done|].
  apply IH; [|done]. intros a (y & Hy & Ha). apply Hf. exists y. set_solver.
Qed.

Lemma dll_write_out m prv l hd a v :
  dll m prv l hd -> ~ fp l a -> dll (mwrite m a v) prv l hd.
Proof.
  intros H Hn. eapply dll_frame; [|exact H]. intros b Hb. apply mread_mwrite_ne. intros ->. done.
Qed.

Lemma fp_out x l : ok_pa x -> Forall ok_pa l -> x ∉ l -> ~ fp l (va x) /\ ~ fp l (va x + 8).
Proof.
  intros Hx Hl Hni. rewrite Forall_forall in Hl.
  split; intros (y & Hy & Ha); pose proof (Hl y Hy) as Hoy;
    assert (x <> y) as Hne by set_solver; pose proof (va_apart x y Hx Hoy Hne); lia.
Qed.

Lemma dll_head_prev m prv p x l hd :
  dll m prv (x :: l) hd -> Forall ok_pa (x :: l) -> NoDup (x :: l) ->
  dll (mwrite m (va x + 8) p) p (x :: l) hd.
Proof.
  intros (-> & H1 & H2) Hok [Hni Hnd]%NoDup_cons. apply Forall_cons in Hok as [Hx Hl].
  simpl. rewrite mread_mwrite_eq, mread_mwrite_ne by lia. split; [done|]. split; [done|].
  apply dll_write_out; [done|]. by apply fp_out.
Qed.

(** The memory [fl_push] leaves behind. *)
Definition push_mem (m : memory) (b hd : Z) : memory :=
  let m := mwrite (mwrite m b hd) (b + 8) 0 in
  if truthy hd then mwrite m (hd + 8) b else m.

Lemma dll_push m pa l hd :
  dll m 0 l hd -> Forall ok_pa (pa :: l) -> NoDup (pa :: l) ->
  dll (push_mem m (va pa) hd) 0 (pa :: l) (va pa).
Proof.
  intros Hd Hok [Hni Hnd]%NoDup_cons. apply Forall_cons in Hok as [Hpa Hl].
  destruct (fp_out pa l Hpa Hl Hni) as [F1 F2].
  assert (dll (mwrite (mwrite m (va pa) hd) (va pa + 8) 0) 0 l hd) as Hd'.
  { by apply dll_write_out; [apply dll_write_out|]. }
  unfold push_mem. destruct l as [|x l].
  - simpl in Hd. subst hd. simpl.
    by rewrite mread_mwrite_eq, mread_mwrite_ne, mread_mwrite_eq by lia.
  - destruct Hd as (-> & _). apply Forall_cons in Hl as [Hx Hl].
    rewrite va_truthy by done. assert (pa <> x) as Hne by set_solver.
    pose proof (va_apart pa x Hpa Hx Hne).
    split; [done|]. split; [by rewrite mread_mwrite_ne, mread_mwrite_eq by lia|].
    rewrite mread_mwrite_ne, mread_mwrite_ne, mread_mwrite_eq by lia.
    eapply dll_head_prev; eauto.
Qed.

Lemma push_mem_out m b hd a :
  a <> b -> a <> b + 8 -> (hd = 0 \/ a <> hd + 8) -> mread (push_mem m b hd) a = mread m a.
Proof.
  intros H1 H2 H3. unfold push_mem, truthy.
  destruct (Z.eqb_spec hd 0); simpl; rewrite ?mread_mwrite_ne by lia; done.
Qed.

(** Unlinking [pa] from the middle of a list: the memory [fl_remove] leaves. *)
Definition unlink_mem (m : memory) (at_head : bool) (p n : Z) : memory :=
  let m1 := if at_head then m else mwrite m p n in
  if truthy n then mwrite m1 (n + 8) p else m1.

Fixpoint last_va (prv : Z) (l : list Z) : Z :=
  match l with [] => prv | x :: l' => last_va (va x) l' end.

Lemma last_va_in prv x l : exists y, y ∈ x :: l /\ last_va prv (x :: l) = va y.
Proof.
  revert prv x. induction l as [|z l IH]; intros prv x.
  - exists x. split; [apply list_elem_of_here | done].
  - destruct (IH (va x) z) as (y & Hy & He). exists y. split; [by apply list_elem_of_further | done].
Qed.

Lemma dll_at m prv l1 pa l2 hd :
  dll m prv (l1 ++ pa :: l2) hd ->
  mread m (va pa + 8) = last_va prv l1 /\ dll m (va pa) l2 (mread m (va pa)) /\
  (l1 = [] -> hd = va pa).
Proof.
  revert prv hd. induction l1 as [|x l1 IH]; intros prv hd; simpl.
  - intros (-> & H1 & H2). auto.
  - intros (-> & H1 & H2). destruct (IH _ _ H2) as (H3 & H4 & _). split; [|done].
    by rewrite H3.
Qed.

Lemma dll_next_cases m p l n : dll m p l n -> Forall ok_pa l ->
  (l = [] /\ n = 0 /\ truthy n = false) \/
  (exists y l', l = y :: l' /\ n = va y /\ truthy n = true).
Proof.
  destruct l as [|y l]; simpl; [intros ->; auto|].
  intros (-> & _) [Hy _]%Forall_cons. right. exists y, l. by rewrite va_truthy.
Qed.

Definition is_nil {A} (l : list A) : bool := match l with [] => true | _ => false end.

(** Unlinking at the head: only the successor's [prev] changes. *)
Lemma dll_unlink_head m prv pa l2 hd :
  dll m prv (pa :: l2) hd -> Forall ok_pa (pa :: l2) -> NoDup (pa :: l2) ->
  dll (unlink_mem m true prv (mread m (va pa))) prv l2 (mread m (va pa)).
Proof.
  intros (-> & H1 & H2) Hok Hnd. apply Forall_cons in Hok as [Hpa Hok].
  apply NoDup_cons in Hnd as [_ Hnd]. unfold unlink_mem.
  destruct (dll_next_cases _ _ _ _ H2 Hok) as [(-> & Hn & ->)|(y & l' & -> & Hn & ->)].
  - simpl. congruence.
  - rewrite Hn in *. eapply dll_head_prev; eauto.
Qed.

Lemma unlink_mem_out m h p n a :
  (h = false -> a <> p) -> (n = 0 \/ a <> n + 8) -> mread (unlink_mem m h p n) a = mread m a.
Proof.
  intros H1 H2. unfold unlink_mem, truthy.
  destruct (Z.eqb_spec n 0), h; simpl; rewrite ?mread_mwrite_ne by (intuition lia); done.
Qed.

Lemma dll_unlink m prv l1 pa l2 hd :
  dll m prv (l1 ++ pa :: l2) hd -> Forall ok_pa (l1 ++ pa :: l2) -> NoDup (l1 ++ pa :: l2) ->
  dll (unlink_mem m (is_nil l1) (last_va prv l1) (mread m (va pa))) prv (l1 ++ l2)
    (if is_nil l1 then mread m (va pa) else hd).
Proof.
  revert prv hd. induction l1 as [|x l1 IH]; intros prv hd Hd Hok Hnd.
  { simpl in *. eapply dll_unlink_head; eauto. }
  simpl in Hd. destruct Hd as (-> & H1 & H2).
  simpl in Hok, Hnd. apply Forall_cons in Hok as [Hx Hok]. apply NoDup_cons in Hnd as [Hni Hnd].
  specialize (IH _ _ H2 Hok Hnd). simpl.
  destruct (dll_at _ _ _ _ _ _ H2) as (_ & H3 & Hhd).
  apply Forall_app in Hok as [Hok1 Hok2]. apply Forall_cons in Hok2 as [Hpa Hok2].
  assert (mread m (va pa) = 0 \/ exists y, y ∈ l2 /\ ok_pa y /\ mread m (va pa) = va y) as Hn.
  { destruct (dll_next_cases _ _ _ _ H3 Hok2) as [(_ & ? & _)|(y & l' & -> & ? & _)]; [by left|].
    right. exists y. apply Forall_cons in Hok2 as [? _]. split; [apply list_elem_of_here | done]. }
  assert (mread m (va pa) = 0 \/ (va x <> mread m (va pa) + 8 /\ va x + 8 <> mread m (va pa) + 8)) as Hsep.
  { destruct Hn as [?|(y & Hy & Hoy & ->)]; [by left|right].
    pose proof (va_apart x y Hx Hoy). assert (x <> y) by (intros ->; apply Hni; set_solver). lia. }
  destruct l1 as [|z l1].
  - simpl in *. rewrite unlink_mem_out by lia. split; [done|]. split; [done|].
    assert (mread (unlink_mem m false (va x) (mread m (va pa))) (va x) = mread m (va pa)) as ->.
    { unfold unlink_mem, truthy. destruct (Z.eqb_spec (mread m (va pa)) 0); simpl;
        [by rewrite mread_mwrite_eq | by rewrite mread_mwrite_ne, mread_mwrite_eq by lia]. }
    eapply dll_frame; [|exact IH]. intros a Ha. unfold unlink_mem.
    assert (a <> va x) by (intros ->; revert Ha; apply fp_out; auto; set_solver).
    destruct (truthy _); rewrite ?mread_mwrite; [|by rewrite (proj2 (Z.eqb_neq _ _))].
    destruct (_ =? a); [done|]. by rewrite (proj2 (Z.eqb_neq (va x) a)).
  - destruct (last_va_in (va x) z l1) as (y & Hy & Hly).
    assert (ok_pa y) as Hoy by (rewrite Forall_forall in Hok1; auto).
    assert (x <> y) as Hne by (intros ->; apply Hni; set_solver).
    pose proof (va_apart x y Hx Hoy Hne).
    simpl in *. rewrite Hly in *. rewrite !unlink_mem_out by lia. auto.
Qed.

(** ** State-level statements *)

Lemma node_with_node s i nd j :
  (i < length (pmm_nodes s))%nat ->
  node (with_node s i nd) j = if decide (i = j) then nd else node s j.
Proof.
  intros Hi. unfold node. simpl. rewrite !nth_lookup, list_lookup_insert.
  repeat case_decide; try done; exfalso; intuition lia.
Qed.

Lemma head_set_head nd k b k' :
  (k < length (free nd))%nat ->
  head (set_head nd k b) k' = if decide (k = k') then b else head nd k'.
Proof.
  intros Hk. unfold head. simpl. rewrite !nth_lookup, list_lookup_insert.
  repeat case_decide; try done; exfalso; intuition lia.
Qed.

(** Free lists by node and order. *)
Abbreviation lists := (nat -> nat -> list Z).
Definition upd (F : lists) (i k : nat) (l : list Z) : lists :=
  fun i' k' => if decide (i' = i /\ k' = k) then l else F i' k'.

Lemma upd_eq F i k l : upd F i k l i k = l.
Proof. unfold upd. by rewrite decide_True. Qed.
Lemma upd_ne F i k l i' k' : ~ (i' = i /\ k' = k) -> upd F i k l i' k' = F i' k'.
Proof. intros. unfold upd. by rewrite decide_False. Qed.

Definition nn (s : pmm) : nat := Z.to_nat (pmm_nnodes s).

Record lists_ok (s : pmm) (F : lists) : Prop := {
  lo_nodes : length (pmm_nodes s) = 8%nat /\ (nn s <= 8)%nat;
  lo_free : forall i, (i < nn s)%nat -> length (free (node s i)) = 11%nat;
  lo_dll : forall i k, (i < nn s)%nat -> (k <= 10)%nat -> dll (mem s) 0 (F i k) (head (node s i) k);
  lo_ok : forall i k pa, (i < nn s)%nat -> (k <= 10)%nat -> pa ∈ F i k ->
    ok_pa pa /\ base (node s i) <= pa < limit (node s i);
  lo_nodup : forall i k, (i < nn s)%nat -> (k <= 10)%nat -> NoDup (F i k);
  lo_uniq : forall i k i' k' pa, (i < nn s)%nat -> (k <= 10)%nat -> (i' < nn s)%nat -> (k' <= 10)%nat ->
    pa ∈ F i k -> pa ∈ F i' k' -> i = i' /\ k = k'
}.

Lemma lo_forall s F i k : lists_ok s F -> (i < nn s)%nat -> (k <= 10)%nat -> Forall ok_pa (F i k).
Proof. intros L Hi Hk. apply Forall_forall. intros x Hx. by apply (lo_ok _ _ L i k). Qed.

(** A list other than [(i, k)] keeps its representation when every changed word
    belongs to a page outside it. *)
Lemma fp_apart l x a : Forall ok_pa l -> ok_pa x -> x ∉ l -> fp l a -> a <> va x /\ a <> va x + 8.
Proof.
  intros Hl Hx Hni Ha. destruct (fp_out x l Hx Hl Hni) as [H1 H2].
  split; intros ->; done.
Qed.

Lemma fl_push_spec s i k pa :
  fl_push s i k pa =
  with_node (with_mem s (push_mem (mem s) (va pa) (head (node s i) k))) i
    (set_head (node s i) k (va pa)).
Proof. reflexivity. Qed.

(** What [base]/[limit]/[free] look like after a head update. *)
Lemma node_set_head s m i k b j :
  (i < length (pmm_nodes s))%nat ->
  base (node (with_node (with_mem s m) i (set_head (node s i) k b)) j) = base (node s j) /\
  limit (node (with_node (with_mem s m) i (set_head (node s i) k b)) j) = limit (node s j) /\
  length (free (node (with_node (with_mem s m) i (set_head (node s i) k b)) j)) = length (free (node s j)) /\
  free_pages (node (with_node (with_mem s m) i (set_head (node s i) k b)) j) = free_pages (node s j).
Proof.
  intros Hi. rewrite node_with_node by done.
  case_decide; subst; simpl; rewrite ?length_insert; done.
Qed.

Lemma head_node_set_head s m i k b j k' :
  (i < length (pmm_nodes s))%nat -> (k < length (free (node s i)))%nat ->
  head (node (with_node (with_mem s m) i (set_head (node s i) k b)) j) k' =
  if decide (i = j /\ k = k') then b else head (node s j) k'.
Proof.
  intros Hi Hk. rewrite node_with_node by done. case_decide; subst.
  - rewrite head_set_head by done. repeat case_decide; try done; exfalso; intuition lia.
  - rewrite decide_False by (intuition lia). done.
Qed.

(** Replacing list [(i, k)]: enough that the new list represents, its elements are
    well placed and new to every other list, and other lists' words are kept. *)
Lemma lists_ok_upd s F m i k l b :
  lists_ok s F -> (i < nn s)%nat -> (k <= 10)%nat ->
  dll m 0 l b -> NoDup l ->
  (forall pa, pa ∈ l -> ok_pa pa /\ base (node s i) <= pa < limit (node s i)) ->
  (forall pa i' k', pa ∈ l -> (i' < nn s)%nat -> (k' <= 10)%nat -> ~ (i' = i /\ k' = k) -> pa ∉ F i' k') ->
  (forall i' k' a, (i' < nn s)%nat -> (k' <= 10)%nat -> ~ (i' = i /\ k' = k) -> fp (F i' k') a ->
     mread m a = mread (mem s) a) ->
  lists_ok (with_node (with_mem s m) i (set_head (node s i) k b)) (upd F i k l).
Proof.
  intros L Hi Hk Hd Hnd Hok Hnew Hfr. destruct (lo_nodes _ _ L) as [Hlen Hn].
  assert (i < length (pmm_nodes s))%nat as Hil by lia.
  assert (k < length (free (node s i)))%nat as Hkl by (rewrite (lo_free _ _ L) by done; lia).
  split.
  - simpl. rewrite length_insert. done.
  - intros j Hj. destruct (node_set_head s m i k b j Hil) as (_ & _ & -> & _). by apply (lo_free _ _ L).
  - intros j k' Hj Hk'. rewrite head_node_set_head by done. unfold upd. simpl.
    destruct (decide (j = i /\ k' = k)) as [[-> ->]|Hne].
    + by rewrite decide_True.
    + rewrite decide_False by (intuition lia).
      eapply dll_frame; [|by apply (lo_dll _ _ L)]. intros a Ha. by apply (Hfr j k').
  - intros j k' pa Hj Hk' Hpa. destruct (node_set_head s m i k b j Hil) as (-> & -> & _).
    revert Hpa. unfold upd. case_decide as Hc; [destruct Hc as [-> ->]; auto|].
    by apply (lo_ok _ _ L).
  - intros j k' Hj Hk'. unfold upd. case_decide; [done|]. by apply (lo_nodup _ _ L).
  - intros j k1 j' k2 pa Hj Hk1 Hj' Hk2. unfold upd. do 2 case_decide; intros H1 H2.
    + intuition lia.
    + exfalso. destruct_and!. subst. by eapply (Hnew pa j' k2).
    + exfalso. destruct_and!. subst. by eapply (Hnew pa j k1).
    + by eapply (lo_uniq _ _ L).
Qed.

Lemma head_cases s F i k :
  lists_ok s F -> (i < nn s)%nat -> (k <= 10)%nat ->
  (F i k = [] /\ head (node s i) k = 0) \/
  (exists x l, F i k = x :: l /\ head (node s i) k = va x /\ ok_pa x).
Proof.
  intros L Hi Hk. pose proof (lo_dll _ _ L i k Hi Hk) as Hd. pose proof (lo_forall _ _ i k L Hi Hk) as Ho.
  destruct (F i k) as [|x l]; simpl in Hd; [by left|right].
  apply Forall_cons in Ho as [? _]. exists x, l. by destruct Hd as (? & _).
Qed.

(** A word of list [(i', k')] is no word of a page in another list. *)
Lemma other_list s F i k i' k' x a :
  lists_ok s F -> (i < nn s)%nat -> (k <= 10)%nat -> (i' < nn s)%nat -> (k' <= 10)%nat ->
  ~ (i' = i /\ k' = k) -> x ∈ F i k -> fp (F i' k') a -> a <> va x /\ a <> va x + 8.
Proof.
  intros L Hi Hk Hi' Hk' Hne Hx Ha. apply (fp_apart (F i' k') x a); auto.
  - by apply (lo_forall s).
  - by apply (lo_ok _ _ L i k).
  - intros Hx'. apply Hne. destruct (lo_uniq _ _ L i k i' k' x); auto.
Qed.

Lemma fl_push_ok s F i k pa :
  lists_ok s F -> (i < nn s)%nat -> (k <= 10)%nat ->
  ok_pa pa -> base (node s i) <= pa < limit (node s i) ->
  (forall i' k', (i' < nn s)%nat -> (k' <= 10)%nat -> pa ∉ F i' k') ->
  lists_ok (fl_push s i k pa) (upd F i k (pa :: F i k)).
Proof.
  intros L Hi Hk Hpa Hin Hnew. rewrite fl_push_spec. apply lists_ok_upd; auto.
  - apply dll_push; [by apply (lo_dll _ _ L) | |].
    + apply Forall_cons. split; [done | by apply (lo_forall s)].
    + apply NoDup_cons. split; [by apply Hnew | by apply (lo_nodup _ _ L)].
  - apply NoDup_cons. split; [by apply Hnew | by apply (lo_nodup _ _ L)].
  - intros x [->|Hx]%elem_of_cons; [done | by apply (lo_ok _ _ L i k)].
  - intros x i' k' [->|Hx]%elem_of_cons Hi' Hk' Hne; [by apply Hnew|].
    intros Hx'. apply Hne. destruct (lo_uniq _ _ L i k i' k' x); auto.
  - intros i' k' a Hi' Hk' Hne Ha.
    destruct (fp_apart (F i' k') pa a) as [? ?]; auto; [by apply (lo_forall s)|].
    apply push_mem_out; auto.
    destruct (head_cases s F i k L Hi Hk) as [[_ ?]|(x & l & HF & -> & _)]; [by left|right].
    apply (other_list s F i k i' k' x a); auto. rewrite HF. apply list_elem_of_here.
Qed.

Lemma fl_pop_ok s F i k pa l :
  lists_ok s F -> (i < nn s)%nat -> (k <= 10)%nat -> F i k = pa :: l ->
  exists s', fl_pop s i k = (s', pa) /\ lists_ok s' (upd F i k l) /\
    s' = with_node (with_mem s (mem s')) i (set_head (node s i) k (head (node s' i) k)).
Proof.
  intros L Hi Hk HF. pose proof (lo_dll _ _ L i k Hi Hk) as Hd. rewrite HF in Hd.
  pose proof (lo_forall _ _ i k L Hi Hk) as Ho. rewrite HF in Ho.
  pose proof (lo_nodup _ _ L i k Hi Hk) as Hnd. rewrite HF in Hnd.
  pose proof Hd as (Hhd & H1 & H2). pose proof Ho as [Hpa Hol]%Forall_cons.
  pose proof Hnd as [Hni Hndl]%NoDup_cons.
  destruct (lo_nodes _ _ L) as [Hlen Hn].
  unfold fl_pop. rewrite Hhd, (proj2 (Z.eqb_neq _ _) (va_nonzero _ Hpa)), va_phys by done.
  set (nxt := mread (mem s) (va pa)) in *.
  set (m := if truthy nxt then mwrite (mem s) (nxt + 8) 0 else mem s).
  exists (with_node (with_mem s m) i (set_head (node s i) k nxt)).
  split; [done|]. split.
  - apply lists_ok_upd; auto.
    + apply (dll_unlink_head _ 0 pa l (va pa)); done.
    + intros x Hx. apply (lo_ok _ _ L i k); auto. rewrite HF. by apply list_elem_of_further.
    + intros x i' k' Hx Hi' Hk' Hne Hx'. apply Hne.
      destruct (lo_uniq _ _ L i k i' k' x); auto. rewrite HF. by apply list_elem_of_further.
    + intros i' k' a Hi' Hk' Hne Ha. unfold m.
      destruct (dll_next_cases _ _ _ _ H2 Hol) as [(_ & _ & ->)|(y & l' & -> & Hy & ->)]; [done|].
      fold nxt in Hy. rewrite Hy. apply mread_mwrite_ne. apply not_eq_sym.
      apply (other_list s F i k i' k' y a); auto. rewrite HF. set_solver.
  - simpl. rewrite head_node_set_head by (rewrite ?(lo_free _ _ L) by done; lia).
    by rewrite decide_True.
Qed.

Lemma with_node_id s m i k :
  (i < length (pmm_nodes s))%nat -> (k < length (free (node s i)))%nat ->
  with_node (with_mem s m) i (set_head (node s i) k (head (node s i) k)) = with_mem s m.
Proof.
  intros Hi Hk. unfold with_node, with_mem. simpl. f_equal. apply list_insert_id.
  unfold node. rewrite nth_lookup. destruct (lookup_lt_is_Some_2 _ _ Hi) as [nd Hnd]. rewrite Hnd. simpl.
  f_equal. unfold node in Hk. rewrite nth_lookup, Hnd in Hk. simpl in Hk.
  destruct nd as [fr fp tp ba li]. unfold set_head, head. simpl in *. f_equal. symmetry.
  apply list_insert_id. rewrite nth_lookup. by destruct (lookup_lt_is_Some_2 _ _ Hk) as [? ->].
Qed.

(** [fl_remove] of a listed block, as a memory and a head. *)
Lemma fl_remove_spec s F i k pa l1 l2 :
  lists_ok s F -> (i < nn s)%nat -> (k <= 10)%nat -> F i k = l1 ++ pa :: l2 ->
  fl_remove s i k pa =
  with_node (with_mem s (unlink_mem (mem s) (is_nil l1) (last_va 0 l1) (mread (mem s) (va pa)))) i
    (set_head (node s i) k (if is_nil l1 then mread (mem s) (va pa) else head (node s i) k)).
Proof.
  intros L Hi Hk HF. destruct (lo_nodes _ _ L) as [Hlen Hn].
  pose proof (lo_free _ _ L i Hi) as Hfr.
  pose proof (lo_dll _ _ L i k Hi Hk) as Hd. rewrite HF in Hd.
  pose proof (lo_forall _ _ i k L Hi Hk) as Ho. rewrite HF in Ho.
  pose proof (lo_nodup _ _ L i k Hi Hk) as Hnd. rewrite HF in Hnd.
  apply Forall_app in Ho as [Ho1 Ho2]. apply Forall_cons in Ho2 as [Hpa _].
  destruct (dll_at _ _ _ _ _ _ Hd) as (Hp & _ & _). unfold fl_remove. rewrite Hp.
  destruct l1 as [|x l1].
  - simpl. unfold unlink_mem. simpl. destruct (truthy _); [by rewrite Hp | done].
  - destruct (last_va_in 0 x l1) as (y & Hy & Hly). simpl is_nil. cbv iota.
    assert (ok_pa y) as Hoy by (rewrite Forall_forall in Ho1; auto).
    assert (y <> pa) as Hne.
    { intros ->. apply NoDup_app in Hnd as (_ & Hnd & _). apply (Hnd pa Hy). apply list_elem_of_here. }
    pose proof (va_apart y pa Hoy Hpa Hne). rewrite with_node_id by lia.
    rewrite Hly, va_truthy by done. simpl. rewrite !mread_mwrite_ne by lia. rewrite Hp, Hly.
    unfold unlink_mem. destruct (truthy _); done.
Qed.

Lemma fl_remove_ok s F i k pa l1 l2 :
  lists_ok s F -> (i < nn s)%nat -> (k <= 10)%nat -> F i k = l1 ++ pa :: l2 ->
  lists_ok (fl_remove s i k pa) (upd F i k (l1 ++ l2)).
Proof.
  intros L Hi Hk HF. rewrite (fl_remove_spec s F i k pa l1 l2) by done.
  pose proof (lo_dll _ _ L i k Hi Hk) as Hd. rewrite HF in Hd.
  pose proof (lo_forall _ _ i k L Hi Hk) as Ho. rewrite HF in Ho.
  pose proof (lo_nodup _ _ L i k Hi Hk) as Hnd. rewrite HF in Hnd.
  assert (forall x, x ∈ l1 ++ l2 -> x ∈ F i k) as Hsub.
  { intros x. rewrite HF, !elem_of_app, elem_of_cons. tauto. }
  apply lists_ok_upd; auto.
  - by apply dll_unlink.
  - rewrite !NoDup_app in *. destruct Hnd as (? & Hx & [? ?]%NoDup_cons). split; [done|].
    split; [|done]. intros x Hx1 Hx2. apply (Hx x Hx1). by apply list_elem_of_further.
  - intros x Hx. apply (lo_ok _ _ L i k); auto.
  - intros x i' k' Hx Hi' Hk' Hne Hx'. apply Hne. destruct (lo_uniq _ _ L i k i' k' x); auto.
  - intros i' k' a Hi' Hk' Hne Ha. apply unlink_mem_out.
    + destruct l1 as [|x l1]; [done|]. intros _. destruct (last_va_in 0 x l1) as (y & Hy & ->).
      apply (other_list s F i k i' k' y a); auto. apply Hsub, elem_of_app. by left.
    + destruct (dll_at _ _ _ _ _ _ Hd) as (_ & H2 & _).
      apply Forall_app in Ho as [_ Ho]. apply Forall_cons in Ho as [_ Ho].
      destruct (dll_next_cases _ _ _ _ H2 Ho) as [(_ & ? & _)|(y & l' & -> & -> & _)]; [by left|right].
      apply (other_list s F i k i' k' y a); auto. apply Hsub. set_solver.
Qed.

End PmmLists.
