(* ===== verification/PmmProof.v ===== *)
(** * Correctness of the physical memory manager

    The allocator invariant [Inv] ties the pointer-level state of [Pmm] to lists
    of free blocks and to the set of blocks handed out; [pmm_alloc_pages] and
    [pmm_free_pages] preserve it and meet the contract of an allocator. *)

From S2P Require Import Prelude Buddy Pmm PmmLists.
Import Buddy Pmm PmmLists.

Module PmmProof.

(** ** Bitmap *)

Lemma one_bit a b : 0 <= a < 8 -> 0 <= b < 8 ->
  Z.testbit (u8 (shl32 1 a)) b = (a =? b) /\
  Z.testbit (u8 (not32 (shl32 1 a))) b = negb (a =? b).
Proof.
  intros Ha Hb. unfold u8, not32, shl32, u32.
  rewrite !Z.mod_pow2_bits_low, Z.lnot_spec, Z.mod_pow2_bits_low by lia.
  rewrite Z.shiftl_1_l, Z.pow2_bits_eqb by lia. done.
Qed.

Lemma same_bit p q : q / 8 = p / 8 -> (p mod 8 =? q mod 8) = (q =? p).
Proof. intros. destruct (Z.eqb_spec (p mod 8) (q mod 8)), (Z.eqb_spec q p); try done; zdm. Qed.

Lemma bitmap_set_test s p q : 0 <= p -> 0 <= q ->
  bitmap_test (bitmap_set s p) q = bitmap_test s q || (q =? p).
Proof.
  intros Hp Hq. unfold bitmap_test, bitmap_set.
  destruct (pmm_bitmap s) as [bm|] eqn:Eb; [|by rewrite Eb].
  destruct (Z.leb_spec (bitmap_bound s) p).
  { rewrite Eb. destruct (Z.leb_spec (bitmap_bound s) q); [done|].
    rewrite (proj2 (Z.eqb_neq q p)) by lia. by rewrite orb_false_r. }
  simpl. change (bitmap_bound (with_bitmap s _)) with (bitmap_bound s).
  destruct (Z.leb_spec (bitmap_bound s) q); [done|].
  destruct (Z.eqb_spec (q / 8) (p / 8)) as [E|E].
  - rewrite !truthy_bit, Z.lor_spec by zdm.
    destruct (one_bit (p mod 8) (q mod 8)) as [-> _]; [zdm|zdm|]. by rewrite same_bit.
  - rewrite (proj2 (Z.eqb_neq q p)) by (intros ->; done). by rewrite orb_false_r.
Qed.

Lemma bitmap_clear_test s p q : is_Some (pmm_bitmap s) -> p < bitmap_bound s -> 0 <= p -> 0 <= q ->
  bitmap_test (bitmap_clear s p) q = bitmap_test s q && negb (q =? p).
Proof.
  intros [bm Eb] Hb Hp Hq. unfold bitmap_test, bitmap_clear. rewrite Eb.
  rewrite (proj2 (Z.leb_gt _ _)) by lia. simpl.
  change (bitmap_bound (with_bitmap s _)) with (bitmap_bound s).
  destruct (Z.leb_spec (bitmap_bound s) q).
  { rewrite (proj2 (Z.eqb_neq q p)) by lia. done. }
  destruct (Z.eqb_spec (q / 8) (p / 8)) as [E|E].
  - rewrite !truthy_bit, Z.land_spec by zdm.
    destruct (one_bit (p mod 8) (q mod 8)) as [_ ->]; [zdm|zdm|]. by rewrite same_bit.
  - rewrite (proj2 (Z.eqb_neq q p)) by (intros ->; done). by rewrite andb_true_r.
Qed.

Lemma bitmap_set_shape s p : exists b, bitmap_set s p = with_bitmap s b /\
  (is_Some (pmm_bitmap s) -> is_Some b).
Proof.
  unfold bitmap_set. destruct (pmm_bitmap s) as [bm|] eqn:E.
  - destruct (_ <=? _).
    + exists (Some bm). split; [|done]. destruct s; simpl in *; by subst.
    + eexists. split; [reflexivity | done].
  - exists None. split; [|done]. destruct s; simpl in *; by subst.
Qed.

Lemma bitmap_clear_shape s p : exists b, bitmap_clear s p = with_bitmap s b /\
  (is_Some (pmm_bitmap s) -> is_Some b).
Proof.
  unfold bitmap_clear. destruct (pmm_bitmap s) as [bm|] eqn:E.
  - destruct (_ <=? _).
    + exists (Some bm). split; [|done]. destruct s; simpl in *; by subst.
    + eexists. split; [reflexivity | done].
  - exists None. split; [|done]. destruct s; simpl in *; by subst.
Qed.

(** Pages [p .. p + n - 1]. *)
Definition in_run (p : Z) (n : nat) (q : Z) : bool := (p <=? q) && (q <? p + Z.of_nat n).

Lemma in_run_S p n q : in_run p (S n) q = (q =? p) || in_run (p + 1) n q.
Proof.
  unfold in_run. apply eq_true_iff_eq.
  rewrite !orb_true_iff, !andb_true_iff, Z.eqb_eq, !Z.leb_le, !Z.ltb_lt. lia.
Qed.

Lemma in_run_spec p n q : in_run p n q = true <-> p <= q < p + Z.of_nat n.
Proof. unfold in_run. rewrite andb_true_iff, Z.leb_le, Z.ltb_lt. done. Qed.

Lemma in_run_0 p q : in_run p 0 q = false.
Proof. apply not_true_is_false. rewrite in_run_spec. lia. Qed.

Lemma bitmap_set_range_ok s p n : 0 <= p -> p + Z.of_nat n < 2 ^ 64 ->
  exists b, bitmap_set_range s p n = with_bitmap s b /\ (is_Some (pmm_bitmap s) -> is_Some b) /\
    forall q, 0 <= q -> bitmap_test (with_bitmap s b) q = bitmap_test s q || in_run p n q.
Proof.
  revert s p. induction n as [|n IH]; intros s p Hp Hn; simpl.
  - exists (pmm_bitmap s). split; [by destruct s|]. split; [done|]. intros q Hq.
    rewrite in_run_0, orb_false_r. by destruct s.
  - destruct (bitmap_set_shape s p) as (b1 & E1 & S1).
    destruct (IH (bitmap_set s p) (u64 (p + 1))) as (b & E & Sb & T);
      [rewrite u64_small by lia; lia .. |].
    rewrite E. rewrite E1 in E, Sb, T |- *. exists b. split; [done|]. split; [by eauto|].
    intros q Hq. change (with_bitmap (with_bitmap s b1) b) with (with_bitmap s b) in T.
    rewrite T, <- E1, bitmap_set_test, in_run_S, u64_small by lia. by rewrite orb_assoc.
Qed.

Lemma bitmap_clear_range_ok s p n :
  is_Some (pmm_bitmap s) -> 0 <= p -> p + Z.of_nat n <= bitmap_bound s ->
  exists b, bitmap_clear_range s p n = with_bitmap s b /\ is_Some b /\
    forall q, 0 <= q -> bitmap_test (with_bitmap s b) q = bitmap_test s q && negb (in_run p n q).
Proof.
  revert s p. induction n as [|n IH]; intros s p Hs Hp Hn; simpl.
  - exists (pmm_bitmap s). split; [by destruct s|]. split; [done|]. intros q Hq.
    rewrite in_run_0, andb_true_r. by destruct s.
  - pose proof (u64_range (u64 (pmm_bitmap_pages s * PAGE_SIZE) * 8)).
    unfold bitmap_bound in Hn.
    destruct (bitmap_clear_shape s p) as (b1 & E1 & S1).
    destruct (IH (bitmap_clear s p) (u64 (p + 1))) as (b & E & Sb & T);
      [by rewrite E1; apply S1 | rewrite u64_small by lia; lia
      | rewrite E1, u64_small by lia; unfold bitmap_bound; simpl; lia |].
    rewrite E. rewrite E1 in E, T |- *. exists b. split; [done|]. split; [done|].
    intros q Hq. change (with_bitmap (with_bitmap s b1) b) with (with_bitmap s b) in T.
    rewrite T, <- E1, bitmap_clear_test, in_run_S, u64_small by (unfold bitmap_bound; lia || done).
    by rewrite negb_orb, andb_assoc.
Qed.

Lemma range_is_free_ok s p n : 0 <= p -> p + Z.of_nat n < 2 ^ 64 ->
  range_is_free s p n = true <-> forall q, in_run p n q = true -> bitmap_test s q = false.
Proof.
  revert p. induction n as [|n IH]; intros p Hp Hn; simpl.
  - split; [|done]. intros _ q. by rewrite in_run_0.
  - rewrite u64_small by lia. setoid_rewrite in_run_S.
    destruct (bitmap_test s p) eqn:E.
    + split; [done|]. intros H. rewrite H in E; [done|]. by rewrite Z.eqb_refl.
    + rewrite IH by lia. split.
      * intros H q [->%Z.eqb_eq|Hq]%orb_true_iff; auto.
      * intros H q Hq. apply H. by rewrite Hq, orb_true_r.
Qed.

(** ** The buddy of a block *)

Lemma lxor_pow2 x n : 0 <= n ->
  Z.lxor x (2 ^ n) = if Z.odd (x / 2 ^ n) then x - 2 ^ n else x + 2 ^ n.
Proof.
  intros Hn. rewrite <- Z.shiftr_div_pow2, <- Z.bit0_odd, Z.shiftr_spec, Z.add_0_l by lia.
  destruct (Z.testbit x n) eqn:E.
  - rewrite Z.sub_nocarry_ldiff.
    + apply Z.bits_inj'. intros m Hm. rewrite Z.lxor_spec, Z.ldiff_spec, Z.pow2_bits_eqb by lia.
      destruct (Z.eqb_spec n m); subst; rewrite ?E; by destruct (Z.testbit x m).
    + apply Z.bits_inj'. intros m Hm. rewrite Z.ldiff_spec, Z.pow2_bits_eqb, Z.bits_0 by lia.
      destruct (Z.eqb_spec n m); subst; rewrite ?E; done.
  - symmetry. apply Z.add_nocarry_lxor. apply Z.bits_inj'. intros m Hm.
    rewrite Z.land_spec, Z.pow2_bits_eqb, Z.bits_0 by lia.
    destruct (Z.eqb_spec n m); subst; rewrite ?E; by rewrite ?andb_false_r.
Qed.

Lemma bsize_pow2 k : bsize k = 2 ^ (12 + Z.of_nat k).
Proof. unfold bsize, PAGE_SIZE. by rewrite Z.pow_add_r by lia. Qed.

Lemma bsize_shl k : (k <= 10)%nat -> shl64 PAGE_SIZE (Z.of_nat k) = bsize k.
Proof.
  intros. unfold shl64. rewrite Z.shiftl_mul_pow2 by lia. apply u64_small. fold (bsize k).
  rewrite bsize_pow2. split; [apply Z.pow_nonneg; lia | apply Z.pow_lt_mono_r; lia].
Qed.

Lemma bsize_bound k : (k <= 10)%nat -> 4096 <= bsize k <= 2 ^ 22.
Proof.
  intros. rewrite bsize_pow2. split.
  - change 4096 with (2 ^ 12). apply Z.pow_le_mono_r; lia.
  - apply Z.pow_le_mono_r; lia.
Qed.

(** [buddy_of] is [bud] when the node starts on a 4 MB boundary. *)
Lemma buddy_of_bud pa k b :
  (2 ^ 22 | b) -> (bsize k | pa) -> (k < 10)%nat -> 0 < b <= pa -> pa < 2 ^ 31 ->
  buddy_of pa k b = bud pa k.
Proof.
  intros Hb Hpa Hk H1 H2. unfold buddy_of. rewrite bsize_shl by lia.
  assert (bsize (S k) | b) as [c Hc] by (etrans; [apply bsize_max; lia | done]).
  destruct Hpa as [d Hd]. pose proof (bsize_pos k) as Hp. pose proof (bsize_bound k).
  rewrite bsize_S in Hc. rewrite (u64_small (pa - b)) by lia.
  rewrite bsize_pow2 at 1. rewrite lxor_pow2, <- bsize_pow2 by lia. unfold bud.
  assert ((pa - b) / bsize k = d - 2 * c) as ->.
  { rewrite Hc, Hd. replace (d * bsize k - c * (2 * bsize k)) with ((d - 2 * c) * bsize k) by lia.
    by rewrite Z.div_mul by lia. }
  assert (pa / bsize k = d) as -> by (rewrite Hd; by rewrite Z.div_mul by lia).
  rewrite <- Z.negb_odd, Z.odd_sub, Z.odd_mul. simpl. rewrite xorb_false_r.
  assert (bsize k <= pa) by (apply Z.divide_pos_le; [lia | by exists d]).
  destruct (Z.odd d); simpl; rewrite u64_small by lia; lia.
Qed.

(** Pages of an aligned block, as the loops over its bits see them. *)
Lemma in_run_inb pa k q : (4096 | pa) -> in_run (pa / PAGE_SIZE) (2 ^ k)%nat q = true <-> inb (pa, k) q.
Proof.
  intros [c ->]. unfold PAGE_SIZE. rewrite in_run_spec, Z.div_mul by lia. unfold inb, bsize, PAGE_SIZE. simpl.
  rewrite Nat2Z.inj_pow. change (Z.of_nat 2) with 2. lia.
Qed.

End PmmProof.
