(* ===== verification/PmmInv.v ===== *)
(** * The allocator invariant of mm/pmm.c and its preservation

    [St] ties a pointer-level state to lists of free blocks ([lists_ok]) and to
    the block invariant ([Core]); [Inv] is [St] between calls, with the set of
    blocks handed out as a finite set.  [pmm_alloc_pages] and [pmm_free_pages]
    are shown to preserve [Inv] and to move that set as an allocator must. *)

From S2P Require Import Prelude Buddy Pmm PmmLists PmmProof.
Import Buddy Pmm PmmLists PmmProof.

Module PmmInv.

Definition used (s : pmm) (q : Z) : bool := (q <? 0) || bitmap_test s q.
Definition rng (s : pmm) (i : nat) : range := (base (node s i), limit (node s i)).
Definition ranges (s : pmm) : list range := rng s <$> seq 0 (nn s).
Definition Fr (s : pmm) (F : lists) (b : block) : Prop :=
  exists i, (i < nn s)%nat /\ (b.2 <= 10)%nat /\ b.1 ∈ F i b.2.

Record St (s : pmm) (F : lists) (Al : block -> Prop) (X : Z -> Prop) : Prop := {
  st_lists : lists_ok s F;
  st_ok : Forall range_ok (ranges s);
  st_disj : disjoint_ranges (ranges s);
  st_bitmap : is_Some (pmm_bitmap s);
  st_bound : 2 ^ 19 <= bitmap_bound s;
  st_core : Core (used s) (ranges s) (Fr s F) Al X
}.

Definition Inv (s : pmm) (F : lists) (A : gset block) : Prop :=
  St s F (fun b => b ∈ A) (fun _ => False).

(** ** Frame: what an operation leaves alone *)

Record same_shape (s s' : pmm) : Prop := {
  sh_nn : pmm_nnodes s' = pmm_nnodes s;
  sh_rng : forall i, rng s' i = rng s i;
  sh_bits : pmm_bitmap_pages s' = pmm_bitmap_pages s
}.

Lemma same_shape_refl s : same_shape s s.
Proof. by split. Qed.
Lemma same_shape_trans s1 s2 s3 : same_shape s1 s2 -> same_shape s2 s3 -> same_shape s1 s3.
Proof. intros [? ? ?] [? ? ?]. split; intros; etrans; eauto. Qed.
#[export] Instance same_shape_preorder : PreOrder same_shape.
Proof. split; [exact same_shape_refl | exact same_shape_trans]. Qed.

Lemma shape_nn s s' : same_shape s s' -> nn s' = nn s.
Proof. intros [H _ _]. unfold nn. by rewrite H. Qed.
Lemma shape_ranges s s' : same_shape s s' -> ranges s' = ranges s.
Proof.
  intros H. unfold ranges. rewrite (shape_nn _ _ H). apply list_fmap_ext.
  intros i x _. apply (sh_rng _ _ H).
Qed.
Lemma shape_used s s' : same_shape s s' -> pmm_bitmap s' = pmm_bitmap s -> forall q, used s' q = used s q.
Proof.
  intros H Hb q. unfold used, bitmap_test, bitmap_bound. by rewrite Hb, (sh_bits _ _ H).
Qed.
Lemma shape_bound s s' : same_shape s s' -> bitmap_bound s' = bitmap_bound s.
Proof. intros H. unfold bitmap_bound. by rewrite (sh_bits _ _ H). Qed.

Lemma shape_set_head s m i k b : (i < length (pmm_nodes s))%nat ->
  same_shape s (with_node (with_mem s m) i (set_head (node s i) k b)).
Proof.
  intros Hi. split; try done. intros j. unfold rng.
  by destruct (node_set_head s m i k b j Hi) as (-> & -> & _).
Qed.

(** Everything but the core follows from the frame. *)
Lemma St_step s s' F F' Al Al' X X' :
  St s F Al X -> same_shape s s' -> is_Some (pmm_bitmap s') -> lists_ok s' F' ->
  Core (used s') (ranges s) (Fr s' F') Al' X' -> St s' F' Al' X'.
Proof.
  intros H Hs Hb HL HC. split; try done.
  - rewrite (shape_ranges _ _ Hs). apply (st_ok _ _ _ _ H).
  - rewrite (shape_ranges _ _ Hs). apply (st_disj _ _ _ _ H).
  - rewrite (shape_bound _ _ Hs). apply (st_bound _ _ _ _ H).
  - by rewrite (shape_ranges _ _ Hs).
Qed.

Lemma St_ext s F Al Al' X X' :
  St s F Al X -> (forall b, Al' b <-> Al b) -> (forall q, X q -> X' q) -> St s F Al' X'.
Proof.
  intros H HA HX. eapply St_step; [exact H | reflexivity | apply H | apply H |].
  eapply core_ext; [apply (st_core _ _ _ _ H) | done | done | done | done].
Qed.

(** Counters do not matter. *)
Lemma lists_ok_ext s s' F :
  lists_ok s F -> mem s' = mem s -> length (pmm_nodes s') = length (pmm_nodes s) ->
  same_shape s s' -> (forall i, free (node s' i) = free (node s i)) -> lists_ok s' F.
Proof.
  intros L Hm Hl Hs Hf. pose proof (shape_nn _ _ Hs) as Hn.
  split; rewrite ?Hn, ?Hl, ?Hm; try apply L.
  - intros i. rewrite Hf. apply L.
  - intros i k. unfold head. rewrite Hf. apply L.
  - intros i k pa. pose proof (sh_rng _ _ Hs i) as [= -> ->]. apply L.
Qed.

Lemma St_count s F Al X i x :
  St s F Al X -> (i < nn s)%nat ->
  let s' := with_node s i (set_free_pages (node s i) x) in
  St s' F Al X /\ same_shape s s' /\ pmm_bitmap s' = pmm_bitmap s.
Proof.
  intros H Hi s'. destruct (lo_nodes _ _ (st_lists _ _ _ _ H)) as [Hlen Hn].
  assert (forall j, node s' j = if decide (i = j) then set_free_pages (node s i) x else node s j) as Hnd.
  { intros j. apply (node_with_node s). lia. }
  assert (same_shape s s') as Hs.
  { split; try done. intros j. unfold rng. rewrite Hnd. case_decide; by subst. }
  split; [|done]. eapply St_step; [exact H | done | apply H | |].
  - eapply lists_ok_ext; [apply H | done | | done |].
    + simpl. by rewrite length_insert.
    + intros j. rewrite Hnd. case_decide; by subst.
  - eapply core_ext; [apply (st_core _ _ _ _ H) | | done | done | done].
    by apply shape_used.
Qed.

Lemma St_g_free s F Al X y : St s F Al X -> St (with_g_free s y) F Al X.
Proof.
  intros H. eapply St_step; [exact H | by split | apply H | | apply (st_core _ _ _ _ H)].
  eapply lists_ok_ext; [apply H | done | done | by split | done].
Qed.

(** Rewriting the bitmap of the held block. *)
Lemma St_bits s F Al X X' h b :
  St s F Al X -> Al h -> is_Some b ->
  (forall q, ~ inb h q -> used (with_bitmap s b) q = used s q) ->
  (forall q, used (with_bitmap s b) q = false -> ~ inb h q -> X q -> X' q) ->
  (forall q, used (with_bitmap s b) q = false -> inb h q -> X' q) ->
  (forall q, X q -> X' q \/ inb h q) ->
  St (with_bitmap s b) F Al X'.
Proof.
  intros H Hh Hb H1 H2 H3 H4. eapply St_step; [exact H | by split | done | |].
  - eapply lists_ok_ext; [apply H | done | done | by split | done].
  - eapply core_reuse; [apply (st_core _ _ _ _ H) | exact Hh | done | done | done | done].
Qed.

(** ** Where blocks are *)

Lemma elem_ranges s r : r ∈ ranges s <-> exists i, (i < nn s)%nat /\ r = rng s i.
Proof.
  unfold ranges. rewrite list_elem_of_fmap. setoid_rewrite elem_of_seq.
  split; intros (i & H1 & H2); exists i; split; (done || lia).
Qed.

Lemma lookup_ranges s i : (i < nn s)%nat -> ranges s !! i = Some (rng s i).
Proof. intros. unfold ranges. rewrite list_lookup_fmap, lookup_seq_lt by done. done. Qed.

Section placed.
Context (s : pmm) (F : lists) (Al : block -> Prop) (X : Z -> Prop) (H : St s F Al X).

Lemma rng_ok i : (i < nn s)%nat -> range_ok (rng s i).
Proof.
  intros Hi. eapply Forall_forall; [apply (st_ok _ _ _ _ H)|]. apply elem_ranges. eauto.
Qed.

Lemma wfb_ok_pa b : wfb (ranges s) b -> ok_pa b.1.
Proof.
  intros (Hk & Hd & r & Hr & H1 & H2). pose proof (st_ok _ _ _ _ H) as Hok.
  rewrite Forall_forall in Hok. destruct (Hok r Hr) as (_ & Hlo & _ & Hhi).
  pose proof (bsize_pos b.2). split; [lia|]. etrans; [apply bsize_page | exact Hd].
Qed.

(** A well-formed block lies wholly in the node that contains its first byte. *)
Lemma wfb_here i b : (i < nn s)%nat -> wfb (ranges s) b ->
  base (node s i) <= b.1 < limit (node s i) -> b.1 + bsize b.2 <= limit (node s i).
Proof.
  intros Hi (Hk & Hd & r & Hr & H1 & H2) Hin.
  apply elem_ranges in Hr as (j & Hj & ->). pose proof (bsize_pos b.2).
  destruct (decide (i = j)) as [->|Hne]; [done|].
  destruct (st_disj _ _ _ _ H i j _ _ (lookup_ranges s i Hi) (lookup_ranges s j Hj) Hne); simpl in *; lia.
Qed.

Lemma Fr_wfb b : Fr s F b -> wfb (ranges s) b.
Proof. intros. apply (core_wf _ _ _ _ _ (st_core _ _ _ _ H)). auto. Qed.
Lemma Al_wfb b : Al b -> wfb (ranges s) b.
Proof. intros. apply (core_wf _ _ _ _ _ (st_core _ _ _ _ H)). auto. Qed.

(** Two free blocks at one address are the same block. *)
Lemma Fr_addr p k k' : Fr s F (p, k) -> Fr s F (p, k') -> k = k'.
Proof.
  intros H1 H2. assert ((p, k) = (p, k')) as [=]; [|done].
  apply (core_disj _ _ _ _ _ (st_core _ _ _ _ H)); auto.
  pose proof (bsize_pos k). pose proof (bsize_pos k'). unfold overlap; simpl; lia.
Qed.

Lemma Fr_Al_addr p k k' : Fr s F (p, k) -> Al (p, k') -> False.
Proof.
  intros H1 H2. assert ((p, k) = (p, k')) as Heq.
  { apply (core_disj _ _ _ _ _ (st_core _ _ _ _ H)); auto.
    pose proof (bsize_pos k). pose proof (bsize_pos k'). unfold overlap; simpl; lia. }
  rewrite <- Heq in H2. by apply (core_apart _ _ _ _ _ (st_core _ _ _ _ H) (p, k)).
Qed.

End placed.

(** ** Memory the allocator leaves alone *)

(** [a] is the address of a word of managed memory. *)
Definition managed (s : pmm) (a : Z) : Prop :=
  exists i, (i < nn s)%nat /\ KERNEL_VIRT_BASE + base (node s i) <= a < KERNEL_VIRT_BASE + limit (node s i).

(** The words of the blocks of [A], and those outside all nodes. *)
Definition words (A : block -> Prop) (s : pmm) (a : Z) : Prop :=
  (exists b, A b /\ va b.1 <= a < va b.1 + bsize b.2) \/ ~ managed s a.

Definition keeps (A : block -> Prop) (s s' : pmm) : Prop :=
  forall a, words A s a -> mread (mem s') a = mread (mem s) a.

Lemma shape_managed s s' a : same_shape s s' -> managed s' a <-> managed s a.
Proof.
  intros H. unfold managed. rewrite (shape_nn _ _ H).
  split; intros (i & Hi & Ha); exists i; pose proof (sh_rng _ _ H i) as [= E1 E2]; rewrite E1, E2 in *; auto.
Qed.
Lemma shape_words A s s' a : same_shape s s' -> words A s' a <-> words A s a.
Proof. intros H. unfold words. by rewrite (shape_managed s s' a H). Qed.

Lemma keeps_trans A s1 s2 s3 : same_shape s1 s2 -> keeps A s1 s2 -> keeps A s2 s3 -> keeps A s1 s3.
Proof. intros Hs H1 H2 a Ha. rewrite H2 by (by apply (shape_words A s1 s2)). by apply H1. Qed.
Lemma keeps_mem A s s' : mem s' = mem s -> keeps A s s'.
Proof. intros E a _. by rewrite E. Qed.

(** The link words of a page outside a block are not words of the block. *)
Lemma link_words_out b x a : ok_pa b.1 -> ok_pa x -> ~ (b.1 <= x < b.1 + bsize b.2) ->
  va b.1 <= a < va b.1 + bsize b.2 -> a <> va x /\ a <> va x + 8.
Proof.
  intros Hb Hx Hn Ha. rewrite !va_ok in * by done. destruct Hb as [_ [c Hc]], Hx as [_ [d Hd]].
  pose proof (bsize_page b.2) as [e He]. rewrite Hc, Hd, He in *. lia.
Qed.

Section keeps.
Context (s : pmm) (F : lists) (Al : block -> Prop) (X : Z -> Prop) (H : St s F Al X).
Context (A : block -> Prop) (HA : forall b, A b -> Al b).

(** Words kept are not link words of a well-formed block that overlaps no kept one. *)
Lemma words_out x k a : wfb (ranges s) (x, k) -> (forall b, A b -> ~ (b.1 <= x < b.1 + bsize b.2)) ->
  words A s a -> a <> va x /\ a <> va x + 8.
Proof.
  intros W Hout [(b & Hb & Ha)|Hn].
  - apply (link_words_out b x a); auto; [eapply (wfb_ok_pa s F Al X H), (Al_wfb s F Al X H); auto|].
    apply (wfb_ok_pa s F Al X H (x, k) W).
  - pose proof (wfb_ok_pa s F Al X H (x, k) W) as Hok. simpl in Hok. rewrite (va_ok x Hok).
    destruct W as (_ & _ & r & Hr & H1 & H2). apply elem_ranges in Hr as (i & Hi & ->). simpl in *.
    pose proof (bsize_page k) as [e He]. pose proof (bsize_pos k).
    split; intros ->; apply Hn; exists i; (split; [done|]); lia.
Qed.

Lemma free_outside a i k x : words A s a -> (i < nn s)%nat -> (k <= 10)%nat -> x ∈ F i k ->
  a <> va x /\ a <> va x + 8.
Proof.
  intros Ha Hi Hk Hx. assert (Fr s F (x, k)) as Hf by (exists i; eauto).
  apply (words_out x k a); [by apply (Fr_wfb s F Al X H) | | done].
  intros b Hb Hin. assert (b = (x, k)) as ->; [|by apply (core_apart _ _ _ _ _ (st_core _ _ _ _ H) (x, k)); auto].
  apply (core_disj _ _ _ _ _ (st_core _ _ _ _ H)); auto. pose proof (bsize_pos k). unfold overlap; simpl; lia.
Qed.

Lemma keeps_push i k pa : (i < nn s)%nat -> (k <= 10)%nat -> wfb (ranges s) (pa, k) ->
  (forall b, A b -> ~ (b.1 <= pa < b.1 + bsize b.2)) -> keeps A s (fl_push s i k pa).
Proof.
  intros Hi Hk Hpa Hout a Ha. rewrite fl_push_spec. simpl.
  destruct (words_out pa k a Hpa Hout Ha) as [N1 N2]. apply push_mem_out; [done | done |].
  destruct (head_cases s F i k (st_lists _ _ _ _ H) Hi Hk) as [[_ ->]|(x & l & EF & -> & Hx)]; [by left|right].
  apply (free_outside a i k x Ha Hi Hk). rewrite EF. apply list_elem_of_here.
Qed.

Lemma keeps_unlink i k pa l1 l2 h m a : (i < nn s)%nat -> (k <= 10)%nat -> F i k = l1 ++ pa :: l2 ->
  words A s a -> m = unlink_mem (mem s) h (last_va 0 l1) (mread (mem s) (va pa)) ->
  h = is_nil l1 -> mread m a = mread (mem s) a.
Proof.
  intros Hi Hk EF Ha -> ->. pose proof (st_lists _ _ _ _ H) as L.
  assert (forall x, x ∈ l1 ++ pa :: l2 -> a <> va x /\ a <> va x + 8) as Hw.
  { intros x Hx. rewrite <- EF in Hx. by apply (free_outside a i k x). }
  apply unlink_mem_out.
  - intros Hnil. destruct l1 as [|y l1]; [done|]. destruct (last_va_in 0 y l1) as (z & Hz & ->).
    apply Hw. apply elem_of_app. by left.
  - pose proof (lo_dll _ _ L i k Hi Hk) as Hd. rewrite EF in Hd. destruct (dll_at _ _ _ _ _ _ Hd) as (_ & Hd2 & _).
    pose proof (lo_forall _ _ i k L Hi Hk) as Ho. rewrite EF in Ho. apply Forall_app in Ho as [_ [_ Ho]%Forall_cons].
    destruct (dll_next_cases _ _ _ _ Hd2 Ho) as [(_ & -> & _)|(y & l' & El & -> & _)]; [by left | right].
    apply Hw. rewrite El. apply elem_of_app. right. apply list_elem_of_further, list_elem_of_here.
Qed.

Lemma keeps_remove i k pa : (i < nn s)%nat -> (k <= 10)%nat -> pa ∈ F i k -> keeps A s (fl_remove s i k pa).
Proof.
  intros Hi Hk Hin a Ha. apply list_elem_of_split in Hin as (l1 & l2 & EF).
  rewrite (fl_remove_spec s F i k pa l1 l2 (st_lists _ _ _ _ H) Hi Hk EF). simpl.
  by apply (keeps_unlink i k pa l1 l2 (is_nil l1) _ a).
Qed.

Lemma keeps_pop i k pa l s' : (i < nn s)%nat -> (k <= 10)%nat -> F i k = pa :: l -> fl_pop s i k = (s', pa) -> keeps A s s'.
Proof.
  intros Hi Hk EF E a Ha. unfold fl_pop in E.
  destruct (head_cases s F i k (st_lists _ _ _ _ H) Hi Hk) as [[EF' _]|(x & l' & EF' & Eh & Hx)]; [by rewrite EF in EF'|].
  rewrite EF in EF'. injection EF' as <- <-. rewrite Eh, (proj2 (Z.eqb_neq _ _) (va_nonzero pa Hx)) in E.
  injection E as <- _. simpl.
  by apply (keeps_unlink i k pa [] l true _ a).
Qed.

End keeps.

(** ** List operations on the whole state *)

Lemma Fr_push s s' F i k pa b :
  same_shape s s' -> (i < nn s)%nat -> (k <= 10)%nat ->
  Fr s' (upd F i k (pa :: F i k)) b <-> addb (Fr s F) (pa, k) b.
Proof.
  intros Hs Hi Hk. unfold Fr, addb. rewrite (shape_nn _ _ Hs). destruct b as [p j]. simpl. split.
  - intros (i' & Hi' & Hj & Hp). unfold upd in Hp. case_decide as Hc; [|left; eauto].
    destruct Hc as [-> ->]. apply elem_of_cons in Hp as [->|Hp]; eauto.
  - intros [(i' & Hi' & Hj & Hp)|[= -> ->]].
    + exists i'. do 2 (split; [done|]). unfold upd. case_decide as Hc; [|done].
      destruct Hc as [-> ->]. by apply list_elem_of_further.
    + exists i. do 2 (split; [done|]). rewrite upd_eq. apply list_elem_of_here.
Qed.

Lemma St_push s F Al Al' X X' i k pa :
  St s F Al X -> (i < nn s)%nat -> (k <= 10)%nat ->
  base (node s i) <= pa < limit (node s i) -> (Fr s F (pa, k) -> False) ->
  Core (used s) (ranges s) (addb (Fr s F) (pa, k)) Al' X' ->
  let s' := fl_push s i k pa in
  St s' (upd F i k (pa :: F i k)) Al' X' /\ same_shape s s' /\ pmm_bitmap s' = pmm_bitmap s.
Proof.
  intros H Hi Hk Hin Hnew HC s'. pose proof (st_lists _ _ _ _ H) as L.
  assert (same_shape s s') as Hs by (apply shape_set_head; destruct (lo_nodes _ _ L); lia).
  split; [|done]. eapply St_step; [exact H | done | apply H | |].
  - assert (addb (Fr s F) (pa, k) (pa, k)) as Hpk by (right; done).
    apply fl_push_ok; auto.
    + eapply (wfb_ok_pa s F Al X H (pa, k)). by apply (core_wf _ _ _ _ _ HC); left.
    + intros i' k' Hi' Hk' Hin'. assert (addb (Fr s F) (pa, k) (pa, k')) as Hpk' by (left; exists i'; eauto).
      assert ((pa, k) = (pa, k')) as [= <-].
      { apply (core_disj _ _ _ _ _ HC); auto. pose proof (bsize_pos k). pose proof (bsize_pos k').
        unfold overlap; simpl; lia. }
      apply Hnew. exists i'. eauto.
  - eapply core_ext; [exact HC | by apply shape_used | | done | done].
    intros b. by apply Fr_push.
Qed.

(** Dropping one entry from a list without duplicates. *)
Lemma Fr_drop s s' F i k pa l b :
  lists_ok s F -> same_shape s s' -> (i < nn s)%nat -> (k <= 10)%nat ->
  (forall x, x ∈ F i k <-> x = pa \/ x ∈ l) -> pa ∉ l ->
  Fr s' (upd F i k l) b <-> delb (Fr s F) (pa, k) b.
Proof.
  intros L Hs Hi Hk HF Hni. unfold Fr, delb. rewrite (shape_nn _ _ Hs). destruct b as [p j]. simpl. split.
  - intros (i' & Hi' & Hj & Hp). unfold upd in Hp. case_decide as Hc.
    + destruct Hc as [-> ->]. split; [exists i; rewrite HF; auto|]. intros [= ->]. done.
    + split; [eauto|]. intros [= -> ->]. apply Hc.
      apply (lo_uniq _ _ L i' k i k pa); auto. rewrite HF. auto.
  - intros [(i' & Hi' & Hj & Hp) Hne]. exists i'. do 2 (split; [done|]). unfold upd.
    case_decide as Hc; [|done]. destruct Hc as [-> ->]. apply HF in Hp as [->|]; done.
Qed.

Lemma St_pop s F Al Al' X X' i k pa l :
  St s F Al X -> (i < nn s)%nat -> (k <= 10)%nat -> F i k = pa :: l ->
  Core (used s) (ranges s) (delb (Fr s F) (pa, k)) Al' X' ->
  exists s', fl_pop s i k = (s', pa) /\ St s' (upd F i k l) Al' X' /\ same_shape s s' /\
    pmm_bitmap s' = pmm_bitmap s.
Proof.
  intros H Hi Hk HF HC. pose proof (st_lists _ _ _ _ H) as L.
  destruct (fl_pop_ok s F i k pa l L Hi Hk HF) as (s' & E & L' & Hs').
  assert (same_shape s s') as Hs.
  { rewrite Hs'. apply shape_set_head. destruct (lo_nodes _ _ L); lia. }
  assert (pmm_bitmap s' = pmm_bitmap s) as Hb by (rewrite Hs'; done).
  exists s'. split; [done|]. split; [|done].
  eapply St_step; [exact H | done | rewrite Hb; apply H | done |].
  eapply core_ext; [exact HC | by apply shape_used | | done | done].
  pose proof (lo_nodup _ _ L i k Hi Hk) as Hnd. rewrite HF in Hnd. apply NoDup_cons in Hnd as [Hni _].
  intros b. eapply Fr_drop; auto. intros x. rewrite HF, elem_of_cons. done.
Qed.

Lemma St_remove s F Al Al' X X' i k pa :
  St s F Al X -> (i < nn s)%nat -> (k <= 10)%nat -> pa ∈ F i k ->
  Core (used s) (ranges s) (delb (Fr s F) (pa, k)) Al' X' ->
  let s' := fl_remove s i k pa in
  exists F', St s' F' Al' X' /\ same_shape s s' /\ pmm_bitmap s' = pmm_bitmap s.
Proof.
  intros H Hi Hk Hin HC s'. pose proof (st_lists _ _ _ _ H) as L.
  apply list_elem_of_split in Hin as (l1 & l2 & HF).
  pose proof (fl_remove_ok s F i k pa l1 l2 L Hi Hk HF) as L'.
  pose proof (fl_remove_spec s F i k pa l1 l2 L Hi Hk HF) as E.
  assert (same_shape s s') as Hs.
  { unfold s'. rewrite E. apply shape_set_head. destruct (lo_nodes _ _ L); lia. }
  assert (pmm_bitmap s' = pmm_bitmap s) as Hb by (unfold s'; rewrite E; done).
  exists (upd F i k (l1 ++ l2)). split; [|done].
  eapply St_step; [exact H | done | rewrite Hb; apply H | done |].
  eapply core_ext; [exact HC | by apply shape_used | | done | done].
  pose proof (lo_nodup _ _ L i k Hi Hk) as Hnd. rewrite HF in Hnd.
  apply NoDup_app in Hnd as (_ & Hd & [Hni _]%NoDup_cons).
  intros b. eapply Fr_drop; auto.
  - intros x. rewrite HF, !elem_of_app, elem_of_cons. tauto.
  - rewrite elem_of_app. intros [Hx|Hx]; [|done]. apply (Hd pa Hx). apply list_elem_of_here.
Qed.

(** ** Splitting *)

Lemma split_down_ok A i pa ord avail : forall s F X,
  St s F (addb A (pa, avail)) X -> (i < nn s)%nat -> (ord <= avail)%nat ->
  (forall k, ~ A (pa, k)) ->
  base (node s i) <= pa < limit (node s i) -> (forall q, X q -> inb (pa, avail) q) ->
  clear (used s) (pa, avail) \/ marked (used s) (pa, avail) ->
  let s' := split_down s i pa ord avail in
  exists F' X', St s' F' (addb A (pa, ord)) X' /\ same_shape s s' /\ pmm_bitmap s' = pmm_bitmap s /\
    (forall q, X' q -> inb (pa, ord) q) /\ keeps A s s'.
Proof.
  induction avail as [|a IH]; intros s F X H Hi Ho HA Hin HX Hu s'.
  { assert (ord = 0%nat) as -> by lia. exists F, X. split; [done|]. split; [reflexivity|]. split; [done|]. split; [done|]. by apply keeps_mem. }
  unfold s'. simpl. destruct (Nat.leb_spec ord a) as [Hle|Hgt].
  2:{ assert (ord = S a) as -> by lia. exists F, X. split; [done|]. split; [reflexivity|]. split; [done|]. split; [done|]. by apply keeps_mem. }
  assert (wfb (ranges s) (pa, S a)) as W by (eapply Al_wfb; [exact H | by right]).
  pose proof (wfb_here _ _ _ _ H i (pa, S a) Hi W Hin) as Hend. simpl in Hend.
  assert (S a <= 10)%nat as Ha by apply W. pose proof (bsize_S a) as HS. pose proof (bsize_pos a) as Hp.
  destruct (wfb_ok_pa _ _ _ _ H _ W) as [Hpa _]. simpl in Hpa. pose proof (bsize_bound a).
  rewrite bsize_shl, u64_small by lia.
  destruct (St_push s F _ (addb A (pa, a)) X (fun q => X q /\ ~ inb (pa + bsize a, a) q) i a (pa + bsize a) H)
    as (H1 & Hs1 & Hb1); auto; [lia | lia | | |].
  - intros Hf. apply (core_alone _ _ _ _ _ (pa, S a) (pa + bsize a, a) (st_core _ _ _ _ H)); [by right | by left |].
    unfold overlap; simpl; lia.
  - eapply core_ext; [apply core_split; [apply (st_core _ _ _ _ H) | by right | exact Hu] | done | done | | done].
    intros b. unfold addb, delb. split.
    + intros [Hb|Hb]; [left|by right]. split; [by left|]. intros ->. by apply (HA (S a)).
    + intros [[[Hb|Hb] ?]|Hb]; auto. done.
  - destruct (IH _ _ _ H1) as (F' & X' & H2 & Hs2 & Hb2 & HX2 & HK2);
      [by rewrite (shape_nn _ _ Hs1) | done | done | ..].
    + pose proof (sh_rng _ _ Hs1 i) as [= -> ->]. done.
    + intros q [Hx Hn]. specialize (HX q Hx). unfold inb in *. simpl in *. lia.
    + eapply sub_uniform; [|intros q Hq; exact Hq].
      destruct Hu as [Hu|Hu]; [left|right]; intros q Hq; rewrite (shape_used _ _ Hs1 Hb1); apply Hu;
        unfold inb in *; simpl in *; lia.
    + exists F', X'. split; [done|]. split; [by etrans|]. split; [by etrans|]. split; [done|].
      eapply keeps_trans; [exact Hs1| |exact HK2]. apply (keeps_push s F _ X H); [intros b Hb; by left | done | lia | |].
      * rewrite <- (shape_ranges _ _ Hs1). apply (Fr_wfb _ _ _ _ H1).
        apply (Fr_push s _ F i a (pa + bsize a) (pa + bsize a, a) Hs1 Hi ltac:(lia)). by right.
      * intros b Hb Hov. apply (core_alone _ _ _ _ _ (pa, S a) b (st_core _ _ _ _ H)); [by right | |].
        { right. split; [by left|]. intros ->. by apply (HA (S a)). }
        pose proof (bsize_pos b.2). unfold overlap; simpl; lia.
Qed.

(** ** Allocation *)

Lemma find_avail_spec nd fuel : forall avail, (avail + fuel = 11)%nat ->
  let r := find_avail nd avail fuel in
  (avail <= r <= 11)%nat /\ (forall k, (avail <= k < r)%nat -> head nd k = 0) /\
  ((r <= 10)%nat -> head nd r <> 0).
Proof.
  induction fuel as [|f IH]; intros avail Hf; simpl.
  { split; [lia|]. split; [intros; lia | lia]. }
  destruct (Z.eqb_spec (head nd avail) 0) as [E|E].
  - destruct (IH (S avail)) as (H1 & H2 & H3); [lia|]. split; [lia|]. split; [|done].
    intros k Hk. destruct (decide (k = avail)) as [->|]; [done | apply H2; lia].
  - split; [lia|]. split; [intros; lia | done].
Qed.

Lemma bitmap_set_range_mem n : forall s q, mem (bitmap_set_range s q n) = mem s.
Proof.
  induction n as [|n IH]; intros s q; simpl; [done|]. rewrite IH. unfold bitmap_set.
  destruct (pmm_bitmap s); [casei; done | done].
Qed.
Lemma bitmap_clear_range_mem n : forall s q, mem (bitmap_clear_range s q n) = mem s.
Proof.
  induction n as [|n IH]; intros s q; simpl; [done|]. rewrite IH. unfold bitmap_clear.
  destruct (pmm_bitmap s); [casei; done | done].
Qed.

(** The pages of the block handed out are marked; nothing else changes. *)
Lemma mark_ok s F A X pa k :
  St s F (addb A (pa, k)) X -> (forall q, X q -> inb (pa, k) q) ->
  let s' := bitmap_set_range s (pa / PAGE_SIZE) (2 ^ k)%nat in
  St s' F (addb A (pa, k)) (fun _ => False) /\ same_shape s s' /\ marked (used s') (pa, k).
Proof.
  intros H HX s'. assert (wfb (ranges s) (pa, k)) as W by (eapply Al_wfb; [exact H | by right]).
  destruct (wfb_ok_pa _ _ _ _ H _ W) as [Hr Hd]. simpl in *.
  assert (k <= 10)%nat as Hk by apply W.
  assert (0 <= pa / PAGE_SIZE < 2 ^ 19) as Hq by (unfold PAGE_SIZE; zdm).
  assert ((2 ^ k <= 2 ^ 10)%nat) by (apply Nat.pow_le_mono_r; lia). change (2 ^ 10)%nat with 1024%nat in *.
  destruct (bitmap_set_range_ok s (pa / PAGE_SIZE) (2 ^ k)%nat) as (b & E & Hb & Ht); [lia | lia |].
  unfold s'. rewrite E.
  assert (forall q, used (with_bitmap s b) q = used s q || (negb (q <? 0) && in_run (pa / PAGE_SIZE) (2 ^ k)%nat q)) as Hu.
  { intros q. unfold used. destruct (Z.ltb_spec q 0); simpl; [done|]. by apply Ht. }
  assert (forall q, inb (pa, k) q -> used (with_bitmap s b) q = true) as Hm.
  { intros q Hin. rewrite Hu. apply in_run_inb in Hin as ->; [|done].
    destruct (Z.ltb_spec q 0) as [Hlt|]; simpl; [|by rewrite orb_true_r].
    unfold used. by rewrite (proj2 (Z.ltb_lt _ _) Hlt). }
  split; [|split; [by split | exact Hm]].
  eapply St_bits; [exact H | by right | apply Hb, H | | | | by auto].
  - intros q Hn. rewrite Hu. destruct (in_run _ _ q) eqn:Er; [|by rewrite andb_false_r, orb_false_r].
    by apply in_run_inb in Er.
  - intros q _ Hn Hx. by apply Hn, HX.
  - intros q Hf Hin. by rewrite Hm in Hf.
Qed.

Lemma alloc_from_ok s F A i ord avail pa l :
  Inv s F A -> (i < nn s)%nat -> (ord <= avail <= 10)%nat -> F i avail = pa :: l ->
  exists s' F', alloc_from s i ord avail = (s', pa) /\ Inv s' F' (A ∪ {[(pa, ord)]}) /\
    same_shape s s' /\ base (node s i) <= pa < limit (node s i) /\ marked (used s') (pa, ord) /\
    (forall k, (pa, k) ∉ A) /\ keeps (fun b => b ∈ A) s s'.
Proof.
  intros H Hi Hk HF. assert (Fr s F (pa, avail)) as Hf.
  { exists i. split; [done|]. split; [simpl; lia|]. simpl. rewrite HF. apply list_elem_of_here. }
  assert (forall k, (pa, k) ∉ A) as HA by (intros k ?; by eapply (Fr_Al_addr s F _ _ H)).
  assert (ok_pa pa /\ base (node s i) <= pa < limit (node s i)) as [_ Hin].
  { apply (lo_ok _ _ (st_lists _ _ _ _ H) i avail); [done | lia |]. rewrite HF. apply list_elem_of_here. }
  destruct (St_pop s F _ _ _ _ i avail pa l H Hi ltac:(lia) HF (core_take _ _ _ _ _ _ (st_core _ _ _ _ H) Hf))
    as (s1 & E1 & H1 & Hs1 & Hb1).
  destruct (split_down_ok (fun b => b ∈ A) i pa ord avail s1 _ _ H1) as (F2 & X2 & H2 & Hs2 & Hb2 & HX2 & HK2).
  { by rewrite (shape_nn _ _ Hs1). }
  { lia. }
  { done. }
  { pose proof (sh_rng _ _ Hs1 i) as [= -> ->]. done. }
  { intros q [[]|?]; done. }
  { eapply (core_uniform _ _ _ _ _ (st_core _ _ _ _ H)) in Hf.
    destruct Hf as [Hf|Hf]; [left|right]; intros q Hq; rewrite (shape_used _ _ Hs1 Hb1); auto. }
  unfold alloc_from. rewrite E1. set (s2 := split_down s1 i pa ord avail) in *.
  assert (i < nn s2)%nat as Hi2 by (rewrite (shape_nn _ _ Hs2), (shape_nn _ _ Hs1); done).
  destruct (St_count s2 F2 _ X2 i (u64 (free_pages (node s2 i) - 2 ^ Z.of_nat ord)) H2 Hi2) as (H3 & Hs3 & Hb3).
  set (s3 := with_node s2 i _) in *.
  destruct (mark_ok s3 F2 _ X2 pa ord H3 HX2) as (H4 & Hs4 & Hm4).
  set (s4 := bitmap_set_range s3 _ _) in *.
  eexists _, F2. split; [reflexivity|]. split.
  - apply St_g_free. eapply St_ext; [exact H4 | | done]. intros b. unfold addb. set_solver.
  - split.
    { etrans; [exact Hs1|]. etrans; [exact Hs2|]. etrans; [exact Hs3|]. etrans; [exact Hs4|]. by split. }
    do 3 (split; [done|]). eapply keeps_trans; [exact Hs1 | |eapply keeps_trans; [exact Hs2 | exact HK2|]].
    + by eapply (keeps_pop s F _ _ H _ (fun b Hb => Hb) i avail pa l s1 Hi ltac:(lia) HF).
    + apply keeps_mem. simpl. unfold s4. rewrite bitmap_set_range_mem. done.
Qed.

(** What a call returns: a block of the requested order, or 0 when no node has a
    free block that large. *)
Definition alloc_post (s : pmm) (F : lists) (A : gset block) (ord i : nat) (r : pmm * Z) : Prop :=
  (r = (s, 0) /\ forall j k, (i <= j < nn s)%nat -> (ord <= k <= 10)%nat -> F j k = []) \/
  (exists F', Inv r.1 F' (A ∪ {[(r.2, ord)]}) /\ same_shape s r.1 /\
     marked (used r.1) (r.2, ord) /\ (forall k, (r.2, k) ∉ A) /\ keeps (fun b => b ∈ A) s r.1).

Lemma alloc_loop_ok s F A ord fuel : forall i,
  Inv s F A -> (ord <= 10)%nat -> (i + fuel = nn s)%nat ->
  alloc_post s F A ord i (alloc_loop s ord i fuel).
Proof.
  induction fuel as [|f IH]; intros i H Ho Hn; simpl.
  { left. split; [done|]. intros j k Hj. lia. }
  destruct (find_avail_spec (node s i) (11 - ord) ord ltac:(lia)) as (H1 & H2 & H3).
  set (av := find_avail _ _ _) in *. assert (i < nn s)%nat as Hi by lia.
  destruct (Nat.ltb_spec 10 av) as [Hav|Hav].
  - assert (forall k, (ord <= k <= 10)%nat -> F i k = []) as Hempty.
    { intros k Hk. destruct (head_cases s F i k (st_lists _ _ _ _ H) Hi) as [[? _]|(x & l & _ & Hh & Hx)];
        [lia | done |]. rewrite H2 in Hh by lia. by destruct (va_nonzero x Hx). }
    destruct (IH (S i) H Ho ltac:(lia)) as [[-> Hno]|Hyes]; [left|by right].
    split; [done|]. intros j k Hj Hk. destruct (decide (j = i)) as [->|]; [auto | apply Hno; lia].
  - right. destruct (head_cases s F i av (st_lists _ _ _ _ H) Hi) as [[_ Hz]|(x & l & HF & _)];
      [lia | by apply H3 in Hz; [|lia] |].
    destruct (alloc_from_ok s F A i ord av x l H Hi) as (s' & F' & -> & ?); [lia | done |].
    exists F'. simpl. intuition.
Qed.

Lemma alloc_pages_ok s F A ord :
  Inv s F A -> 0 <= ord <= PMM_MAX_ORDER ->
  alloc_post s F A (Z.to_nat ord) 0 (pmm_alloc_pages s ord).
Proof.
  intros H Ho. unfold pmm_alloc_pages, PMM_MAX_ORDER in *.
  rewrite (proj2 (Z.ltb_ge _ _)), (proj2 (Z.ltb_ge _ _)) by lia. simpl.
  apply alloc_loop_ok; [done | lia | done].
Qed.

(** ** Release *)

(** The pages of the held block are unmarked; they stay exempt from the cover
    rule until the block is pushed. *)
Lemma unmark_ok s F A pa k :
  St s F (addb A (pa, k)) (fun _ => False) ->
  let s' := bitmap_clear_range s (pa / PAGE_SIZE) (2 ^ k)%nat in
  St s' F (addb A (pa, k)) (inb (pa, k)) /\ same_shape s s' /\ clear (used s') (pa, k).
Proof.
  intros H s'. assert (wfb (ranges s) (pa, k)) as W by (eapply Al_wfb; [exact H | by right]).
  destruct (wfb_ok_pa _ _ _ _ H _ W) as [Hr Hd]. simpl in *.
  assert (pa + bsize k <= 2 ^ 31) as Hend.
  { destruct W as (_ & _ & r & Hr' & _ & Hhi). simpl in *.
    pose proof (st_ok _ _ _ _ H) as Hok. rewrite Forall_forall in Hok. destruct (Hok r Hr'). lia. }
  assert (forall q, inb (pa, k) q -> 0 <= q < 2 ^ 19) as Hq by (unfold inb; simpl; lia).
  destruct (bitmap_clear_range_ok s (pa / PAGE_SIZE) (2 ^ k)%nat) as (b & E & Hb & Ht).
  { apply H. }
  { unfold PAGE_SIZE. zdm. }
  { etrans; [|apply (st_bound _ _ _ _ H)]. pose proof (bsize_pos k).
    destruct Hd as [c ->]. unfold PAGE_SIZE. rewrite Z.div_mul, Nat2Z.inj_pow by lia.
    unfold bsize, PAGE_SIZE in Hend. change (Z.of_nat 2) with 2. lia. }
  unfold s'. rewrite E.
  assert (forall q, used (with_bitmap s b) q = used s q && negb (in_run (pa / PAGE_SIZE) (2 ^ k)%nat q)) as Hu.
  { intros q. unfold used. destruct (Z.ltb_spec q 0); simpl; [|by apply Ht].
    destruct (in_run _ _ q) eqn:Er; [|done]. apply in_run_inb in Er; [|done]. specialize (Hq q Er). lia. }
  split; [|split; [by split |]].
  - eapply St_bits; [exact H | by right | done | | done | done | done].
    intros q Hn. rewrite Hu. destruct (in_run _ _ q) eqn:Er; [|by rewrite andb_true_r].
    by apply in_run_inb in Er.
  - intros q Hin. rewrite Hu. apply in_run_inb in Hin as ->; [|done]. by rewrite andb_false_r.
Qed.

(** A 4 MB boundary never separates buddies, so buddies share a node. *)
Lemma bud_same_side p k B : (k < 10)%nat -> (bsize k | p) -> (2 ^ 22 | B) -> B <= p <-> B <= bud p k.
Proof.
  intros Hk Hp HB. pose proof (bsize_pos k).
  assert (bsize (S k) | B) as [c ->] by (etrans; [apply bsize_max; lia | done]).
  pose proof (bsize_S k) as HS.
  destruct (bud_cases p k Hp) as [[[a Ha] ->]|[[a Ha] ->]]; rewrite HS in *;
    (destruct (Z.le_gt_cases c a);
      [assert (c * (2 * bsize k) <= a * (2 * bsize k)) by (apply Z.mul_le_mono_nonneg_r; lia)
      |assert ((a + 1) * (2 * bsize k) <= c * (2 * bsize k)) by (apply Z.mul_le_mono_nonneg_r; lia)]; lia).
Qed.

Lemma bud_node s F Al X i j p k :
  St s F Al X -> (i < nn s)%nat -> (j < nn s)%nat -> (k < 10)%nat -> (bsize k | p) ->
  base (node s i) <= p < limit (node s i) -> base (node s j) <= bud p k < limit (node s j) -> i = j.
Proof.
  intros H Hi Hj Hk Hp H1 H2. destruct (decide (i = j)) as [->|Hne]; [done|exfalso].
  destruct (rng_ok _ _ _ _ H i Hi) as (Bi & _). destruct (rng_ok _ _ _ _ H j Hj) as (Bj & _).
  pose proof (bud_same_side p k _ Hk Hp Bi). pose proof (bud_same_side p k _ Hk Hp Bj). simpl in *.
  destruct (st_disj _ _ _ _ H i j _ _ (lookup_ranges s i Hi) (lookup_ranges s j Hj) Hne); simpl in *; lia.
Qed.

(** One turn of the coalescing loop that goes on. *)
Lemma coalesce_step s F A X i p k :
  St s F (addb A (p, k)) X -> (i < nn s)%nat -> (k < 10)%nat -> ~ A (p, k) ->
  base (node s i) <= p < limit (node s i) -> (forall q, X q -> inb (p, k) q) ->
  clear (used s) (p, k) -> clear (used s) (bud p k, k) ->
  base (node s i) <= bud p k < limit (node s i) ->
  exists F', St (fl_remove s i k (bud p k)) F' (addb A (merged p k)) (inb (merged p k)) /\
    same_shape s (fl_remove s i k (bud p k)) /\ clear (used (fl_remove s i k (bud p k))) (merged p k) /\
    ~ A (merged p k) /\ base (node s i) <= (merged p k).1 < limit (node s i) /\
    keeps A s (fl_remove s i k (bud p k)).
Proof.
  intros H Hi Hk HnA Hin HX Hc Hcb Hb. pose proof (st_core _ _ _ _ H) as HC.
  assert (addb A (p, k) (p, k)) as Hh by (by right).
  pose proof (Al_wfb _ _ _ _ H _ Hh) as W. assert (bsize k | p) as Hd by apply W.
  assert (Fr s F (bud p k, k)) as Hf by (by apply (buddy_is_free (ranges s) (used s) (Fr s F) (addb A (p, k)) X)).
  assert (wfb (ranges s) (merged p k)) as Wm.
  { apply (wfb_merged (ranges s) (rng s i)); auto; [apply H | apply H | | apply Hin | | by eapply Fr_wfb].
    - apply elem_ranges. eauto.
    - by apply (wfb_here _ _ _ _ H i (p, k)). }
  assert (bud p k ∈ F i k) as Hel.
  { destruct Hf as (j & Hj & _ & Hel). simpl in Hel. destruct (decide (i = j)) as [->|Hne]; [done|].
    destruct (lo_ok _ _ (st_lists _ _ _ _ H) j k (bud p k)) as [_ Hr]; [done | lia | done |].
    destruct (st_disj _ _ _ _ H i j _ _ (lookup_ranges s i Hi) (lookup_ranges s j Hj) Hne); simpl in *; lia. }
  destruct (St_remove s F _ (addb A (merged p k)) X (inb (merged p k)) i k (bud p k) H Hi ltac:(lia) Hel)
    as (F' & H' & Hs & Hbm).
  { eapply core_ext; [exact (core_merge _ _ _ _ _ _ _ HC Hh Hf Wm) | done | done | |].
    - intros b. unfold addb, delb. split; [intros [?|?]; [left|by right]|intros [[[?|?] ?]|?]; auto; done].
      split; [by left | by intros ->].
    - intros q [Hx|?]; [|done]. apply merged_inb; auto. }
  exists F'. split; [done|]. split; [done|]. split; [|split].
  - intros q Hq. rewrite (shape_used _ _ Hs Hbm). apply merged_inb in Hq as [?|?]; auto.
  - intros Ha. assert (merged p k = (p, k)) as Heq; [|unfold merged in Heq; injection Heq; lia].
    apply (core_disj _ _ _ _ _ HC); [right; by left | by right |].
    pose proof (bsize_S k). pose proof (bsize_pos k).
    destruct (merged_shape p k Hd) as [_ [[-> ?]|[-> ?]]]; unfold overlap; simpl; lia.
  - split; [destruct (merged_shape p k Hd) as [_ [[-> Hb']|[-> Hb']]]; rewrite Hb' in Hb; simpl; lia|].
    apply (keeps_remove s F _ X H); [intros b Ha; by left | done | lia | done].
Qed.

Lemma coalesce_ok A i fuel : forall s F X p k,
  St s F (addb A (p, k)) X -> (i < nn s)%nat -> (k + fuel = 10)%nat -> ~ A (p, k) ->
  base (node s i) <= p < limit (node s i) -> (forall q, X q -> inb (p, k) q) -> clear (used s) (p, k) ->
  exists s' F' X' p' k', coalesce s i p k fuel = (s', p', k') /\ (k <= k' <= 10)%nat /\
    St s' F' (addb A (p', k')) X' /\ same_shape s s' /\ ~ A (p', k') /\
    base (node s i) <= p' < limit (node s i) /\ (forall q, X' q -> inb (p', k') q) /\
    clear (used s') (p', k') /\ keeps A s s' /\
    ((k' < 10)%nat -> Fr s' F' (bud p' k', k') -> clear (used s') (bud p' k', k') -> False).
Proof.
  induction fuel as [|f IH]; intros s F X p k H Hi Hf HnA Hin HX Hc; simpl.
  { exists s, F, X, p, k. repeat (split; [done || lia || reflexivity || by apply keeps_mem|]). lia. }
  assert (wfb (ranges s) (p, k)) as W by (eapply Al_wfb; [exact H | by right]).
  assert (bsize k | p) as Hd by apply W.
  destruct (rng_ok _ _ _ _ H i Hi) as (Hba & Hb0 & _ & Hb2). simpl in *.
  rewrite buddy_of_bud by (done || lia).
  pose proof (bud_aligned p k Hd) as Hbd. pose proof (bsize_bound k ltac:(lia)) as Hsz.
  assert (4096 | bud p k) as Hpg by (etrans; [apply bsize_page | exact Hbd]).
  destruct ((bud p k <? base (node s i)) || (limit (node s i) <=? bud p k)) eqn:Eb.
  { exists s, F, X, p, k. repeat (split; [done || lia || reflexivity || by apply keeps_mem|]).
    intros _ (j & Hj & _ & Hel) _. simpl in Hel.
    destruct (lo_ok _ _ (st_lists _ _ _ _ H) j k (bud p k)) as [Hok Hr]; [done | lia | done |].
    rewrite (bud_node s F _ _ i j p k H) in Eb by (done || lia). b2p. lia. }
  b2p. assert (0 <= bud p k / PAGE_SIZE < 2 ^ 19) as Hq by (unfold PAGE_SIZE; zdm).
  assert ((2 ^ k <= 2 ^ 10)%nat) by (apply Nat.pow_le_mono_r; lia). change (2 ^ 10)%nat with 1024%nat in *.
  destruct (range_is_free s (bud p k / PAGE_SIZE) (2 ^ k)%nat) eqn:Er; simpl.
  2:{ exists s, F, X, p, k. repeat (split; [done || lia || reflexivity || by apply keeps_mem|]).
      intros _ _ Hcl. apply not_true_iff_false in Er. apply Er.
      apply range_is_free_ok; [lia | lia |]. intros q Hqr. apply in_run_inb in Hqr; [|done].
      specialize (Hcl q Hqr). unfold used in Hcl. by apply orb_false_iff in Hcl as [_ ?]. }
  assert (clear (used s) (bud p k, k)) as Hcb.
  { intros q Hqr. unfold used. destruct (Z.ltb_spec q 0); simpl.
    - unfold inb in Hqr. simpl in Hqr. lia.
    - apply (range_is_free_ok s (bud p k / PAGE_SIZE) (2 ^ k)%nat); [lia | lia | done |].
      by apply in_run_inb. }
  destruct (coalesce_step s F A X i p k) as (F1 & J1 & Hs1 & Hc1 & Hn1 & Hi1 & HK1); auto; [lia|].
  assert (MIN p (bud p k) = (merged p k).1) as Hmin.
  { unfold MIN, merged. simpl. destruct (Z.ltb_spec p (bud p k)); lia. }
  rewrite Hmin. destruct (IH _ _ _ (merged p k).1 (S k) J1) as (s' & F' & X' & p' & k' & E & Hk' & J2 & Hs2 & Hn2 & Hi2 & HX2 & Hc2 & HK2 & Hb2');
    [by rewrite (shape_nn _ _ Hs1) | lia | done | | done | done |].
  { pose proof (sh_rng _ _ Hs1 i) as [= -> ->]. done. }
  pose proof (sh_rng _ _ Hs1 i) as [= Hbe Hli]. rewrite Hbe, Hli in Hi2.
  exists s', F', X', p', k'. split; [done|]. split; [lia|]. split; [done|]. split; [by etrans|].
  do 4 (split; [done|]). split; [by apply (keeps_trans _ s _ s' Hs1) | done].
Qed.

Lemma node_of_from_ok s pa fuel : forall i,
  match node_of_from s pa i fuel with
  | Some j => (i <= j < i + fuel)%nat /\ base (node s j) <= pa < limit (node s j)
  | None => forall j, (i <= j < i + fuel)%nat -> ~ (base (node s j) <= pa < limit (node s j))
  end.
Proof.
  induction fuel as [|f IH]; intros i; simpl; [intros; lia|].
  destruct ((base (node s i) <=? pa) && (pa <? limit (node s i))) eqn:E.
  - b2p. lia.
  - specialize (IH (S i)). destruct (node_of_from s pa (S i) f) as [j|].
    + destruct IH. split; [lia | done].
    + intros j Hj. destruct (decide (j = i)) as [->|]; [b2p; lia | apply IH; lia].
Qed.

Lemma free_into_ok s F A i pa ord :
  Inv s F A -> (i < nn s)%nat -> base (node s i) <= pa < limit (node s i) -> (pa, ord) ∈ A ->
  exists F', Inv (free_into s i pa ord) F' (A ∖ {[(pa, ord)]}) /\ same_shape s (free_into s i pa ord) /\
    keeps (fun b => b ∈ A ∖ {[(pa, ord)]}) s (free_into s i pa ord).
Proof.
  intros H Hi Hin HA. set (A' := fun b => b ∈ A ∖ {[(pa, ord)]}).
  assert (St s F (addb A' (pa, ord)) (fun _ => False)) as H0.
  { eapply St_ext; [exact H | | done]. intros b. unfold addb, A'.
    destruct (decide (b = (pa, ord))) as [->|]; set_solver. }
  destruct (unmark_ok s F A' pa ord H0) as (H1 & Hs1 & Hc1). unfold free_into.
  set (s1 := bitmap_clear_range s _ _) in *.
  assert (ord <= 10)%nat as Hk by (eapply (Al_wfb _ _ _ _ H (pa, ord)); done).
  destruct (coalesce_ok A' i (10 - ord) s1 F (inb (pa, ord)) pa ord H1)
    as (s2 & F2 & X2 & p & k & E & Hk2 & H2 & Hs2 & Hn2 & Hi2 & HX2 & Hc2 & HK2 & Hb2).
  { by rewrite (shape_nn _ _ Hs1). }
  { lia. }
  { unfold A'. set_solver. }
  { pose proof (sh_rng _ _ Hs1 i) as [= -> ->]. done. }
  { done. }
  { done. }
  rewrite E. assert (same_shape s s2) as Hs02 by (by etrans).
  assert (i < nn s2)%nat as Hi2' by (by rewrite (shape_nn _ _ Hs02)).
  destruct (St_push s2 F2 _ A' X2 (fun _ => False) i k p H2 Hi2' ltac:(lia)) as (H3 & Hs3 & _).
  { pose proof (sh_rng _ _ Hs1 i) as [= Hx Hy]. rewrite Hx, Hy in Hi2.
    pose proof (sh_rng _ _ Hs02 i) as [= -> ->]. done. }
  { intros Hf. apply (core_apart _ _ _ _ _ (st_core _ _ _ _ H2) (p, k)); [done | by right]. }
  { eapply core_ext; [eapply core_release; [apply (st_core _ _ _ _ H2) | by right | by left | done | done]
                     | done | done | | done].
    intros b. unfold addb, delb. split; [|tauto]. intros Hb. split; [by left|]. by intros ->. }
  set (s3 := fl_push s2 i k p) in *.
  assert (i < nn s3)%nat as Hi3 by (by rewrite (shape_nn _ _ Hs3)).
  destruct (St_count s3 _ A' _ i (u64 (free_pages (node s3 i) + 2 ^ Z.of_nat k)) H3 Hi3) as (H4 & Hs4 & _).
  eexists. split; [apply St_g_free; exact H4|]. split.
  { etrans; [exact Hs02|]. etrans; [exact Hs3|]. etrans; [exact Hs4|]. by split. }
  eapply keeps_trans; [exact Hs1 | apply (keeps_mem _ s s1), bitmap_clear_range_mem|].
  eapply keeps_trans; [exact Hs2 | exact HK2|].
  eapply keeps_trans; [exact Hs3 | |apply (keeps_mem _ s3); done].
  apply (keeps_push s2 F2 _ X2 H2); [intros b Hb; by left | done | lia | |].
  - apply (Al_wfb _ _ _ _ H2). by right.
  - intros b Hb Hov. apply (core_alone _ _ _ _ _ (p, k) b (st_core _ _ _ _ H2)); [by right | |].
    + right. split; [by left|]. by intros ->.
    + pose proof (bsize_pos b.2). pose proof (bsize_pos k). unfold overlap; simpl; lia.
Qed.

Lemma free_pages_ok s F A pa ord :
  Inv s F A -> 0 <= ord -> (pa, Z.to_nat ord) ∈ A ->
  exists F', Inv (pmm_free_pages s pa ord) F' (A ∖ {[(pa, Z.to_nat ord)]}) /\
    same_shape s (pmm_free_pages s pa ord) /\
    keeps (fun b => b ∈ A ∖ {[(pa, Z.to_nat ord)]}) s (pmm_free_pages s pa ord).
Proof.
  intros H Ho HA. pose proof (Al_wfb _ _ _ _ H _ HA) as W.
  destruct (wfb_ok_pa _ _ _ _ H _ W) as [Hpa _]. simpl in Hpa.
  assert (Z.to_nat ord <= 10)%nat by apply W. unfold pmm_free_pages, PMM_MAX_ORDER.
  rewrite (proj2 (Z.eqb_neq _ _)), (proj2 (Z.ltb_ge _ _)), (proj2 (Z.ltb_ge _ _)) by lia. simpl.
  pose proof (node_of_from_ok s pa (nn s) 0) as Hn. unfold pmm_node_of. fold (nn s).
  destruct (node_of_from s pa 0 (nn s)) as [i|].
  - destruct Hn. apply (free_into_ok s F A i); (done || lia).
  - destruct W as (_ & _ & r & Hr & H1 & H2). apply elem_ranges in Hr as (j & Hj & ->).
    pose proof (bsize_pos (Z.to_nat ord)). destruct (Hn j ltac:(lia)). simpl in *. lia.
Qed.

End PmmInv.
