(* ===== verification/PmmBoot.v ===== *)
(** * Setting the allocator up: [pmm_init] and [pmm_add_region]

    [pmm_init] establishes the allocator invariant with nothing managed, and
    [pmm_add_region] extends it by a disjoint region, every page of which is then
    on a free list. *)

From S2P Require Import Prelude Buddy Pmm PmmLists PmmProof PmmInv.
Import Buddy Pmm PmmLists PmmProof PmmInv.

Module PmmBoot.

(** ** [pmm_init] *)

(** Node slots past [pmm_nnodes] are still as the zeroed static storage has them. *)
Definition fresh_slots (s : pmm) : Prop :=
  length (pmm_nodes s) = 8%nat /\ 0 <= pmm_nnodes s /\ forall j, (nn s <= j < 8)%nat -> node s j = zero_node.

Lemma all_ones_bit n : 0 <= n < 8 -> truthy (Z.land (Z.shiftr 0xFF n) 1) = true.
Proof. intros. rewrite truthy_bit by lia. change 0xFF with (Z.ones 8). apply Z.ones_spec_low. lia. Qed.

Lemma init_used s old bpa size q :
  phys_to_virt bpa <> 0 -> 0 <= size < 2 ^ 40 -> (4096 | size) ->
  used (pmm_init s old bpa size) q = true.
Proof.
  intros Hb Hs [c Hc]. unfold used. destruct (Z.ltb_spec q 0); simpl; [done|].
  unfold bitmap_test, bitmap_bound, pmm_init. simpl. rewrite (proj2 (Z.eqb_neq _ _)) by done.
  change PAGE_SIZE with (2 ^ 12). rewrite ALIGN_spec by lia.
  rewrite Z.div_mul by lia.
  assert ((size + 2 ^ 12 - 1) / 2 ^ 12 = c) as -> by zdm.
  rewrite (u64_small (c * 2 ^ 12)), u64_small by lia.
  destruct (Z.leb_spec (c * 2 ^ 12 * 8) q); [done|].
  rewrite (proj2 (Z.leb_le _ _)), (proj2 (Z.ltb_lt _ _)) by zdm. simpl.
  apply all_ones_bit. zdm.
Qed.

Lemma init_ok s old bpa size F :
  length (pmm_nodes s) = 8%nat ->
  phys_to_virt bpa <> 0 -> 2 ^ 16 <= size < 2 ^ 40 -> (4096 | size) ->
  Inv (pmm_init s old bpa size) F ∅.
Proof.
  intros Hl Hb Hs Hd. assert (nn (pmm_init s old bpa size) = 0%nat) as Hn by done.
  assert (forall b, Fr (pmm_init s old bpa size) F b -> False) as Hfr by (intros b (i & Hi & _); lia).
  split.
  - split; rewrite ?Hn; intros; try lia. simpl. lia.
  - by apply Forall_nil.
  - intros i j r r' Hr. done.
  - unfold pmm_init. simpl. by rewrite (proj2 (Z.eqb_neq _ _)).
  - unfold bitmap_bound, pmm_init. simpl. change PAGE_SIZE with (2 ^ 12).
    rewrite ALIGN_spec by lia. rewrite Z.div_mul by lia. destruct Hd as [c ->].
    assert ((c * 4096 + 2 ^ 12 - 1) / 2 ^ 12 = c) as -> by zdm.
    rewrite (u64_small (c * 2 ^ 12)), u64_small by lia. lia.
  - split.
    + intros b [?|?]; [by destruct (Hfr b) | set_solver].
    + intros b c [?|?]; [by destruct (Hfr b) | set_solver].
    + intros b Hb'. by destruct (Hfr b).
    + intros b Hb'. by destruct (Hfr b).
    + intros q. by rewrite init_used by (done || lia).
    + intros p k _ Hp. by destruct (Hfr (p, k)).
    + intros r q Hr. by apply elem_of_nil in Hr.
Qed.

(** ** The carving loop *)

Lemma fit_order_ok pa end_ o :
  (4096 | pa) -> 0 <= pa -> pa + 4096 <= end_ -> end_ <= 2 ^ 31 -> (o <= 10)%nat ->
  let k := fit_order pa end_ o in
  (k <= o)%nat /\ (bsize k | pa) /\ pa + bsize k <= end_.
Proof.
  intros Hd H0 He H31. induction o as [|o IH]; intros Ho; cbn [fit_order].
  { split; [lia|]. rewrite bsize_0. auto. }
  rewrite bsize_shl by done. pose proof (bsize_bound (S o) Ho) as Hb.
  rewrite (u64_small (pa + bsize (S o))), (u64_small (bsize (S o) - 1)) by lia.
  destruct (truthy _ || _) eqn:E.
  { destruct IH as (? & ? & ?); [lia|]. auto. }
  b2p. split; [lia|]. split; [|lia]. apply Z.mod_divide; [lia|].
  rewrite bsize_pow2, <- land_ones_mod, <- bsize_pow2 by lia. done.
Qed.

(** The state of the loop at [pa]: the pages from [pa] to [end_] are the only ones
    no block has, and their bits are set. *)
Record filling (s : pmm) (F : lists) (A : gset block) (pa end_ : Z) : Prop := {
  fi_st : St s F (fun b => b ∈ A) (fun q => pa <= 4096 * q < end_);
  fi_out : forall c, Fr s F c \/ c ∈ A -> c.1 + bsize c.2 <= pa \/ end_ <= c.1;
  fi_used : forall q, pa <= 4096 * q < end_ -> used s q = true
}.

Lemma add_block_ok s F A i pa end_ k :
  filling s F A pa end_ -> (i < nn s)%nat -> rng s i = (base (node s i), end_) ->
  base (node s i) <= pa -> (k <= 10)%nat -> (bsize k | pa) -> pa + bsize k <= end_ ->
  let s1 := fl_push s i k pa in
  let s2 := with_node s1 i (set_free_pages (node s1 i) (u64 (free_pages (node s1 i) + 2 ^ Z.of_nat k))) in
  let F' := upd F i k (pa :: F i k) in
  filling s2 F' A (pa + bsize k) end_ /\ same_shape s s2 /\
  (forall b, Fr s2 F' b <-> addb (Fr s F) (pa, k) b) /\
  free_pages (node s2 i) = u64 (free_pages (node s i) + 2 ^ Z.of_nat k).
Proof.
  intros [H Hc Hu] Hi Hr Hlo Hk Hd He s1 s2 F'. injection Hr as Hlim.
  pose proof (bsize_pos k) as Hp. destruct (lo_nodes _ _ (st_lists _ _ _ _ H)) as [Hlen Hn].
  destruct (St_push s F _ (fun b => b ∈ A) _
    (fun q => pa + bsize k <= 4096 * q < end_) i k pa H Hi Hk) as (H1 & Hs1 & Hb1).
  { lia. }
  { intros Hf. destruct (Hc _ (or_introl Hf)); simpl in *; lia. }
  { eapply core_ext; [apply core_add; [apply H | | |] | done | done | done |].
    - split; [done|]. split; [done|]. exists (rng s i). split; [apply elem_ranges; eauto|]. simpl. lia.
    - intros q Hq. apply Hu. unfold inb in Hq. simpl in Hq. lia.
    - intros c Hcc. unfold overlap. simpl. destruct (Hc c Hcc); lia.
    - unfold inb. simpl. lia. }
  assert (i < nn s1)%nat as Hi1 by (unfold s1; by rewrite (shape_nn _ _ Hs1)).
  destruct (St_count _ _ _ _ i (u64 (free_pages (node s1 i) + 2 ^ Z.of_nat k)) H1 Hi1) as (H2 & Hs2 & Hb2).
  assert (same_shape s s2) as Hs by (by etrans).
  assert (forall b, Fr s2 F' b <-> addb (Fr s F) (pa, k) b) as HF by (intros b; by apply Fr_push).
  assert (forall q, used s2 q = used s q) as Hus by (by apply shape_used).
  split; [|split; [done|split; [done|]]].
  - split; [done | |].
    + intros c [Hf|Ha]; [apply HF in Hf as [Hf| ->]|].
      * destruct (Hc c (or_introl Hf)); [left; lia | by right].
      * left. simpl. lia.
      * destruct (Hc c (or_intror Ha)); [left; lia | by right].
    + intros q Hq. rewrite Hus. apply Hu. lia.
  - unfold s2. rewrite node_with_node, decide_True by (done || (simpl; rewrite length_insert; lia)).
    simpl. do 2 f_equal. unfold s1. rewrite fl_push_spec.
    by destruct (node_set_head s (push_mem (mem s) (va pa) (head (node s i) k)) i k (va pa) i ltac:(lia)) as (_ & _ & _ & ->).
Qed.

Lemma filling_done s F A pa end_ : filling s F A pa end_ -> end_ <= pa -> Inv s F A.
Proof. intros [H _ _] He. eapply St_ext; [exact H | done |]. simpl. lia. Qed.

Lemma add_blocks_ok A i end_ fuel : forall s F pa,
  filling s F A pa end_ -> (i < nn s)%nat -> rng s i = (base (node s i), end_) ->
  base (node s i) <= pa <= end_ -> (4096 | pa) -> (4096 | end_) -> end_ - pa <= 4096 * Z.of_nat fuel ->
  let s' := add_blocks s i pa end_ fuel in
  exists F', Inv s' F' A /\ same_shape s s' /\
    (forall b, Fr s F b -> Fr s' F' b) /\
    u64 (free_pages (node s' i)) = u64 (free_pages (node s i) + (end_ - pa) / 4096).
Proof.
  induction fuel as [|f IH]; intros s F pa H Hi Hr Hpa Hd Hde Hf s'; unfold s'; cbn [add_blocks].
  { exists F. split; [by apply (filling_done s F A pa end_); [|lia]|]. split; [reflexivity|]. split; [done|].
    replace pa with end_ by lia. rewrite Z.sub_diag. f_equal. rewrite Z.div_0_l by lia. lia. }
  destruct (Z.ltb_spec pa end_) as [Hlt|Hge].
  2:{ exists F. split; [by apply (filling_done s F A pa end_); [|lia]|]. split; [reflexivity|]. split; [done|].
      replace pa with end_ by lia. rewrite Z.sub_diag. f_equal. rewrite Z.div_0_l by lia. lia. }
  destruct (rng_ok _ _ _ _ (fi_st _ _ _ _ _ H) i Hi) as (_ & Hb & _ & H31). rewrite Hr in Hb, H31. simpl in Hb, H31.
  destruct (fit_order_ok pa end_ 10) as (Hk & Hal & Hfit); [done | lia | | lia | done |].
  { destruct Hd as [a ->], Hde as [b ->]. lia. }
  set (k := fit_order pa end_ 10) in *. pose proof (bsize_bound k Hk) as Hsz.
  rewrite bsize_shl, (u64_small (pa + bsize k)) by lia.
  destruct (add_block_ok s F A i pa end_ k) as (H1 & Hs1 & HF1 & Hfp); auto; [lia|].
  set (s1 := fl_push s i k pa) in *. set (s2 := with_node s1 i _) in *.
  pose proof (sh_rng _ _ Hs1 i) as Hr1. pose proof Hr1 as [= Hbase Hlim].
  destruct (IH s2 _ (pa + bsize k) H1) as (F' & H2 & Hs2 & HF2 & Hfp2).
  { by rewrite (shape_nn _ _ Hs1). }
  { by rewrite Hr1, Hbase. }
  { rewrite Hbase. lia. }
  { apply Z.divide_add_r; [done | apply bsize_page]. }
  { done. }
  { lia. }
  exists F'. split; [done|]. split; [by etrans|]. split.
  - intros b Hb'. apply HF2, HF1. by left.
  - rewrite Hfp2, Hfp. unfold u64. rewrite Z.add_mod_idemp_l by lia. f_equal.
    replace (end_ - pa) with (end_ - (pa + bsize k) + 2 ^ Z.of_nat k * 4096) by (unfold bsize, PAGE_SIZE; lia).
    rewrite Z.div_add by lia. lia.
Qed.

(** ** [pmm_add_region] *)

(** A region a well-behaved memory map reports: it starts on a 4 MB boundary at or
    above 16 MB, ends below 2 GB and has at least a page. *)
Definition region_ok (b len : Z) : Prop :=
  (2 ^ 22 | b) /\ 0x1000000 <= b /\ 4096 <= len /\ b + len <= 2 ^ 31.
Definition region_end (b len : Z) : Z := (b + len) / 4096 * 4096.

Lemma node_insert ns i nd j : (i < length ns)%nat ->
  nth j (<[i := nd]> ns) zero_node = if decide (i = j) then nd else nth j ns zero_node.
Proof.
  intros Hi. rewrite !nth_lookup, list_lookup_insert.
  repeat case_decide; try done; exfalso; intuition lia.
Qed.

(** [s1] is [s] with one more node, empty, for [start, end_). *)
Record opened (s s1 : pmm) (start end_ : Z) : Prop := {
  op_mem : mem s1 = mem s;
  op_len : length (pmm_nodes s1) = length (pmm_nodes s);
  op_nn : nn s1 = S (nn s);
  op_bitmap : pmm_bitmap s1 = pmm_bitmap s /\ pmm_bitmap_pages s1 = pmm_bitmap_pages s;
  op_old : forall j, j <> nn s -> node s1 j = node s j;
  op_free : free (node s1 (nn s)) = replicate 11 0;
  op_rng : rng s1 (nn s) = (start, end_)
}.

Definition widen (s : pmm) (F : lists) : lists := fun i k => if decide (i < nn s)%nat then F i k else [].

Section open_node.
Context (s s1 : pmm) (F : lists) (A : gset block) (start end_ : Z).
Context (H : Inv s F A) (O : opened s s1 start end_) (Hroom : (nn s < 8)%nat).
Context (Hok : range_ok (start, end_)).
Context (Hdis : forall i, (i < nn s)%nat -> limit (node s i) <= start \/ end_ <= base (node s i)).

Lemma opened_ranges : ranges s1 = ranges s ++ [(start, end_)].
Proof.
  unfold ranges. rewrite (op_nn _ _ _ _ O), seq_S, fmap_app. simpl. rewrite (op_rng _ _ _ _ O). f_equal.
  apply list_fmap_ext. intros i x Hx. apply lookup_seq in Hx as [-> Hx]. simpl. unfold rng.
  rewrite (op_old _ _ _ _ O) by lia. done.
Qed.

Lemma opened_Fr b : Fr s1 (widen s F) b <-> Fr s F b.
Proof.
  unfold Fr, widen. rewrite (op_nn _ _ _ _ O). split; intros (i & Hi & Hb & Hel); exists i.
  - case_decide; [done | by apply elem_of_nil in Hel].
  - rewrite decide_True by done. auto with lia.
Qed.

Lemma opened_used q : used s1 q = used s q.
Proof.
  destruct (op_bitmap _ _ _ _ O) as [E1 E2]. unfold used, bitmap_test, bitmap_bound. by rewrite E1, E2.
Qed.

Lemma opened_lists : lists_ok s1 (widen s F).
Proof.
  pose proof (st_lists _ _ _ _ H) as L. destruct (lo_nodes _ _ L) as [Hlen Hn].
  assert (forall i, (i < nn s1)%nat -> (i < nn s)%nat \/ i = nn s) as Hcase.
  { rewrite (op_nn _ _ _ _ O). lia. }
  unfold widen. split.
  - rewrite (op_len _ _ _ _ O), (op_nn _ _ _ _ O). lia.
  - intros i Hi. destruct (Hcase i Hi) as [?| ->]; [|by rewrite (op_free _ _ _ _ O)].
    rewrite (op_old _ _ _ _ O) by lia. by apply L.
  - intros i k Hi Hk. rewrite (op_mem _ _ _ _ O). destruct (Hcase i Hi) as [?| ->].
    + rewrite decide_True, (op_old _ _ _ _ O) by lia. by apply L.
    + rewrite decide_False by lia. simpl. unfold head. rewrite (op_free _ _ _ _ O).
      rewrite nth_lookup, lookup_replicate_2 by lia. done.
  - intros i k pa Hi Hk. case_decide; [|by intros ?%elem_of_nil].
    rewrite (op_old _ _ _ _ O) by lia. by apply L.
  - intros i k Hi Hk. case_decide; [by apply L | apply NoDup_nil_2].
  - intros i k i' k' pa Hi Hk Hi' Hk'. do 2 case_decide; intros J1 J2;
      try (by apply elem_of_nil in J1); try (by apply elem_of_nil in J2). by apply (lo_uniq _ _ L i k i' k' pa).
Qed.

Lemma opened_disjoint : disjoint_ranges (ranges s1).
Proof.
  rewrite opened_ranges. intros i j r r' Hi Hj Hne.
  pose proof (st_disj _ _ _ _ H) as Hd.
  assert (length (ranges s) = nn s) as Hl by (unfold ranges; by rewrite length_fmap, length_seq).
  unfold range in *.
  apply lookup_app_Some in Hi as [Hi|[Hli Hi]], Hj as [Hj|[Hlj Hj]].
  - by apply (Hd i j).
  - apply list_lookup_singleton_Some in Hj as [_ <-]. pose proof (lookup_lt_Some _ _ _ Hi).
    rewrite lookup_ranges in Hi by lia. injection Hi as <-. apply Hdis. lia.
  - apply list_lookup_singleton_Some in Hi as [_ <-]. pose proof (lookup_lt_Some _ _ _ Hj).
    rewrite lookup_ranges in Hj by lia. injection Hj as <-. simpl. destruct (Hdis j); lia.
  - apply list_lookup_singleton_Some in Hi as [? _], Hj as [? _]. lia.
Qed.

Lemma opened_ok : filling s1 (widen s F) A start end_.
Proof.
  destruct (op_bitmap _ _ _ _ O) as [E1 E2].
  assert (forall c, Fr s F c \/ c ∈ A -> c.1 + bsize c.2 <= start \/ end_ <= c.1) as Hout.
  { intros c Hc. destruct (core_wf _ _ _ _ _ (st_core _ _ _ _ H) c Hc) as (_ & _ & r & Hr & H1 & H2).
    apply elem_ranges in Hr as (i & Hi & ->). simpl in *. destruct (Hdis i Hi); lia. }
  split.
  - split.
    + apply opened_lists.
    + rewrite opened_ranges. apply Forall_app. split; [apply H | by apply Forall_singleton].
    + apply opened_disjoint.
    + rewrite E1. apply H.
    + unfold bitmap_bound. rewrite E2. apply H.
    + rewrite opened_ranges.
      eapply core_ext; [apply core_more_ranges, H | exact opened_used | exact opened_Fr | done |].
      simpl. tauto.
  - intros c Hc. apply Hout. rewrite opened_Fr in Hc. done.
  - intros q Hq. rewrite opened_used. destruct (used s q) eqn:E; [done|exfalso].
    destruct (core_cover _ _ _ _ _ (st_core _ _ _ _ H) q E) as [[]|(b & Hb & Hin)].
    destruct (Hout b (or_introl Hb)); unfold inb in Hin; lia.
Qed.

End open_node.

(** The carving loop works on one node. *)
Lemma add_blocks_frame i end_ fuel : forall s pa,
  let s' := add_blocks s i pa end_ fuel in
  length (pmm_nodes s') = length (pmm_nodes s) /\ pmm_nnodes s' = pmm_nnodes s /\
  (forall j, j <> i -> node s' j = node s j).
Proof.
  induction fuel as [|f IH]; intros s pa; cbn [add_blocks]; [done|].
  destruct (pa <? end_); [|done]. set (k := fit_order pa end_ 10).
  set (s1 := fl_push s i k pa). set (s2 := with_node s1 i _).
  destruct (IH s2 (u64 (pa + shl64 PAGE_SIZE (Z.of_nat k)))) as (H1 & H2 & H3).
  rewrite H1, H2. split; [simpl; by rewrite !length_insert|]. split; [done|].
  intros j Hj. rewrite (H3 j Hj). unfold node, s2. simpl.
  rewrite !nth_lookup, !list_lookup_insert_ne by done. done.
Qed.

Lemma region_bounds b len : region_ok b len ->
  ALIGN b PAGE_SIZE = b /\ ALIGN_DOWN (u64 (b + len)) PAGE_SIZE = region_end b len /\
  b < region_end b len <= 2 ^ 31 /\ (4096 | b) /\ (4096 | region_end b len).
Proof.
  intros ([c Hc] & H1 & H2 & H3). unfold region_end. change PAGE_SIZE with (2 ^ 12).
  rewrite ALIGN_spec, u64_small, ALIGN_DOWN_spec by lia. change (2 ^ 12) with 4096.
  split; [zdm|]. split; [done|]. split; [zdm|]. split; [|by eexists].
  exists (c * 1024). lia.
Qed.

(** What a successful [pmm_add_region] leaves. *)
Record region_added (s : pmm) (F : lists) (A : gset block) (b len : Z) (s' : pmm) (F' : lists) : Prop := {
  ra_inv : Inv s' F' A;
  ra_slots : fresh_slots s';
  ra_nn : nn s' = S (nn s);
  ra_rng : rng s' (nn s) = (b, region_end b len);
  ra_old : forall j, (j < nn s)%nat -> rng s' j = rng s j;
  ra_keep : forall c, Fr s F c -> Fr s' F' c;
  ra_pages : u64 (g_free_ram_pages s') = (region_end b len - b) / 4096
}.

Lemma add_region_new s b len : region_ok b len -> pmm_node_of s b = None -> (nn s < 8)%nat -> 0 <= pmm_nnodes s ->
  pmm_add_region s b len =
  fill_node (mk_pmm (mem s)
    (<[nn s := mk_node (free (node s (nn s))) (free_pages (node s (nn s))) (total_pages (node s (nn s)))
                 b (region_end b len)]> (pmm_nodes s))
    (u32 (pmm_nnodes s + 1)) (g_total_ram_pages s) (g_free_ram_pages s)
    (pmm_bitmap s) (pmm_bitmap_pages s) (pmm_total_pages s)) (nn s) b (region_end b len).
Proof.
  intros Hr Hn Hroom H0. destruct (region_bounds b len Hr) as (E1 & E2 & E3 & _).
  destruct Hr as (_ & Hlo & _). unfold pmm_add_region. rewrite E1, E2. unfold PMM_RESERVED, PMM_MAX_NODES.
  rewrite (proj2 (Z.leb_gt _ _)), (proj2 (Z.ltb_ge _ _)), (proj2 (Z.leb_gt _ _)) by lia.
  rewrite Hn. unfold nn in Hroom. rewrite (proj2 (Z.leb_gt _ _)) by lia. done.
Qed.

Lemma add_region_ok s F A b len :
  Inv s F A -> fresh_slots s -> (nn s < 8)%nat -> region_ok b len ->
  (forall i, (i < nn s)%nat -> limit (node s i) <= b \/ region_end b len <= base (node s i)) ->
  exists F', region_added s F A b len (pmm_add_region s b len) F'.
Proof.
  intros H (Hlen & H0 & Hfresh) Hroom Hr Hdis.
  destruct (region_bounds b len Hr) as (_ & _ & He & Hdb & Hde). pose proof Hr as (_ & Hlo16 & _).
  assert (pmm_node_of s b = None) as Hnone.
  { unfold pmm_node_of. fold (nn s). pose proof (node_of_from_ok s b (nn s) 0) as Hn.
    destruct (node_of_from s b 0 (nn s)) as [j|]; [|done]. destruct Hn as [Hj Hin].
    destruct (Hdis j); lia. }
  rewrite add_region_new by done. unfold fill_node. set (n := nn s) in *.
  rewrite Hfresh by lia. set (s0 := mk_pmm (mem s) (<[n := _]> (pmm_nodes s)) _ _ _ _ _ _).
  assert (node s0 n = mk_node (replicate 11 0) 0 0 b (region_end b len)) as Hn0.
  { unfold s0, node. simpl. rewrite node_insert, decide_True by (done || lia). done. }
  rewrite Hn0. simpl. rewrite (u64_small (region_end b len - b)) by lia.
  set (pages := (region_end b len - b) / PAGE_SIZE).
  set (s1 := mk_pmm (mem s) (<[n := _]> _) (u32 (pmm_nnodes s + 1)) _ _ _ _ _).
  assert (forall j, node s1 j = if decide (n = j)
            then mk_node (replicate 11 0) 0 (u64 pages) b (region_end b len) else node s j) as Hnd.
  { intros j. unfold s1, node. simpl. rewrite node_insert by (rewrite length_insert; lia).
    case_decide; [done|]. rewrite node_insert, decide_False by (done || lia). done. }
  assert (nn s1 = S n) as Hnn.
  { unfold s1, n, nn in *. simpl. change (2 ^ 32) with 4294967296 in *. rewrite u32_small by lia. lia. }
  assert (opened s s1 b (region_end b len)) as O.
  { split; try done; unfold rng; rewrite ?Hnd, ?decide_True by done; try done.
    - simpl. by rewrite !length_insert.
    - intros j Hj. rewrite Hnd, decide_False by done. done. }
  assert (filling s1 (widen s F) A b (region_end b len)) as H1.
  { apply opened_ok; try done. destruct Hr as (? & ? & ? & ?). split; [done|]. simpl. lia. }
  pose proof (op_rng _ _ _ _ O) as Hrng. fold n in Hrng. pose proof Hrng as [= Hbase Hlim].
  destruct (add_blocks_ok A n (region_end b len) (Z.to_nat pages) s1 _ b H1) as (F' & H2 & Hs2 & Hkeep & Hfp); auto.
  { lia. }
  { by rewrite Hbase. }
  { lia. }
  { unfold pages, PAGE_SIZE. zdm. }
  destruct (add_blocks_frame n (region_end b len) (Z.to_nat pages) s1 b) as (L1 & L2 & L3).
  set (s2 := add_blocks s1 n b _ _) in *.
  exists F'. split.
  - by apply St_g_free.
  - split; [simpl; rewrite L1; simpl; by rewrite !length_insert|].
    assert (nn (with_g_free s2 (free_pages (node s2 n))) = S n) as Hnn2 by (unfold nn in *; simpl; by rewrite L2).
    rewrite Hnn2. split; [simpl; rewrite L2; unfold s1; simpl; apply u32_range|].
    intros j Hj. change (node (with_g_free s2 _) j) with (node s2 j).
    rewrite L3, Hnd, decide_False by lia. apply Hfresh. lia.
  - unfold nn in *. simpl. by rewrite L2.
  - pose proof (sh_rng _ _ Hs2 n) as E. rewrite Hrng in E. exact E.
  - intros j Hj. assert (node s2 j = node s j) as E by (rewrite L3, Hnd, decide_False by lia; done).
    unfold rng. by rewrite <- E.
  - intros c Hc. apply Hkeep. by apply (opened_Fr s s1 F b (region_end b len) O).
  - simpl. rewrite Hfp, Hnd, decide_True by done. simpl. unfold pages, PAGE_SIZE in *. apply u64_small. zdm.
Qed.

End PmmBoot.
