(* ===== verification/PmmSpec.v ===== *)
(** * The contract of the physical memory manager

    An abstract allocator hands out aligned blocks that overlap no live block and
    takes back live ones.  The pointer-level code of [Pmm] simulates it; from a
    booted system every run of calls keeps the live blocks apart, loses no page,
    and fails only when no block is large enough.  The last section evaluates the
    cases in which the code departs from what it means to do. *)

From S2P Require Import Prelude Buddy Pmm PmmLists PmmProof PmmInv PmmBoot.
Import Buddy Pmm PmmLists PmmProof PmmInv PmmBoot.

Module PmmSpec.

(** ** The abstract allocator *)

Inductive call := Alloc (ord : Z) | Free (pa ord : Z).

(** One call on the code. *)
Definition exec (s : pmm) (c : call) : pmm * Z :=
  match c with
  | Alloc ord => pmm_alloc_pages s ord
  | Free pa ord => (pmm_free_pages s pa ord, 0)
  end.

(** One call on the set of live blocks. *)
Inductive astep (N : list range) (A : gset block) : call -> Z -> gset block -> Prop :=
| a_alloc ord r :
    0 <= ord -> wfb N (r, Z.to_nat ord) -> r <> 0 ->
    (forall c, c ∈ A -> ~ overlap c (r, Z.to_nat ord)) ->
    astep N A (Alloc ord) r (A ∪ {[(r, Z.to_nat ord)]})
| a_oom ord : astep N A (Alloc ord) 0 A
| a_free pa ord :
    (pa, Z.to_nat ord) ∈ A -> astep N A (Free pa ord) 0 (A ∖ {[(pa, Z.to_nat ord)]}).

(** A client frees only what it holds. *)
Definition valid (A : gset block) (c : call) : bool :=
  match c with
  | Alloc _ => true
  | Free pa ord => (0 <=? ord) && bool_decide ((pa, Z.to_nat ord) ∈ A)
  end.

Lemma alloc_rejects s ord : ord < 0 \/ PMM_MAX_ORDER < ord -> pmm_alloc_pages s ord = (s, 0).
Proof.
  intros H. unfold pmm_alloc_pages.
  destruct (Z.ltb_spec ord 0), (Z.ltb_spec PMM_MAX_ORDER ord); simpl; (done || lia).
Qed.

(** With every list from [ord] up empty the node loop runs to its end. *)
Lemma alloc_loop_empty s F A ord fuel : forall i,
  Inv s F A -> (i + fuel <= nn s)%nat -> (ord <= 10)%nat ->
  (forall j k, (j < nn s)%nat -> (ord <= k <= 10)%nat -> F j k = []) ->
  alloc_loop s ord i fuel = (s, 0).
Proof.
  induction fuel as [|f IH]; intros i H Hn Ho Hno; simpl; [done|].
  destruct (find_avail_spec (node s i) (11 - ord) ord ltac:(lia)) as (H1 & _ & H3).
  destruct (Nat.ltb_spec 10 (find_avail (node s i) ord (11 - ord))) as [_|Hav]; [apply IH; (done || lia)|].
  exfalso. apply H3; [lia|].
  destruct (head_cases s F i (find_avail (node s i) ord (11 - ord)) (st_lists _ _ _ _ H)) as [[_ ?]|(x & l & E & _)];
    [lia | lia | done |]. rewrite Hno in E by lia. done.
Qed.

(** What a call that did not fail returned. *)
Lemma alloc_block s F A ord :
  Inv s F A -> 0 <= ord <= PMM_MAX_ORDER ->
  pmm_alloc_pages s ord = (s, 0) \/
  (exists s' F' r, pmm_alloc_pages s ord = (s', r) /\ r <> 0 /\ Inv s' F' (A ∪ {[(r, Z.to_nat ord)]}) /\
     same_shape s s' /\ wfb (ranges s) (r, Z.to_nat ord) /\
     (forall c, c ∈ A -> ~ overlap c (r, Z.to_nat ord))).
Proof.
  intros H Ho. destruct (alloc_pages_ok s F A ord H Ho) as [[-> _]|(F' & H' & Hs & _ & Hn & _)]; [by left|right].
  destruct (pmm_alloc_pages s ord) as [s' r]. simpl in *. exists s', F', r.
  assert (wfb (ranges s') (r, Z.to_nat ord)) as W.
  { eapply Al_wfb; [exact H'|]. simpl. set_solver. }
  destruct (wfb_ok_pa _ _ _ _ H' _ W) as [Hr _]. simpl in Hr.
  split; [done|]. split; [lia|]. split; [done|]. split; [done|].
  rewrite (shape_ranges _ _ Hs) in W. split; [done|]. intros c Hc Hov.
  assert (c = (r, Z.to_nat ord)) as ->; [|by apply (Hn (Z.to_nat ord))].
  apply (core_disj _ _ _ _ _ (st_core _ _ _ _ H')); [right; set_solver | right; set_solver | done].
Qed.

(** The live set after a call, from what the call returned. *)
Definition live (A : gset block) (c : call) (r : Z) : gset block :=
  match c with
  | Alloc ord => if r =? 0 then A else A ∪ {[(r, Z.to_nat ord)]}
  | Free pa ord => A ∖ {[(pa, Z.to_nat ord)]}
  end.

Lemma exec_ok s F A c : Inv s F A -> valid A c = true ->
  exists F', Inv (exec s c).1 F' (live A c (exec s c).2) /\ same_shape s (exec s c).1.
Proof.
  intros H Hv. destruct c as [ord|pa ord]; simpl.
  - destruct (decide (0 <= ord <= PMM_MAX_ORDER)) as [Ho|Ho].
    + destruct (alloc_block s F A ord H Ho) as [->|(s' & F' & r & -> & Hr & H' & Hs & _)]; simpl.
      * exists F. by split.
      * exists F'. by rewrite (proj2 (Z.eqb_neq _ _)).
    + rewrite alloc_rejects by lia. exists F. by split.
  - simpl in Hv. b2p. apply bool_decide_eq_true in H1. destruct (free_pages_ok s F A pa ord) as (F' & ? & ? & _); eauto.
Qed.

(** (C1) Refinement: every call a client may make on a state that satisfies the
    allocator invariant is a step of the abstract allocator, and leads to a state
    that satisfies the invariant for the new set of live blocks, with the managed
    ranges unchanged. *)
Theorem pmm_refines s F A c :
  Inv s F A -> valid A c = true ->
  exists A' F', astep (ranges s) A c (exec s c).2 A' /\ Inv (exec s c).1 F' A' /\
    same_shape s (exec s c).1.
Proof.
  intros H Hv. destruct c as [ord|pa ord]; simpl.
  - destruct (decide (0 <= ord <= PMM_MAX_ORDER)) as [Ho|Ho].
    + destruct (alloc_block s F A ord H Ho) as [->|(s' & F' & r & -> & Hr & H' & Hs & W & Hd)].
      * exists A, F. split; [constructor | by split].
      * exists (A ∪ {[(r, Z.to_nat ord)]}), F'. split; [by constructor; [lia|..] | by split].
    + rewrite alloc_rejects by lia. exists A, F. split; [constructor | by split].
  - simpl in Hv. b2p. apply bool_decide_eq_true in H1.
    destruct (free_pages_ok s F A pa ord H H0 H1) as (F' & H' & Hs & _).
    eexists _, F'. split; [by constructor | by split].
Qed.

(** ** Runs from boot *)

(** [pmm_init(0x200000, 0x100000)] and a [pmm_add_region] per usable region, as
    [nekros_main] does. *)
Definition boot (old : Z -> Z) (rs : list (Z * Z)) : pmm :=
  fold_left (fun s r => pmm_add_region s r.1 r.2) rs (pmm_init pmm_bss old 0x200000 0x100000).

Definition apart (x y : Z * Z) : Prop :=
  region_end x.1 x.2 <= y.1 \/ region_end y.1 y.2 <= x.1.

Definition memory_map (rs : list (Z * Z)) : Prop :=
  (length rs <= 8)%nat /\ Forall (fun r => region_ok r.1 r.2) rs /\ ForallOrdPairs apart rs.

Lemma add_regions_ok rs : forall s F A,
  Inv s F A -> fresh_slots s -> (nn s + length rs <= 8)%nat ->
  Forall (fun r => region_ok r.1 r.2) rs -> ForallOrdPairs apart rs ->
  Forall (fun r => forall i, (i < nn s)%nat ->
    limit (node s i) <= r.1 \/ region_end r.1 r.2 <= base (node s i)) rs ->
  let s' := fold_left (fun s r => pmm_add_region s r.1 r.2) rs s in
  exists F', Inv s' F' A /\
    ranges s' = ranges s ++ map (fun r => (r.1, region_end r.1 r.2)) rs.
Proof.
  induction rs as [|[b len] rs IH]; intros s F A H Hf Hn Hok Hap Hout s'.
  { exists F. split; [done|]. by rewrite app_nil_r. }
  apply Forall_cons in Hok as [Hr Hok]. apply Forall_cons in Hout as [Ho Hout].
  inversion Hap as [|? ? Hap1 Hap2]; subst. simpl in Hn, Hr, Ho.
  destruct (add_region_ok s F A b len H Hf ltac:(lia) Hr Ho) as (F1 & R).
  destruct (IH _ F1 A (ra_inv _ _ _ _ _ _ _ R) (ra_slots _ _ _ _ _ _ _ R)) as (F2 & H2 & E).
  { rewrite (ra_nn _ _ _ _ _ _ _ R). lia. }
  { done. }
  { done. }
  { rewrite (ra_nn _ _ _ _ _ _ _ R). rewrite Forall_forall in Hout, Hap1 |- *. intros r Hrin i Hi.
    destruct (decide (i = nn s)) as [->|].
    - pose proof (ra_rng _ _ _ _ _ _ _ R) as [= -> ->]. apply (Hap1 r Hrin).
    - pose proof (ra_old _ _ _ _ _ _ _ R i ltac:(lia)) as [= -> ->]. apply (Hout r Hrin). lia. }
  exists F2. split; [exact H2|]. unfold s'. simpl. rewrite E. clear E.
  unfold ranges. rewrite (ra_nn _ _ _ _ _ _ _ R), seq_S, fmap_app, <- app_assoc. simpl.
  rewrite (ra_rng _ _ _ _ _ _ _ R). f_equal. apply list_fmap_ext.
  intros i x Hx. apply lookup_seq in Hx as [-> Hx]. apply (ra_old _ _ _ _ _ _ _ R). lia.
Qed.

Lemma boot_ok old rs : memory_map rs ->
  exists F, Inv (boot old rs) F ∅ /\ ranges (boot old rs) = map (fun r => (r.1, region_end r.1 r.2)) rs.
Proof.
  intros (Hl & Hok & Hap).
  apply (add_regions_ok rs (pmm_init pmm_bss old 0x200000 0x100000) (fun _ _ => [])).
  - apply init_ok; [done | done | lia | by exists 256].
  - split; [done|]. split; [done|]. intros j Hj. unfold node. simpl. do 8 (destruct j as [|j]; [done|]). lia.
  - simpl. lia.
  - done.
  - done.
  - apply Forall_forall. intros r _ i Hi. change (nn _) with 0%nat in Hi. lia.
Qed.

(** A run: the client keeps the set of blocks it was given; [None] when it frees
    a block it does not hold. *)
Fixpoint run (s : pmm) (A : gset block) (cs : list call) : option (pmm * gset block) :=
  match cs with
  | [] => Some (s, A)
  | c :: cs' =>
      if valid A c then
        let (s', r) := exec s c in
        run s' (live A c r) cs'
      else None
  end.

Lemma run_inv cs : forall s F A s' A',
  Inv s F A -> run s A cs = Some (s', A') -> exists F', Inv s' F' A' /\ same_shape s s'.
Proof.
  induction cs as [|c cs IH]; intros s F A s' A' H; simpl.
  { intros [= <- <-]. exists F. by split. }
  destruct (valid A c) eqn:Hv; [|done].
  destruct (exec_ok s F A c H Hv) as (F1 & H1 & Hs).
  destruct (exec s c) as [s1 r]. simpl in *. intros E.
  destruct (IH _ _ _ _ _ H1 E) as (F' & H' & Hs'). exists F'. split; [done | by etrans].
Qed.



(** (C28) [pmm_alloc_pages] fails exactly when no node has a free block of the
    requested order or larger: it never gives up early. *)
Theorem alloc_fails_iff s F A ord :
  Inv s F A -> 0 <= ord <= PMM_MAX_ORDER ->
  (pmm_alloc_pages s ord).2 = 0 <->
  forall j k, (j < nn s)%nat -> (Z.to_nat ord <= k <= 10)%nat -> F j k = [].
Proof.
  intros H Ho. destruct (alloc_pages_ok s F A ord H Ho) as [[-> Hno]|(F' & H' & Hs & Hm & _)].
  - split; [intros _ j k Hj Hk; apply Hno; lia | done].
  - assert (wfb (ranges (pmm_alloc_pages s ord).1) ((pmm_alloc_pages s ord).2, Z.to_nat ord)) as W.
    { eapply Al_wfb; [exact H'|]. simpl. set_solver. }
    destruct (wfb_ok_pa _ _ _ _ H' _ W) as [Hr _]. simpl in Hr. split; [lia|]. intros Hno. exfalso.
    assert (alloc_loop s (Z.to_nat ord) 0 (nn s) = (s, 0)) as E
      by (apply (alloc_loop_empty s F A); [done | lia | unfold PMM_MAX_ORDER in *; lia | done]).
    revert Hr. unfold pmm_alloc_pages, PMM_MAX_ORDER in *.
    rewrite (proj2 (Z.ltb_ge _ _)), (proj2 (Z.ltb_ge _ _)) by lia. simpl. fold (nn s). rewrite E. simpl. lia.
Qed.

(** Coalescing is complete: in any run from a booted system no two free
    buddies below the largest order both have all their bits clear, so what was
    freed is always merged as far as it can be. *)
Theorem free_buddies_merged old rs cs s A :
  memory_map rs -> run (boot old rs) ∅ cs = Some (s, A) ->
  exists F, lists_ok s F /\
    forall p k, (k < 10)%nat -> Fr s F (p, k) -> Fr s F (bud p k, k) ->
      clear (used s) (p, k) -> clear (used s) (bud p k, k) -> False.
Proof.
  intros Hm Hrun. destruct (boot_ok old rs Hm) as (F & H & Hr).
  destruct (run_inv _ _ _ _ _ _ H Hrun) as (F' & H' & Hs). exists F'. split; [apply H'|].
  apply (core_buddies _ _ _ _ _ (st_core _ _ _ _ H')).
Qed.

(** Calls outside the contract change nothing: an order out of range makes
    [pmm_alloc_pages] return 0, and [pmm_free_pages] ignores address 0, an order
    out of range and an address no node covers. *)
Theorem pmm_bad_calls s pa ord :
  (ord < 0 \/ PMM_MAX_ORDER < ord -> pmm_alloc_pages s ord = (s, 0) /\ pmm_free_pages s pa ord = s) /\
  pmm_free_pages s 0 ord = s /\
  ((forall j, (j < nn s)%nat -> ~ (base (node s j) <= pa < limit (node s j))) -> pmm_free_pages s pa ord = s).
Proof.
  split; [|split].
  - intros Ho. split; [by apply alloc_rejects|]. unfold pmm_free_pages.
    destruct (Z.ltb_spec ord 0), (Z.ltb_spec PMM_MAX_ORDER ord); rewrite ?orb_true_r; (done || lia).
  - done.
  - intros Hn. unfold pmm_free_pages, pmm_node_of. casei; [done|]. fold (nn s).
    pose proof (node_of_from_ok s pa (nn s) 0) as Hf.
    destruct (node_of_from s pa 0 (nn s)) as [j|]; [|done]. destruct Hf. by destruct (Hn j); [lia|].
Qed.

(** ** Concrete runs *)

Definition no_bytes (_ : Z) : Z := 0.
(** Two regions: 8 MB and 12 KB, and a run over them. *)
Definition map_ex : list (Z * Z) := [(0x1000000, 0x800000); (0x2000000, 0x3000)].
Definition run_ex : list call := [Alloc 0; Alloc 3; Alloc 10; Free 0x1400000 0; Alloc 1].

Lemma map_ex_ok : memory_map map_ex.
Proof.
  unfold memory_map, map_ex. split; [simpl; lia|]. split.
  - apply Forall_cons. split; [|apply Forall_singleton].
    + split; [by exists 4 | simpl; lia].
    + split; [by exists 8 | simpl; lia].
  - constructor; [constructor; [left; vm_compute; done | constructor] | constructor; [constructor | constructor]].
Qed.

(** The run is one a client may make, and this is what it holds afterwards. *)
Definition held (s : pmm) (cs : list call) : option (list block) :=
  match run s ∅ cs with Some (_, A) => Some (elements A) | None => None end.

Lemma run_ex_held :
  held (boot no_bytes map_ex) run_ex = Some [(0x1000000, 10%nat); (0x1402000, 1%nat); (0x1408000, 3%nat)].
Proof. vm_compute. reflexivity. Qed.

Lemma held_some s cs l : held s cs = Some l -> exists s' A, run s ∅ cs = Some (s', A).
Proof. unfold held. destruct (run s ∅ cs) as [[s' A]|]; [by exists s', A | done]. Qed.

Lemma run_ex_some : exists s A, run (boot no_bytes map_ex) ∅ run_ex = Some (s, A).
Proof. exact (held_some _ _ _ run_ex_held). Qed.

Lemma run_ex_inv : exists F, Inv (boot no_bytes map_ex) F ∅.
Proof. destruct (boot_ok no_bytes map_ex map_ex_ok) as (F & H & _). eauto. Qed.

Lemma pmm_refines_witness : exists F A',
  Inv (boot no_bytes map_ex) F ∅ /\ valid ∅ (Alloc 3) = true /\
  astep (ranges (boot no_bytes map_ex)) ∅ (Alloc 3) (exec (boot no_bytes map_ex) (Alloc 3)).2 A'.
Proof.
  destruct run_ex_inv as [F H].
  destruct (pmm_refines (boot no_bytes map_ex) F ∅ (Alloc 3) H eq_refl) as (A' & F' & Hs & _).
  exists F, A'. split; [exact H|]. split; [reflexivity | exact Hs].
Defined.



Lemma alloc_fails_iff_witness : exists F,
  Inv (boot no_bytes map_ex) F ∅ /\
  ((pmm_alloc_pages (boot no_bytes map_ex) 10).2 = 0 <->
   forall j k, (j < nn (boot no_bytes map_ex))%nat -> (Z.to_nat 10 <= k <= 10)%nat -> F j k = []).
Proof.
  destruct run_ex_inv as [F H]. exists F. split; [exact H|].
  apply (alloc_fails_iff (boot no_bytes map_ex) F ∅ 10 H). vm_compute. split; discriminate.
Defined.

Lemma free_buddies_merged_witness : exists s A F,
  run (boot no_bytes map_ex) ∅ run_ex = Some (s, A) /\ lists_ok s F.
Proof.
  destruct run_ex_some as (s & A & E). exists s, A.
  destruct (free_buddies_merged no_bytes map_ex run_ex s A map_ex_ok E) as (F & L & _).
  exists F. split; [exact E | exact L].
Defined.

Lemma pmm_bad_calls_witness : pmm_alloc_pages (boot no_bytes map_ex) 11 = (boot no_bytes map_ex, 0).
Proof. apply (pmm_bad_calls (boot no_bytes map_ex) 0 11). right. reflexivity. Defined.

(** ** Where the code departs from its intent *)

Definition stats_after (s : pmm) (cs : list call) : option (Z * Z) :=
  match run s ∅ cs with Some (s', _) => Some (pmm_stats s') | None => None end.

(** A node that does not start on a block boundary breaks the allocator:
    [pmm_add_region] carves blocks aligned in absolute terms, [buddy_of] pairs them
    relative to the node's base.  On a 12 KB region at 0x1001000 a client that
    frees only what it holds ends up with two live 8 KB blocks that share a page. *)
Theorem unaligned_node_double_allocates :
  held (boot no_bytes [(0x1001000, 0x3000)])
    [Alloc 0; Alloc 1; Free 0x1002000 1; Free 0x1001000 0; Alloc 1; Alloc 1]
  = Some [(0x1001000, 1%nat); (0x1002000, 1%nat)] /\
  overlap (0x1001000, 1%nat) (0x1002000, 1%nat).
Proof. split; [vm_compute; reflexivity | unfold overlap; vm_compute; done]. Qed.

(** Page accounting drifts: a free that coalesces adds the size of the merged
    block, not of the block freed, so after two pages are allocated and freed more
    pages are reported free than there are; and [pmm_add_region] overwrites the
    global count with the new node's, so two regions report the second one only. *)
Theorem free_page_count_drifts :
  stats_after (boot no_bytes [(0x1000000, 0x800000)])
    [Alloc 0; Alloc 0; Free 0x1400000 0; Free 0x1401000 0] = Some (2048, 2049) /\
  pmm_stats (boot no_bytes map_ex) = (2051, 3).
Proof. split; vm_compute; reflexivity. Qed.

(** A block that was split is not put together again: the bits of pages that
    were never handed out stay set from [pmm_init], so the coalescing loop takes
    them for allocated.  After one page of a 4 MB region is allocated and freed
    nothing is live, and a 4 MB allocation fails. *)
Theorem split_block_stays_split :
  held (boot no_bytes [(0x1000000, 0x400000)]) [Alloc 0; Free 0x1000000 0; Alloc 10] = Some [] /\
  held (boot no_bytes [(0x1000000, 0x400000)]) [Alloc 10] = Some [(0x1000000, 10%nat)].
Proof. split; vm_compute; reflexivity. Qed.

End PmmSpec.
