(* ===== verification/PageAlloc.v ===== *)
(** * What the physical memory manager promises its clients

    [PageAlloc] is the view mm/vmm.c has of mm/pmm.c: a client holds a set of
    pages; allocation adds a page it does not hold, release takes one away, the
    words of the pages it holds are its own, and writing them does not disturb the
    allocator.  The buddy allocator is an instance. *)

From S2P Require Import Prelude Buddy Pmm PmmLists PmmProof PmmInv.
Import Buddy Pmm PmmLists PmmProof PmmInv.

Module PageAlloc.

(** The words of page [pa] in the direct map. *)
Definition in_page (pa a : Z) : Prop := va pa <= a < va pa + 4096.

(** [s'] agrees with [s] on the pages of [P] and on the memory outside all nodes (the
    kernel image among it), and manages the same nodes. *)
Record agree (P : gset Z) (s s' : pmm) : Prop := {
  ag_pages : forall pa a, pa ∈ P -> in_page pa a -> mread (mem s') a = mread (mem s) a;
  ag_rest : forall a, ~ managed s a -> mread (mem s') a = mread (mem s) a;
  ag_managed : forall a, managed s' a <-> managed s a
}.

Class PageAlloc (owns : pmm -> gset Z -> Prop) := {
  owns_page : forall s P pa, owns s P -> pa ∈ P -> ok_pa pa;
  owns_managed : forall s P pa a, owns s P -> pa ∈ P -> in_page pa a -> managed s a;
  owns_sub : forall s P Q, owns s P -> Q ⊆ P -> owns s Q;
  owns_alloc : forall s P s' pa, owns s P -> pmm_alloc_page s = (s', pa) ->
    (pa = 0 /\ s' = s) \/ (pa <> 0 /\ pa ∉ P /\ owns s' (P ∪ {[pa]}) /\ agree P s s');
  owns_free : forall s P pa, owns s P -> pa ∈ P ->
    owns (pmm_free_page s pa) (P ∖ {[pa]}) /\ agree (P ∖ {[pa]}) s (pmm_free_page s pa);
  owns_write : forall s P pa a v, owns s P -> pa ∈ P -> in_page pa a ->
    owns (with_mem s (mwrite (mem s) a v)) P;
  owns_write_rest : forall s P a v, owns s P -> ~ managed s a -> owns (with_mem s (mwrite (mem s) a v)) P
}.

(** ** The instance *)

Definition buddy_owns (s : pmm) (P : gset Z) : Prop :=
  exists F A, Inv s F A /\ forall pa, pa ∈ P -> (pa, 0%nat) ∈ A.

Lemma keeps_agree (A : gset block) P s s' :
  (forall pa, pa ∈ P -> (pa, 0%nat) ∈ A) -> same_shape s s' -> keeps (fun b => b ∈ A) s s' -> agree P s s'.
Proof.
  intros HA Hs K. split.
  - intros pa a Hpa Ha. apply K. left. exists (pa, 0%nat). split; [by apply HA | exact Ha].
  - intros a Ha. apply K. by right.
  - intros a. by apply shape_managed.
Qed.

(** Memory outside the free lists is nobody's business but the holder's. *)
Lemma lists_ok_mem s F m :
  lists_ok s F -> (forall i k a, (i < nn s)%nat -> (k <= 10)%nat -> fp (F i k) a -> mread m a = mread (mem s) a) ->
  lists_ok (with_mem s m) F.
Proof.
  intros L Hm. split; try apply L. intros i k Hi Hk. simpl.
  eapply dll_frame; [|by apply (lo_dll _ _ L)]. intros a Ha. by apply (Hm i k).
Qed.

Lemma Inv_write s F A a v : Inv s F A -> words (fun b => b ∈ A) s a ->
  Inv (with_mem s (mwrite (mem s) a v)) F A.
Proof.
  intros H Ha. eapply St_step; [exact H | by split | apply H | | apply (st_core _ _ _ _ H)].
  apply lists_ok_mem; [apply H|]. intros i k x Hi Hk (y & Hy & Hx). apply mread_mwrite_ne. intros ->.
  destruct (free_outside s F _ _ H (fun b => b ∈ A) (fun _ h => h) x i k y Ha Hi Hk Hy) as [? ?]. by destruct Hx.
Qed.

#[export] Instance buddy_page_alloc : PageAlloc buddy_owns.
Proof.
  split.
  - intros s P pa (F & A & H & HP) Hpa. apply (wfb_ok_pa _ _ _ _ H (pa, 0%nat)), (Al_wfb _ _ _ _ H). by apply HP.
  - intros s P pa a (F & A & H & HP) Hpa Ha. pose proof (Al_wfb _ _ _ _ H _ (HP pa Hpa)) as W.
    pose proof (wfb_ok_pa _ _ _ _ H _ W) as Hok. destruct W as (_ & _ & r & Hr & H1 & H2).
    apply elem_ranges in Hr as (i & Hi & ->). unfold in_page in Ha. simpl in *. rewrite (va_ok pa Hok) in Ha.
    change (bsize 0) with 4096 in H2. exists i. split; [done | lia].
  - intros s P Q (F & A & H & HP) HQ. exists F, A. split; [done|]. set_solver.
  - intros s P s' pa (F & A & H & HP) E. unfold pmm_alloc_page in E.
    destruct (alloc_pages_ok s F A 0 H ltac:(done)) as [[E' _]|(F' & H' & Hs & _ & Hn & K)]; rewrite E in *; simpl in *.
    + injection E' as -> ->. by left.
    + right. assert (ok_pa pa) as [Hpa _].
      { apply (wfb_ok_pa _ _ _ _ H' (pa, 0%nat)), (Al_wfb _ _ _ _ H'). set_solver. }
      split; [lia|]. split; [intros Hx; by apply (Hn 0%nat), HP|]. split; [|by eapply keeps_agree].
      exists F', (A ∪ {[(pa, 0%nat)]}). split; [done|]. set_solver.
  - intros s P pa (F & A & H & HP) Hpa. unfold pmm_free_page.
    destruct (free_pages_ok s F A pa 0 H ltac:(done) (HP pa Hpa)) as (F' & H' & Hs & K).
    assert (forall q, q ∈ P ∖ {[pa]} -> (q, 0%nat) ∈ A ∖ {[(pa, Z.to_nat 0)]}) as HP' by set_solver.
    split; [by exists F', (A ∖ {[(pa, Z.to_nat 0)]}) | by eapply keeps_agree].
  - intros s P pa a v (F & A & H & HP) Hpa Ha. exists F, A. split; [|done].
    apply Inv_write; [done|]. left. exists (pa, 0%nat). split; [by apply HP | exact Ha].
  - intros s P a v (F & A & H & HP) Ha. exists F, A. split; [|done]. apply Inv_write; [done | by right].
Qed.

End PageAlloc.
