(* ===== verification/Vmm.v ===== *)
(** * mm/vmm.c: page tables, vmalloc, the slab allocator, stack canaries

    Page tables and slab pages are words of the direct map, which the physical
    memory manager also writes.  Addresses from [KERNEL_VIRT_BASE] up are the direct
    map; any other address is translated by the MMU: through a cached translation
    ([tlb]) if there is one, else by walking the tables, which caches what it
    finds.  [invlpg] drops the cached translation of one page. *)

From S2P Require Import Prelude Pmm.
Import Pmm.

Module Vmm.

Definition PTE_PRESENT : Z := 1.
Definition PTE_WRITE : Z := 2.
Definition PTE_USER : Z := 4.
Definition PTE_NX : Z := 2 ^ 63.
Definition PTE_ADDR_MASK : Z := 0x000FFFFFFFFFF000.

Definition VMM_WRITE : Z := 1.
Definition VMM_USER : Z := 2.
Definition VMM_EXEC : Z := 4.

Record slab_cache := mk_slab { freelist : Z; obj_size : Z; alloc_count : Z; free_count : Z }.

Record vmm := mk_vmm {
  pm : pmm;
  g_kernel_pml4 : Z;
  vmalloc_next : Z;
  slabs : list slab_cache;
  tlb : gmap Z Z
}.

Definition with_pm (s : vmm) (p : pmm) : vmm := mk_vmm p (g_kernel_pml4 s) (vmalloc_next s) (slabs s) (tlb s).
Definition with_slabs (s : vmm) (l : list slab_cache) : vmm := mk_vmm (pm s) (g_kernel_pml4 s) (vmalloc_next s) l (tlb s).
Definition with_tlb (s : vmm) (t : gmap Z Z) : vmm := mk_vmm (pm s) (g_kernel_pml4 s) (vmalloc_next s) (slabs s) t.
Definition with_next (s : vmm) (v : Z) : vmm := mk_vmm (pm s) (g_kernel_pml4 s) v (slabs s) (tlb s).

(** Words of the direct map. *)
Definition rd (s : vmm) (a : Z) : Z := mread (mem (pm s)) a.
Definition wr (s : vmm) (a v : Z) : vmm := with_pm s (with_mem (pm s) (mwrite (mem (pm s)) a v)).

Definition present (e : Z) : bool := truthy (Z.land e PTE_PRESENT).

(** ** Page tables *)

(** The entry is given by its address; the table's address is returned, 0 for NULL. *)
Definition pt_next_level (s : vmm) (entry : Z) (alloc : bool) : vmm * Z :=
  if present (rd s entry) then (s, phys_to_virt (Z.land (rd s entry) PTE_ADDR_MASK))
  else if negb alloc then (s, 0)
  else
    let (p, pa) := pmm_alloc_page (pm s) in
    let s := with_pm s p in
    if pa =? 0 then (s, 0)
    else
      let s := with_pm s (with_mem (pm s) (mzero (mem (pm s)) (phys_to_virt pa) 512)) in
      let s := wr s entry (Z.lor (Z.lor pa PTE_PRESENT) PTE_WRITE) in
      (s, phys_to_virt pa).

Definition pml4_i (va : Z) : Z := Z.land (Z.shiftr va 39) 0x1FF.
Definition pdpt_i (va : Z) : Z := Z.land (Z.shiftr va 30) 0x1FF.
Definition pd_i (va : Z) : Z := Z.land (Z.shiftr va 21) 0x1FF.
Definition pt_i (va : Z) : Z := Z.land (Z.shiftr va 12) 0x1FF.
(** [&table[i]]. *)
Definition slot (table i : Z) : Z := u64 (table + 8 * i).

(** The three descents; the page table's address or NULL. *)
Definition descend (s : vmm) (va : Z) (alloc : bool) : vmm * Z :=
  let (s, pdpt) := pt_next_level s (slot (g_kernel_pml4 s) (pml4_i va)) alloc in
  if pdpt =? 0 then (s, 0)
  else
    let (s, pd) := pt_next_level s (slot pdpt (pdpt_i va)) alloc in
    if pd =? 0 then (s, 0)
    else pt_next_level s (slot pd (pd_i va)) alloc.

Definition prot_of (flags : Z) : Z :=
  let prot := PTE_PRESENT in
  let prot := if truthy (Z.land flags VMM_WRITE) then Z.lor prot PTE_WRITE else prot in
  let prot := if truthy (Z.land flags VMM_USER) then Z.lor prot PTE_USER else prot in
  if negb (truthy (Z.land flags VMM_EXEC)) then Z.lor prot PTE_NX else prot.

(** The loop of [vmm_map] with [n] pages to go, at page [i]. *)
Fixpoint map_loop (s : vmm) (virt phys prot i : Z) (n : nat) : vmm * Z :=
  match n with
  | O => (s, 0)
  | S n' =>
      let va := u64 (virt + u64 (i * PAGE_SIZE)) in
      let pa := u64 (phys + u64 (i * PAGE_SIZE)) in
      let (s, pt) := descend s va true in
      if pt =? 0 then (s, - ENOMEM)
      else map_loop (wr s (slot pt (pt_i va)) (Z.lor (Z.land pa PTE_ADDR_MASK) prot)) virt phys prot (i + 1) n'
  end.
Definition vmm_map (s : vmm) (virt phys pages flags : Z) : vmm * Z :=
  map_loop s virt phys (prot_of flags) 0 (Z.to_nat pages).

Definition page_of (va : Z) : Z := Z.shiftr va 12.
Definition invlpg (s : vmm) (va : Z) : vmm := with_tlb s (delete (page_of va) (tlb s)).

Fixpoint unmap_loop (s : vmm) (virt : Z) (free_phys : bool) (i : Z) (n : nat) : vmm :=
  match n with
  | O => s
  | S n' =>
      let va := u64 (virt + u64 (i * PAGE_SIZE)) in
      let (s, pt) := descend s va false in
      if pt =? 0 then unmap_loop s virt free_phys (i + 1) n'
      else
        let e := rd s (slot pt (pt_i va)) in
        let s := if free_phys && present e then with_pm s (pmm_free_page (pm s) (Z.land e PTE_ADDR_MASK)) else s in
        let s := wr s (slot pt (pt_i va)) 0 in
        unmap_loop (invlpg s va) virt free_phys (i + 1) n'
  end.
Definition vmm_unmap (s : vmm) (virt pages : Z) (free_phys : bool) : vmm :=
  unmap_loop s virt free_phys 0 (Z.to_nat pages).

(** ** vmalloc *)

Definition VMALLOC_END : Z := 0xFFFF008000000000.

(** The loop of [vmm_alloc]; [false] for the jump to [oom]. *)
Fixpoint alloc_pages_loop (s : vmm) (virt flags i : Z) (n : nat) : vmm * bool :=
  match n with
  | O => (s, true)
  | S n' =>
      let (p, pa) := pmm_alloc_page (pm s) in
      let s := with_pm s p in
      if pa =? 0 then (s, false)
      else
        let (s, r) := vmm_map s (u64 (virt + u64 (i * PAGE_SIZE))) pa 1 flags in
        if r <? 0 then (s, false) else alloc_pages_loop s virt flags (i + 1) n'
  end.

Definition vmm_alloc (s : vmm) (pages flags : Z) : vmm * Z :=
  if VMALLOC_END <? u64 (vmalloc_next s + u64 (pages * PAGE_SIZE)) then (s, 0)
  else
    let virt := vmalloc_next s in
    let s := with_next s (u64 (vmalloc_next s + u64 (pages * PAGE_SIZE))) in
    let (s, ok) := alloc_pages_loop s virt flags 0 (Z.to_nat pages) in
    if ok then (s, virt) else (vmm_unmap s virt pages true, 0).

Definition vmm_free (s : vmm) (ptr pages : Z) : vmm := vmm_unmap s ptr pages true.

(** ** Memory accesses at virtual addresses *)

(** The leaf entry the tables hold for [va], if all levels are present. *)
Definition walk (s : vmm) (va : Z) : option Z :=
  let (_, pt) := descend s va false in
  if pt =? 0 then None
  else let e := rd s (slot pt (pt_i va)) in if present e then Some e else None.

(** With four levels of tables an address is canonical when bits 63 to 47 agree; an
    access to any other address is a general-protection fault. *)
Definition canonical (va : Z) : bool := (va <? 2 ^ 47) || (2 ^ 64 - 2 ^ 47 <=? va).

(** The MMU: the direct-map address of the word at [va]; caches the translation. *)
Definition mmu (s : vmm) (va : Z) : outcome (vmm * Z) :=
  if KERNEL_VIRT_BASE <=? va then Done (s, va)
  else if negb (canonical va) then Fault
  else
    let target e := u64 (phys_to_virt (Z.land e PTE_ADDR_MASK) + va mod PAGE_SIZE) in
    match tlb s !! page_of va with
    | Some e => Done (s, target e)
    | None => e ← faulting (walk s va); Done (with_tlb s (<[page_of va := e]> (tlb s)), target e)
    end.
Definition load (s : vmm) (va : Z) : outcome (vmm * Z) := '(s, a) ← mmu s va; Done (s, rd s a).
Definition store (s : vmm) (va v : Z) : outcome vmm := '(s, a) ← mmu s va; Done (wr s a v).

(** ** The slab allocator *)

Definition SLAB_SIZES : Z := 8.
Definition slab_sz : list Z := [16; 32; 64; 128; 256; 512; 1024; 2048].
Definition SLAB_POISON : Z := 0xDEAD6DEAD6DEAD6D.
Definition SLAB_LARGE_COOKIE : Z := 0xFF.
Definition zero_slab : slab_cache := mk_slab 0 0 0 0.

Definition slab (s : vmm) (i : nat) : slab_cache := nth i (slabs s) zero_slab.
Definition set_freelist (c : slab_cache) (h : Z) : slab_cache := mk_slab h (obj_size c) (alloc_count c) (free_count c).
Definition with_slab (s : vmm) (i : nat) (c : slab_cache) : vmm := with_slabs s (<[i := c]> (slabs s)).

(** Carving: push [n] chunks from index [k] on. *)
Fixpoint carve (s : vmm) (i : nat) (page chunk k : Z) (n : nat) : vmm :=
  match n with
  | O => s
  | S n' =>
      let h := u64 (page + u32 (k * chunk)) in
      let s := wr s h (freelist (slab s i)) in
      carve (with_slab s i (set_freelist (slab s i) h)) i page chunk (k + 1) n'
  end.

Definition slab_grow (s : vmm) (i : nat) : vmm :=
  let (p, pa) := pmm_alloc_page (pm s) in
  let s := with_pm s p in
  if pa =? 0 then s
  else
    let chunk := u32 (obj_size (slab s i) + 8) in
    carve s i (phys_to_virt pa) chunk 0 (Z.to_nat (PAGE_SIZE / chunk)).

(** Allocation from cache [i]. *)
Definition slab_alloc (s : vmm) (i : nat) : vmm * Z :=
  let s := if freelist (slab s i) =? 0 then slab_grow s i else s in
  let h := freelist (slab s i) in
  if h =? 0 then (s, 0)
  else
    let c := slab s i in
    let s := with_slab s i (mk_slab (rd s h) (obj_size c) (u64 (alloc_count c + 1)) (free_count c)) in
    (wr s h (Z.of_nat i), u64 (h + 8)).

(** The first cache whose objects are large enough. *)
Fixpoint find_slab (l : list slab_cache) (size : Z) (i : nat) : option nat :=
  match l with
  | [] => None
  | c :: l' => if size <=? obj_size c then Some i else find_slab l' size (S i)
  end.

Definition kmalloc (s : vmm) (size : Z) : outcome (vmm * Z) :=
  match find_slab (slabs s) size 0 with
  | Some i => Done (slab_alloc s i)
  | None =>
      let pages := ALIGN size PAGE_SIZE / PAGE_SIZE in
      let (s, base) := vmm_alloc s (u64 (pages + 1)) VMM_WRITE in
      if base =? 0 then Done (s, 0)
      else
        s ← store s base (Z.lor SLAB_LARGE_COOKIE (shl64 pages 8));
        Done (s, u64 (base + 8))
  end.

(** [memset(p, 0, size)], word by word through the MMU. *)
Fixpoint store_zeros (s : vmm) (va : Z) (words : nat) : outcome vmm :=
  match words with
  | O => Done s
  | S n => s ← store s va 0; store_zeros s (u64 (va + 8)) n
  end.
Definition memset0 (s : vmm) (va size : Z) : outcome vmm :=
  s ← store_zeros s va (Z.to_nat (size / 8));
  let r := size mod 8 in
  if r =? 0 then Done s
  else
    let a := u64 (va + 8 * (size / 8)) in
    '(s, w) ← load s a; store s a (Z.shiftl (Z.shiftr w (8 * r)) (8 * r)).

Definition kzalloc (s : vmm) (size : Z) : outcome (vmm * Z) :=
  '(s, p) ← kmalloc s size;
  if p =? 0 then Done (s, 0) else s ← memset0 s p size; Done (s, p).

(** [memset(cookie_ptr, 0xDE, ...)] on whole words. *)
Fixpoint poison (s : vmm) (va : Z) (words : nat) : outcome vmm :=
  match words with
  | O => Done s
  | S n => s ← store s va 0xDEDEDEDEDEDEDEDE; poison s (u64 (va + 8)) n
  end.

Definition kfree (s : vmm) (ptr : Z) : outcome vmm :=
  if ptr =? 0 then Done s
  else
    let cookie_ptr := u64 (ptr - 8) in
    '(s, cookie) ← load s cookie_ptr;
    if cookie =? SLAB_POISON then Panic
    else
      let is_large := Z.land cookie 0xFF =? SLAB_LARGE_COOKIE in
      if negb is_large && (SLAB_SIZES <=? cookie) then Panic
      else if is_large then
        let payload_pages := Z.shiftr cookie 8 in
        s ← store s cookie_ptr SLAB_POISON;
        Done (vmm_free s cookie_ptr (u64 (payload_pages + 1)))
      else
        let i := Z.to_nat cookie in
        s ← poison s cookie_ptr (Z.to_nat ((8 + obj_size (slab s i)) / 8));
        s ← store s cookie_ptr SLAB_POISON;
        s ← store s cookie_ptr (freelist (slab s i));
        let c := slab s i in
        Done (with_slab s i (mk_slab cookie_ptr (obj_size c) (alloc_count c) (u64 (free_count c + 1)))).

Definition kfree_s (s : vmm) (ptr size : Z) : outcome vmm := kfree s ptr.

(** ** Stack canaries *)

Definition NEKROS_STACK_CANARY : Z := 0xDEADBEEFCAFEBABE.
Definition kstack_canary_write (s : vmm) (stack_bottom : Z) : outcome vmm :=
  if stack_bottom =? 0 then Done s else store s stack_bottom NEKROS_STACK_CANARY.
Definition kstack_canary_check (s : vmm) (stack_bottom : Z) : outcome (vmm * bool) :=
  if stack_bottom =? 0 then Done (s, true)
  else '(s, v) ← load s stack_bottom; Done (s, v =? NEKROS_STACK_CANARY).

Definition vmm_init (s : vmm) (pml4_phys : Z) : vmm :=
  mk_vmm (pm s) (phys_to_virt pml4_phys) (vmalloc_next s) (map (fun z => mk_slab 0 z 0 0) slab_sz) (tlb s).

End Vmm.
