(* ===== verification/VmmSlab.v ===== *)
(** * The slab allocator of mm/vmm.c

    The free list of each size class is a chain of chunk addresses through memory,
    the objects in use are a finite map from chunk address to class.  [kmalloc] and
    [kfree] of small objects keep the two apart, never hand out overlapping memory
    and never touch an object in use.  The page allocator enters only through
    [PageAlloc]. *)

From S2P Require Import Prelude Buddy Pmm PmmLists PmmInv PmmSpec PageAlloc Vmm.
Import Pmm PmmLists PmmSpec PageAlloc Vmm.

Module VmmSlab.

(** ** Chunks *)

Definition chunk (i : nat) : Z := nth i slab_sz 0 + 8.
Definition per_page (i : nat) : Z := PAGE_SIZE / chunk i.

Lemma chunk_range i : (i < 8)%nat -> 24 <= chunk i <= 2056 /\ (8 | chunk i).
Proof.
  intros Hi. do 8 (destruct i as [|i]; [split; [vm_compute; split; discriminate | by apply Z.mod_divide]|]). lia.
Qed.

Lemma chunk_fits i k : (i < 8)%nat -> 0 <= k < per_page i -> 0 <= k * chunk i /\ k * chunk i + chunk i <= 4096.
Proof.
  intros Hi Hk. destruct (chunk_range i Hi) as [Hc _]. unfold per_page, PAGE_SIZE in Hk.
  pose proof (Z.mul_div_le 4096 (chunk i) ltac:(lia)). nia.
Qed.

(** [h] is the base of a chunk of class [i] in a page of that class. *)
Definition is_chunk (K : gmap Z nat) (i : nat) (h : Z) : Prop :=
  exists pg k, K !! pg = Some i /\ 0 <= k < per_page i /\ h = va pg + k * chunk i.

Fixpoint chain (m : memory) (l : list Z) (hd : Z) : Prop :=
  match l with
  | [] => hd = 0
  | x :: l' => hd = x /\ chain m l' (mread m x)
  end.

Lemma chain_frame m m' l : forall hd, (forall x, x ∈ l -> mread m' x = mread m x) -> chain m l hd -> chain m' l hd.
Proof.
  induction l as [|x l IH]; intros hd Hf; simpl; [done|]. intros [-> H]. split; [done|].
  rewrite Hf by apply list_elem_of_here. apply IH; [|done]. intros y Hy. apply Hf. by apply list_elem_of_further.
Qed.

Definition updL (L : nat -> list Z) (i : nat) (l : list Z) : nat -> list Z := fun j => if decide (j = i) then l else L j.
Lemma updL_eq L i l : updL L i l i = l.
Proof. unfold updL. by rewrite decide_True. Qed.
Lemma updL_ne L i l j : j <> i -> updL L i l j = L j.
Proof. intros. unfold updL. by rewrite decide_False. Qed.

Lemma updL_updL L i l k : updL (updL L i l) i (L i) k = L k.
Proof. unfold updL. repeat case_decide; by subst. Qed.

(** ** The invariant *)

Section slab.
Context (owns : pmm -> gset Z -> Prop) `{!PageAlloc owns}.

Record heap (s : vmm) (P : gset Z) (K : gmap Z nat) (L : nat -> list Z) (U : gmap Z nat) : Prop := {
  h_owns : owns (pm s) P;
  h_sizes : map obj_size (slabs s) = slab_sz;
  h_pages : forall pg i, K !! pg = Some i -> pg ∈ P /\ (i < 8)%nat;
  h_chain : forall i, (i < 8)%nat -> chain (mem (pm s)) (L i) (freelist (slab s i));
  h_nodup : forall i, (i < 8)%nat -> NoDup (L i);
  h_free : forall i h, (i < 8)%nat -> h ∈ L i -> is_chunk K i h /\ U !! h = None;
  h_live : forall h i, U !! h = Some i -> is_chunk K i h /\ mread (mem (pm s)) h = Z.of_nat i
}.

(** The contents of the objects in use. *)
Definition same_objects (U : gmap Z nat) (s s' : vmm) : Prop :=
  forall h i a, U !! h = Some i -> h <= a < h + chunk i -> rd s' a = rd s a.

Lemma same_objects_trans U s1 s2 s3 : same_objects U s1 s2 -> same_objects U s2 s3 -> same_objects U s1 s3.
Proof. intros H1 H2 h i a Hh Ha. rewrite (H2 h i a Hh Ha). by apply (H1 h i). Qed.

Section inv.
Context (s : vmm) (P : gset Z) (K : gmap Z nat) (L : nat -> list Z) (U : gmap Z nat) (H : heap s P K L U).

Lemma chunk_page i h : is_chunk K i h -> exists pg, pg ∈ P /\ K !! pg = Some i /\ ok_pa pg /\ (i < 8)%nat /\
  va pg = pg + KERNEL_VIRT_BASE /\ va pg <= h /\ h + chunk i <= va pg + 4096.
Proof.
  intros (pg & k & HK & Hk & ->). destruct (h_pages _ _ _ _ _ H pg i HK) as [HP Hi].
  assert (ok_pa pg) as Hok by (eapply owns_page; [apply (h_owns _ _ _ _ _ H) | done]).
  exists pg. do 4 (split; [done|]). split; [by apply va_ok|].
  pose proof (chunk_fits i k Hi Hk). lia.
Qed.

(** Chunks are in the direct map, above NULL, and do not reach its end. *)
Lemma chunk_addr i h : is_chunk K i h -> KERNEL_VIRT_BASE < h /\ h + chunk i <= 2 ^ 64 /\ (i < 8)%nat.
Proof.
  intros Hc. destruct (chunk_page i h Hc) as (pg & _ & _ & [Hr [d Hd]] & Hi & Hv & Hlo & Hhi).
  unfold KERNEL_VIRT_BASE in *. lia.
Qed.

Lemma same_page p q h : ok_pa p -> ok_pa q -> in_page p h -> in_page q h -> p = q.
Proof. unfold in_page. intros Hp Hq. rewrite !va_ok by done. destruct Hp as [_ [c ->]], Hq as [_ [d ->]]. lia. Qed.

(** Distinct chunks do not overlap. *)
Lemma chunks_apart i j h h' : is_chunk K i h -> is_chunk K j h' -> h <> h' -> h + chunk i <= h' \/ h' + chunk j <= h.
Proof.
  intros Hc Hc' Hne. pose proof Hc as Hc0. pose proof Hc' as Hc0'.
  destruct (chunk_page i h Hc0) as (pg & _ & Ei & Hok & Hi & Hv & Hlo & Hhi).
  destruct (chunk_page j h' Hc0') as (pg' & _ & Ej & Hok' & Hj & Hv' & Hlo' & Hhi').
  destruct (chunk_range i Hi) as [Ri _]. destruct (chunk_range j Hj) as [Rj _].
  destruct (decide (pg = pg')) as [<-|Hp].
  - rewrite Ei in Ej. injection Ej as <-. destruct Hc as (p & k & Ep & Hk & ->), Hc' as (p' & k' & Ep' & Hk' & ->).
    assert (p = pg) as ->.
    { apply (same_page p pg (va p + k * chunk i)).
      - eapply owns_page; [apply (h_owns _ _ _ _ _ H) | by eapply (h_pages _ _ _ _ _ H)].
      - done.
      - pose proof (chunk_fits i k Hi Hk). unfold in_page. lia.
      - unfold in_page. lia. }
    assert (p' = pg) as ->.
    { apply (same_page p' pg (va p' + k' * chunk i)).
      - eapply owns_page; [apply (h_owns _ _ _ _ _ H) | by eapply (h_pages _ _ _ _ _ H)].
      - done.
      - pose proof (chunk_fits i k' Hi Hk'). unfold in_page. lia.
      - unfold in_page. lia. }
    destruct (Z.lt_trichotomy k k') as [?|[->|?]]; [left | done | right]; nia.
  - destruct Hok as [_ [c ->]], Hok' as [_ [d ->]]. lia.
Qed.

Lemma chunk_class i j h : is_chunk K i h -> is_chunk K j h -> i = j.
Proof.
  intros Hc Hc'. destruct (chunk_page i h Hc) as (pg & _ & Ei & Hok & Hi & Hv & Hlo & Hhi).
  destruct (chunk_page j h Hc') as (pg' & _ & Ej & Hok' & Hj & Hv' & Hlo' & Hhi').
  destruct (chunk_range i Hi) as [Ri _]. destruct (chunk_range j Hj) as [Rj _].
  assert (pg = pg') as <-; [|congruence]. apply (same_page pg pg' h); unfold in_page; (done || lia).
Qed.

Lemma obj_size_eq i : obj_size (slab s i) = nth i slab_sz 0.
Proof. rewrite <- (h_sizes _ _ _ _ _ H). unfold slab. symmetry. exact (map_nth obj_size (slabs s) zero_slab i). Qed.

Lemma slabs_length : length (slabs s) = 8%nat.
Proof. rewrite <- (length_map obj_size), (h_sizes _ _ _ _ _ H). done. Qed.

Lemma slab_with_slab i c j : (i < 8)%nat -> slab (with_slab s i c) j = if decide (j = i) then c else slab s j.
Proof.
  intros Hi. unfold slab, with_slab. simpl. rewrite !nth_lookup. case_decide as E.
  - subst. rewrite list_lookup_insert_eq; [done|]. by rewrite slabs_length.
  - by rewrite list_lookup_insert_ne.
Qed.

Lemma sizes_with_slab i c : (i < 8)%nat -> obj_size c = nth i slab_sz 0 -> map obj_size (slabs (with_slab s i c)) = slab_sz.
Proof.
  intros Hi Hc. unfold with_slab. cbn [slabs with_slabs].
  trans (<[i := obj_size c]> (map obj_size (slabs s))); [exact (list_fmap_insert obj_size (slabs s) i c)|].
  rewrite (h_sizes _ _ _ _ _ H), Hc. apply list_insert_id. do 8 (destruct i as [|i]; [done|]). lia.
Qed.

(** Writing inside a chunk that is neither free nor in use disturbs nothing. *)
Lemma heap_scratch i h a v : is_chunk K i h -> h ∉ L i -> U !! h = None -> h <= a < h + chunk i ->
  heap (wr s a v) P K L U /\ same_objects U s (wr s a v).
Proof.
  intros Hc Hl Hu Ha. destruct (chunk_page i h Hc) as (pg & HP & _ & _ & Hi & _ & Hlo & Hhi).
  assert (forall x j, is_chunk K j x -> x <> h -> x + chunk j <= a \/ a < x) as Hout.
  { intros x j Hx Hne. destruct (chunks_apart i j h x Hc Hx ltac:(done)); lia. }
  assert (forall x j, is_chunk K j x -> x <> h -> x <> a) as Hne'.
  { intros x j Hx Hne ->. destruct (chunk_page j a Hx) as (_ & _ & _ & _ & Hj & _).
    destruct (chunk_range j Hj). destruct (Hout a j Hx Hne); lia. }
  split; [split; try apply H|].
  - apply (owns_write (pm s) P pg); [apply (h_owns _ _ _ _ _ H) | done | unfold in_page; lia].
  - intros j Hj. eapply chain_frame; [|by apply (h_chain _ _ _ _ _ H)]. intros x Hx. simpl.
    destruct (h_free _ _ _ _ _ H j x Hj Hx) as [Hcx _]. apply mread_mwrite_ne, not_eq_sym. apply (Hne' x j Hcx).
    intros ->. assert (i = j) as <- by (by apply (chunk_class i j h)). done.
  - intros x j Hx. destruct (h_live _ _ _ _ _ H x j Hx) as [Hcx Hrd]. split; [done|]. simpl.
    rewrite mread_mwrite_ne; [done|]. apply not_eq_sym, (Hne' x j Hcx). congruence.
  - intros x j b Hx Hb. destruct (h_live _ _ _ _ _ H x j Hx) as [Hcx _]. unfold rd. simpl.
    apply mread_mwrite_ne. destruct (Hout x j Hcx ltac:(congruence)); lia.
Qed.

(** Putting a chunk at the head of its free list. *)
Lemma heap_push i h c : is_chunk K i h -> h ∉ L i -> U !! h = None ->
  freelist c = h -> obj_size c = obj_size (slab s i) ->
  let s' := with_slab (wr s h (freelist (slab s i))) i c in
  heap s' P K (updL L i (h :: L i)) U /\ same_objects U s s'.
Proof.
  intros Hc Hl Hu Hf Ho s'. destruct (chunk_addr i h Hc) as (Hlo & Hhi & Hi).
  destruct (chunk_range i Hi) as [Hr _].
  destruct (heap_scratch i h h (freelist (slab s i)) Hc Hl Hu ltac:(lia)) as [[Ow Sz Pg Ch Nd Fr Lv] Sm].
  split; [|exact Sm]. split; try done.
  - apply (sizes_with_slab i c Hi). rewrite Ho. apply obj_size_eq.
  - intros j Hj. change (slab s' j) with (slab (with_slab s i c) j).
    rewrite (slab_with_slab i c j Hi). unfold updL. case_decide as E.
    + subst j. simpl. split; [done|]. rewrite mread_mwrite_eq.
      specialize (Ch i Hi). exact Ch.
    + exact (Ch j Hj).
  - intros j Hj. unfold updL. case_decide as E; [|by apply Nd]. subst. apply NoDup_cons. split; [done | by apply Nd].
  - intros j x Hj. unfold updL. case_decide as E; [|by apply Fr]. subst.
    intros [->|Hx]%elem_of_cons; [done | by apply Fr].
Qed.

(** Taking the head of a free list. *)
Lemma heap_pop i h l c : (i < 8)%nat -> L i = h :: l -> freelist c = rd s h -> obj_size c = obj_size (slab s i) ->
  let s' := wr (with_slab s i c) h (Z.of_nat i) in
  heap s' P K (updL L i l) (<[h := i]> U) /\ same_objects U s s'.
Proof.
  intros Hi HL Hf Ho s'. assert (h ∈ L i) as Hin by (rewrite HL; apply list_elem_of_here).
  destruct (h_free _ _ _ _ _ H i h Hi Hin) as [Hc Hu].
  destruct (chunk_page i h Hc) as (pg & HP & _ & _ & _ & _ & Hlo & Hhi). destruct (chunk_range i Hi) as [Hr _].
  pose proof (h_nodup _ _ _ _ _ H i Hi) as Hnd. rewrite HL in Hnd. apply NoDup_cons in Hnd as [Hni Hnd].
  split; [split|].
  - apply (owns_write (pm s) P pg); [apply (h_owns _ _ _ _ _ H) | done | unfold in_page; lia].
  - apply (sizes_with_slab i c Hi). rewrite Ho. apply obj_size_eq.
  - apply H.
  - intros j Hj. change (slab s' j) with (slab (with_slab s i c) j). rewrite (slab_with_slab i c j Hi).
    pose proof (h_chain _ _ _ _ _ H j Hj) as Hch. unfold updL. case_decide as E.
    + subst j. rewrite HL in Hch. destruct Hch as [_ Hch]. rewrite Hf. eapply chain_frame; [|exact Hch].
      intros x Hx. simpl. apply mread_mwrite_ne. intros ->. done.
    + eapply chain_frame; [|exact Hch]. intros x Hx. simpl. apply mread_mwrite_ne. intros <-.
      apply E. apply (chunk_class j i h); [by apply (h_free _ _ _ _ _ H) | done].
  - intros j Hj. unfold updL. case_decide; [by subst | by apply H].
  - intros j x Hj Hx. assert (x ∈ L j /\ x <> h) as [Hx' Hne].
    { unfold updL in Hx. case_decide as E; [subst; rewrite HL|].
      - split; [by apply list_elem_of_further | by intros ->].
      - split; [done|]. intros ->. apply E. apply (chunk_class j i h); [by apply (h_free _ _ _ _ _ H) | done]. }
    destruct (h_free _ _ _ _ _ H j x Hj Hx') as [? ?]. by rewrite lookup_insert_ne.
  - intros x j Hx. destruct (decide (x = h)) as [->|Hne].
    + rewrite lookup_insert_eq in Hx. injection Hx as <-. split; [done|]. simpl. apply mread_mwrite_eq.
    + rewrite lookup_insert_ne in Hx by done. destruct (h_live _ _ _ _ _ H x j Hx) as [? E]. split; [done|].
      simpl. by rewrite mread_mwrite_ne.
  - intros x j a Hx Ha. destruct (h_live _ _ _ _ _ H x j Hx) as [Hcx _]. unfold rd. simpl. apply mread_mwrite_ne.
    assert (x <> h) as Hne by congruence. destruct (chunks_apart j i x h Hcx Hc Hne); lia.
Qed.

End inv.

(** ** Growing a cache *)

Lemma is_chunk_mono K K' i h : K ⊆ K' -> is_chunk K i h -> is_chunk K' i h.
Proof. intros HK (pg & k & E & R). exists pg, k. split; [by eapply lookup_weaken | done]. Qed.

(** The allocator moved on and gave us page [pg] for class [i]. *)
Lemma heap_new_page s P K L U p' pg i : heap s P K L U -> owns p' (P ∪ {[pg]}) -> agree P (pm s) p' -> pg ∉ P -> (i < 8)%nat ->
  heap (with_pm s p') (P ∪ {[pg]}) (<[pg := i]> K) L U /\ same_objects U s (with_pm s p') /\ K ⊆ <[pg := i]> K.
Proof.
  intros H Ho Ha Hn Hi. assert (K ⊆ <[pg := i]> K) as HK.
  { apply insert_subseteq, eq_None_not_Some. intros [j Hj]. by apply (h_pages _ _ _ _ _ H) in Hj as [? _]. }
  assert (forall j h a, is_chunk K j h -> h <= a < h + chunk j -> mread (mem p') a = mread (mem (pm s)) a) as Hm.
  { intros j h a Hc Hr. destruct (chunk_page s P K L U H j h Hc) as (q & Hq & _ & _ & _ & _ & ? & ?).
    apply (ag_pages _ _ _ Ha q); [done | unfold in_page; lia]. }
  assert (forall j h, is_chunk K j h -> mread (mem p') h = mread (mem (pm s)) h) as Hm0.
  { intros j h Hc. apply (Hm j h h Hc). destruct (chunk_addr s P K L U H j h Hc) as (_ & _ & Hj).
    destruct (chunk_range j Hj). lia. }
  split; [split|split]; try done.
  - apply H.
  - intros q j. rewrite lookup_insert_Some. intros [[<- <-]|[_ Hq]]; [set_solver|].
    destruct (h_pages _ _ _ _ _ H q j Hq). set_solver.
  - intros j Hj. eapply chain_frame; [|by apply (h_chain _ _ _ _ _ H)]. intros x Hx. simpl. apply (Hm0 j).
    by apply (h_free _ _ _ _ _ H).
  - apply H.
  - intros j x Hj Hx. destruct (h_free _ _ _ _ _ H j x Hj Hx). split; [by eapply is_chunk_mono | done].
  - intros x j Hx. destruct (h_live _ _ _ _ _ H x j Hx) as [Hc E]. split; [by eapply is_chunk_mono|]. simpl.
    by rewrite (Hm0 j).
  - intros h j x Hh Hx. apply (Hm j h); [by apply (h_live _ _ _ _ _ H) | done].
Qed.

Lemma carve_ok P K U i pg n : forall s L k,
  heap s P K L U -> K !! pg = Some i -> 0 <= k -> k + Z.of_nat n = per_page i ->
  (forall j, k <= j < per_page i -> va pg + j * chunk i ∉ L i /\ U !! (va pg + j * chunk i) = None) ->
  exists L', heap (carve s i (va pg) (chunk i) k n) P K L' U /\ same_objects U s (carve s i (va pg) (chunk i) k n) /\
    ((0 < n)%nat \/ L i <> [] -> L' i <> []).
Proof.
  induction n as [|n IH]; intros s L k H HK Hk Hn Hfresh; simpl.
  { exists L. split; [done|]. split; [by intros ? ? ? ? ?|]. intros [?|?]; [lia | done]. }
  destruct (Hfresh k ltac:(lia)) as [Hl Hu]. destruct (h_pages _ _ _ _ _ H pg i HK) as [HP Hi].
  set (h := va pg + k * chunk i) in *. assert (is_chunk K i h) as Hc by (exists pg, k; (split_and!; (done || lia))).
  destruct (chunk_addr s P K L U H i h Hc) as (Hlo & Hhi & _). destruct (chunk_range i Hi) as [Hr _].
  pose proof (chunk_fits i k Hi ltac:(lia)).
  rewrite (u32_small (k * chunk i)) by lia. rewrite u64_small by (unfold h, KERNEL_VIRT_BASE in *; lia). fold h.
  destruct (heap_push s P K L U H i h (set_freelist (slab (wr s h (freelist (slab s i))) i) h) Hc Hl Hu eq_refl eq_refl)
    as [H1 S1].
  destruct (IH _ _ (k + 1) H1 HK ltac:(lia) ltac:(lia)) as (L' & H2 & S2 & N2).
  { intros j Hj. destruct (Hfresh j ltac:(lia)) as [Hl' Hu']. split; [|done]. rewrite updL_eq.
    intros [E|?]%elem_of_cons; [|done]. unfold h in E. nia. }
  exists L'. split; [done|]. split; [by eapply same_objects_trans|]. intros _. apply N2. right. by rewrite updL_eq.
Qed.

Lemma per_page_pos i : (i < 8)%nat -> 0 < per_page i.
Proof. intros Hi. do 8 (destruct i as [|i]; [done|]). lia. Qed.

Lemma slab_grow_ok s P K L U i : heap s P K L U -> (i < 8)%nat ->
  slab_grow s i = s \/
  exists P' K' L', heap (slab_grow s i) P' K' L' U /\ same_objects U s (slab_grow s i) /\ K ⊆ K' /\ L' i <> [].
Proof.
  intros H Hi. unfold slab_grow. destruct (pmm_alloc_page (pm s)) as [p' pa] eqn:E.
  destruct (owns_alloc _ P p' pa (h_owns _ _ _ _ _ H) E) as [[-> ->]|(Hz & Hn & Ho & Ha)].
  { left. by destruct s. }
  right. rewrite (proj2 (Z.eqb_neq _ _) Hz).
  destruct (heap_new_page s P K L U p' pa i H Ho Ha Hn Hi) as (H1 & S1 & HK).
  change (slab (with_pm s p') i) with (slab s i). rewrite (obj_size_eq s P K L U H). fold (chunk i).
  destruct (chunk_range i Hi) as [Hr _]. rewrite (u32_small (chunk i)) by lia. fold (per_page i).
  assert (forall j, 0 <= j < per_page i -> in_page pa (va pa + j * chunk i)) as Hin.
  { intros j Hj. pose proof (chunk_fits i j Hi Hj). unfold in_page. lia. }
  assert (forall j h, is_chunk K j h -> ~ in_page pa h) as Hold.
  { intros j h Hc Hpa. destruct (chunk_page s P K L U H j h Hc) as (q & Hq & _ & Hok & Hj & _ & ? & ?).
    destruct (chunk_range j Hj). apply Hn. rewrite (same_page pa q h); [done | | done | done | unfold in_page; lia].
    eapply owns_page; [exact Ho|]. apply elem_of_union_r, elem_of_singleton_2. done. }
  destruct (carve_ok (P ∪ {[pa]}) (<[pa := i]> K) U i pa (Z.to_nat (per_page i)) (with_pm s p') L 0 H1)
    as (L' & H2 & S2 & N2).
  { by rewrite lookup_insert_eq. }
  { done. }
  { pose proof (per_page_pos i Hi). lia. }
  { intros j Hj. specialize (Hin j Hj). split.
    - intros Hx. apply (Hold i _ (proj1 (h_free _ _ _ _ _ H i _ Hi Hx)) Hin).
    - apply eq_None_not_Some. intros [c Hx]. apply (Hold c _ (proj1 (h_live _ _ _ _ _ H _ _ Hx)) Hin). }
  exists (P ∪ {[pa]}), (<[pa := i]> K), L'. split; [done|]. split; [by eapply same_objects_trans|]. split; [done|].
  apply N2. left. pose proof (per_page_pos i Hi). lia.
Qed.

Lemma freelist_cases s P K L U i : heap s P K L U -> (i < 8)%nat ->
  (L i = [] /\ freelist (slab s i) = 0) \/ (exists h l, L i = h :: l /\ freelist (slab s i) = h /\ h <> 0).
Proof.
  intros H Hi. pose proof (h_chain _ _ _ _ _ H i Hi) as Hc. destruct (L i) as [|h l] eqn:E; simpl in Hc; [by left|right].
  destruct Hc as [-> _]. exists h, l. do 2 (split; [done|]).
  destruct (chunk_addr s P K L U H i h); [|unfold KERNEL_VIRT_BASE in *; lia].
  apply (h_free _ _ _ _ _ H i h Hi). rewrite E. apply list_elem_of_here.
Qed.

(** Allocation from a cache: out of pages, or a chunk not in use. *)
Definition alloc_spec (s : vmm) (K : gmap Z nat) (U : gmap Z nat) (i : nat) (r : vmm * Z) : Prop :=
  r = (s, 0) \/
  exists s' h P' K' L', r = (s', h + 8) /\ heap s' P' K' L' (<[h := i]> U) /\ is_chunk K' i h /\
    U !! h = None /\ K ⊆ K' /\ same_objects U s s' /\ 0 < h /\ h + chunk i <= 2 ^ 64.

Lemma slab_take_ok s P K L U i : heap s P K L U -> (i < 8)%nat -> L i <> [] ->
  let c := slab s i in let h := freelist c in
  let s' := wr (with_slab s i (mk_slab (rd s h) (obj_size c) (u64 (alloc_count c + 1)) (free_count c))) h (Z.of_nat i) in
  alloc_spec s K U i (s', u64 (h + 8)) /\ h <> 0.
Proof.
  intros H Hi Hne c h s'. destruct (freelist_cases s P K L U i H Hi) as [[? _]|(x & l & EL & Ex & Hx)]; [done|].
  assert (is_chunk K i x /\ U !! x = None) as [Hc Hu].
  { apply (h_free _ _ _ _ _ H i x Hi). rewrite EL. apply list_elem_of_here. }
  destruct (chunk_addr s P K L U H i x Hc) as (Hlo & Hhi & _). destruct (chunk_range i Hi) as [Hr _].
  unfold s', h, c. rewrite Ex in *. split; [right|done].
  destruct (heap_pop s P K L U H i x l (mk_slab (rd s x) (obj_size (slab s i)) (u64 (alloc_count (slab s i) + 1)) (free_count (slab s i)))
    Hi EL eq_refl eq_refl) as [H1 S1].
  exists (wr (with_slab s i (mk_slab (rd s x) (obj_size (slab s i)) (u64 (alloc_count (slab s i) + 1)) (free_count (slab s i)))) x (Z.of_nat i)),
    x, P, K, (updL L i l).
  rewrite (u64_small (x + 8)) by (unfold KERNEL_VIRT_BASE in *; lia). split_and!; try done. unfold KERNEL_VIRT_BASE in *. lia.
Qed.

Lemma slab_alloc_ok s P K L U i : heap s P K L U -> (i < 8)%nat -> alloc_spec s K U i (slab_alloc s i).
Proof.
  intros H Hi. unfold slab_alloc.
  destruct (freelist_cases s P K L U i H Hi) as [[EL Ef]|(h & l & EL & Ef & Hh)].
  - rewrite Ef. cbn [Z.eqb]. destruct (slab_grow_ok s P K L U i H Hi) as [->|(P' & K' & L' & H1 & S1 & HK & HL)].
    + rewrite Ef. by left.
    + destruct (slab_take_ok _ P' K' L' U i H1 Hi HL) as [Ht Hz]. rewrite (proj2 (Z.eqb_neq _ _) Hz).
      destruct Ht as [E|(s' & h & P2 & K2 & L2 & E & H2 & Hc & Hu & HK2 & S2 & ? & ?)].
      * injection E as _ E. right. exfalso. pose proof (u64_range (freelist (slab (slab_grow s i) i) + 8)).
        destruct (freelist_cases _ P' K' L' U i H1 Hi) as [[? _]|(x & l & EL' & Ex & _)]; [done|].
        destruct (chunk_addr _ P' K' L' U H1 i x) as (? & ? & _).
        { apply (h_free _ _ _ _ _ H1 i x Hi). rewrite EL'. apply list_elem_of_here. }
        destruct (chunk_range i Hi). rewrite Ex, u64_small in E; unfold KERNEL_VIRT_BASE in *; lia.
      * right. exists s', h, P2, K2, L2. split; [done|]. split; [done|]. do 2 (split; [done|]).
        split; [by etrans|]. split; [by eapply same_objects_trans | done].
  - rewrite (proj2 (Z.eqb_neq (freelist (slab s i)) 0)) by (by rewrite Ef).
    destruct (slab_take_ok s P K L U i H Hi) as [Ht Hz]; [by rewrite EL|]. rewrite (proj2 (Z.eqb_neq _ _) Hz). exact Ht.
Qed.

(** ** Freeing an object *)

Lemma drop_live s P K L U h : heap s P K L U -> heap s P K L (delete h U).
Proof.
  intros H. split; try apply H.
  - intros i x Hi Hx. destruct (h_free _ _ _ _ _ H i x Hi Hx) as [? ?]. split; [done|]. apply lookup_delete_None. by right.
  - intros x i. rewrite lookup_delete_Some. intros [_ Hx]. by apply (h_live _ _ _ _ _ H).
Qed.

(** In the direct map the MMU is the identity. *)
Lemma store_direct s a v : KERNEL_VIRT_BASE <= a -> store s a v = Done (wr s a v).
Proof. intros Ha. unfold store, mmu. by rewrite (proj2 (Z.leb_le _ _) Ha). Qed.
Lemma load_direct s a : KERNEL_VIRT_BASE <= a -> load s a = Done (s, rd s a).
Proof. intros Ha. unfold load, mmu. by rewrite (proj2 (Z.leb_le _ _) Ha). Qed.

Lemma poison_ok P K L U i h n : forall s a, heap s P K L U -> is_chunk K i h -> h ∉ L i -> U !! h = None ->
  h <= a -> a + 8 * Z.of_nat n <= h + chunk i ->
  exists s', poison s a n = Done s' /\ heap s' P K L U /\ same_objects U s s' /\ slabs s' = slabs s.
Proof.
  induction n as [|n IH]; intros s a H Hc Hl Hu Hlo Hhi; cbn [poison].
  { exists s. split; [done|]. split; [done|]. split; [by intros ? ? ? ? ? | done]. }
  destruct (chunk_addr s P K L U H i h Hc) as (Hc1 & Hc2 & Hi).
  rewrite store_direct by lia. cbn [mbind outcome_bind].
  destruct (heap_scratch s P K L U H i h a 0xDEDEDEDEDEDEDEDE Hc Hl Hu ltac:(lia)) as [H1 S1].
  destruct (decide (n = 0%nat)) as [->|].
  { eexists. split; [done|]. split; [done|]. split; [done|done]. }
  rewrite u64_small by (unfold KERNEL_VIRT_BASE in *; lia).
  destruct (IH _ (a + 8) H1 Hc Hl Hu ltac:(lia) ltac:(lia)) as (s' & E & H2 & S2 & El).
  exists s'. split; [done|]. split; [done|]. split; [by eapply same_objects_trans | by rewrite El].
Qed.

Lemma kfree_small s P K L U h i : heap s P K L U -> U !! h = Some i ->
  exists s', kfree s (h + 8) = Done s' /\ heap s' P K (updL L i (h :: L i)) (delete h U) /\
    same_objects (delete h U) s s'.
Proof.
  intros H Hu. destruct (h_live _ _ _ _ _ H h i Hu) as [Hc Hrd].
  destruct (chunk_addr s P K L U H i h Hc) as (Hlo & Hhi & Hi). destruct (chunk_range i Hi) as [Hr [c8 Hd]].
  assert (h ∉ L i) as Hl. { intros Hx. destruct (h_free _ _ _ _ _ H i h Hi Hx). congruence. }
  unfold kfree. rewrite (proj2 (Z.eqb_neq _ _)) by (unfold KERNEL_VIRT_BASE in *; lia).
  replace (h + 8 - 8) with h by lia. rewrite (u64_small h) by (unfold KERNEL_VIRT_BASE in *; lia).
  rewrite load_direct by lia. cbn [mbind outcome_bind].
  change (rd s h) with (mread (mem (pm s)) h). rewrite Hrd.
  rewrite (proj2 (Z.eqb_neq (Z.of_nat i) SLAB_POISON)) by (unfold SLAB_POISON; lia).
  assert (Z.land (Z.of_nat i) 0xFF = Z.of_nat i) as ->.
  { change 0xFF with (Z.ones 8). rewrite Z.land_ones by lia. apply Z.mod_small. lia. }
  rewrite (proj2 (Z.eqb_neq (Z.of_nat i) SLAB_LARGE_COOKIE)) by (unfold SLAB_LARGE_COOKIE; lia).
  rewrite (proj2 (Z.leb_gt SLAB_SIZES _)) by (unfold SLAB_SIZES; lia). cbn [negb andb]. rewrite Nat2Z.id.
  rewrite (obj_size_eq s P K L U H). replace (8 + nth i slab_sz 0) with (chunk i) by (unfold chunk; lia).
  pose proof (drop_live s P K L U h H) as H0. assert (delete h U !! h = None) as Hu0 by apply lookup_delete_eq.
  destruct (poison_ok P K L (delete h U) i h (Z.to_nat (chunk i / 8)) s h H0 Hc Hl Hu0) as (s1 & -> & H1 & S1 & E1);
    [lia | rewrite Z2Nat.id by zdm; zdm |]. cbn [mbind outcome_bind].
  rewrite store_direct by lia. cbn [mbind outcome_bind].
  destruct (heap_scratch s1 P K L _ H1 i h h SLAB_POISON Hc Hl Hu0 ltac:(lia)) as [H2 S2].
  rewrite store_direct by lia. cbn [mbind outcome_bind].
  destruct (heap_push _ P K L _ H2 i h (mk_slab h (obj_size (slab (wr (wr s1 h SLAB_POISON) h (freelist (slab (wr s1 h SLAB_POISON) i))) i))
    (alloc_count (slab (wr (wr s1 h SLAB_POISON) h (freelist (slab (wr s1 h SLAB_POISON) i))) i))
    (u64 (free_count (slab (wr (wr s1 h SLAB_POISON) h (freelist (slab (wr s1 h SLAB_POISON) i))) i) + 1))) Hc Hl Hu0 eq_refl eq_refl) as [H3 S3].
  eexists. split; [reflexivity|]. split; [exact H3|]. eapply same_objects_trans; [exact S1|].
  eapply same_objects_trans; [exact S2 | exact S3].
Qed.

(** The size class of a request. *)
Lemma find_slab_ok s P K L U size : heap s P K L U -> size <= 2048 ->
  exists i, find_slab (slabs s) size 0 = Some i /\ (i < 8)%nat /\ size + 8 <= chunk i /\
    (forall j, (j < i)%nat -> chunk j < size + 8).
Proof.
  intros H Hs. assert (forall l k, map obj_size l = drop k slab_sz -> (forall j, (j < k)%nat -> chunk j < size + 8) ->
    (k + length l = 8)%nat -> l <> [] -> exists i, find_slab l size k = Some i /\ (i < 8)%nat /\ size + 8 <= chunk i /\
    (forall j, (j < i)%nat -> chunk j < size + 8)) as G.
  { induction l as [|c l IH]; intros k El Hj Hk Hne; [done|]. simpl.
    assert (obj_size c = nth k slab_sz 0 /\ map obj_size l = drop (S k) slab_sz) as [Ec El'].
    { simpl in Hk. do 8 (destruct k as [|k]; [simpl in El; injection El as ?; split; done|]). lia. }
    destruct (Z.leb_spec size (obj_size c)) as [Hle|Hgt].
    - exists k. unfold chunk at 1. simpl in Hk. split_and!; [done | lia | lia | done].
    - assert (forall j, (j < S k)%nat -> chunk j < size + 8) as Hj'.
      { intros j Hjk. destruct (decide (j = k)) as [->|]; [unfold chunk; lia | apply Hj; lia]. }
      simpl in Hk. destruct l as [|c' l]; [|apply IH; [done | done | simpl in *; lia | done]].
      exfalso. simpl in Hk. assert (k = 7%nat) as -> by lia. simpl in Ec. lia. }
  apply (G (slabs s) 0%nat); [apply (h_sizes _ _ _ _ _ H) | lia | by rewrite (slabs_length s P K L U H) |].
  intros E. pose proof (slabs_length s P K L U H) as El. by rewrite E in El.
Qed.

(** (C13) Small allocations: for any page allocator that keeps its promises, [kmalloc] of
    at most 2048 bytes either reports that memory is exhausted and changes nothing,
    or returns the payload of a chunk of the smallest class the request fits; the
    chunk overlaps no object in use, the contents of all objects in use are
    untouched, and the heap invariant holds with the chunk in use. *)
Theorem kmalloc_small s P K L U size : heap s P K L U -> size <= 2048 ->
  kmalloc s size = Done (s, 0) \/
  exists s' h i P' K' L', kmalloc s size = Done (s', h + 8) /\ heap s' P' K' L' (<[h := i]> U) /\
    size + 8 <= chunk i /\ (forall j, (j < i)%nat -> chunk j < size + 8) /\
    (forall h' j, U !! h' = Some j -> h + chunk i <= h' \/ h' + chunk j <= h) /\
    same_objects U s s' /\ 0 < h /\ h + chunk i <= 2 ^ 64.
Proof.
  intros H Hs. destruct (find_slab_ok s P K L U size H Hs) as (i & E & Hi & Hf & Hmin).
  unfold kmalloc. rewrite E. destruct (slab_alloc_ok s P K L U i H Hi) as [->|(s' & h & P' & K' & L' & -> & H' & Hc & Hu & HK & S & Hlo & Hhi)];
    [by left|right].
  exists s', h, i, P', K', L'. do 4 (split; [done|]). split; [|done]. intros h' j Hj.
  apply (chunks_apart s' P' K' L' _ H' i j h h'); [done | | congruence].
  eapply is_chunk_mono; [exact HK | by apply (h_live _ _ _ _ _ H)].
Qed.

(** (C14) Freeing a small object: [kfree] on the pointer [kmalloc] returned for an object
    in use succeeds, the object is no longer in use, all others keep their contents;
    and the next [kmalloc] of that class gets the same memory back without asking
    the page allocator. *)
Theorem kfree_small_object s P K L U h i size : heap s P K L U -> U !! h = Some i ->
  size + 8 <= chunk i -> (forall j, (j < i)%nat -> chunk j < size + 8) ->
  exists s', kfree s (h + 8) = Done s' /\ heap s' P K (updL L i (h :: L i)) (delete h U) /\
    same_objects (delete h U) s s' /\
    exists s'', kmalloc s' size = Done (s'', h + 8) /\ heap s'' P K L U.
Proof.
  intros H Hu Hsz Hmin. destruct (kfree_small s P K L U h i H Hu) as (s' & E & H' & S).
  exists s'. do 3 (split; [done|]). destruct (h_live _ _ _ _ _ H h i Hu) as [Hc _].
  destruct (chunk_addr s P K L U H i h Hc) as (Hlo & Hhi & Hi). destruct (chunk_range i Hi) as [Hr _].
  destruct (find_slab_ok s' P K _ _ size H') as (j & Ej & Hj & Hf & Hm); [unfold chunk in *; destruct (chunk_range i Hi); unfold chunk in *; lia|].
  assert (j = i) as ->.
  { destruct (Nat.lt_trichotomy j i) as [Hlt|[?|Hgt]]; [|done|].
    - specialize (Hmin j Hlt). lia.
    - specialize (Hm i Hgt). lia. }
  unfold kmalloc. rewrite Ej. unfold slab_alloc.
  destruct (freelist_cases s' P K _ _ i H' Hi) as [[El _]|(x & l & El & Ex & Hx)]; rewrite updL_eq in El; [done|].
  injection El as <- <-. rewrite Ex, (proj2 (Z.eqb_neq _ _) Hx), Ex, (proj2 (Z.eqb_neq _ _) Hx).
  destruct (heap_pop s' P K _ _ H' i h (L i) (mk_slab (rd s' h) (obj_size (slab s' i)) (u64 (alloc_count (slab s' i) + 1)) (free_count (slab s' i)))
    Hi (updL_eq _ _ _) eq_refl eq_refl) as [H2 _].
  rewrite (u64_small (h + 8)) by (unfold KERNEL_VIRT_BASE in *; lia). eexists. split; [done|].
  rewrite insert_delete_id in H2 by done. destruct H2 as [Ow Sz Pg Ch Nd Fr Lv]. split; try done.
  - intros k Hk. specialize (Ch k Hk). by rewrite updL_updL in Ch.
  - apply H.
  - intros k y Hk Hy. apply (h_free _ _ _ _ _ H k y Hk Hy).
Qed.

End slab.

(** ** A booted system *)

Definition vmm_ex : vmm := vmm_init (mk_vmm (boot no_bytes map_ex) 0 0xFFFF000000000000 [] ∅) 0x1000.

Lemma heap_ex : heap buddy_owns vmm_ex ∅ ∅ (fun _ => []) ∅.
Proof.
  split.
  - destruct run_ex_inv as [F H]. exists F, ∅. split; [exact H | done].
  - reflexivity.
  - done.
  - intros i Hi. do 8 (destruct i as [|i]; [done|]). lia.
  - intros. apply NoDup_nil_2.
  - intros i h _ Hh. by apply elem_of_nil in Hh.
  - intros h i. rewrite lookup_empty. done.
Qed.

Lemma kmalloc_small_witness : heap buddy_owns vmm_ex ∅ ∅ (fun _ => []) ∅ /\
  (kmalloc vmm_ex 100 = Done (vmm_ex, 0) \/ exists s' h, kmalloc vmm_ex 100 = Done (s', h + 8)).
Proof.
  split; [exact heap_ex|].
  destruct (kmalloc_small buddy_owns vmm_ex ∅ ∅ (fun _ => []) ∅ 100 heap_ex) as [E|(s' & h & i & P & K & L & E & _)].
  - discriminate.
  - left. exact E.
  - right. exists s', h. exact E.
Defined.

Lemma kfree_small_object_witness : exists s h s' s'', kmalloc vmm_ex 100 = Done (s, h + 8) /\
  kfree s (h + 8) = Done s' /\ kmalloc s' 100 = Done (s'', h + 8).
Proof.
  destruct (slab_alloc_ok buddy_owns vmm_ex ∅ ∅ (fun _ => []) ∅ 3 heap_ex ltac:(lia))
    as [E|(s & h & P & K & L & E & H & Hc & _)]; [apply (f_equal snd) in E; vm_compute in E; discriminate|].
  assert (kmalloc vmm_ex 100 = Done (s, h + 8)) as E' by (rewrite <- E; reflexivity).
  destruct (kfree_small_object buddy_owns s P K L (<[h := 3%nat]> ∅) h 3 100 H) as (s' & E1 & _ & _ & s'' & E2 & _).
  - apply lookup_insert_eq.
  - vm_compute. discriminate.
  - intros [|[|[|j]]] Hj; [vm_compute; reflexivity..| lia].
  - exists s, h, s', s''. split; [exact E' | split; [exact E1 | exact E2]].
Defined.

(** ** Where the code departs from its intent *)

(** Allocate, free twice, allocate from two classes: the three pointers. *)
Definition double_free : outcome (Z * Z * Z) :=
  '(s, p) ← kmalloc vmm_ex 2000;
  s ← kfree s p;
  s ← kfree s p;
  '(s, q) ← kmalloc s 2000;
  '(s, r) ← kmalloc s 8;
  Done (p, q, r).

(** Freeing an object of the largest class twice is not detected: the poison is
    overwritten by the free-list link, which is NULL, a valid cookie.  The block is
    then on two free lists, and the next two allocations, of different classes,
    return the same memory. *)
Theorem double_free_undetected : exists p, p <> 0 /\ double_free = Done (p, p, p).
Proof. exists 0xFFFFFFFF81400008. split; [discriminate | vm_compute; reflexivity]. Qed.

End VmmSlab.
