(* ===== verification/VmmMap.v ===== *)
(** * Page tables of mm/vmm.c: mapping, unmapping, the TLB

    [tables] is the shape of the four-level tree: a finite map from paths (lists of
    indices) to the pages that hold the tables, the root in the kernel image, the
    others pages obtained from the page allocator.  [vmm_map] and [vmm_unmap] change
    the translation of the pages they name and of no other, and after an unmap no
    access goes through a stale translation.  The page allocator enters through
    [PageAlloc].  The last section is about vmalloc as the kernel sets it up. *)

From S2P Require Import Prelude Buddy Pmm PmmLists PmmInv PmmSpec PageAlloc Vmm VmmSlab.
Import Pmm PmmLists PmmInv PmmSpec PageAlloc Vmm VmmSlab.

Module VmmMap.

(** ** Addresses and entries *)

Definition pg_ok (pa : Z) : Prop := 0 <= pa < 2 ^ 31 /\ (4096 | pa).

Lemma ok_pg pa : ok_pa pa -> pg_ok pa.
Proof. intros [? ?]. split; [lia | done]. Qed.
Lemma va_pg pa : pg_ok pa -> va pa = pa + KERNEL_VIRT_BASE.
Proof. intros [? _]. unfold phys_to_virt, KERNEL_VIRT_BASE. apply u64_small. lia. Qed.
Lemma va_pg_nonzero pa : pg_ok pa -> va pa <> 0.
Proof. intros H. rewrite va_pg by done. destruct H. unfold KERNEL_VIRT_BASE. lia. Qed.

(** Words of a page. *)
Lemma slot_pg pa i : pg_ok pa -> 0 <= i < 512 -> slot (va pa) i = va pa + 8 * i.
Proof. intros H Hi. unfold slot. rewrite va_pg by done. destruct H as [? [k ->]]. apply u64_small. unfold KERNEL_VIRT_BASE. lia. Qed.
Lemma slot_in pa i : 0 <= i < 512 -> in_page pa (va pa + 8 * i).
Proof. unfold in_page. lia. Qed.
Lemma pages_apart p q a b : pg_ok p -> pg_ok q -> p <> q -> in_page p a -> in_page q b -> a <> b.
Proof.
  unfold in_page. intros Hp Hq Hne. rewrite !va_pg by done. destruct Hp as [_ [c ->]], Hq as [_ [d ->]]. lia.
Qed.

Lemma mask_shift : PTE_ADDR_MASK = Z.shiftl (Z.ones 40) 12.
Proof. reflexivity. Qed.
Lemma mask_bit i : 0 <= i -> Z.testbit PTE_ADDR_MASK i = (12 <=? i) && (i <? 52).
Proof.
  intros Hi. rewrite mask_shift, Z.shiftl_spec by done.
  destruct (Z.leb_spec 12 i); simpl; [|apply Z.testbit_neg_r; lia].
  destruct (Z.ltb_spec i 52); [apply Z.ones_spec_low; lia | apply Z.ones_spec_high; lia].
Qed.
Lemma aligned_bit pa i : (4096 | pa) -> 0 <= i < 12 -> Z.testbit pa i = false.
Proof. intros [k ->] Hi. change 4096 with (2 ^ 12). apply Z.mul_pow2_bits_low. lia. Qed.
Lemma land_mask pa : pg_ok pa -> Z.land pa PTE_ADDR_MASK = pa.
Proof.
  intros [Hr Ha]. apply Z.bits_inj'. intros i Hi. rewrite Z.land_spec, mask_bit by done.
  destruct (Z.leb_spec 12 i); simpl.
  - destruct (Z.ltb_spec i 52); [apply andb_true_r|]. rewrite andb_false_r. symmetry.
    destruct (decide (pa = 0)) as [->|]; [apply Z.bits_0|]. apply Z.bits_above_log2; [lia|].
    apply Z.log2_lt_pow2; [lia|]. apply Z.lt_le_trans with (2 ^ 31); [lia|]. apply Z.pow_le_mono_r; lia.
  - rewrite andb_false_r. symmetry. apply aligned_bit; [done | lia].
Qed.

(** A frame together with flag bits. *)
Definition flag_bits (f : Z) : Prop := Z.land f PTE_ADDR_MASK = 0.
Lemma frame_of x f : flag_bits f -> Z.land (Z.lor (Z.land x PTE_ADDR_MASK) f) PTE_ADDR_MASK = Z.land x PTE_ADDR_MASK.
Proof. intros E. rewrite Z.land_lor_distr_l, E, Z.lor_0_r, <- Z.land_assoc, Z.land_diag. done. Qed.
Lemma present_bit e : present e = Z.testbit e 0.
Proof. unfold present, PTE_PRESENT. exact (truthy_mask e 0 ltac:(lia)). Qed.
Lemma present_or x f : Z.testbit f 0 = true -> present (Z.lor x f) = true.
Proof. intros E. rewrite present_bit, Z.lor_spec, E. apply orb_true_r. Qed.
Lemma prot_flags flags : flag_bits (prot_of flags) /\ Z.testbit (prot_of flags) 0 = true.
Proof.
  unfold prot_of. destruct (truthy (Z.land flags VMM_WRITE)), (truthy (Z.land flags VMM_USER)), (truthy (Z.land flags VMM_EXEC));
    by vm_compute.
Qed.

(** The part of an address the tables translate. *)
Definition vpn (v : Z) : Z := (v / 4096) mod 2 ^ 36.
Definition path (v : Z) : list Z := [pml4_i v; pdpt_i v; pd_i v].

Lemma index_range n v : 0 <= Z.land (Z.shiftr v n) 0x1FF < 512.
Proof. change 0x1FF with (2 ^ 9 - 1). rewrite land_ones_mod by lia. apply Z.mod_pos_bound. lia. Qed.
Lemma index_eq n v : 0 <= n -> Z.land (Z.shiftr v n) 0x1FF = (v / 2 ^ n) mod 512.
Proof. intros. change 0x1FF with (2 ^ 9 - 1). rewrite land_ones_mod, Z.shiftr_div_pow2 by lia. done. Qed.
(** The indices as digits of the page number in base 512. *)
Lemma digits v : path v = [(v / 4096 / (512 * 512 * 512)) mod 512; (v / 4096 / (512 * 512)) mod 512; (v / 4096 / 512) mod 512]
  /\ pt_i v = (v / 4096) mod 512.
Proof.
  unfold path, pml4_i, pdpt_i, pd_i, pt_i. rewrite !index_eq by lia. rewrite !Z.div_div by lia. done.
Qed.
Lemma same_path v w : path v = path w -> pt_i v = pt_i w -> vpn v = vpn w.
Proof.
  destruct (digits v) as [-> ->], (digits w) as [-> ->]. intros [= E1 E2 E3] E4. unfold vpn.
  change (2 ^ 36) with (512 * 512 * 512 * 512). revert E1 E2 E3 E4. generalize (v / 4096) (w / 4096). intros x y. zdm.
Qed.
Lemma vpn_path v w : vpn v = vpn w -> path v = path w /\ pt_i v = pt_i w.
Proof.
  destruct (digits v) as [-> ->], (digits w) as [-> ->]. unfold vpn. change (2 ^ 36) with (512 * 512 * 512 * 512).
  generalize (v / 4096) (w / 4096). intros x y E.
  assert ((x / (512 * 512 * 512)) mod 512 = (y / (512 * 512 * 512)) mod 512 /\ (x / (512 * 512)) mod 512 = (y / (512 * 512)) mod 512 /\
    (x / 512) mod 512 = (y / 512) mod 512 /\ x mod 512 = y mod 512) as (-> & -> & -> & ->) by zdm. done.
Qed.
Lemma vpn_u64 v x : vpn (u64 (v + u64 x)) = vpn (v + x).
Proof.
  unfold vpn, u64. rewrite Zplus_mod_idemp_r. change (2 ^ 64) with (4096 * 2 ^ 36 * 2 ^ 16). change (2 ^ 36) with 68719476736.
  change (2 ^ 16) with 65536. generalize (v + x). intros z. zdm.
Qed.
Lemma path_u64 v x : path (u64 (v + u64 x)) = path (v + x) /\ pt_i (u64 (v + u64 x)) = pt_i (v + x).
Proof. apply vpn_path, vpn_u64. Qed.
Lemma vpn_ne v j k : 0 <= j < 2 ^ 36 -> 0 <= k < 2 ^ 36 -> vpn (v + j * 4096) = vpn (v + k * 4096) -> j = k.
Proof. unfold vpn. rewrite !Z.div_add by lia. change (2 ^ 36) with 68719476736. generalize (v / 4096). intros z. zdm. Qed.
Lemma mask_u64 x : Z.land (u64 x) PTE_ADDR_MASK = Z.land x PTE_ADDR_MASK.
Proof.
  unfold u64. apply Z.bits_inj'. intros i Hi. rewrite !Z.land_spec, mask_bit by done.
  destruct (Z.ltb_spec i 52); [|by rewrite !andb_false_r]. by rewrite Z.mod_pow2_bits_low by lia.
Qed.

(** ** The tree of tables *)

Section tree.
Context (owns : pmm -> gset Z -> Prop) `{PA : !PageAlloc owns} (M : Z -> Prop).

(** [M]: the entries of the root that [vmm_map] manages (the boot code has filled
    others, with 2 MB pages below them). *)
Record tables (s : vmm) (P : gset Z) (T : gmap (list Z) Z) : Prop := {
  t_owns : owns (pm s) P;
  t_root : exists r, T !! [] = Some r /\ g_kernel_pml4 s = va r /\ pg_ok r /\ forall a, in_page r a -> ~ managed (pm s) a;
  t_pages : forall p q, T !! p = Some q -> p <> [] -> q ∈ P;
  t_inj : forall p p' q, T !! p = Some q -> T !! p' = Some q -> p = p';
  t_link : forall p q i, T !! p = Some q -> (length p < 3)%nat -> 0 <= i < 512 -> (p = [] -> M i) ->
    T !! (p ++ [i]) = if present (rd s (va q + 8 * i)) then Some (Z.land (rd s (va q + 8 * i)) PTE_ADDR_MASK) else None;
  t_up : forall p i, is_Some (T !! (p ++ [i])) -> is_Some (T !! p)
}.

Lemma t_pg s P T p q : tables s P T -> T !! p = Some q -> pg_ok q.
Proof.
  intros H E. destruct (decide (p = [])) as [->|Hp].
  - destruct (t_root _ _ _ H) as (r & Er & _ & Hr & _). congruence.
  - apply ok_pg. eapply owns_page; [apply (t_owns _ _ _ H) | by eapply t_pages].
Qed.

(** Two tables do not share a word. *)
Lemma tables_apart s P T p p' q q' a b : tables s P T -> T !! p = Some q -> T !! p' = Some q' -> p <> p' ->
  in_page q a -> in_page q' b -> a <> b.
Proof.
  intros H E E' Hne. apply pages_apart; [by eapply t_pg | by eapply t_pg|]. intros ->. by apply Hne, (t_inj _ _ _ H p p' q').
Qed.

(** One level down without allocation. *)
Lemma next_level_ro s P T p q i : tables s P T -> T !! p = Some q -> (length p < 3)%nat -> 0 <= i < 512 -> (p = [] -> M i) ->
  pt_next_level s (slot (va q) i) false = (s, match T !! (p ++ [i]) with Some q' => va q' | None => 0 end).
Proof.
  intros H E Hp Hi HM. unfold pt_next_level. rewrite slot_pg by (done || by eapply t_pg).
  rewrite (t_link _ _ _ H p q i E Hp Hi HM). by destruct (present (rd s (va q + 8 * i))).
Qed.

Lemma child_nonzero s P T p q : tables s P T -> T !! p = Some q -> (va q =? 0) = false.
Proof. intros H E. apply Z.eqb_neq, va_pg_nonzero. by eapply t_pg. Qed.

Ltac idx := first [apply index_range | lia].

(** What the tables say about [v]. *)
Definition leaf_of (s : vmm) (T : gmap (list Z) Z) (v : Z) : option Z :=
  q ← T !! path v; let e := rd s (va q + 8 * pt_i v) in if present e then Some e else None.

Lemma no_child s P T p i : tables s P T -> T !! p = None -> T !! (p ++ [i]) = None.
Proof. intros H E. apply eq_None_not_Some. intros Hs%(t_up _ _ _ H). rewrite E in Hs. by destruct Hs. Qed.

Lemma descend_ro s P T v : tables s P T -> M (pml4_i v) ->
  descend s v false = (s, match T !! path v with Some q => va q | None => 0 end).
Proof.
  intros H HM. destruct (t_root _ _ _ H) as (r & Er & Eg & _). unfold descend. rewrite Eg.
  rewrite (next_level_ro s P T [] r (pml4_i v) H Er) by (simpl; idx || done). simpl ([] ++ _).
  destruct (T !! [pml4_i v]) as [q1|] eqn:E1; simpl.
  2:{ change (path v) with (([pml4_i v] ++ [pdpt_i v]) ++ [pd_i v]).
      by rewrite (no_child s P T _ (pd_i v) H (no_child s P T [_] (pdpt_i v) H E1)). }
  rewrite (child_nonzero s P T _ q1 H E1).
  rewrite (next_level_ro s P T [pml4_i v] q1 (pdpt_i v) H E1) by (simpl; idx || done). simpl ([_] ++ _).
  destruct (T !! [pml4_i v; pdpt_i v]) as [q2|] eqn:E2; simpl.
  2:{ change (path v) with ([pml4_i v; pdpt_i v] ++ [pd_i v]). by rewrite (no_child s P T _ (pd_i v) H E2). }
  rewrite (child_nonzero s P T _ q2 H E2).
  by rewrite (next_level_ro s P T [pml4_i v; pdpt_i v] q2 (pd_i v) H E2) by (simpl; idx || done).
Qed.

Lemma walk_leaf s P T v : tables s P T -> M (pml4_i v) -> walk s v = leaf_of s T v.
Proof.
  intros H HM. unfold walk, leaf_of. rewrite (descend_ro s P T v H HM).
  destruct (T !! path v) as [q|] eqn:E; simpl; [|done].
  rewrite (child_nonzero s P T _ q H E), slot_pg; [done | by eapply t_pg | idx].
Qed.

(** ** Adding tables *)

(** [s'] has more tables than [s]; translations and the other pages are the same. *)
Record grown (s : vmm) (P : gset Z) (T : gmap (list Z) Z) (s' : vmm) (P' : gset Z) (T' : gmap (list Z) Z) : Prop := {
  gr_tables : tables s' P' T';
  gr_T : T ⊆ T';
  gr_P : P ⊆ P';
  gr_tlb : tlb s' = tlb s /\ vmalloc_next s' = vmalloc_next s /\ slabs s' = slabs s;
  gr_leaf : forall v, leaf_of s' T' v = leaf_of s T v;
  gr_data : forall pa a, pa ∈ P -> (forall p, T !! p <> Some pa) -> in_page pa a -> rd s' a = rd s a;
  gr_new : forall p q, T' !! p = Some q -> T !! p = None -> q ∉ P
}.

Lemma grown_refl s P T : tables s P T -> grown s P T s P T.
Proof. intros H. split; [done..|congruence]. Qed.
Lemma grown_trans s1 P1 T1 s2 P2 T2 s3 P3 T3 : grown s1 P1 T1 s2 P2 T2 -> grown s2 P2 T2 s3 P3 T3 -> grown s1 P1 T1 s3 P3 T3.
Proof.
  intros G1 G2. split; try apply G2.
  - etrans; [apply G1 | apply G2].
  - etrans; [apply G1 | apply G2].
  - destruct (gr_tlb _ _ _ _ _ _ G1) as (<- & <- & <-). apply G2.
  - intros v. rewrite (gr_leaf _ _ _ _ _ _ G2). apply G1.
  - intros pa a Hpa Hn Ha. rewrite (gr_data _ _ _ _ _ _ G2 pa); [by apply (gr_data _ _ _ _ _ _ G1 pa) | | | done].
    + by apply (gr_P _ _ _ _ _ _ G1).
    + intros p Ep. destruct (T1 !! p) as [q|] eqn:E1.
      * pose proof (lookup_weaken _ _ _ _ E1 (gr_T _ _ _ _ _ _ G1)) as E2. apply (Hn p). congruence.
      * by apply (gr_new _ _ _ _ _ _ G1 p pa).
  - intros p q E3 E1. destruct (T2 !! p) as [q2|] eqn:E2.
    + pose proof (lookup_weaken _ _ _ _ E2 (gr_T _ _ _ _ _ _ G2)). assert (q2 = q) as -> by congruence.
      by apply (gr_new _ _ _ _ _ _ G1 p).
    + intros Hq. apply (gr_new _ _ _ _ _ _ G2 p q E3 E2). by apply (gr_P _ _ _ _ _ _ G1).
Qed.

(** Zeroing a page. *)
Lemma mread_mzero a n : forall m va, 0 <= va -> va + 8 * Z.of_nat n <= 2 ^ 64 ->
  (forall k, 0 <= k < Z.of_nat n -> a <> va + 8 * k) -> mread (mzero m va n) a = mread m a.
Proof.
  induction n as [|n IH]; intros m va H0 Hb Ha; [done|]. simpl. destruct n as [|n].
  - simpl. apply mread_mwrite_ne. specialize (Ha 0). lia.
  - rewrite u64_small by lia. rewrite IH; [|lia|lia|].
    + apply mread_mwrite_ne. specialize (Ha 0). lia.
    + intros k Hk. specialize (Ha (k + 1)). lia.
Qed.
Lemma mread_mzero_in n : forall m va k, 0 <= va -> va + 8 * Z.of_nat n <= 2 ^ 64 -> 0 <= k < Z.of_nat n ->
  mread (mzero m va n) (va + 8 * k) = 0.
Proof.
  induction n as [|n IH]; intros m va k H0 Hb Hk; [lia|]. simpl. destruct (decide (k = 0)) as [->|Hk0].
  - rewrite Z.mul_0_r, Z.add_0_r. destruct n as [|n]; [apply mread_mwrite_eq|].
    rewrite u64_small by lia. rewrite mread_mzero by lia. apply mread_mwrite_eq.
  - rewrite u64_small by lia. replace (va + 8 * k) with (va + 8 + 8 * (k - 1)) by lia. apply IH; lia.
Qed.

Lemma owns_mzero q P n : forall p k, owns p P -> q ∈ P -> pg_ok q -> 0 <= k -> k + Z.of_nat n <= 512 ->
  owns (with_mem p (mzero (mem p) (va q + 8 * k) n)) P.
Proof.
  induction n as [|n IH]; intros p k Ho Hq Hok Hk Hb; simpl; [by destruct p|].
  pose proof (owns_write p P q (va q + 8 * k) 0 Ho Hq ltac:(unfold in_page; lia)) as Ho'.
  destruct n as [|n]; [exact Ho'|].
  rewrite u64_small by (rewrite va_pg by done; destruct Hok as [? [c ->]]; unfold KERNEL_VIRT_BASE; lia).
  replace (va q + 8 * k + 8) with (va q + 8 * (k + 1)) by lia.
  specialize (IH _ (k + 1) Ho' Hq Hok ltac:(lia) ltac:(lia)). exact IH.
Qed.

Lemma rd_wr s a b v : rd (wr s a v) b = if a =? b then v else rd s b.
Proof. unfold rd, wr. simpl. apply mread_mwrite. Qed.
Lemma rd_wr_ne s a b v : a <> b -> rd (wr s a v) b = rd s b.
Proof. intros. rewrite rd_wr. by rewrite (proj2 (Z.eqb_neq a b)). Qed.

(** A word of a table or of the root can be written. *)
Lemma owns_table s P T p q i v : tables s P T -> T !! p = Some q -> 0 <= i < 512 -> owns (pm (wr s (va q + 8 * i) v)) P.
Proof.
  intros H E Hi. destruct (decide (p = [])) as [->|Hp].
  - destruct (t_root _ _ _ H) as (r & Er & _ & _ & Hr). assert (r = q) as -> by congruence.
    apply owns_write_rest; [apply (t_owns _ _ _ H) | apply Hr; by apply slot_in].
  - apply (owns_write (pm s) P q); [apply (t_owns _ _ _ H) | by eapply t_pages | by apply slot_in].
Qed.

#[local] Opaque mzero.

Section new_table.
Context (s : vmm) (P : gset Z) (T : gmap (list Z) Z) (H : tables s P T).
Context (p : list Z) (q i : Z) (Hp : T !! p = Some q) (Hlen : (length p < 3)%nat) (Hi : 0 <= i < 512) (HM : p = [] -> M i).
Context (p' : pmm) (q' : Z) (Hfree : T !! (p ++ [i]) = None).
Context (Ho : owns p' (P ∪ {[q']})) (Ha : agree P (pm s) p') (Hq' : q' ∉ P).

Definition with_table : vmm :=
  wr (with_pm s (with_mem p' (mzero (mem p') (va q') 512))) (va q + 8 * i) (Z.lor (Z.lor q' PTE_PRESENT) PTE_WRITE).

Lemma new_pg : pg_ok q'.
Proof. apply ok_pg. eapply owns_page; [exact Ho | set_solver]. Qed.

Lemma new_not_root : T !! [] <> Some q'.
Proof.
  intros E. destruct (t_root _ _ _ H) as (r & Er & _ & _ & Hr). assert (r = q') as -> by congruence.
  apply (Hr (va q')); [unfold in_page; lia|]. apply (ag_managed _ _ _ Ha).
  apply (owns_managed p' (P ∪ {[q']}) q'); [exact Ho | set_solver | unfold in_page; lia].
Qed.

Lemma held_pg x : x ∈ P \/ T !! [] = Some x -> pg_ok x /\ x <> q'.
Proof.
  intros [Hx|Hx]; [|split; [by eapply t_pg | intros ->; by apply new_not_root]].
  split; [apply ok_pg; eapply owns_page; [apply (t_owns _ _ _ H) | done] | by intros ->].
Qed.

Lemma table_held p0 q0 : T !! p0 = Some q0 -> q0 ∈ P \/ T !! [] = Some q0.
Proof. intros E. destruct (decide (p0 = [])) as [->|]; [by right | left; by eapply t_pages]. Qed.

Lemma old_word x a : x ∈ P \/ T !! [] = Some x -> in_page x a -> a <> va q + 8 * i -> rd with_table a = rd s a.
Proof.
  intros Hx Hin Hne. destruct (held_pg x Hx) as [Hok Hxq]. unfold with_table. rewrite rd_wr_ne by done.
  unfold rd. cbn [pm with_pm with_mem mem]. pose proof new_pg as Hok'. rewrite mread_mzero.
  - destruct Hx as [Hx|Hx]; [by apply (ag_pages _ _ _ Ha x)|]. apply (ag_rest _ _ _ Ha).
    destruct (t_root _ _ _ H) as (r & Er & _ & _ & Hr). apply Hr. congruence.
  - rewrite va_pg by done. destruct Hok'. unfold KERNEL_VIRT_BASE. lia.
  - rewrite va_pg by done. destruct Hok' as [? [c ->]]. unfold KERNEL_VIRT_BASE. lia.
  - intros k Hk. apply (pages_apart x q'); auto. apply slot_in. lia.
Qed.

Lemma new_word k : 0 <= k < 512 -> rd with_table (va q' + 8 * k) = 0.
Proof.
  intros Hk. pose proof new_pg as Hok'. unfold with_table. rewrite rd_wr_ne.
  - unfold rd. cbn [pm with_pm with_mem mem]. apply (mread_mzero_in 512); [| |lia]; rewrite va_pg by done; destruct Hok' as [? [c ->]]; unfold KERNEL_VIRT_BASE; lia.
  - destruct (held_pg q (table_held p q Hp)) as [Hok Hne]. apply (pages_apart q q'); auto using slot_in.
Qed.

Lemma entry_word : rd with_table (va q + 8 * i) = Z.lor (Z.lor q' PTE_PRESENT) PTE_WRITE.
Proof. unfold with_table. rewrite rd_wr. by rewrite Z.eqb_refl. Qed.

Lemma entry_points : present (Z.lor (Z.lor q' PTE_PRESENT) PTE_WRITE) = true /\
  Z.land (Z.lor (Z.lor q' PTE_PRESENT) PTE_WRITE) PTE_ADDR_MASK = q'.
Proof.
  rewrite <- Z.lor_assoc. change (Z.lor PTE_PRESENT PTE_WRITE) with 3. split; [by apply present_or|].
  rewrite <- (land_mask q' new_pg) at 1. rewrite frame_of by done. apply land_mask, new_pg.
Qed.

Lemma T_ne p0 i0 : (p0, i0) <> (p, i) -> <[p ++ [i] := q']> T !! (p0 ++ [i0]) = T !! (p0 ++ [i0]).
Proof. intros Hne. apply lookup_insert_ne. intros E. apply app_inj_tail in E as [-> ->]. done. Qed.

Lemma new_link p0 q0 i0 : <[p ++ [i] := q']> T !! p0 = Some q0 -> (length p0 < 3)%nat -> 0 <= i0 < 512 -> (p0 = [] -> M i0) ->
  <[p ++ [i] := q']> T !! (p0 ++ [i0]) =
    if present (rd with_table (va q0 + 8 * i0)) then Some (Z.land (rd with_table (va q0 + 8 * i0)) PTE_ADDR_MASK) else None.
Proof.
  rewrite lookup_insert_Some. intros [[<- <-]|[Hne E]] Hl Hi0 HM0.
  - rewrite new_word by done. change (present 0) with false. cbv iota.
    rewrite T_ne; [by apply (no_child s P T)|]. intros [= E _]. apply (f_equal length) in E. rewrite length_app in E. simpl in E. lia.
  - destruct (decide ((p0, i0) = (p, i))) as [[= -> ->]|Hpi].
    + assert (q0 = q) as -> by congruence. rewrite entry_word, lookup_insert_eq.
      destruct entry_points as [-> ->]. done.
    + rewrite T_ne by done. rewrite (old_word q0); [by apply (t_link _ _ _ H) | by eapply table_held | by apply slot_in |].
      intros E'. destruct (decide (p0 = p)) as [->|Hp0].
      * assert (q0 = q) as -> by congruence. apply Hpi. f_equal. lia.
      * revert E'. apply (tables_apart s P T p0 p q0 q); auto using slot_in.
Qed.

Lemma with_table_tables : tables with_table (P ∪ {[q']}) (<[p ++ [i] := q']> T).
Proof.
  split.
  - pose proof (owns_mzero q' (P ∪ {[q']}) 512 p' 0 Ho ltac:(set_solver) new_pg ltac:(lia) ltac:(lia)) as Hz.
    rewrite Z.mul_0_r, Z.add_0_r in Hz. unfold with_table. destruct (decide (p = [])) as [->|Hp0].
    + apply owns_write_rest; [exact Hz|]. destruct (t_root _ _ _ H) as (r & Er & _ & _ & Hr).
      assert (r = q) as -> by congruence. intros Hm. apply (Hr (va q + 8 * i)); [by apply slot_in|]. by apply (ag_managed _ _ _ Ha).
    + apply (owns_write _ _ q); [exact Hz | apply elem_of_union_l; by eapply t_pages | by apply slot_in].
  - destruct (t_root _ _ _ H) as (r & Er & Eg & Hr & Hm). exists r.
    rewrite lookup_insert_ne by (by destruct p). split_and!; auto. intros a Hin Hx. apply (Hm a Hin). by apply (ag_managed _ _ _ Ha).
  - intros p0 q0. rewrite lookup_insert_Some. intros [[_ <-]|[_ E]] Hp0; [set_solver|].
    apply elem_of_union_l. by eapply t_pages.
  - assert (forall p0, T !! p0 <> Some q') as Hnew.
    { intros p0 E. destruct (table_held p0 q' E) as [?|?]; [done | by apply new_not_root]. }
    intros p0 p1 q0. rewrite !lookup_insert_Some. intros [[<- <-]|[_ E0]] [[E1 E1']|[_ E1]]; try (by destruct (Hnew _ E1)) || done.
    + subst. by destruct (Hnew _ E0).
    + by eapply (t_inj _ _ _ H).
  - intros. by apply new_link.
  - intros p0 i0. rewrite lookup_insert_is_Some. intros [E|[_ Hs]].
    + apply app_inj_tail in E as [<- _]. apply lookup_insert_is_Some. right. rewrite Hp. split; [|done].
      intros E. apply (f_equal length) in E. rewrite length_app in E. simpl in E. lia.
    + apply lookup_insert_is_Some'. right. by apply (t_up _ _ _ H p0 i0).
Qed.

Lemma with_table_grown : grown s P T with_table (P ∪ {[q']}) (<[p ++ [i] := q']> T).
Proof.
  split.
  - apply with_table_tables.
  - by apply insert_subseteq.
  - set_solver.
  - done.
  - intros v. unfold leaf_of. destruct (decide (path v = p ++ [i])) as [E|Hne].
    + rewrite E, lookup_insert_eq, Hfree. simpl. rewrite new_word by apply index_range. done.
    + rewrite lookup_insert_ne by done. destruct (T !! path v) as [q0|] eqn:E; simpl; [|done].
      rewrite (old_word q0); [done | by eapply table_held | apply slot_in, index_range |].
      apply (tables_apart s P T (path v) p q0 q); auto using slot_in; [|apply slot_in, index_range].
      intros Ep. rewrite <- Ep in Hlen. simpl in Hlen. lia.
  - intros pa a Hpa Hn Hin. apply (old_word pa); [by left | done|].
    destruct (held_pg pa (or_introl Hpa)) as [Hok _]. destruct (held_pg q (table_held p q Hp)) as [Hoq _].
    apply (pages_apart pa q); auto using slot_in. intros ->. by apply (Hn p).
  - intros p0 q0. rewrite lookup_insert_Some. intros [[_ <-]|[_ E]]; [done | congruence].
Qed.

End new_table.

(** One level down, with allocation: out of memory, or the table is there. *)
Lemma next_level_alloc s P T p q i : tables s P T -> T !! p = Some q -> (length p < 3)%nat -> 0 <= i < 512 -> (p = [] -> M i) ->
  pt_next_level s (slot (va q) i) true = (s, 0) \/
  exists s' P' T' q', pt_next_level s (slot (va q) i) true = (s', va q') /\ grown s P T s' P' T' /\ T' !! (p ++ [i]) = Some q'.
Proof.
  intros H E Hl Hi HM. unfold pt_next_level. rewrite slot_pg by (done || by eapply t_pg).
  pose proof (t_link _ _ _ H p q i E Hl Hi HM) as L. destruct (present (rd s (va q + 8 * i))) eqn:Ep.
  - right. exists s, P, T, (Z.land (rd s (va q + 8 * i)) PTE_ADDR_MASK). split; [done|]. split; [by apply grown_refl | done].
  - cbn [negb]. destruct (pmm_alloc_page (pm s)) as [p' q'] eqn:Ea.
    destruct (owns_alloc _ P p' q' (t_owns _ _ _ H) Ea) as [[-> ->]|(Hz & Hn & Ho & Hag)].
    + left. destruct s. done.
    + right. rewrite (proj2 (Z.eqb_neq q' 0) Hz). exists (with_table s q i p' q'), (P ∪ {[q']}), (<[p ++ [i] := q']> T), q'. split; [reflexivity|].
      split; [by apply with_table_grown | apply lookup_insert_eq].
Qed.

Lemma descend_alloc s P T v : tables s P T -> M (pml4_i v) ->
  exists s' P' T', grown s P T s' P' T' /\
    (descend s v true = (s', 0) \/ exists q, descend s v true = (s', va q) /\ T' !! path v = Some q).
Proof.
  intros H HM. destruct (t_root _ _ _ H) as (r & Er & Eg & _). unfold descend. rewrite Eg.
  destruct (next_level_alloc s P T [] r (pml4_i v) H Er) as [->|(s1 & P1 & T1 & q1 & -> & G1 & E1)]; simpl; try (idx || done).
  { exists s, P, T. split; [by apply grown_refl | by left]. }
  pose proof (gr_tables _ _ _ _ _ _ G1) as H1. rewrite (child_nonzero s1 P1 T1 _ q1 H1 E1).
  destruct (next_level_alloc s1 P1 T1 [pml4_i v] q1 (pdpt_i v) H1 E1) as [->|(s2 & P2 & T2 & q2 & -> & G2 & E2)]; simpl; try (idx || done).
  { exists s1, P1, T1. split; [done | by left]. }
  pose proof (gr_tables _ _ _ _ _ _ G2) as H2. rewrite (child_nonzero s2 P2 T2 _ q2 H2 E2).
  pose proof (grown_trans _ _ _ _ _ _ _ _ _ G1 G2) as G12.
  destruct (next_level_alloc s2 P2 T2 [pml4_i v; pdpt_i v] q2 (pd_i v) H2 E2) as [->|(s3 & P3 & T3 & q3 & -> & G3 & E3)]; simpl; try (idx || done).
  { exists s2, P2, T2. split; [done | by left]. }
  exists s3, P3, T3. split; [by eapply grown_trans | right; by exists q3].
Qed.

(** ** Leaves *)

Lemma set_leaf s P T v q e : tables s P T -> T !! path v = Some q ->
  let s' := wr s (va q + 8 * pt_i v) e in
  tables s' P T /\ leaf_of s' T v = (if present e then Some e else None) /\
  (forall w, vpn w <> vpn v -> leaf_of s' T w = leaf_of s T w) /\
  (forall pa a, pg_ok pa -> pa <> q -> in_page pa a -> rd s' a = rd s a).
Proof.
  intros H E s'. assert (0 <= pt_i v < 512) as Hi by idx. pose proof (t_pg _ _ _ _ _ H E) as Hq.
  assert (forall p q0 i, T !! p = Some q0 -> (length p < 3)%nat -> 0 <= i < 512 -> rd s' (va q0 + 8 * i) = rd s (va q0 + 8 * i)) as Hr.
  { intros p q0 i E0 Hl H0. apply rd_wr_ne, not_eq_sym.
    apply (tables_apart s P T p (path v) q0 q); auto using slot_in. intros ->. simpl in Hl. lia. }
  split; [|split; [|split]].
  - split; try apply H.
    + by eapply owns_table.
    + intros p q0 i E0 Hl H0 HM. rewrite (Hr p q0 i) by done. by apply (t_link _ _ _ H).
  - unfold leaf_of. rewrite E. simpl. unfold s'. rewrite rd_wr, Z.eqb_refl. done.
  - intros w Hw. unfold leaf_of. destruct (T !! path w) as [q0|] eqn:E0; simpl; [|done].
    unfold s'. rewrite rd_wr_ne; [done|]. intros Ew. destruct (decide (path w = path v)) as [Ep|Hp].
    + assert (q0 = q) as -> by congruence. apply Hw, same_path; [done | lia].
    + symmetry in Ew. revert Ew. apply (tables_apart s P T (path w) (path v) q0 q); auto using slot_in. apply slot_in. idx.
  - intros pa a Hpa Hne Hin. unfold s'. apply rd_wr_ne. apply not_eq_sym, (pages_apart pa q); auto using slot_in.
Qed.

Lemma leaf_vpn s T v w : vpn v = vpn w -> leaf_of s T v = leaf_of s T w.
Proof. intros [E1 E2]%vpn_path. unfold leaf_of. by rewrite E1, E2. Qed.

(** What mapping pages [i] to [k - 1] of a range does to the translations. *)
Definition entry_at (phys prot j : Z) : Z := Z.lor (Z.land (phys + j * 4096) PTE_ADDR_MASK) prot.

Lemma map_loop_ok virt phys prot n : Z.testbit prot 0 = true -> forall s P T i,
  tables s P T -> 0 <= i -> i + Z.of_nat n <= 2 ^ 36 ->
  (forall j, i <= j < i + Z.of_nat n -> M (pml4_i (virt + j * 4096))) ->
  exists s' P' T' k, map_loop s virt phys prot i n = (s', if k =? i + Z.of_nat n then 0 else - ENOMEM) /\
    i <= k <= i + Z.of_nat n /\ tables s' P' T' /\ P ⊆ P' /\
    (tlb s' = tlb s /\ vmalloc_next s' = vmalloc_next s /\ slabs s' = slabs s) /\
    (forall j, i <= j < k -> leaf_of s' T' (virt + j * 4096) = Some (entry_at phys prot j)) /\
    (forall w, (forall j, i <= j < k -> vpn w <> vpn (virt + j * 4096)) -> leaf_of s' T' w = leaf_of s T w).
Proof.
  intros Hprot. induction n as [|n IH]; intros s P T i H Hi Hb HM.
  { exists s, P, T, i. simpl. rewrite Z.add_0_r, Z.eqb_refl.
    split_and!; first [done | lia | intros; lia]. }
  cbn [map_loop]. change (u64 (i * PAGE_SIZE)) with (u64 (i * 4096)).
  destruct (path_u64 virt (i * 4096)) as [Ep Et]. set (v := u64 (virt + u64 (i * 4096))) in *.
  destruct (descend_alloc s P T v H) as (s1 & P1 & T1 & G & D).
  { replace (pml4_i v) with (pml4_i (virt + i * 4096)) by (by injection Ep). apply HM. lia. }
  pose proof (gr_tables _ _ _ _ _ _ G) as H1. destruct D as [->|(q & -> & Eq)].
  { exists s1, P1, T1, i. simpl. rewrite (proj2 (Z.eqb_neq i _)) by lia.
    split_and!; try apply G; first [reflexivity | lia | intros; lia | intros; apply G]. }
  rewrite (child_nonzero s1 P1 T1 _ q H1 Eq), slot_pg by (idx || by eapply t_pg). cbv zeta.
  assert (Z.lor (Z.land (u64 (phys + u64 (i * 4096))) PTE_ADDR_MASK) prot = entry_at phys prot i) as ->.
  { unfold entry_at. f_equal. rewrite mask_u64. rewrite Z.land_comm, (Z.land_comm (phys + _)).
    rewrite <- (Z.land_comm _ PTE_ADDR_MASK), <- (Z.land_comm (phys + i * 4096)).
    rewrite <- (mask_u64 (phys + u64 _)), <- (mask_u64 (phys + i * 4096)). f_equal. unfold u64. apply Zplus_mod_idemp_r. }
  destruct (set_leaf s1 P1 T1 v q (entry_at phys prot i) H1 Eq) as (H2 & L1 & L2 & _).
  set (s2 := wr s1 _ _) in *.
  destruct (IH s2 P1 T1 (i + 1) H2) as (s' & P' & T' & k & E & Hk & H' & HP & Hst & M1 & M2); [lia | lia | intros; apply HM; lia|].
  replace (i + 1 + Z.of_nat n) with (i + Z.of_nat (S n)) in * by lia.
  exists s', P', T', k. split; [exact E|]. split; [lia|]. split; [done|]. split; [etrans; [apply G | done]|]. split.
  { destruct Hst as (-> & -> & ->). apply G. }
  assert (vpn v = vpn (virt + i * 4096)) as Ev by apply vpn_u64. split.
  - intros j Hj. destruct (decide (j = i)) as [->|]; [|apply M1; lia].
    rewrite M2. 2:{ intros j' Hj' E'. apply vpn_ne in E'; lia. }
    rewrite <- (leaf_vpn s2 T1 v) by done. rewrite L1. unfold entry_at. by rewrite present_or.
  - intros w Hw. rewrite M2 by (intros; apply Hw; lia). rewrite L2; [apply G|]. rewrite Ev. apply Hw. lia.
Qed.

(** Giving a page that holds no table back. *)
Lemma free_frame s P T f : tables s P T -> f ∈ P -> (forall p, T !! p <> Some f) ->
  let s' := with_pm s (pmm_free_page (pm s) f) in
  tables s' (P ∖ {[f]}) T /\ (forall v, leaf_of s' T v = leaf_of s T v).
Proof.
  intros H Hf Hn s'. destruct (owns_free (pm s) P f (t_owns _ _ _ H) Hf) as [Ho Ha].
  assert (forall p q i, T !! p = Some q -> 0 <= i < 512 -> rd s' (va q + 8 * i) = rd s (va q + 8 * i)) as Hr.
  { intros p q i E Hi. unfold rd, s'. simpl. destruct (decide (p = [])) as [->|Hp].
    - apply (ag_rest _ _ _ Ha). destruct (t_root _ _ _ H) as (r & Er & _ & _ & Hm). apply Hm.
      assert (r = q) as -> by congruence. by apply slot_in.
    - apply (ag_pages _ _ _ Ha q); [|by apply slot_in]. apply elem_of_difference. split; [by eapply t_pages|].
      intros Hq%elem_of_singleton_1. subst. by apply (Hn p). }
  split.
  - split; try apply H.
    + exact Ho.
    + destruct (t_root _ _ _ H) as (r & Er & Eg & Hok & Hm). exists r. split_and!; auto.
      intros a Hin Hx. apply (Hm a Hin). by apply (ag_managed _ _ _ Ha).
    + intros p q E Hp. apply elem_of_difference. split; [by eapply t_pages|]. intros ->%elem_of_singleton_1. by apply (Hn p).
    + intros p q i E Hl Hi HM. rewrite (Hr p q i) by done. by apply (t_link _ _ _ H).
  - intros v. unfold leaf_of. destruct (T !! path v) as [q|] eqn:E; simpl; [|done]. rewrite (Hr (path v)); [done | done | idx].
Qed.

(** ** Unmapping *)

Definition frame (e : Z) : Z := Z.land e PTE_ADDR_MASK.

(** The pages mapped in the range may be given back: they are pages held, no tables,
    and each is mapped once. *)
Definition releasable (s : vmm) (P : gset Z) (T : gmap (list Z) Z) (virt i n : Z) : Prop :=
  forall j e, i <= j < n -> leaf_of s T (virt + j * 4096) = Some e ->
    frame e ∈ P /\ (forall p, T !! p <> Some (frame e)) /\
    forall j' e', i <= j' < n -> j' <> j -> leaf_of s T (virt + j' * 4096) = Some e' -> frame e' <> frame e.

Lemma releasable_next s P T virt i n s' P' : releasable s P T virt i n ->
  (forall j, i < j < n -> leaf_of s' T (virt + j * 4096) = leaf_of s T (virt + j * 4096)) ->
  (P' = P \/ exists e, i < n /\ leaf_of s T (virt + i * 4096) = Some e /\ P' = P ∖ {[frame e]}) ->
  releasable s' P' T virt (i + 1) n.
Proof.
  intros R Hl HP j e Hj E. rewrite Hl in E by lia. destruct (R j e ltac:(lia) E) as (Hp & Ht & Hd). split; [|split].
  - destruct HP as [->|(e0 & Hi & E0 & ->)]; [done|]. apply elem_of_difference. split; [done|].
    intros Hx%elem_of_singleton_1. by apply (Hd i e0); [lia | lia | | symmetry].
  - done.
  - intros j' e' Hj' Hne E'. rewrite Hl in E' by lia. apply (Hd j'); (done || lia).
Qed.

(** One page of the loop of [vmm_unmap]. *)
Lemma unmap_page s P T v q free : tables s P T -> T !! path v = Some q ->
  (free = true -> forall e, leaf_of s T v = Some e -> frame e ∈ P /\ forall p, T !! p <> Some (frame e)) ->
  let e := rd s (va q + 8 * pt_i v) in
  let s1 := if free && present e then with_pm s (pmm_free_page (pm s) (Z.land e PTE_ADDR_MASK)) else s in
  let s' := invlpg (wr s1 (va q + 8 * pt_i v) 0) v in
  let P' := if free && present e then P ∖ {[frame e]} else P in
  tables s' P' T /\ leaf_of s' T v = None /\ (forall w, vpn w <> vpn v -> leaf_of s' T w = leaf_of s T w).
Proof.
  intros H E HR e s1 s' P'. assert (tables s1 P' T /\ forall w, leaf_of s1 T w = leaf_of s T w) as [H1 L1].
  { unfold s1, P'. destruct free; simpl; [|done]. destruct (present e) eqn:Ee; [|done].
    destruct (HR eq_refl e) as [? ?]; [unfold leaf_of; rewrite E; simpl; fold e; by rewrite Ee|].
    by apply free_frame. }
  destruct (set_leaf s1 P' T v q 0 H1 E) as (H2 & L2 & L3 & _).
  assert (forall w, leaf_of s' T w = leaf_of (wr s1 (va q + 8 * pt_i v) 0) T w) as Li by done.
  split; [|split].
  - split; apply H2.
  - by rewrite Li, L2.
  - intros w Hw. rewrite Li, L3 by done. apply L1.
Qed.

(** The address of page [j] of a range, as the loops compute it. *)
Definition page_at (virt j : Z) : Z := u64 (virt + u64 (j * 4096)).

(** [s'] is [s] with the pages [i] to [m - 1] of the range unmapped. *)
Record unmapped (s : vmm) (P : gset Z) (T : gmap (list Z) Z) (virt : Z) (free : bool) (i m : Z) (s' : vmm) (P' : gset Z) : Prop := {
  un_tables : tables s' P' T;
  un_static : vmalloc_next s' = vmalloc_next s /\ slabs s' = slabs s;
  un_range : forall j, i <= j < m -> leaf_of s' T (virt + j * 4096) = None;
  un_rest : forall w, (forall j, i <= j < m -> vpn w <> vpn (virt + j * 4096)) -> leaf_of s' T w = leaf_of s T w;
  un_tlb : forall x e, tlb s' !! x = Some e -> tlb s !! x = Some e /\
    forall j, i <= j < m -> x = page_of (page_at virt j) -> T !! path (virt + j * 4096) = None;
  un_pages : forall f, f ∈ P' <-> f ∈ P /\ (free = true -> forall j e, i <= j < m -> leaf_of s T (virt + j * 4096) = Some e -> frame e <> f)
}.

Lemma unmapped_nil s P T virt free i : tables s P T -> unmapped s P T virt free i i s P.
Proof.
  intros H. split; try done.
  - intros; lia.
  - intros x e E. split; [done | intros; lia].
  - intros f. split; [intros Hf; split; [done | intros; lia] | by intros [? _]].
Qed.

(** A page first, then the rest. *)
Lemma unmapped_cons s P T virt free i m s1 P1 s' P' : 0 <= i -> i < m -> m <= 2 ^ 36 ->
  unmapped s P T virt free i (i + 1) s1 P1 -> unmapped s1 P1 T virt free (i + 1) m s' P' -> unmapped s P T virt free i m s' P'.
Proof.
  intros Hi Hm Hb U1 U2.
  assert (forall j, i < j < m -> leaf_of s1 T (virt + j * 4096) = leaf_of s T (virt + j * 4096)) as L.
  { intros j Hj. apply (un_rest _ _ _ _ _ _ _ _ _ U1). intros j' Hj' E%vpn_ne; lia. }
  split.
  - apply U2.
  - destruct (un_static _ _ _ _ _ _ _ _ _ U2) as [-> ->]. apply U1.
  - intros j Hj. destruct (decide (j = i)) as [->|]; [|apply (un_range _ _ _ _ _ _ _ _ _ U2); lia].
    rewrite (un_rest _ _ _ _ _ _ _ _ _ U2) by (intros j' Hj' E%vpn_ne; lia). apply (un_range _ _ _ _ _ _ _ _ _ U1). lia.
  - intros w Hw. rewrite (un_rest _ _ _ _ _ _ _ _ _ U2) by (intros; apply Hw; lia).
    apply (un_rest _ _ _ _ _ _ _ _ _ U1). intros; apply Hw; lia.
  - intros x e E. destruct (un_tlb _ _ _ _ _ _ _ _ _ U2 x e E) as [E1 H2].
    destruct (un_tlb _ _ _ _ _ _ _ _ _ U1 x e E1) as [E0 H1]. split; [done|].
    intros j Hj Ex. destruct (decide (j = i)) as [->|]; [apply H1 | apply H2]; (lia || done).
  - intros f. rewrite (un_pages _ _ _ _ _ _ _ _ _ U2), (un_pages _ _ _ _ _ _ _ _ _ U1). split.
    + intros [[Hf H1] H2]. split; [done|]. intros Hfr j e Hj E.
      destruct (decide (j = i)) as [->|]; [apply (H1 Hfr i); [lia | done]|].
      apply (H2 Hfr j); [lia|]. by rewrite L by lia.
    + intros [Hf H0]. split; [split; [done|]|]; intros Hfr j e Hj E; (apply (H0 Hfr j); [lia|]); [done|].
      by rewrite <- L by lia.
Qed.

Lemma unmapped_page s P T virt free i : tables s P T -> 0 <= i ->
  M (pml4_i (virt + i * 4096)) -> (free = true -> releasable s P T virt i (i + 1)) ->
  exists s1 P1, (forall n, unmap_loop s virt free i (S n) = unmap_loop s1 virt free (i + 1) n) /\
    unmapped s P T virt free i (i + 1) s1 P1 /\
    (P1 = P \/ exists e, leaf_of s T (virt + i * 4096) = Some e /\ P1 = P ∖ {[frame e]}).
Proof.
  intros H Hi HM HR. destruct (path_u64 virt (i * 4096)) as [Ep Et]. fold (page_at virt i) in Ep, Et.
  assert (vpn (page_at virt i) = vpn (virt + i * 4096)) as Ev by apply vpn_u64.
  assert (M (pml4_i (page_at virt i))) as HM'.
  { replace (pml4_i (page_at virt i)) with (pml4_i (virt + i * 4096)) by (by injection Ep). done. }
  assert (forall j, i <= j < i + 1 -> j = i) as Hone by (intros; lia).
  cbn [unmap_loop]. change (u64 (i * PAGE_SIZE)) with (u64 (i * 4096)). fold (page_at virt i). set (v := page_at virt i) in *.
  rewrite (descend_ro s P T v H HM'). destruct (T !! path v) as [q|] eqn:Eq.
  - rewrite (child_nonzero s P T _ q H Eq), slot_pg by (idx || by eapply t_pg). cbv zeta.
    destruct (unmap_page s P T v q free H Eq) as (H2 & L0 & L1).
    { intros Hfree e E. destruct (HR Hfree i e) as (? & ? & _); [lia | by rewrite <- (leaf_vpn s T v) | done]. }
    set (e := rd s (va q + 8 * pt_i v)) in *.
    assert (leaf_of s T v = if present e then Some e else None) as El by (unfold leaf_of; rewrite Eq; done).
    eexists _, _. split; [reflexivity|]. split; [split|].
    + exact H2.
    + by destruct (free && present e).
    + intros j ->%Hone. by rewrite <- (leaf_vpn _ T v).
    + intros w Hw. apply L1. rewrite Ev. apply Hw. lia.
    + intros x e0 E0. unfold invlpg in E0. cbn [tlb with_tlb] in E0. apply lookup_delete_Some in E0 as [Hx E0].
      split; [by destruct (free && present e)|]. intros j ->%Hone Ex. done.
    + intros f. assert (free && present e = true <-> free = true /\ leaf_of s T (virt + i * 4096) = Some e) as Hb.
      { rewrite <- (leaf_vpn s T v), El by done. destruct free, (present e); simpl; naive_solver. }
      destruct (free && present e) eqn:Eb.
      * destruct (proj1 Hb eq_refl) as [-> E1]. rewrite elem_of_difference, elem_of_singleton. split.
        -- intros [Hf Hn]. split; [done|]. intros _ j e0 ->%Hone E0 <-. apply Hn. congruence.
        -- intros [Hf Hn]. split; [done|]. intros ->. by apply (Hn eq_refl i e); [lia | exact E1 |].
      * split; [|by intros [? _]]. intros Hf. split; [done|]. intros Hfr j e0 ->%Hone E0.
        rewrite <- (leaf_vpn s T v), El in E0 by done. rewrite Hfr in Eb. simpl in Eb. by rewrite Eb in E0.
    + destruct (free && present e) eqn:Eb; [right|by left]. exists e. split; [|done].
      rewrite <- (leaf_vpn s T v), El by done. apply andb_true_iff in Eb as [_ ->]. done.
  - change (0 =? 0) with true. cbv iota. exists s, P. split; [done|]. split; [|by left].
    assert (leaf_of s T v = None) as El by (unfold leaf_of; by rewrite Eq).
    split; try done.
    + intros j ->%Hone. by rewrite <- (leaf_vpn s T v).
    + intros x e E. split; [done|]. intros j ->%Hone _. by rewrite <- Ep.
    + intros f. split; [|by intros [? _]]. intros Hf. split; [done|]. intros _ j e ->%Hone E.
      rewrite <- (leaf_vpn s T v) in E by done. congruence.
Qed.

Lemma unmap_loop_ok virt free n : forall s P T i, tables s P T -> 0 <= i -> i + Z.of_nat n <= 2 ^ 36 ->
  (forall j, i <= j < i + Z.of_nat n -> M (pml4_i (virt + j * 4096))) ->
  (free = true -> releasable s P T virt i (i + Z.of_nat n)) ->
  exists P', unmapped s P T virt free i (i + Z.of_nat n) (unmap_loop s virt free i n) P'.
Proof.
  induction n as [|n IH]; intros s P T i H Hi Hb HM HR.
  { exists P. simpl. rewrite Z.add_0_r. by apply unmapped_nil. }
  destruct (unmapped_page s P T virt free i H Hi) as (s1 & P1 & E & U & HP).
  { apply HM. lia. }
  { intros Hf j e Hj E. destruct (HR Hf j e ltac:(lia) E) as (? & ? & _). split_and!; auto. intros; lia. }
  rewrite E. replace (i + Z.of_nat (S n)) with (i + 1 + Z.of_nat n) in * by lia.
  destruct (IH s1 P1 T (i + 1)) as (P' & U').
  - apply U.
  - lia.
  - lia.
  - intros; apply HM; lia.
  - intros Hf. eapply releasable_next; [by apply HR | |].
    + intros j Hj. apply (un_rest _ _ _ _ _ _ _ _ _ U). intros j' Hj' E'%vpn_ne; lia.
    + destruct HP as [->|(e & E0 & ->)]; [by left|right]. exists e. split; [lia | done].
  - exists P'. eapply unmapped_cons; [| | |exact U | exact U']; lia.
Qed.

(** Cached translations agree with the tables. *)
Definition coherent (s : vmm) : Prop :=
  forall v e, 0 <= v < 2 ^ 64 -> canonical v = true -> M (pml4_i v) -> tlb s !! page_of v = Some e -> walk s v = Some e.

(** (C17) Mapping, over any page allocator that keeps its promises: [vmm_map] maps the
    pages of the range in order until it runs out of memory for tables; it returns 0
    exactly when all were mapped and -ENOMEM otherwise.  The mapped pages translate to
    the frames asked for, with the flags asked for; every other address translates as
    before; the tables stay a tree of distinct pages; and if the range was not mapped
    before, cached translations stay correct. *)
Theorem vmm_map_correct s P T virt phys pages flags : tables s P T -> 0 <= pages <= 2 ^ 36 ->
  (forall j, 0 <= j < pages -> M (pml4_i (virt + j * 4096))) ->
  exists s' P' T' k, vmm_map s virt phys pages flags = (s', if k =? pages then 0 else - ENOMEM) /\
    0 <= k <= pages /\ tables s' P' T' /\ P ⊆ P' /\
    (forall j, 0 <= j < k -> walk s' (virt + j * 4096) = Some (Z.lor (Z.land (phys + j * 4096) PTE_ADDR_MASK) (prot_of flags))) /\
    (forall w, M (pml4_i w) -> (forall j, 0 <= j < k -> vpn w <> vpn (virt + j * 4096)) -> walk s' w = walk s w) /\
    (coherent s -> (forall j, 0 <= j < pages -> walk s (virt + j * 4096) = None) -> coherent s').
Proof.
  intros H Hp HM. unfold vmm_map.
  pose proof (map_loop_ok virt phys (prot_of flags) (Z.to_nat pages) (proj2 (prot_flags flags)) s P T 0 H) as L.
  rewrite Z2Nat.id in L by lia.
  destruct L as (s' & P' & T' & k & E & Hk & H' & HP & (Et & _) & M1 & M2); [lia | lia | exact HM |].
  assert (forall w, M (pml4_i w) -> (forall j, 0 <= j < k -> vpn w <> vpn (virt + j * 4096)) -> walk s' w = walk s w) as Hrest.
  { intros w Hw Hn. rewrite (walk_leaf s' P' T'), (walk_leaf s P T) by done. by apply M2. }
  exists s', P', T', k. split; [exact E|]. split; [lia|]. split; [done|]. split; [done|]. split; [|split; [done|]].
  - intros j Hj. rewrite (walk_leaf s' P' T') by (done || apply HM; lia). by apply M1.
  - intros Hc Hn v e Hv Hcan HMv Ev. rewrite Et in Ev. rewrite Hrest; [by apply Hc | done|].
    intros j Hj E'. pose proof (Hc v e Hv Hcan HMv Ev) as Hw. rewrite (walk_leaf s P T) in Hw by done.
    rewrite (leaf_vpn s T v _ E'), <- (walk_leaf s P T) in Hw by (done || apply HM; lia). rewrite Hn in Hw by lia. done.
Qed.

(** Two canonical addresses with the same translation are in the same page. *)
Lemma canonical_vpn v w : 0 <= v < 2 ^ 64 -> 0 <= w < 2 ^ 64 -> canonical v = true -> canonical w = true -> vpn v = vpn w ->
  page_of v = page_of w.
Proof.
  intros Hv Hw Hc Hd E. unfold page_of. rewrite !Z.shiftr_div_pow2 by lia. change (2 ^ 12) with 4096.
  unfold canonical in *. apply orb_true_iff in Hc, Hd. rewrite Z.ltb_lt, Z.leb_le in Hc, Hd. unfold vpn in E.
  change (2 ^ 36) with 68719476736 in *. change (2 ^ 47) with 140737488355328 in *. change (2 ^ 64) with 18446744073709551616 in *.
  zdm.
Qed.


End tree.

(** ** Examples *)

Lemma root_outside s F A a : Inv s F A -> in_page 0x1000 a -> ~ managed s a.
Proof.
  intros H Ha (i & Hi & Hr). destruct (rng_ok _ _ _ _ H i Hi) as (_ & Hb & _). unfold rng in Hb. simpl in Hb.
  unfold in_page in Ha. rewrite va_pg in Ha by (split; [lia | by exists 1]). lia.
Qed.

(** An empty root table in the kernel image, after boot. *)
Lemma tables_ex : tables buddy_owns (fun _ => True) vmm_ex ∅ {[ [] := 0x1000 ]}.
Proof.
  destruct run_ex_inv as [F H]. split.
  - exists F, ∅. split; [exact H|]. set_solver.
  - exists 0x1000. split; [apply lookup_insert_eq|]. split; [reflexivity|]. split; [split; [lia | by exists 1]|].
    intros a. exact (root_outside _ F ∅ a H).
  - intros p q [<- <-]%lookup_singleton_Some Hp. done.
  - intros p p' q [<- <-]%lookup_singleton_Some [<- _]%lookup_singleton_Some. done.
  - intros p q i [<- <-]%lookup_singleton_Some _ Hi _.
    assert (forallb (fun n => negb (present (rd vmm_ex (va 0x1000 + 8 * Z.of_nat n)))) (seq 0 512) = true) as Hall by (vm_compute; reflexivity).
    rewrite forallb_forall in Hall. specialize (Hall (Z.to_nat i)). rewrite Z2Nat.id in Hall by lia.
    rewrite (proj1 (negb_true_iff _) (Hall ltac:(apply in_seq; lia))). by apply lookup_singleton_ne.
  - intros p i [q [E _]%lookup_singleton_Some]. by destruct p.
Qed.

Lemma vmm_map_correct_witness : exists s', vmm_map vmm_ex 0x10000000 0x5000 2 VMM_WRITE = (s', 0) /\
  walk s' 0x10001000 = Some 0x8000000000006003 /\ walk s' 0x10002000 = walk vmm_ex 0x10002000.
Proof.
  destruct (vmm_map_correct buddy_owns (fun _ => True) vmm_ex ∅ {[ [] := 0x1000 ]} 0x10000000 0x5000 2 VMM_WRITE tables_ex)
    as (s' & P' & T' & k & E & Hk & _ & _ & W & R & _); [lia | done |].
  assert (k = 2) as ->.
  { assert ((vmm_map vmm_ex 0x10000000 0x5000 2 VMM_WRITE).2 = 0) as E2 by (vm_compute; reflexivity).
    rewrite E in E2. simpl in E2. destruct (Z.eqb_spec k 2); [done | discriminate E2]. }
  exists s'. split; [exact E|]. split; [apply (W 1); lia|]. apply R; [done|].
  intros j Hj. assert (j = 0 \/ j = 1) as [->| ->] by lia; by vm_compute.
Defined.


(** ** vmalloc as the kernel sets it up *)

Definition VMALLOC_START : Z := 0xFFFF000000000000.
Definition in_vmalloc (s : vmm) : Prop := VMALLOC_START <= vmalloc_next s <= VMALLOC_END.

#[local] Opaque mzero.

(** What the page-table code leaves alone. *)
Definition static (s s' : vmm) : Prop := vmalloc_next s' = vmalloc_next s /\ slabs s' = slabs s.
#[local] Instance static_preorder : PreOrder static.
Proof. split; [done|]. intros s1 s2 s3 [E1 E2] [E3 E4]. split; congruence. Qed.

Lemma next_level_static s e alloc : static s (pt_next_level s e alloc).1.
Proof. unfold pt_next_level. destruct (present _), alloc; [done..| |done]. destruct (pmm_alloc_page (pm s)) as [p pa]. simpl. by destruct (pa =? 0). Qed.
Lemma descend_static s v alloc : static s (descend s v alloc).1.
Proof.
  unfold descend. pose proof (next_level_static s (slot (g_kernel_pml4 s) (pml4_i v)) alloc) as H1.
  destruct (pt_next_level _ _ alloc) as [s1 q1]. simpl in H1. destruct (q1 =? 0); [done|].
  pose proof (next_level_static s1 (slot q1 (pdpt_i v)) alloc) as H2.
  destruct (pt_next_level s1 _ alloc) as [s2 q2]. simpl in H2. destruct (q2 =? 0); [by etrans|].
  etrans; [exact H1|]. etrans; [exact H2 | apply next_level_static].
Qed.
Lemma map_static virt phys prot n : forall s i, static s (map_loop s virt phys prot i n).1.
Proof.
  induction n as [|n IH]; intros s i; simpl; [done|]. pose proof (descend_static s (u64 (virt + u64 (i * PAGE_SIZE))) true) as H1.
  destruct (descend s _ true) as [s1 q]. simpl in H1. destruct (q =? 0); [done|]. etrans; [exact H1|]. etrans; [|apply IH]. done.
Qed.
Lemma unmap_static virt free n : forall s i, static s (unmap_loop s virt free i n).
Proof.
  induction n as [|n IH]; intros s i; simpl; [done|]. pose proof (descend_static s (u64 (virt + u64 (i * PAGE_SIZE))) false) as H1.
  destruct (descend s _ false) as [s1 q]. simpl in H1. destruct (q =? 0); (etrans; [exact H1|]); [apply IH|].
  etrans; [|apply IH]. by destruct (free && present _).
Qed.
Lemma alloc_pages_static virt flags n : forall s i, static s (alloc_pages_loop s virt flags i n).1.
Proof.
  induction n as [|n IH]; intros s i; simpl; [done|]. destruct (pmm_alloc_page (pm s)) as [p pa]. destruct (pa =? 0); [done|].
  pose proof (map_static (u64 (virt + u64 (i * PAGE_SIZE))) pa (prot_of flags) (Z.to_nat 1) (with_pm s p) 0) as H1.
  unfold vmm_map. destruct (map_loop _ _ _ _ _ _) as [s1 r]. simpl in H1. destruct (r <? 0); [done|]. etrans; [exact H1 | apply IH].
Qed.

(** The address [vmm_alloc] returns is the one it started from, or NULL. *)
Lemma vmm_alloc_range s pages flags : in_vmalloc s -> 0 <= pages <= 2 ^ 35 + 1 -> let (s', p) := vmm_alloc s pages flags in
  in_vmalloc s' /\ slabs s' = slabs s /\ (p = 0 \/ VMALLOC_START <= p <= VMALLOC_END).
Proof.
  unfold in_vmalloc, vmm_alloc, VMALLOC_START, VMALLOC_END, PAGE_SIZE. intros Hv Hp. rewrite (u64_small (pages * 4096)) by lia.
  destruct (Z.ltb_spec 0xFFFF008000000000 (u64 (vmalloc_next s + pages * 4096))) as [|Hle]; [auto with lia|].
  assert (0xFFFF000000000000 <= u64 (vmalloc_next s + pages * 4096)) as Hlo.
  { rewrite u64_small by lia. lia. }
  set (s0 := with_next s _). pose proof (alloc_pages_static (vmalloc_next s) flags (Z.to_nat pages) s0 0) as [E1 E2].
  destruct (alloc_pages_loop s0 _ _ _ _) as [s1 ok]. simpl in E1, E2. destruct ok.
  - rewrite E1, E2. split; [lia|]. split; [done | right; lia].
  - destruct (unmap_static (vmalloc_next s) true (Z.to_nat pages) s1 0) as [E3 E4]. unfold vmm_unmap. rewrite E3, E4, E1, E2. auto with lia.
Qed.

(** Requests above the largest slab size. *)
Lemma kmalloc_fails_large s size : in_vmalloc s -> map obj_size (slabs s) = slab_sz -> 2048 < size <= 2 ^ 47 ->
  kmalloc s size = Fault \/
  exists s', kmalloc s size = Done (s', 0) /\ in_vmalloc s' /\ map obj_size (slabs s') = slab_sz.
Proof.
  intros Hv Hs Hz. unfold kmalloc.
  assert (forall l i, Forall (fun z => z <= 2048) (map obj_size l) -> find_slab l size i = None) as Hn.
  { induction l as [|c l IH]; intros i Hl; [done|]. simpl in *. apply Forall_cons in Hl as [Hc Hl].
    rewrite (proj2 (Z.leb_gt _ _)) by lia. by apply IH. }
  rewrite Hn by (rewrite Hs; repeat constructor; lia).
  assert (0 <= ALIGN size PAGE_SIZE / PAGE_SIZE <= 2 ^ 35) as Hp.
  { change PAGE_SIZE with (2 ^ 12). rewrite ALIGN_spec, Z.div_mul by lia. change (2 ^ 12) with 4096.
    change (2 ^ 47) with 0x800000000000 in Hz. change (2 ^ 35) with 0x800000000. zdm. }
  rewrite u64_small by lia. pose proof (vmm_alloc_range s (ALIGN size PAGE_SIZE / PAGE_SIZE + 1) VMM_WRITE Hv ltac:(lia)) as R.
  destruct (vmm_alloc s _ _) as [s' p]. destruct R as (Hv' & Es & R). destruct (Z.eqb_spec p 0) as [->|Hne].
  - right. exists s'. rewrite Es. done.
  - left. destruct R as [?|R]; [done|]. unfold store, mmu. unfold VMALLOC_START, VMALLOC_END in R.
    rewrite (proj2 (Z.leb_gt _ _)) by (unfold KERNEL_VIRT_BASE; lia).
    assert (canonical p = false) as ->; [|done]. apply orb_false_iff. rewrite Z.ltb_ge, Z.leb_gt. lia.
Qed.

(** Large allocations: a request above the largest slab size goes to vmalloc, whose
    range lies between the two canonical halves of the address space; so [kmalloc]
    never returns such memory.  It returns NULL, or faults on storing its cookie. *)
Theorem kmalloc_large s size : in_vmalloc s -> map obj_size (slabs s) = slab_sz -> 2048 < size <= 2 ^ 47 ->
  kmalloc s size = Fault \/
  exists s', kmalloc s size = Done (s', 0) /\ in_vmalloc s' /\ map obj_size (slabs s') = slab_sz.
Proof. apply kmalloc_fails_large. Qed.

Lemma kmalloc_large_witness : kmalloc vmm_ex 4096 = Fault.
Proof.
  destruct (kmalloc_large vmm_ex 4096) as [E|(s' & E & _)].
  - vm_compute. split; discriminate.
  - reflexivity.
  - lia.
  - exact E.
  - vm_compute in E. discriminate E.
Defined.

(** The root the boot code builds (entry 0 to a table whose entry 0 is the directory
    of 2 MB pages): vmalloc's first page shares the path of address 0, so [vmm_map]
    takes the 2 MB page at physical address 0 for a page table and writes into it. *)
Definition booted : vmm :=
  wr (wr (wr vmm_ex (va 0x1000) 0x2003) (va 0x2000) 0x4003) (va 0x4000) 0x83.
Theorem vmalloc_writes_low_memory :
  rd booted (va 0) = 0 /\ rd (vmm_map booted VMALLOC_START 0x5000 1 VMM_WRITE).1 (va 0) = 0x8000000000005003.
Proof. split; vm_compute; reflexivity. Qed.

End VmmMap.
