(* ===== verification/Bytes.v ===== *)
(** * Byte arrays

    A C byte array is a list of [Z]; [memcpy] into the middle of one is [splice].
    Big-endian loads and stores as crypto/sha256.c and crypto/aes_gcm.c have them;
    little-endian ones for the objects the sources copy as bytes. *)

From Stdlib Require Import Ascii String.
From S2P Require Import Prelude.

Module Bytes.

Definition byte_ok (b : Z) : Prop := 0 <= b < 256.
#[export] Instance byte_ok_dec b : Decision (byte_ok b).
Proof. apply and_dec; apply Z_le_dec || apply Z_lt_dec. Defined.
Abbreviation bytes_ok := (Forall byte_ok).

(** [memcpy(buf + off, src, length src)]. *)
Definition splice (buf : list Z) (off : nat) (src : list Z) : list Z :=
  take off buf ++ src ++ drop (off + length src) buf.

(** [length n] bytes from [off] on. *)
Definition slice (buf : list Z) (off n : nat) : list Z := take n (drop off buf).

(** [memcpy] between an object of known size and elsewhere: outside the object the
    access is not defined. *)
Definition load_bytes (buf : list Z) (off n : Z) : outcome (list Z) :=
  if (0 <=? off) && (off + n <=? Z.of_nat (length buf)) then Done (slice buf (Z.to_nat off) (Z.to_nat n)) else Fault.
Definition store_bytes (buf : list Z) (off : Z) (src : list Z) : outcome (list Z) :=
  if (0 <=? off) && (off + Z.of_nat (length src) <=? Z.of_nat (length buf)) then Done (splice buf (Z.to_nat off) src) else Fault.

(** The bytes of a C string literal, without the terminator. *)
Definition bytes_of_string (s : String.string) : list Z :=
  map (fun a => Z.of_N (Ascii.N_of_ascii a)) (String.list_ascii_of_string s).

(** Array read; the callers stay in range. *)
Definition at_ (l : list Z) (i : nat) : Z := nth i l 0.

Definition xor_bytes (a b : list Z) : list Z := zip_with Z.lxor a b.

Definition be32 (p : list Z) (off : nat) : Z :=
  Z.lor (Z.lor (Z.lor (shl32 (at_ p off) 24) (shl32 (at_ p (off + 1)) 16))
               (shl32 (at_ p (off + 2)) 8)) (at_ p (off + 3)).
Definition put_be32 (v : Z) : list Z :=
  [u8 (Z.shiftr v 24); u8 (Z.shiftr v 16); u8 (Z.shiftr v 8); u8 v].
Definition put_be64 (v : Z) : list Z := put_be32 (u32 (Z.shiftr v 32)) ++ put_be32 (u32 v).

Lemma length_splice buf off src :
  (off + length src <= length buf)%nat -> length (splice buf off src) = length buf.
Proof. intros. unfold splice. rewrite !length_app, length_take, length_drop. lia. Qed.

Lemma take_splice buf off src :
  (off <= length buf)%nat ->
  take (off + length src) (splice buf off src) = take off buf ++ src.
Proof.
  intros. unfold splice. rewrite take_app. rewrite length_take_le by done.
  rewrite take_ge by (rewrite length_take; lia). f_equal.
  replace (off + length src - off)%nat with (length src) by lia.
  by rewrite take_app_length.
Qed.

Lemma lookup_splice buf off src i : (off + length src <= length buf)%nat ->
  splice buf off src !! i = if decide (off <= i < off + length src)%nat then src !! (i - off)%nat else buf !! i.
Proof.
  intros Hb. unfold splice. destruct (decide (i < off)%nat) as [Hi|Hi].
  - rewrite lookup_app_l by (rewrite length_take; lia). rewrite lookup_take_lt by done. by rewrite decide_False by lia.
  - rewrite lookup_app_r, length_take_le by (rewrite ?length_take; lia). destruct (decide _) as [Hr|Hr].
    + by rewrite lookup_app_l by lia.
    + rewrite lookup_app_r, lookup_drop by lia. f_equal. lia.
Qed.
Lemma lookup_slice buf off n i : slice buf off n !! i = if decide (i < n)%nat then buf !! (off + i)%nat else None.
Proof. unfold slice. rewrite lookup_take. case_decide; [apply lookup_drop | done]. Qed.
Lemma length_slice buf off n : (off + n <= length buf)%nat -> length (slice buf off n) = n.
Proof. intros. unfold slice. rewrite length_take, length_drop. lia. Qed.
(** Reading what was written, a part of it, and what was not. *)
Lemma slice_splice_in buf off src o n : (off + length src <= length buf)%nat -> (off <= o)%nat -> (o + n <= off + length src)%nat ->
  slice (splice buf off src) o n = slice src (o - off) n.
Proof.
  intros. apply list_eq. intros i. rewrite !lookup_slice. case_decide; [|done]. rewrite lookup_splice, decide_True by lia. f_equal. lia.
Qed.
Lemma slice_splice_eq buf off src n : length src = n -> (off + n <= length buf)%nat -> slice (splice buf off src) off n = src.
Proof. intros <- Hb. rewrite slice_splice_in by lia. rewrite Nat.sub_diag. unfold slice. apply take_ge. simpl. lia. Qed.
Lemma slice_splice_out buf off src o n : (off + length src <= length buf)%nat -> (o + n <= off \/ off + length src <= o)%nat ->
  slice (splice buf off src) o n = slice buf o n.
Proof.
  intros. apply list_eq. intros i. rewrite !lookup_slice. case_decide; [|done]. by rewrite lookup_splice, decide_False by lia.
Qed.

Lemma length_xor_bytes a b : length a = length b -> length (xor_bytes a b) = length a.
Proof. intros. unfold xor_bytes. rewrite length_zip_with. lia. Qed.

Lemma xor_bytes_involutive a k : length a = length k -> xor_bytes (xor_bytes a k) k = a.
Proof.
  revert k. induction a as [|x a IH]; intros [|y k]; simpl; try done. intros [= H].
  rewrite Z.lxor_assoc, Z.lxor_nilpotent, Z.lxor_0_r. by rewrite IH.
Qed.

Lemma put_be32_ok v : bytes_ok (put_be32 v).
Proof. unfold put_be32, byte_ok. repeat (apply Forall_cons; split; [apply u8_range|]). by apply Forall_nil. Qed.

(** Bits of a byte, and of a byte shifted into place. *)
Lemma testbit_high x n i : 0 <= x < 2 ^ n -> n <= i -> 0 <= n -> Z.testbit x i = false.
Proof.
  intros Hx Hi Hn. destruct (Z.eq_dec x 0) as [->|]; [apply Z.bits_0|].
  apply Z.bits_above_log2; [lia|]. assert (Z.log2 x < n) by (apply Z.log2_lt_pow2; lia). lia.
Qed.

(** Loading what was stored. *)
Lemma be32_put v : 0 <= v < 2 ^ 32 -> be32 (put_be32 v) 0 = v.
Proof.
  intros Hv. unfold be32, put_be32, at_, shl32, u8, u32. simpl nth.
  apply Z.bits_inj'. intros i Hi. rewrite !Z.lor_spec.
  assert (forall k, 0 <= k -> Z.testbit (Z.shiftl (Z.shiftr v k mod 2 ^ 8) k mod 2 ^ 32) i =
    (i <? 32) && (k <=? i) && (i <? k + 8) && Z.testbit v i) as E.
  { intros k Hk. destruct (Z.ltb_spec i 32); simpl.
    2:{ by rewrite Z.mod_pow2_bits_high by lia. }
    rewrite Z.mod_pow2_bits_low, Z.shiftl_spec by lia.
    destruct (Z.leb_spec k i); simpl; [|by rewrite Z.testbit_neg_r by lia].
    destruct (Z.ltb_spec i (k + 8)); simpl.
    - rewrite Z.mod_pow2_bits_low, Z.shiftr_spec by lia. f_equal. lia.
    - by rewrite Z.mod_pow2_bits_high by lia. }
  rewrite !E by lia.
  assert (Z.testbit (v mod 2 ^ 8) i = (i <? 8) && Z.testbit v i) as ->.
  { destruct (Z.ltb_spec i 8); simpl; [by rewrite Z.mod_pow2_bits_low by lia|].
    by rewrite Z.mod_pow2_bits_high by lia. }
  destruct (Z.testbit v i) eqn:Ev; [|by rewrite !andb_false_r].
  assert (i < 32). { destruct (Z.lt_ge_cases i 32); [done|]. rewrite (testbit_high v 32) in Ev by lia. done. }
  rewrite !andb_true_r.
  destruct (Z.ltb_spec i 32), (Z.leb_spec 24 i), (Z.ltb_spec i 32), (Z.leb_spec 16 i), (Z.ltb_spec i 24),
    (Z.leb_spec 8 i), (Z.ltb_spec i 16), (Z.ltb_spec i 8); try done; lia.
Qed.

(** An [n]-byte object of x86-64 as the bytes [memcpy] copies, and back. *)
Fixpoint le_bytes (n : nat) (v : Z) : list Z :=
  match n with
  | O => []
  | S n' => u8 v :: le_bytes n' (Z.shiftr v 8)
  end.
Fixpoint le_load (l : list Z) : Z :=
  match l with
  | [] => 0
  | b :: l' => b + 256 * le_load l'
  end.

Lemma length_le_bytes n v : length (le_bytes n v) = n.
Proof. revert v. induction n as [|n IH]; intros v; simpl; [done | by rewrite IH]. Qed.
Lemma le_bytes_ok n v : bytes_ok (le_bytes n v).
Proof. revert v. induction n as [|n IH]; intros v; constructor; [apply u8_range | apply IH]. Qed.
Lemma le_load_bytes n v : le_load (le_bytes n v) = v mod 2 ^ (8 * Z.of_nat n).
Proof.
  revert v. induction n as [|n IH]; intros v; [by rewrite Z.mod_1_r|]. cbn [le_bytes le_load]. rewrite IH, Z.shiftr_div_pow2 by lia.
  replace (8 * Z.of_nat (S n)) with (8 + 8 * Z.of_nat n) by lia. unfold u8. change 256 with (2 ^ 8).
  rewrite Z.pow_add_r by lia. rewrite Z.rem_mul_r by (try apply Z.pow_nonzero; try apply pow2_pos; lia). done.
Qed.
Lemma le_bytes_mod n v : le_bytes n (v mod 2 ^ (8 * Z.of_nat n)) = le_bytes n v.
Proof.
  revert v. induction n as [|n IH]; intros v; [done|]. replace (8 * Z.of_nat (S n)) with (8 + 8 * Z.of_nat n) by lia.
  pose proof (pow2_pos (8 * Z.of_nat n) ltac:(lia)). pose proof (Z.mod_pos_bound v 256).
  rewrite Z.pow_add_r, Z.rem_mul_r by (try apply Z.pow_nonzero; lia). change (2 ^ 8) with 256. cbn [le_bytes]. f_equal.
  - unfold u8. change (2 ^ 8) with 256. rewrite Z.mul_comm, Z.mod_add, Z.mod_mod by lia. done.
  - rewrite !Z.shiftr_div_pow2 by lia. change (2 ^ 8) with 256. rewrite Z.mul_comm, Z.div_add, Z.div_small by lia. apply IH.
Qed.
Lemma le_load_nonneg l : bytes_ok l -> 0 <= le_load l.
Proof. induction 1 as [|b l Hb _ IH]; simpl; [done|]. unfold byte_ok in Hb. lia. Qed.
Lemma slice_ok l o n : bytes_ok l -> bytes_ok (slice l o n).
Proof. intros H. unfold slice. by apply Forall_take, Forall_drop. Qed.
(** An object in range is determined by its bytes. *)
Lemma le_bytes_inj n v w : 0 <= v < 2 ^ (8 * Z.of_nat n) -> 0 <= w < 2 ^ (8 * Z.of_nat n) -> le_bytes n v = le_bytes n w -> v = w.
Proof. intros Hv Hw E. apply (f_equal le_load) in E. rewrite !le_load_bytes, !Z.mod_small in E by done. done. Qed.

End Bytes.
