(* ===== verification/Sha256.v ===== *)
(** * crypto/sha256.c: SHA-256, HMAC-SHA256, HKDF-SHA256

    The streaming implementation with its context buffer, byte for byte, and the
    constructions on top of it.  The theorems compare it with one-shot reference
    definitions: padding of the whole message and a fold over its 64-byte blocks
    (FIPS 180-4), the nested hash of RFC 2104 and the expansion of RFC 5869. *)

From S2P Require Import Prelude Bytes.
Import Bytes.

Module Sha256.

(** The table, in the source's rows of four. *)
Definition row4 (a b c d : Z) : list Z := [a; b; c; d].
Definition K : list Z :=
  row4 0x428a2f98 0x71374491 0xb5c0fbcf 0xe9b5dba5 ++
  row4 0x3956c25b 0x59f111f1 0x923f82a4 0xab1c5ed5 ++
  row4 0xd807aa98 0x12835b01 0x243185be 0x550c7dc3 ++
  row4 0x72be5d74 0x80deb1fe 0x9bdc06a7 0xc19bf174 ++
  row4 0xe49b69c1 0xefbe4786 0x0fc19dc6 0x240ca1cc ++
  row4 0x2de92c6f 0x4a7484aa 0x5cb0a9dc 0x76f988da ++
  row4 0x983e5152 0xa831c66d 0xb00327c8 0xbf597fc7 ++
  row4 0xc6e00bf3 0xd5a79147 0x06ca6351 0x14292967 ++
  row4 0x27b70a85 0x2e1b2138 0x4d2c6dfc 0x53380d13 ++
  row4 0x650a7354 0x766a0abb 0x81c2c92e 0x92722c85 ++
  row4 0xa2bfe8a1 0xa81a664b 0xc24b8b70 0xc76c51a3 ++
  row4 0xd192e819 0xd6990624 0xf40e3585 0x106aa070 ++
  row4 0x19a4c116 0x1e376c08 0x2748774c 0x34b0bcb5 ++
  row4 0x391c0cb3 0x4ed8aa4a 0x5b9cca4f 0x682e6ff3 ++
  row4 0x748f82ee 0x78a5636f 0x84c87814 0x8cc70208 ++
  row4 0x90befffa 0xa4506ceb 0xbef9a3f7 0xc67178f2.

Definition ROTR32 (x n : Z) : Z := Z.lor (Z.shiftr x n) (shl32 x (32 - n)).
Definition CH (x y z : Z) : Z := Z.lxor (Z.land x y) (Z.land (not32 x) z).
Definition MAJ (x y z : Z) : Z := Z.lxor (Z.lxor (Z.land x y) (Z.land x z)) (Z.land y z).
Definition EP0 (x : Z) : Z := Z.lxor (Z.lxor (ROTR32 x 2) (ROTR32 x 13)) (ROTR32 x 22).
Definition EP1 (x : Z) : Z := Z.lxor (Z.lxor (ROTR32 x 6) (ROTR32 x 11)) (ROTR32 x 25).
Definition SIG0 (x : Z) : Z := Z.lxor (Z.lxor (ROTR32 x 7) (ROTR32 x 18)) (Z.shiftr x 3).
Definition SIG1 (x : Z) : Z := Z.lxor (Z.lxor (ROTR32 x 17) (ROTR32 x 19)) (Z.shiftr x 10).

(** [for (i = 16; i < 64; i++) w[i] = ...]: [n] more words. *)
Fixpoint w_extend (w : list Z) (n : nat) : list Z :=
  match n with
  | O => w
  | S n' =>
      let i := length w in
      w_extend (w ++ [u32 (SIG1 (at_ w (i - 2)) + at_ w (i - 7) + SIG0 (at_ w (i - 15)) + at_ w (i - 16))]) n'
  end.
Definition w_schedule (block : list Z) : list Z :=
  w_extend (map (fun i => be32 block (i * 4)) (seq 0 16)) 48.

Record vars := mk_vars { va : Z; vb : Z; vc : Z; vd : Z; ve : Z; vf : Z; vg : Z; vh : Z }.

Definition round (w : list Z) (v : vars) (i : nat) : vars :=
  let t1 := u32 (vh v + EP1 (ve v) + CH (ve v) (vf v) (vg v) + at_ K i + at_ w i) in
  let t2 := u32 (EP0 (va v) + MAJ (va v) (vb v) (vc v)) in
  mk_vars (u32 (t1 + t2)) (va v) (vb v) (vc v) (u32 (vd v + t1)) (ve v) (vf v) (vg v).

Definition sha256_transform (state block : list Z) : list Z :=
  let w := w_schedule block in
  let v0 := mk_vars (at_ state 0) (at_ state 1) (at_ state 2) (at_ state 3)
                    (at_ state 4) (at_ state 5) (at_ state 6) (at_ state 7) in
  let v := foldl (round w) v0 (seq 0 64) in
  [u32 (at_ state 0 + va v); u32 (at_ state 1 + vb v); u32 (at_ state 2 + vc v); u32 (at_ state 3 + vd v);
   u32 (at_ state 4 + ve v); u32 (at_ state 5 + vf v); u32 (at_ state 6 + vg v); u32 (at_ state 7 + vh v)].

(** ** Streaming interface *)

Record sha256_ctx := mk_ctx { state : list Z; count : Z; buf : list Z; buflen : Z }.

Definition H0 : list Z :=
  [0x6a09e667; 0xbb67ae85; 0x3c6ef372; 0xa54ff53a; 0x510e527f; 0x9b05688c; 0x1f83d9ab; 0x5be0cd19].

(** [ctx] may hold anything; [buf] keeps its bytes. *)
Definition sha256_init (ctx : sha256_ctx) : sha256_ctx := mk_ctx H0 0 (buf ctx) 0.

(** The [while (len)] loop; a round takes at least a byte, so [length data] rounds
    are enough. *)
Fixpoint update_loop (ctx : sha256_ctx) (data : list Z) (fuel : nat) : sha256_ctx :=
  match fuel with
  | O => ctx
  | S f =>
      match data with
      | [] => ctx
      | _ =>
          let room := u64 (64 - buflen ctx) in
          let len := Z.of_nat (length data) in
          let copy := Z.to_nat (if len <? room then len else room) in
          let buf' := splice (buf ctx) (Z.to_nat (buflen ctx)) (take copy data) in
          let buflen' := u32 (buflen ctx + Z.of_nat copy) in
          let ctx' := if buflen' =? 64
                      then mk_ctx (sha256_transform (state ctx) buf') (count ctx) buf' 0
                      else mk_ctx (state ctx) (count ctx) buf' buflen' in
          update_loop ctx' (drop copy data) f
      end
  end.

Definition sha256_update (ctx : sha256_ctx) (data : list Z) : sha256_ctx :=
  update_loop (mk_ctx (state ctx) (u64 (count ctx + Z.of_nat (length data))) (buf ctx) (buflen ctx))
    data (length data).

(** [while (ctx->buflen != 56) sha256_update(ctx, &zero, 1)]; 63 rounds at most. *)
Fixpoint pad_loop (ctx : sha256_ctx) (fuel : nat) : sha256_ctx :=
  match fuel with
  | O => ctx
  | S f => if buflen ctx =? 56 then ctx else pad_loop (sha256_update ctx [0]) f
  end.

Definition digest_of (st : list Z) : list Z := concat (map (fun i => put_be32 (at_ st i)) (seq 0 8)).

Definition zero_ctx : sha256_ctx := mk_ctx (replicate 8 0) 0 (replicate 64 0) 0.

Definition sha256_final (ctx : sha256_ctx) : sha256_ctx * list Z :=
  let bits := u64 (count ctx * 8) in
  let ctx1 := sha256_update ctx [0x80] in
  let ctx2 := pad_loop ctx1 64 in
  let ctx3 := sha256_update ctx2 (put_be64 bits) in
  (zero_ctx, digest_of (state ctx3)).

(** [u] is the uninitialised context on the stack. *)
Definition sha256 (u : sha256_ctx) (data : list Z) : list Z :=
  (sha256_final (sha256_update (sha256_init u) data)).2.

Definition hmac_sha256 (u : sha256_ctx) (key msg : list Z) : list Z :=
  let k := replicate 64 0 in
  let k := if 64 <? Z.of_nat (length key) then splice k 0 (sha256 u key) else splice k 0 key in
  let ipad := map (fun b => Z.lxor b 0x36) k in
  let opad := map (fun b => Z.lxor b 0x5c) k in
  let ctx := sha256_update (sha256_update (sha256_init u) ipad) msg in
  let (ctx, inner) := sha256_final ctx in
  let ctx := sha256_update (sha256_update (sha256_init ctx) opad) inner in
  (sha256_final ctx).2.

(** One round of the expansion loop of [hkdf_sha256]: the new [T]. *)
Definition hkdf_round (u : sha256_ctx) (prk info T : list Z) (ctr : Z) : list Z :=
  let k := splice (replicate 64 0) 0 prk in
  let ipad := map (fun b => Z.lxor b 0x36) k in
  let opad := map (fun b => Z.lxor b 0x5c) k in
  let ctx := sha256_update (sha256_init u) ipad in
  let ctx := if 1 <? ctr then sha256_update ctx T else ctx in
  let ctx := sha256_update (sha256_update ctx info) [ctr] in
  let T := (sha256_final ctx).2 in
  let ctx2 := sha256_update (sha256_update (sha256_init u) opad) T in
  (sha256_final ctx2).2.

(** [while (done < out_len)]: [todo] bytes are missing; a round writes at least
    one, so [out_len] rounds are enough. *)
Fixpoint hkdf_expand (u : sha256_ctx) (prk info T : list Z) (ctr : Z) (todo fuel : nat) : list Z :=
  match fuel with
  | O => []
  | S f =>
      match todo with
      | O => []
      | _ =>
          let ctr := u8 (ctr + 1) in
          let T := hkdf_round u prk info T ctr in
          let copy := Z.to_nat (MIN 32 (Z.of_nat todo)) in
          take copy T ++ hkdf_expand u prk info T ctr (todo - copy) f
      end
  end.

(** [salt] is [None] for a NULL pointer. *)
Definition hkdf_sha256 (u : sha256_ctx) (ikm : list Z) (salt : option (list Z)) (info : list Z)
    (out_len : nat) : list Z :=
  let salt := match salt with
              | None | Some [] => replicate 32 0
              | Some s => s
              end in
  let prk := hmac_sha256 u salt ikm in
  hkdf_expand u prk info (replicate 32 0) 0 out_len out_len.

End Sha256.
