(* ===== verification/Sha256Proof.v ===== *)
(** * SHA-256, HMAC and HKDF compute their reference definitions

    [absorbed] says which message a streaming context stands for; updates append
    to it, whatever the chunking, and finalising yields the digest of the padded
    message. *)

From S2P Require Import Prelude Bytes Sha256.
Import Bytes Sha256.

Module Sha256Proof.

(** ** Reference definitions *)

(** FIPS 180-4, 5.1.1: a one bit, zeros, the length in bits as 64 bits. *)
Definition sha_pad (m : list Z) : list Z :=
  m ++ [0x80] ++ replicate (Z.to_nat ((55 - Z.of_nat (length m)) mod 64)) 0
    ++ put_be64 (u64 (8 * Z.of_nat (length m))).

Definition blocks64 (l : list Z) : list (list Z) := reshape (replicate (length l / 64) 64%nat) l.

Definition sha256_spec (m : list Z) : list Z :=
  digest_of (foldl sha256_transform H0 (blocks64 (sha_pad m))).

(** RFC 2104. *)
Definition key64 (key : list Z) : list Z :=
  let k := if decide (64 < length key)%nat then sha256_spec key else key in
  k ++ replicate (64 - length k) 0.
Definition hmac_spec (key msg : list Z) : list Z :=
  sha256_spec (map (fun b => Z.lxor b 0x5c) (key64 key) ++
               sha256_spec (map (fun b => Z.lxor b 0x36) (key64 key) ++ msg)).

(** RFC 5869: T(0) is empty, T(n+1) = HMAC(PRK, T(n) | info | n+1). *)
Fixpoint hkdf_T (prk info : list Z) (n : nat) : list Z :=
  match n with
  | O => []
  | S n' => hmac_spec prk (hkdf_T prk info n' ++ info ++ [Z.of_nat n])
  end.
Definition hkdf_spec (ikm : list Z) (salt : option (list Z)) (info : list Z) (out_len : nat) : list Z :=
  let prk := hmac_spec (default [] salt) ikm in
  take out_len (concat (map (hkdf_T prk info) (seq 1 255))).

(** ** Contexts and the messages they stand for *)

Record absorbed (ctx : sha256_ctx) (m : list Z) : Prop := {
  ab_buf : length (buf ctx) = 64%nat;
  ab_msg : exists bs r, m = concat bs ++ r /\ Forall (fun b => length b = 64%nat) bs /\
    (length r < 64)%nat /\ buflen ctx = Z.of_nat (length r) /\ take (length r) (buf ctx) = r /\
    state ctx = foldl sha256_transform H0 bs
}.

Lemma length_concat64 (bs : list (list Z)) :
  Forall (fun b => length b = 64%nat) bs -> length (concat bs) = (64 * length bs)%nat.
Proof. induction 1 as [|b bs Hb _ IH]; simpl; [done|]. rewrite length_app, IH, Hb. lia. Qed.

Lemma absorbed_buflen ctx m : absorbed ctx m -> buflen ctx = Z.of_nat (length m) mod 64.
Proof.
  intros [_ (bs & r & -> & Hbs & Hr & -> & _)]. rewrite length_app, length_concat64 by done. zdm.
Qed.

Lemma absorbed_init u : length (buf u) = 64%nat -> absorbed (sha256_init u) [].
Proof.
  intros Hu. split; [done|]. exists [], []. repeat (split; [done || (simpl; lia)|]). done.
Qed.

(** One round of the update loop. *)
Lemma absorb_step ctx m c d :
  absorbed ctx m -> d <> [] ->
  c = Z.to_nat (if Z.of_nat (length d) <? u64 (64 - buflen ctx) then Z.of_nat (length d)
                else u64 (64 - buflen ctx)) ->
  let buf' := splice (buf ctx) (Z.to_nat (buflen ctx)) (take c d) in
  let buflen' := u32 (buflen ctx + Z.of_nat c) in
  let ctx' := if buflen' =? 64
              then mk_ctx (sha256_transform (state ctx) buf') (count ctx) buf' 0
              else mk_ctx (state ctx) (count ctx) buf' buflen' in
  absorbed ctx' (m ++ take c d) /\ (1 <= c <= length d)%nat.
Proof.
  intros [Hb (bs & r & -> & Hbs & Hr & Hl & Ht & Hst)] Hd -> buf' buflen'. subst buf' buflen'.
  rewrite Hl, (u64_small (64 - _)) by lia.
  assert (0 < length d)%nat by (destruct d; simpl; [done|lia]).
  set (c := Z.to_nat _). assert ((1 <= c <= length d)%nat /\ (length r + c <= 64)%nat) as [Hc Hrc].
  { unfold c. destruct (Z.ltb_spec (Z.of_nat (length d)) (64 - Z.of_nat (length r))); lia. }
  split; [|done]. assert (length (take c d) = c) as Hlc by (rewrite length_take; lia).
  rewrite Nat2Z.id, (u32_small (_ + _)) by lia.
  assert (length (splice (buf ctx) (length r) (take c d)) = 64%nat) as Hbl by (rewrite length_splice; lia).
  pose proof (take_splice (buf ctx) (length r) (take c d) ltac:(lia)) as Hts. rewrite Hlc, Ht in Hts.
  destruct (Z.eqb_spec (Z.of_nat (length r) + Z.of_nat c) 64) as [E|E].
  - assert (length r + c = 64)%nat as E' by lia. rewrite take_ge in Hts by lia.
    split; [done|]. exists (bs ++ [r ++ take c d]), []. simpl buf. simpl buflen. simpl state.
    rewrite concat_app, app_nil_r. simpl. rewrite app_nil_r, app_assoc.
    split; [done|]. split; [|split; [lia|]].
    { apply Forall_app. split; [done|]. apply Forall_singleton. rewrite length_app. lia. }
    split; [done|]. split; [done|]. rewrite foldl_app. simpl. by rewrite Hts, Hst.
  - split; [done|]. exists bs, (r ++ take c d). simpl buf. simpl buflen. simpl state.
    rewrite app_assoc, length_app, Hlc. split; [done|]. split; [done|]. split; [lia|].
    split; [lia|]. split; done.
Qed.

Lemma update_loop_ok fuel : forall ctx m data,
  absorbed ctx m -> (length data <= fuel)%nat ->
  absorbed (update_loop ctx data fuel) (m ++ data) /\ count (update_loop ctx data fuel) = count ctx.
Proof.
  induction fuel as [|f IH]; intros ctx m data H Hf.
  { destruct data; [|simpl in Hf; lia]. by rewrite app_nil_r. }
  cbn [update_loop]. destruct data as [|x data]; [by rewrite app_nil_r|].
  destruct (absorb_step ctx m _ (x :: data) H ltac:(done) eq_refl) as [H' Hc].
  set (c := Z.to_nat _) in *. set (ctx' := if _ =? 64 then _ else _) in *.
  destruct (IH ctx' _ (drop c (x :: data)) H') as [H1 H2]; [rewrite length_drop; simpl in *; lia|].
  rewrite <- app_assoc, take_drop in H1. split; [done|]. rewrite H2. unfold ctx'. by casei.
Qed.

Lemma update_ok ctx m data :
  absorbed ctx m ->
  absorbed (sha256_update ctx data) (m ++ data) /\
  count (sha256_update ctx data) = u64 (count ctx + Z.of_nat (length data)).
Proof.
  intros [H1 H2]. unfold sha256_update. apply (update_loop_ok (length data) (mk_ctx _ _ _ _) m); [by split | done].
Qed.

(** A context that has also counted its bytes. *)
Definition stands_for (ctx : sha256_ctx) (m : list Z) : Prop :=
  absorbed ctx m /\ count ctx = u64 (Z.of_nat (length m)).

Lemma stands_init u : length (buf u) = 64%nat -> stands_for (sha256_init u) [].
Proof. intros. split; [by apply absorbed_init | done]. Qed.

Lemma stands_update ctx m data : stands_for ctx m -> stands_for (sha256_update ctx data) (m ++ data).
Proof.
  intros [H1 H2]. destruct (update_ok ctx m data H1) as [H3 H4]. split; [done|].
  rewrite H4, H2, length_app, Nat2Z.inj_add. unfold u64. by rewrite Z.add_mod_idemp_l by lia.
Qed.

Lemma stands_updates chunks : forall ctx m,
  stands_for ctx m -> stands_for (foldl sha256_update ctx chunks) (m ++ concat chunks).
Proof.
  induction chunks as [|d ds IH]; intros ctx m H; simpl; [by rewrite app_nil_r|].
  rewrite app_assoc. apply IH. by apply stands_update.
Qed.

(** ** Finalisation *)

Lemma pad_loop_ok fuel : forall ctx m,
  absorbed ctx m -> (56 - Z.of_nat (length m)) mod 64 < Z.of_nat fuel ->
  absorbed (pad_loop ctx fuel) (m ++ replicate (Z.to_nat ((56 - Z.of_nat (length m)) mod 64)) 0).
Proof.
  induction fuel as [|f IH]; intros ctx m H Hf; [zdm|]. cbn [pad_loop].
  pose proof (absorbed_buflen ctx m H) as Hb. rewrite Hb.
  destruct (Z.eqb_spec (Z.of_nat (length m) mod 64) 56) as [E|E].
  - replace ((56 - Z.of_nat (length m)) mod 64) with 0 by zdm. by rewrite app_nil_r.
  - destruct (update_ok ctx m [0] H) as [H1 _].
    assert ((56 - Z.of_nat (length (m ++ [0]))) mod 64 = (56 - Z.of_nat (length m)) mod 64 - 1) as En.
    { rewrite length_app. simpl. zdm. }
    specialize (IH _ _ H1). rewrite En in IH. specialize (IH ltac:(lia)).
    rewrite <- app_assoc in IH. simpl in IH.
    replace (Z.to_nat ((56 - Z.of_nat (length m)) mod 64)) with
      (S (Z.to_nat ((56 - Z.of_nat (length m)) mod 64 - 1))) by zdm. done.
Qed.

Lemma length_put_be64 v : length (put_be64 v) = 8%nat.
Proof. done. Qed.

Lemma blocks64_concat bs : Forall (fun b => length b = 64%nat) bs -> blocks64 (concat bs) = bs.
Proof.
  intros H. unfold blocks64. rewrite length_concat64 by done.
  replace (64 * length bs)%nat with (length bs * 64)%nat by lia. rewrite Nat.div_mul by lia.
  induction H as [|b bs Hb _ IH]; [done|]. cbn [concat length replicate reshape].
  rewrite <- Hb at 1. rewrite take_app_length. rewrite <- Hb at 2. rewrite drop_app_length. by rewrite IH.
Qed.

(** A context whose message is a whole number of blocks has hashed all of it. *)
Lemma absorbed_full ctx m : absorbed ctx m -> (Z.of_nat (length m)) mod 64 = 0 ->
  state ctx = foldl sha256_transform H0 (blocks64 m).
Proof.
  intros H Hm. pose proof (absorbed_buflen _ _ H) as Hb.
  destruct H as [_ (bs & r & -> & Hbs & Hr & Hl & _ & Hst)].
  assert (r = []) as -> by (destruct r; [done | simpl in *; lia]).
  by rewrite app_nil_r, blocks64_concat.
Qed.

Lemma final_ok ctx m : stands_for ctx m -> (sha256_final ctx).2 = sha256_spec m.
Proof.
  intros [H Hc]. unfold sha256_final, sha256_spec. cbn [snd]. f_equal.
  destruct (update_ok ctx m [0x80] H) as [H1 _].
  assert (Z.of_nat (length (m ++ [128])) = Z.of_nat (length m) + 1) as Hl by (rewrite length_app; simpl; lia).
  pose proof (pad_loop_ok 64 _ _ H1 ltac:(rewrite Hl; zdm)) as H2. rewrite Hl in H2.
  replace ((56 - (Z.of_nat (length m) + 1)) mod 64) with ((55 - Z.of_nat (length m)) mod 64) in H2 by (f_equal; lia).
  destruct (update_ok _ _ (put_be64 (u64 (count ctx * 8))) H2) as [H3 _].
  replace (u64 (count ctx * 8)) with (u64 (8 * Z.of_nat (length m))) in *.
  2:{ rewrite Hc. unfold u64. rewrite Z.mul_mod_idemp_l by lia. f_equal. lia. }
  rewrite <- !app_assoc in H3. apply (absorbed_full _ _ H3).
  rewrite !length_app, length_put_be64, length_replicate. simpl length. zdm.
Qed.

Lemma sha256_ok u data : length (buf u) = 64%nat -> sha256 u data = sha256_spec data.
Proof. intros H. apply final_ok, (stands_update _ [] data), stands_init, H. Qed.

(** ** HMAC and HKDF *)

#[local] Opaque sha256_transform sha256_update sha256_final sha256_init.

Lemma length_digest st : length (digest_of st) = 32%nat.
Proof. done. Qed.
Lemma length_spec m : length (sha256_spec m) = 32%nat.
Proof. apply length_digest. Qed.

Lemma splice_zeros k : (length k <= 64)%nat -> splice (replicate 64 0) 0 k = k ++ replicate (64 - length k) 0.
Proof. intros. unfold splice. rewrite drop_replicate. done. Qed.

(** The nested hash with any chunking of the inner message. *)
Lemma nested_ok u u' k chunks : length (buf u) = 64%nat -> length (buf u') = 64%nat ->
  (sha256_final (sha256_update (sha256_update (sha256_init u') (map (fun b => Z.lxor b 0x5c) k))
     (sha256_final (foldl sha256_update (sha256_update (sha256_init u) (map (fun b => Z.lxor b 0x36) k)) chunks)).2)).2
  = sha256_spec (map (fun b => Z.lxor b 0x5c) k ++ sha256_spec (map (fun b => Z.lxor b 0x36) k ++ concat chunks)).
Proof.
  intros Hu Hu'. rewrite (final_ok (foldl _ _ chunks) (map (fun b => Z.lxor b 0x36) k ++ concat chunks)).
  2:{ by apply stands_updates, (stands_update _ []), stands_init. }
  apply final_ok, stands_update, (stands_update _ []), stands_init, Hu'.
Qed.

Lemma key64_ok u key : length (buf u) = 64%nat ->
  (if 64 <? Z.of_nat (length key) then splice (replicate 64 0) 0 (sha256 u key)
   else splice (replicate 64 0) 0 key) = key64 key.
Proof.
  intros Hu. unfold key64. destruct (Z.ltb_spec 64 (Z.of_nat (length key))).
  - rewrite decide_True by lia. rewrite sha256_ok by exact Hu.
    apply splice_zeros. rewrite length_spec. lia.
  - rewrite decide_False, splice_zeros by lia. done.
Qed.

Lemma hmac_ok u key msg : length (buf u) = 64%nat -> hmac_sha256 u key msg = hmac_spec key msg.
Proof.
  intros Hu. unfold hmac_sha256. rewrite key64_ok by done.
  rewrite (surjective_pairing (sha256_final _)).
  pose proof (nested_ok u zero_ctx (key64 key) [msg] Hu eq_refl) as H. simpl in H. rewrite app_nil_r in H.
  exact H.
Qed.

Lemma length_hmac key msg : length (hmac_spec key msg) = 32%nat.
Proof. apply length_spec. Qed.

Lemma hkdf_round_ok u prk info T n : length (buf u) = 64%nat -> length prk = 32%nat -> (n < 255)%nat ->
  (n = 0%nat \/ T = hkdf_T prk info n) ->
  hkdf_round u prk info T (Z.of_nat (S n)) = hkdf_T prk info (S n).
Proof.
  intros Hu Hp Hn HT. unfold hkdf_round. rewrite splice_zeros by lia.
  assert (prk ++ replicate (64 - length prk) 0 = key64 prk) as ->.
  { unfold key64. by rewrite decide_False by lia. }
  cbn [hkdf_T]. unfold hmac_spec.
  pose proof (nested_ok u u (key64 prk) ((if 1 <? Z.of_nat (S n) then [T] else []) ++ [info; [Z.of_nat (S n)]]) Hu Hu) as H.
  rewrite foldl_app, concat_app in H. cbn [concat foldl] in H.
  destruct (Z.ltb_spec 1 (Z.of_nat (S n))); cbn [concat foldl] in H; rewrite ?app_nil_r in H.
  - destruct HT as [->| ->]; [lia|]. exact H.
  - assert (n = 0%nat) as -> by lia. exact H.
Qed.

Lemma length_hkdf_T prk info n : length (hkdf_T prk info (S n)) = 32%nat.
Proof. apply length_hmac. Qed.

Lemma hkdf_expand_ok u prk info fuel : forall T c todo n,
  length (buf u) = 64%nat -> length prk = 32%nat ->
  (c = 0%nat \/ T = hkdf_T prk info c) -> (c + n <= 255)%nat -> (todo <= 32 * n)%nat -> (todo <= fuel)%nat ->
  hkdf_expand u prk info T (Z.of_nat c) todo fuel = take todo (concat (map (hkdf_T prk info) (seq (S c) n))).
Proof.
  induction fuel as [|f IH]; intros T c todo n Hu Hp HT Hc Ht Hf.
  { assert (todo = 0%nat) as -> by lia. done. }
  cbn [hkdf_expand]. destruct todo as [|t]; [done|]. destruct n as [|n]; [lia|].
  rewrite u8_small by lia. replace (Z.of_nat c + 1) with (Z.of_nat (S c)) by lia.
  rewrite hkdf_round_ok by (assumption || lia). cbn [seq map concat].
  set (cp := Z.to_nat (MIN 32 _)). assert (cp = Nat.min 32 (S t)) as Hcp.
  { unfold cp, MIN. destruct (Z.ltb_spec 32 (Z.of_nat (S t))); lia. }
  rewrite take_app, length_hkdf_T. rewrite (IH _ (S c) _ n); auto; [|lia|lia|lia].
  f_equal; [|f_equal; lia]. rewrite Hcp. destruct (decide (32 <= S t)%nat).
  - rewrite Nat.min_l by done. rewrite !take_ge by (rewrite length_hkdf_T; lia). done.
  - rewrite Nat.min_r by lia. done.
Qed.

Lemma hkdf_salt_ok u ikm salt : length (buf u) = 64%nat ->
  hmac_sha256 u match salt with None | Some [] => replicate 32 0 | Some s => s end ikm
  = hmac_spec (default [] salt) ikm.
Proof.
  intros Hu. rewrite hmac_ok by done. destruct salt as [[|x s]|]; reflexivity.
Qed.

(** ** Theorems *)

(** (C31) Streaming SHA-256 is chunk-invariant and correct: however a message is
    cut into updates, and whatever the stack context held before, initialising,
    updating and finalising yields the FIPS 180-4 digest of the whole message.  The
    padding loop terminates within its bound. *)
Theorem sha256_streaming u chunks :
  length (buf u) = 64%nat ->
  sha256_final (foldl sha256_update (sha256_init u) chunks) = (zero_ctx, sha256_spec (concat chunks)).
Proof.
  intros Hu. rewrite (surjective_pairing (sha256_final _)). f_equal.
  apply final_ok. exact (stands_updates chunks _ [] (stands_init u Hu)).
Qed.

Lemma sha256_streaming_witness :
  (sha256_final (foldl sha256_update (sha256_init zero_ctx) [[97]; []; [98; 99]])).2 = sha256_spec [97; 98; 99].
Proof. rewrite (sha256_streaming zero_ctx [[97]; []; [98; 99]] eq_refl). reflexivity. Defined.

(** The digest of "abc" and an HMAC are those FIPS 180-4 and RFC 4231 (test
    case 1) give. *)
Theorem sha256_vectors :
  sha256 zero_ctx [97; 98; 99] =
    [0xba;0x78;0x16;0xbf;0x8f;0x01;0xcf;0xea;0x41;0x41;0x40;0xde;0x5d;0xae;0x22;0x23;
     0xb0;0x03;0x61;0xa3;0x96;0x17;0x7a;0x9c;0xb4;0x10;0xff;0x61;0xf2;0x00;0x15;0xad] /\
  hmac_sha256 zero_ctx (replicate 20 0x0b) [0x48;0x69;0x20;0x54;0x68;0x65;0x72;0x65] =
    [0xb0;0x34;0x4c;0x61;0xd8;0xdb;0x38;0x53;0x5c;0xa8;0xaf;0xce;0xaf;0x0b;0xf1;0x2b;
     0x88;0x1d;0xc2;0x00;0xc9;0x83;0x3d;0xa7;0x26;0xe9;0x37;0x6c;0x2e;0x32;0xcf;0xf7].
Proof. split; vm_compute; reflexivity. Qed.

(** (C32) [hmac_sha256] is HMAC (RFC 2104), for keys of any length, and
    [hkdf_sha256] is HKDF (RFC 5869) for every output length RFC 5869 allows. *)
Theorem hmac_hkdf_correct u key msg ikm salt info out_len :
  length (buf u) = 64%nat -> (out_len <= 255 * 32)%nat ->
  hmac_sha256 u key msg = hmac_spec key msg /\
  hkdf_sha256 u ikm salt info out_len = hkdf_spec ikm salt info out_len.
Proof.
  intros Hu Ho. split; [by apply hmac_ok|]. unfold hkdf_sha256, hkdf_spec.
  rewrite hkdf_salt_ok by done. apply (hkdf_expand_ok u _ info out_len _ 0 out_len 255);
    [exact Hu | apply length_hmac | by left | lia | lia | lia].
Qed.

Lemma hmac_hkdf_correct_witness :
  hkdf_sha256 zero_ctx [1; 2] None [3] 40 = hkdf_spec [1; 2] None [3] 40.
Proof. apply (hmac_hkdf_correct zero_ctx [] [] [1; 2] None [3] 40); [reflexivity | lia]. Defined.

End Sha256Proof.
