(* ===== verification/AesGcm.v ===== *)
(** * crypto/aes_gcm.c: AES-256-GCM of the kernel's crypto layer

    The AES-256 block cipher, counter mode, GHASH on two 64-bit halves, and the
    authenticated encryption and decryption entry points. *)

From S2P Require Import Prelude Bytes.
Import Bytes.

Module AesGcm.

Definition sbox : list Z :=
 [0x63;0x7c;0x77;0x7b;0xf2;0x6b;0x6f;0xc5;0x30;0x01;0x67;0x2b;0xfe;0xd7;0xab;0x76;
  0xca;0x82;0xc9;0x7d;0xfa;0x59;0x47;0xf0;0xad;0xd4;0xa2;0xaf;0x9c;0xa4;0x72;0xc0;
  0xb7;0xfd;0x93;0x26;0x36;0x3f;0xf7;0xcc;0x34;0xa5;0xe5;0xf1;0x71;0xd8;0x31;0x15;
  0x04;0xc7;0x23;0xc3;0x18;0x96;0x05;0x9a;0x07;0x12;0x80;0xe2;0xeb;0x27;0xb2;0x75;
  0x09;0x83;0x2c;0x1a;0x1b;0x6e;0x5a;0xa0;0x52;0x3b;0xd6;0xb3;0x29;0xe3;0x2f;0x84;
  0x53;0xd1;0x00;0xed;0x20;0xfc;0xb1;0x5b;0x6a;0xcb;0xbe;0x39;0x4a;0x4c;0x58;0xcf;
  0xd0;0xef;0xaa;0xfb;0x43;0x4d;0x33;0x85;0x45;0xf9;0x02;0x7f;0x50;0x3c;0x9f;0xa8;
  0x51;0xa3;0x40;0x8f;0x92;0x9d;0x38;0xf5;0xbc;0xb6;0xda;0x21;0x10;0xff;0xf3;0xd2;
  0xcd;0x0c;0x13;0xec;0x5f;0x97;0x44;0x17;0xc4;0xa7;0x7e;0x3d;0x64;0x5d;0x19;0x73;
  0x60;0x81;0x4f;0xdc;0x22;0x2a;0x90;0x88;0x46;0xee;0xb8;0x14;0xde;0x5e;0x0b;0xdb;
  0xe0;0x32;0x3a;0x0a;0x49;0x06;0x24;0x5c;0xc2;0xd3;0xac;0x62;0x91;0x95;0xe4;0x79;
  0xe7;0xc8;0x37;0x6d;0x8d;0xd5;0x4e;0xa9;0x6c;0x56;0xf4;0xea;0x65;0x7a;0xae;0x08;
  0xba;0x78;0x25;0x2e;0x1c;0xa6;0xb4;0xc6;0xe8;0xdd;0x74;0x1f;0x4b;0xbd;0x8b;0x8a;
  0x70;0x3e;0xb5;0x66;0x48;0x03;0xf6;0x0e;0x61;0x35;0x57;0xb9;0x86;0xc1;0x1d;0x9e;
  0xe1;0xf8;0x98;0x11;0x69;0xd9;0x8e;0x94;0x9b;0x1e;0x87;0xe9;0xce;0x55;0x28;0xdf;
  0x8c;0xa1;0x89;0x0d;0xbf;0xe6;0x42;0x68;0x41;0x99;0x2d;0x0f;0xb0;0x54;0xbb;0x16].

Definition sb (b : Z) : Z := at_ sbox (Z.to_nat b).

(** GF(2^8) multiply; [n] iterations left, [p] the accumulator. *)
Fixpoint gf_mul_loop (p a b : Z) (n : nat) : Z :=
  match n with
  | O => p
  | S n' =>
      let p := if truthy (Z.land b 1) then Z.lxor p a else p in
      let hi := Z.land a 0x80 in
      let a := u8 (Z.shiftl a 1) in
      let a := if truthy hi then Z.lxor a 0x1b else a in
      gf_mul_loop p a (Z.shiftr b 1) n'
  end.
Definition gf_mul (a b : Z) : Z := gf_mul_loop 0 a b 8.

Definition rcon : list Z := [0x00;0x01;0x02;0x04;0x08;0x10;0x20;0x40;0x80;0x1b;0x36].

(** [byte(w, k)]: [(w >> k) & 0xff]. *)
Definition wbyte (w k : Z) : Z := Z.land (Z.shiftr w k) 0xff.

(** The expansion loop from word [length rk] on. *)
Fixpoint rk_extend (rk : list Z) (n : nat) : list Z :=
  match n with
  | O => rk
  | S n' =>
      let i := length rk in
      let w := at_ rk (i - 1) in
      let w :=
        if (i mod 8 =? 0)%nat then
          Z.lor (Z.lor (Z.lor (shl32 (Z.lxor (sb (wbyte w 16)) (at_ rcon (i / 8))) 24)
                              (shl32 (sb (wbyte w 8)) 16))
                       (shl32 (sb (wbyte w 0)) 8))
                (sb (wbyte w 24))
        else if (i mod 8 =? 4)%nat then
          Z.lor (Z.lor (Z.lor (shl32 (sb (wbyte w 24)) 24) (shl32 (sb (wbyte w 16)) 16))
                       (shl32 (sb (wbyte w 8)) 8))
                (sb (wbyte w 0))
        else w in
      rk_extend (rk ++ [Z.lxor (at_ rk (i - 8)) w]) n'
  end.
Definition aes256_key_expand (key : list Z) : list Z :=
  rk_extend (map (fun i => be32 key (i * 4)) (seq 0 8)) 52.

(** [s[i] = v]. *)
Definition put (s : list Z) (i : nat) (v : Z) : list Z := <[i := v]> s.

Definition aes_sub_bytes (s : list Z) : list Z := map sb s.

Definition aes_shift_rows (s : list Z) : list Z :=
  let t := at_ s 1 in
  let s := put s 1 (at_ s 5) in let s := put s 5 (at_ s 9) in let s := put s 9 (at_ s 13) in
  let s := put s 13 t in
  let t := at_ s 2 in let s := put s 2 (at_ s 10) in let s := put s 10 t in
  let t := at_ s 6 in let s := put s 6 (at_ s 14) in let s := put s 14 t in
  let t := at_ s 15 in
  let s := put s 15 (at_ s 11) in let s := put s 11 (at_ s 7) in let s := put s 7 (at_ s 3) in
  put s 3 t.

Definition mix_column (s : list Z) (c : nat) : list Z :=
  let a := at_ s (c * 4) in let b := at_ s (c * 4 + 1) in
  let cc := at_ s (c * 4 + 2) in let d := at_ s (c * 4 + 3) in
  let s := put s (c * 4) (Z.lxor (Z.lxor (Z.lxor (gf_mul 2 a) (gf_mul 3 b)) cc) d) in
  let s := put s (c * 4 + 1) (Z.lxor (Z.lxor (Z.lxor a (gf_mul 2 b)) (gf_mul 3 cc)) d) in
  let s := put s (c * 4 + 2) (Z.lxor (Z.lxor (Z.lxor a b) (gf_mul 2 cc)) (gf_mul 3 d)) in
  put s (c * 4 + 3) (Z.lxor (Z.lxor (Z.lxor (gf_mul 3 a) b) cc) (gf_mul 2 d)).
Definition aes_mix_columns (s : list Z) : list Z := foldl mix_column s (seq 0 4).

Definition add_key_word (rk : list Z) (off : nat) (s : list Z) (i : nat) : list Z :=
  let k := at_ rk (off + i) in
  let s := put s (i * 4) (Z.lxor (at_ s (i * 4)) (wbyte k 24)) in
  let s := put s (i * 4 + 1) (Z.lxor (at_ s (i * 4 + 1)) (wbyte k 16)) in
  let s := put s (i * 4 + 2) (Z.lxor (at_ s (i * 4 + 2)) (wbyte k 8)) in
  put s (i * 4 + 3) (Z.lxor (at_ s (i * 4 + 3)) (wbyte k 0)).
Definition aes_add_round_key (s rk : list Z) (off : nat) : list Z := foldl (add_key_word rk off) s (seq 0 4).

Definition aes_round (rk : list Z) (s : list Z) (r : nat) : list Z :=
  aes_add_round_key (aes_mix_columns (aes_shift_rows (aes_sub_bytes s))) rk (r * 4).

Definition aes256_encrypt_block (key input : list Z) : list Z :=
  let rk := aes256_key_expand key in
  let s := aes_add_round_key (take 16 input) rk 0 in
  let s := foldl (aes_round rk) s (seq 1 13) in
  aes_add_round_key (aes_shift_rows (aes_sub_bytes s)) rk 56.

(** [iv] and the big-endian counter. *)
Definition counter_block (iv : list Z) (ctr : Z) : list Z :=
  take 12 iv ++ [wbyte ctr 24; wbyte ctr 16; wbyte ctr 8; wbyte ctr 0].

(** The [while (done < len)] loop on what is left of the input; a round handles at
    least a byte. *)
Fixpoint ctr_loop (key iv : list Z) (ctr : Z) (input : list Z) (fuel : nat) : list Z :=
  match fuel with
  | O => []
  | S f =>
      match input with
      | [] => []
      | _ =>
          let keystream := aes256_encrypt_block key (counter_block iv ctr) in
          let chunk := Z.to_nat (MIN 16 (Z.of_nat (length input))) in
          xor_bytes (take chunk input) (take chunk keystream)
            ++ ctr_loop key iv (u32 (ctr + 1)) (drop chunk input) f
      end
  end.
Definition aes256_ctr_crypt (key iv : list Z) (ctr_start : Z) (input : list Z) : list Z :=
  ctr_loop key iv ctr_start input (length input).

(** ** GHASH *)

Record u128 := mk128 { hi : Z; lo : Z }.

(** Iteration [i] of the multiplication loop on [(z, v)]. *)
Definition gf128_step (x : u128) (zv : u128 * u128) (i : nat) : u128 * u128 :=
  let (z, v) := zv in
  let bit := if (i <? 64)%nat then truthy (Z.land (Z.shiftr (hi x) (63 - Z.of_nat i)) 1)
             else truthy (Z.land (Z.shiftr (lo x) (127 - Z.of_nat i)) 1) in
  let z := if bit then mk128 (Z.lxor (hi z) (hi v)) (Z.lxor (lo z) (lo v)) else z in
  let lsb := truthy (Z.land (lo v) 1) in
  let lo' := Z.lor (Z.shiftr (lo v) 1) (shl64 (hi v) 63) in
  let hi' := Z.shiftr (hi v) 1 in
  (z, mk128 (if lsb then Z.lxor hi' 0xe100000000000000 else hi') lo').
Definition gf128_mul (x h : u128) : u128 := (foldl (gf128_step x) (mk128 0 0, h) (seq 0 128)).1.

(** [for (i = 0; i < 8; i++) h = (h << 8) | H[off + i]]. *)
Definition load64 (H : list Z) (off : nat) : Z :=
  foldl (fun h i => Z.lor (shl64 h 8) (at_ H (off + i))) 0 (seq 0 8).

(** [for (j = 0; j < 8; j++) X ^= (u64)block[off + j] << (56 - j * 8)]. *)
Definition xor64 (X : Z) (block : list Z) (off : nat) : Z :=
  foldl (fun X j => Z.lxor X (shl64 (at_ block (off + j)) (56 - Z.of_nat j * 8))) X (seq 0 8).

(** Block [i] of [data], zero padded. *)
Definition padded_block (data : list Z) (i : nat) : list Z :=
  let copy := Z.to_nat (MIN 16 (u64 (Z.of_nat (length data) - Z.of_nat i * 16))) in
  splice (replicate 16 0) 0 (take copy (drop (i * 16) data)).

Definition ghash_step (h : u128) (data : list Z) (X : u128) (i : nat) : u128 :=
  let block := padded_block data i in
  gf128_mul (mk128 (xor64 (hi X) block 0) (xor64 (lo X) block 8)) h.
Definition ghash_data (h : u128) (data : list Z) (X : u128) : u128 :=
  foldl (ghash_step h data) X (seq 0 (Z.to_nat (u64 (Z.of_nat (length data) + 15) / 16))).

Definition store64 (x : Z) : list Z :=
  map (fun i => wbyte x (56 - Z.of_nat i * 8)) (seq 0 8).

Definition ghash (H aad ct : list Z) : list Z :=
  let h := mk128 (load64 H 0) (load64 H 8) in
  let X := ghash_data h aad (mk128 0 0) in
  let X := ghash_data h ct X in
  let lA := u64 (Z.of_nat (length aad) * 8) in
  let lC := u64 (Z.of_nat (length ct) * 8) in
  let X := gf128_mul (mk128 (Z.lxor (hi X) lA) (Z.lxor (lo X) lC)) h in
  store64 (hi X) ++ store64 (lo X).

(** ** AEAD *)

Definition J0 (iv : list Z) : list Z := take 12 iv ++ [0; 0; 0; 1].

Definition gcm_tag (key iv aad ct : list Z) : list Z :=
  let H := aes256_encrypt_block key (replicate 16 0) in
  let EK0 := aes256_encrypt_block key (J0 iv) in
  xor_bytes (ghash H aad ct) EK0.

Definition aes256_gcm_encrypt (key iv aad pt : list Z) : list Z * list Z :=
  let ct := aes256_ctr_crypt key iv 2 pt in
  (ct, gcm_tag key iv aad ct).

(** [diff |= a[i] ^ b[i]] over the 16 tag bytes. *)
Definition tag_diff (a b : list Z) : Z :=
  foldl (fun diff i => Z.lor diff (Z.lxor (at_ a i) (at_ b i))) 0 (seq 0 16).

(** [inl e] is the return value [e] with [pt] not written. *)
Definition aes256_gcm_decrypt (key iv aad ct expected_tag : list Z) : Z + list Z :=
  let computed_tag := gcm_tag key iv aad ct in
  if truthy (tag_diff computed_tag expected_tag) then inl (- EBADMSG)
  else inr (aes256_ctr_crypt key iv 2 ct).

End AesGcm.
