(* ===== verification/Aes256.v ===== *)
(** * drivers/cortexcrypto/core/aes256.c: CortexCrypto's own AES-256-GCM

    A second, separately written implementation: key schedule in a struct, GHASH
    on 16-byte arrays, 32-bit lengths. *)

From S2P Require Import Prelude Bytes.
Import Bytes.

Module Aes256.

Definition sbox : list Z :=
 [0x63;0x7c;0x77;0x7b;0xf2;0x6b;0x6f;0xc5;0x30;0x01;0x67;0x2b;0xfe;0xd7;0xab;0x76;
  0xca;0x82;0xc9;0x7d;0xfa;0x59;0x47;0xf0;0xad;0xd4;0xa2;0xaf;0x9c;0xa4;0x72;0xc0;
  0xb7;0xfd;0x93;0x26;0x36;0x3f;0xf7;0xcc;0x34;0xa5;0xe5;0xf1;0x71;0xd8;0x31;0x15;
  0x04;0xc7;0x23;0xc3;0x18;0x96;0x05;0x9a;0x07;0x12;0x80;0xe2;0xeb;0x27;0xb2;0x75;
  0x09;0x83;0x2c;0x1a;0x1b;0x6e;0x5a;0xa0;0x52;0x3b;0xd6;0xb3;0x29;0xe3;0x2f;0x84;
  0x53;0xd1;0x00;0xed;0x20;0xfc;0xb1;0x5b;0x6a;0xcb;0xbe;0x39;0x4a;0x4c;0x58;0xcf;
  0xd0;0xef;0xaa;0xfb;0x43;0x4d;0x33;0x85;0x45;0xf9;0x02;0x7f;0x50;0x3c;0x9f;0xa8;
  0x51;0xa3;0x40;0x8f;0x92;0x9d;0x38;0xf5;0xbc;0xb6;0xda;0x21;0x10;0xff;0xf3;0xd2;
  0xcd;0x0c;0x13;0xec;0x5f;0x97;0x44;0x17;0xc4;0xa7;0x7e;0x3d;0x64;0x5d;0x19;0x73;
  0x60;0x81;0x4f;0xdc;0x22;0x2a;0x90;0x88;0x46;0xee;0xb8;0x14;0xde;0x5e;0x0b;0xdb;
  0xe0;0x32;0x3a;0x0a;0x49;0x06;0x24;0x5c;0xc2;0xd3;0xac;0x62;0x91;0x95;0xe4;0x79;
  0xe7;0xc8;0x37;0x6d;0x8d;0xd5;0x4e;0xa9;0x6c;0x56;0xf4;0xea;0x65;0x7a;0xae;0x08;
  0xba;0x78;0x25;0x2e;0x1c;0xa6;0xb4;0xc6;0xe8;0xdd;0x74;0x1f;0x4b;0xbd;0x8b;0x8a;
  0x70;0x3e;0xb5;0x66;0x48;0x03;0xf6;0x0e;0x61;0x35;0x57;0xb9;0x86;0xc1;0x1d;0x9e;
  0xe1;0xf8;0x98;0x11;0x69;0xd9;0x8e;0x94;0x9b;0x1e;0x87;0xe9;0xce;0x55;0x28;0xdf;
  0x8c;0xa1;0x89;0x0d;0xbf;0xe6;0x42;0x68;0x41;0x99;0x2d;0x0f;0xb0;0x54;0xbb;0x16].

Definition sb (b : Z) : Z := at_ sbox (Z.to_nat b).

Fixpoint gmul_loop (p a b : Z) (n : nat) : Z :=
  match n with
  | O => p
  | S n' =>
      let p := if truthy (Z.land b 1) then Z.lxor p a else p in
      let hi := Z.land a 0x80 in
      let a := u8 (Z.shiftl a 1) in
      let a := if truthy hi then Z.lxor a 0x1b else a in
      gmul_loop p a (Z.shiftr b 1) n'
  end.
Definition gmul (a b : Z) : Z := gmul_loop 0 a b 8.

Definition rcon : list Z := [0x00;0x01;0x02;0x04;0x08;0x10;0x20;0x40;0x80;0x1b;0x36].

Definition wbyte (w k : Z) : Z := Z.land (Z.shiftr w k) 0xff.

Definition subword (w : Z) : Z :=
  Z.lor (Z.lor (Z.lor (shl32 (sb (wbyte w 24)) 24) (shl32 (sb (wbyte w 16)) 16))
               (shl32 (sb (wbyte w 8)) 8))
        (sb (wbyte w 0)).
Definition rotword (w : Z) : Z := Z.lor (shl32 w 8) (Z.shiftr w 24).

Definition AES256_ROUNDS : nat := 14.
Definition AES256_RK_WORDS : nat := (AES256_ROUNDS + 1) * 4.

Fixpoint rk_extend (rk : list Z) (n : nat) : list Z :=
  match n with
  | O => rk
  | S n' =>
      let i := length rk in
      let t := at_ rk (i - 1) in
      let t := if (i mod 8 =? 0)%nat then Z.lxor (subword (rotword t)) (shl32 (at_ rcon (i / 8)) 24)
               else if (i mod 8 =? 4)%nat then subword t
               else t in
      rk_extend (rk ++ [Z.lxor (at_ rk (i - 8)) t]) n'
  end.
Definition aes256_key_expand (key : list Z) : list Z :=
  rk_extend (map (fun i => be32 key (4 * i)) (seq 0 8)) (AES256_RK_WORDS - 8).

Definition put (s : list Z) (i : nat) (v : Z) : list Z := <[i := v]> s.

Definition add_key_word (rk : list Z) (off : nat) (s : list Z) (i : nat) : list Z :=
  let k := at_ rk (off + i) in
  let s := put s (4 * i) (Z.lxor (at_ s (4 * i)) (wbyte k 24)) in
  let s := put s (4 * i + 1) (Z.lxor (at_ s (4 * i + 1)) (wbyte k 16)) in
  let s := put s (4 * i + 2) (Z.lxor (at_ s (4 * i + 2)) (wbyte k 8)) in
  put s (4 * i + 3) (Z.lxor (at_ s (4 * i + 3)) (wbyte k 0)).
Definition add_round_key (rk : list Z) (off : nat) (s : list Z) : list Z := foldl (add_key_word rk off) s (seq 0 4).

Definition sub_bytes (s : list Z) : list Z := map sb s.

Definition shift_rows (s : list Z) : list Z :=
  let t := at_ s 1 in
  let s := put s 1 (at_ s 5) in let s := put s 5 (at_ s 9) in let s := put s 9 (at_ s 13) in
  let s := put s 13 t in
  let t := at_ s 2 in let s := put s 2 (at_ s 10) in let s := put s 10 t in
  let t := at_ s 6 in let s := put s 6 (at_ s 14) in let s := put s 14 t in
  let t := at_ s 15 in
  let s := put s 15 (at_ s 11) in let s := put s 11 (at_ s 7) in let s := put s 7 (at_ s 3) in
  put s 3 t.

Definition mix_column (s : list Z) (c : nat) : list Z :=
  let a0 := at_ s (c * 4) in let a1 := at_ s (c * 4 + 1) in
  let a2 := at_ s (c * 4 + 2) in let a3 := at_ s (c * 4 + 3) in
  let s := put s (c * 4) (Z.lxor (Z.lxor (Z.lxor (gmul a0 2) (gmul a1 3)) a2) a3) in
  let s := put s (c * 4 + 1) (Z.lxor (Z.lxor (Z.lxor a0 (gmul a1 2)) (gmul a2 3)) a3) in
  let s := put s (c * 4 + 2) (Z.lxor (Z.lxor (Z.lxor a0 a1) (gmul a2 2)) (gmul a3 3)) in
  put s (c * 4 + 3) (Z.lxor (Z.lxor (Z.lxor (gmul a0 3) a1) a2) (gmul a3 2)).
Definition mix_columns (s : list Z) : list Z := foldl mix_column s (seq 0 4).

(** The body of the main loop. *)
Definition main_round (rk : list Z) (s : list Z) (round : nat) : list Z :=
  add_round_key rk (round * 4) (mix_columns (shift_rows (sub_bytes s))).

Definition aes256_block_encrypt (rk input : list Z) : list Z :=
  let s := take 16 input in
  let s := add_round_key rk 0 s in
  let s := foldl (main_round rk) s (seq 1 (AES256_ROUNDS - 1)) in
  add_round_key rk (AES256_ROUNDS * 4) (shift_rows (sub_bytes s)).

Definition counter_block (nonce : list Z) (ctr : Z) : list Z :=
  take 12 nonce ++ [u8 (Z.shiftr ctr 24); u8 (Z.shiftr ctr 16); u8 (Z.shiftr ctr 8); u8 ctr].

Fixpoint ctr_loop (rk nonce : list Z) (ctr : Z) (input : list Z) (fuel : nat) : list Z :=
  match fuel with
  | O => []
  | S f =>
      match input with
      | [] => []
      | _ =>
          let block := counter_block nonce ctr in
          let ctr := u32 (ctr + 1) in
          let keystream := aes256_block_encrypt rk block in
          let chunk := Z.to_nat (MIN 16 (Z.of_nat (length input))) in
          xor_bytes (take chunk input) (take chunk keystream)
            ++ ctr_loop rk nonce ctr (drop chunk input) f
      end
  end.
Definition aes256_ctr_crypt (rk nonce : list Z) (ctr_start : Z) (input : list Z) : list Z :=
  ctr_loop rk nonce ctr_start input (length input).

(** ** GHASH *)

(** [v = v >> 1]: the byte loop with its carry; returns the bytes and the last carry. *)
Fixpoint shift_right1 (v : list Z) (carry : Z) : list Z * Z :=
  match v with
  | [] => ([], carry)
  | b :: v' =>
      let new_carry := Z.land b 1 in
      let b' := Z.lor (Z.shiftr b 1) (u8 (Z.shiftl carry 7)) in
      let (r, c) := shift_right1 v' new_carry in
      (b' :: r, c)
  end.

Definition ghash_bit (tmp : list Z) (zv : list Z * list Z) (i : nat) : list Z * list Z :=
  let (z, v) := zv in
  let z := if truthy (Z.land (Z.shiftr (at_ tmp (i / 8)) (7 - Z.of_nat (i mod 8))) 1)
           then xor_bytes z v else z in
  let (v, carry) := shift_right1 v 0 in
  (z, if truthy carry then put v 0 (Z.lxor (at_ v 0) 0xE1) else v).

Definition ghash_block (y x h : list Z) : list Z :=
  let tmp := xor_bytes y x in
  (foldl (ghash_bit tmp) (replicate 16 0, h) (seq 0 128)).1.

(** [while (i < len) { ...; i += 16; }] with a 32-bit [i]. *)
Fixpoint ghash_loop (h data y : list Z) (i : Z) (fuel : nat) : list Z :=
  match fuel with
  | O => y
  | S f =>
      let len := Z.of_nat (length data) in
      if i <? len then
        let chunk := Z.to_nat (MIN 16 (u32 (len - i))) in
        let block := splice (replicate 16 0) 0 (take chunk (drop (Z.to_nat i) data)) in
        ghash_loop h data (ghash_block y block h) (u32 (i + 16)) f
      else y
  end.

(** The length block: [for (j = 7; j >= 0; j--)]. *)
Definition len_byte (st : list Z * Z * Z) (j : nat) : list Z * Z * Z :=
  let '(block, aad_bits, ct_bits) := st in
  let block := put block j (Z.land aad_bits 0xFF) in
  let block := put block (j + 8) (Z.land ct_bits 0xFF) in
  (block, Z.shiftr aad_bits 8, Z.shiftr ct_bits 8).
Definition len_block (aad_len ct_len : Z) : list Z :=
  (foldl len_byte (replicate 16 0, u64 (aad_len * 8), u64 (ct_len * 8)) [7; 6; 5; 4; 3; 2; 1; 0]%nat).1.1.

(** A round handles 16 bytes, so [length data] rounds are enough. *)
Definition ghash (h aad ct : list Z) : list Z :=
  let y := replicate 16 0 in
  let y := ghash_loop h aad y 0 (length aad) in
  let y := ghash_loop h ct y 0 (length ct) in
  ghash_block y (len_block (Z.of_nat (length aad)) (Z.of_nat (length ct))) h.

(** ** AEAD; [aad] is [None] for a NULL pointer *)

Definition j0 (nonce : list Z) : list Z := take 12 nonce ++ [0; 0; 0; 1].

Definition gcm_tag (rk nonce aad ct : list Z) : list Z :=
  let h := aes256_block_encrypt rk (replicate 16 0) in
  let raw_tag := ghash h aad ct in
  xor_bytes raw_tag (aes256_block_encrypt rk (j0 nonce)).

Definition aes256gcm_encrypt (key nonce plaintext : list Z) (aad : option (list Z)) : list Z * list Z :=
  let ks := aes256_key_expand key in
  let ciphertext := aes256_ctr_crypt ks nonce 2 plaintext in
  (ciphertext, gcm_tag ks nonce (default [] aad) ciphertext).

Definition tag_diff (a b : list Z) : Z :=
  foldl (fun diff i => Z.lor diff (Z.lxor (at_ a i) (at_ b i))) 0 (seq 0 16).

Definition aes256gcm_decrypt (key nonce ciphertext tag : list Z) (aad : option (list Z)) : Z + list Z :=
  let ks := aes256_key_expand key in
  let expected_tag := gcm_tag ks nonce (default [] aad) ciphertext in
  if truthy (tag_diff expected_tag tag) then inl (-1)
  else inr (aes256_ctr_crypt (aes256_key_expand key) nonce 2 ciphertext).

End Aes256.
