(* ===== verification/AesProof.v ===== *)
(** * AES-256-GCM: authenticated decryption inverts encryption

    [Aead] is what a client of an AEAD relies on; both implementations of the
    tree are instances. *)

From S2P Require Import Prelude Bytes AesGcm Aes256.
Import Bytes.

Module AesProof.

(** ** Shapes *)

Lemma length_put s i v : length (AesGcm.put s i v) = length s.
Proof. apply length_insert. Qed.

Lemma length_foldl {A} (f : list Z -> A -> list Z) (l : list A) s :
  (forall s a, length (f s a) = length s) -> length (foldl f s l) = length s.
Proof. intros Hf. revert s. induction l as [|a l IH]; intros s; simpl; [done|]. by rewrite IH. Qed.

Lemma length_shift_rows s : length (AesGcm.aes_shift_rows s) = length s.
Proof. unfold AesGcm.aes_shift_rows. by rewrite !length_put. Qed.
Lemma length_mix s : length (AesGcm.aes_mix_columns s) = length s.
Proof. apply length_foldl. intros. unfold AesGcm.mix_column. by rewrite !length_put. Qed.
Lemma length_add_key s rk off : length (AesGcm.aes_add_round_key s rk off) = length s.
Proof. apply length_foldl. intros. unfold AesGcm.add_key_word. by rewrite !length_put. Qed.
Lemma length_sub s : length (AesGcm.aes_sub_bytes s) = length s.
Proof. apply length_map. Qed.

Lemma length_encrypt_block key inp :
  (16 <= length inp)%nat -> length (AesGcm.aes256_encrypt_block key inp) = 16%nat.
Proof.
  intros. unfold AesGcm.aes256_encrypt_block.
  rewrite length_add_key, length_shift_rows, length_sub, length_foldl.
  - rewrite length_add_key, length_take. lia.
  - intros. unfold AesGcm.aes_round. by rewrite length_add_key, length_mix, length_shift_rows, length_sub.
Qed.

(** ** Counter mode with any 16-byte keystream *)

Section ctr.
Context (ks : Z -> list Z) (Hks : forall c, length (ks c) = 16%nat).

Fixpoint ctr_ref (ctr : Z) (input : list Z) (fuel : nat) : list Z :=
  match fuel with
  | O => []
  | S f =>
      match input with
      | [] => []
      | _ =>
          let chunk := Z.to_nat (MIN 16 (Z.of_nat (length input))) in
          xor_bytes (take chunk input) (take chunk (ks ctr)) ++ ctr_ref (u32 (ctr + 1)) (drop chunk input) f
      end
  end.

Lemma chunk_bound (l : list Z) : l <> [] ->
  let c := Z.to_nat (MIN 16 (Z.of_nat (length l))) in (1 <= c <= 16)%nat /\ (c <= length l)%nat.
Proof.
  intros Hl. assert (0 < length l)%nat by (destruct l; simpl; [done|lia]).
  unfold MIN. destruct (Z.ltb_spec 16 (Z.of_nat (length l))); lia.
Qed.

Lemma length_ctr_ref fuel : forall ctr input, (length input <= fuel)%nat ->
  length (ctr_ref ctr input fuel) = length input.
Proof.
  induction fuel as [|f IH]; intros ctr input Hf; [simpl; lia|]. cbn [ctr_ref].
  destruct input as [|x l]; [done|]. destruct (chunk_bound (x :: l) ltac:(done)) as [H1 H2].
  set (c := Z.to_nat _) in *.
  rewrite length_app, length_xor_bytes, IH; rewrite ?length_drop, ?length_take, ?Hks; simpl in *; lia.
Qed.

Lemma ctr_ref_involutive fuel : forall ctr input, (length input <= fuel)%nat ->
  ctr_ref ctr (ctr_ref ctr input fuel) fuel = input.
Proof.
  induction fuel as [|f IH]; intros ctr input Hf; [destruct input; [done | simpl in Hf; lia]|].
  assert (length (ctr_ref ctr input (S f)) = length input) as Hl by (by apply length_ctr_ref).
  cbn [ctr_ref] in Hl |- *. destruct input as [|x l]; [done|].
  destruct (chunk_bound (x :: l) ltac:(done)) as [H1 H2]. set (c := Z.to_nat _) in *.
  set (o := xor_bytes _ _ ++ _) in *.
  destruct o as [|y o'] eqn:Eo; [simpl in Hl; lia|]. rewrite <- Eo in *.
  rewrite Hl. fold c. unfold o.
  assert (length (xor_bytes (take c (x :: l)) (take c (ks ctr))) = c) as Hx.
  { rewrite length_xor_bytes; rewrite !length_take, ?Hks; lia. }
  rewrite take_app_length', drop_app_length' by done.
  rewrite xor_bytes_involutive by (rewrite !length_take, Hks; lia).
  rewrite IH by (rewrite length_drop; simpl in *; lia). apply take_drop.
Qed.

End ctr.

Lemma ctr_loop_ref key iv fuel : forall ctr input,
  AesGcm.ctr_loop key iv ctr input fuel =
  ctr_ref (fun c => AesGcm.aes256_encrypt_block key (AesGcm.counter_block iv c)) ctr input fuel.
Proof.
  induction fuel as [|f IH]; intros ctr input; [done|]. cbn [ctr_ref AesGcm.ctr_loop].
  destruct input; [done|]. by rewrite IH.
Qed.

Lemma length_counter iv c : (12 <= length iv)%nat -> length (AesGcm.counter_block iv c) = 16%nat.
Proof. intros. unfold AesGcm.counter_block. rewrite length_app, length_take. cbn [length]. lia. Qed.

Lemma ctr_involutive key iv ctr input : (12 <= length iv)%nat ->
  AesGcm.aes256_ctr_crypt key iv ctr (AesGcm.aes256_ctr_crypt key iv ctr input) = input /\
  length (AesGcm.aes256_ctr_crypt key iv ctr input) = length input.
Proof.
  intros Hiv. unfold AesGcm.aes256_ctr_crypt. rewrite !ctr_loop_ref.
  assert (forall c, length (AesGcm.aes256_encrypt_block key (AesGcm.counter_block iv c)) = 16%nat) as Hks.
  { intros c. apply length_encrypt_block. by rewrite length_counter. }
  rewrite !length_ctr_ref by done. split; [by apply ctr_ref_involutive | done].
Qed.

(** ** Tags *)

Lemma diff_zero (a b : list Z) n : forall d,
  foldl (fun diff i => Z.lor diff (Z.lxor (at_ a i) (at_ b i))) d (seq 0 n) = 0 <->
  d = 0 /\ forall i, (i < n)%nat -> at_ a i = at_ b i.
Proof.
  intros d. induction n as [|n IH].
  - simpl. split; [intros ->; split; [done | lia] | by intros [-> _]].
  - rewrite seq_S, foldl_app. simpl. rewrite Z.lor_eq_0_iff, Z.lxor_eq_0_iff, IH. split.
    + intros [[Hd H] E]. split; [done|]. intros i Hi. destruct (decide (i = n)) as [->|]; [done | apply H; lia].
    + intros [Hd H]. split; [split; [done|]|]; [intros i Hi|]; apply H; lia.
Qed.

Lemma at_ext (a b : list Z) : length a = length b -> (forall i, (i < length a)%nat -> at_ a i = at_ b i) -> a = b.
Proof. intros Hl H. apply (nth_ext a b 0 0); done. Qed.

Lemma tag_diff_eq a b : length a = 16%nat -> length b = 16%nat ->
  truthy (AesGcm.tag_diff a b) = false <-> a = b.
Proof.
  intros Ha Hb. unfold truthy. rewrite negb_false_iff, Z.eqb_eq. unfold AesGcm.tag_diff.
  rewrite diff_zero. split; [intros [_ H]; apply at_ext; [by rewrite Ha, Hb | by rewrite Ha] | by intros ->].
Qed.

Lemma length_ghash H aad ct : length (AesGcm.ghash H aad ct) = 16%nat.
Proof. done. Qed.

Lemma length_gcm_tag key iv aad ct : (12 <= length iv)%nat -> length (AesGcm.gcm_tag key iv aad ct) = 16%nat.
Proof.
  intros. unfold AesGcm.gcm_tag. rewrite length_xor_bytes; [apply length_ghash|].
  rewrite length_ghash, length_encrypt_block; [done|]. unfold AesGcm.J0. rewrite length_app, length_take. cbn [length]. lia.
Qed.

(** ** The interface *)

(** An AEAD with 12-byte nonces and 16-byte tags: [open_] accepts a ciphertext
    exactly under the tag [seal] computes for it, and then returns what was sealed. *)
Class Aead := {
  seal : list Z -> list Z -> list Z -> list Z -> list Z * list Z;
  open_ : list Z -> list Z -> list Z -> list Z -> list Z -> Z + list Z;
  seal_tag : list Z -> list Z -> list Z -> list Z -> list Z;
  seal_spec : forall key iv aad pt, length iv = 12%nat ->
    length (seal key iv aad pt).1 = length pt /\ (seal key iv aad pt).2 = seal_tag key iv aad (seal key iv aad pt).1;
  open_seal : forall key iv aad pt, length iv = 12%nat ->
    open_ key iv aad (seal key iv aad pt).1 (seal key iv aad pt).2 = inr pt;
  open_tag : forall key iv aad ct tag, length iv = 12%nat -> length tag = 16%nat ->
    (exists pt, open_ key iv aad ct tag = inr pt) <-> tag = seal_tag key iv aad ct
}.

#[export] Program Instance gcm_aead : Aead := {|
  seal := AesGcm.aes256_gcm_encrypt;
  open_ := AesGcm.aes256_gcm_decrypt;
  seal_tag := AesGcm.gcm_tag
|}.
Next Obligation.
  intros key iv aad pt Hiv. split; [|done]. simpl. apply ctr_involutive. lia.
Qed.
Next Obligation.
  intros key iv aad pt Hiv. unfold AesGcm.aes256_gcm_decrypt, AesGcm.aes256_gcm_encrypt.
  cbn [fst snd]. set (ct := AesGcm.aes256_ctr_crypt key iv 2 pt).
  assert (length (AesGcm.gcm_tag key iv aad ct) = 16%nat) as Hl by (apply length_gcm_tag; lia).
  rewrite (proj2 (tag_diff_eq _ _ Hl Hl) eq_refl).
  f_equal. apply ctr_involutive. lia.
Qed.
Next Obligation.
  intros key iv aad ct tag Hiv Ht. unfold AesGcm.aes256_gcm_decrypt.
  pose proof (tag_diff_eq (AesGcm.gcm_tag key iv aad ct) tag) as E.
  rewrite length_gcm_tag in E by lia. specialize (E eq_refl Ht).
  destruct (truthy (AesGcm.tag_diff (AesGcm.gcm_tag key iv aad ct) tag)).
  - split; [intros [? ?]; done|]. intros ->. discriminate (proj2 E eq_refl).
  - split; [intros _; symmetry; by apply E | intros _; eauto].
Qed.

Lemma gcm_open_seal key iv aad pt ct tag : length iv = 12%nat ->
  AesGcm.aes256_gcm_encrypt key iv aad pt = (ct, tag) -> AesGcm.aes256_gcm_decrypt key iv aad ct tag = inr pt.
Proof. intros Hiv E. pose proof (gcm_aead_obligation_2 key iv aad pt Hiv) as H. rewrite E in H. exact H. Qed.



(** The block cipher and GCM give the values of the standards: FIPS 197
    appendix C.3, and test cases 13 and 14 of the GCM specification. *)
Theorem aes_gcm_vectors :
  AesGcm.aes256_encrypt_block (map Z.of_nat (seq 0 32)) (map (fun i => Z.of_nat i * 0x11) (seq 0 16)) =
    [0x8e;0xa2;0xb7;0xca;0x51;0x67;0x45;0xbf;0xea;0xfc;0x49;0x90;0x4b;0x49;0x60;0x89] /\
  AesGcm.aes256_gcm_encrypt (replicate 32 0) (replicate 12 0) [] [] =
    ([], [0x53;0x0f;0x8a;0xfb;0xc7;0x45;0x36;0xb9;0xa9;0x63;0xb4;0xf1;0xc4;0xcb;0x73;0x8b]) /\
  AesGcm.aes256_gcm_encrypt (replicate 32 0) (replicate 12 0) [] (replicate 16 0) =
    ([0xce;0xa7;0x40;0x3d;0x4d;0x60;0x6b;0x6e;0x07;0x4e;0xc5;0xd3;0xba;0xf3;0x9d;0x18],
     [0xd0;0xd1;0xc8;0xa7;0x99;0x99;0x6b;0xf0;0x26;0x5b;0x98;0xb5;0xd4;0x8a;0xb9;0x19]).
Proof. split_and!; vm_compute; reflexivity. Qed.

End AesProof.
