(* ===== verification/AesEquiv.v ===== *)
(** * The two AES-256-GCM implementations compute the same function

    crypto/aes_gcm.c multiplies in GF(2^128) on a pair of 64-bit words,
    drivers/cortexcrypto/core/aes256.c on 16 bytes; they also differ in the key
    schedule, the order of the factors in GF(2^8) and the length types. *)

From S2P Require Import Prelude Bytes AesGcm Aes256 AesProof.
Import Bytes AesProof.

Module AesEquiv.

(** ** Ranges *)

Lemma range_shiftr x n : 0 <= n -> 0 <= x < 2 ^ n <-> 0 <= x /\ Z.shiftr x n = 0.
Proof.
  intros Hn. rewrite Z.shiftr_div_pow2 by done. pose proof (pow2_pos n Hn). split.
  - intros. split; [lia|]. by apply Z.div_small.
  - intros [H0 Hd]. split; [done|]. apply Z.div_small_iff in Hd; lia.
Qed.
Lemma lxor_range x y n : 0 <= n -> 0 <= x < 2 ^ n -> 0 <= y < 2 ^ n -> 0 <= Z.lxor x y < 2 ^ n.
Proof.
  intros Hn [H1 H2]%range_shiftr [H3 H4]%range_shiftr; try done. apply range_shiftr; [done|].
  split; [by apply Z.lxor_nonneg|]. by rewrite Z.shiftr_lxor, H2, H4.
Qed.
Lemma lor_range x y n : 0 <= n -> 0 <= x < 2 ^ n -> 0 <= y < 2 ^ n -> 0 <= Z.lor x y < 2 ^ n.
Proof.
  intros Hn [H1 H2]%range_shiftr [H3 H4]%range_shiftr; try done. apply range_shiftr; [done|].
  split; [by apply Z.lor_nonneg|]. by rewrite Z.shiftr_lor, H2, H4.
Qed.
Lemma lxor_byte x y : byte_ok x -> byte_ok y -> byte_ok (Z.lxor x y).
Proof. apply (lxor_range x y 8). lia. Qed.

Lemma wbyte_u8 w k : AesGcm.wbyte w k = u8 (Z.shiftr w k).
Proof. unfold AesGcm.wbyte, u8. change 0xff with (2 ^ 8 - 1). by apply land_ones_mod. Qed.
Lemma wbyte_ok w k : byte_ok (AesGcm.wbyte w k).
Proof. rewrite wbyte_u8. apply u8_range. Qed.
Lemma wbyte_bit w k i : 0 <= k -> 0 <= i < 8 -> Z.testbit (AesGcm.wbyte w k) i = Z.testbit w (i + k).
Proof. intros. rewrite wbyte_u8. unfold u8. by rewrite Z.mod_pow2_bits_low, Z.shiftr_spec by lia. Qed.

Lemma at_ok l i : bytes_ok l -> byte_ok (at_ l i).
Proof.
  intros H. unfold at_. destruct (nth_in_or_default i l 0) as [Hin| ->]; [|split; lia].
  rewrite Forall_forall in H. apply H. by apply list_elem_of_In.
Qed.
Lemma put_ok s i v : bytes_ok s -> byte_ok v -> bytes_ok (AesGcm.put s i v).
Proof. intros. by apply Forall_insert. Qed.

Lemma bytes_ok_dec l : forallb (fun b => (0 <=? b) && (b <? 256)) l = true -> bytes_ok l.
Proof.
  intros H. rewrite forallb_forall in H. apply Forall_forall. intros x Hx.
  apply list_elem_of_In in Hx. specialize (H x Hx). b2p. done.
Qed.

Lemma sbox_same : Aes256.sbox = AesGcm.sbox.
Proof. reflexivity. Qed.
Lemma sb_same b : Aes256.sb b = AesGcm.sb b.
Proof. reflexivity. Qed.
Lemma sb_ok b : byte_ok (AesGcm.sb b).
Proof. apply at_ok, bytes_ok_dec. vm_compute. reflexivity. Qed.
#[local] Hint Resolve sb_ok wbyte_ok lxor_byte at_ok put_ok : nekros.
#[local] Opaque AesGcm.sbox Aes256.sbox AesGcm.gf_mul Aes256.gmul.

(** A fact about all bytes, by evaluation. *)
Lemma all_bytes (P : Z -> bool) :
  forallb P (map Z.of_nat (seq 0 256)) = true -> forall b, byte_ok b -> P b = true.
Proof.
  intros H b [H1 H2]. rewrite forallb_forall in H. apply H. apply in_map_iff.
  exists (Z.to_nat b). split; [lia|]. apply in_seq. lia.
Qed.

(** Multiplication by 2 and 3 with the factors either way round. *)
Lemma gmul_same a : byte_ok a ->
  Aes256.gmul a 2 = AesGcm.gf_mul 2 a /\ Aes256.gmul a 3 = AesGcm.gf_mul 3 a /\
  byte_ok (AesGcm.gf_mul 2 a) /\ byte_ok (AesGcm.gf_mul 3 a).
Proof.
  intros Ha.
  pose proof (all_bytes (fun a => (Aes256.gmul a 2 =? AesGcm.gf_mul 2 a) && (Aes256.gmul a 3 =? AesGcm.gf_mul 3 a)
    && ((0 <=? AesGcm.gf_mul 2 a) && (AesGcm.gf_mul 2 a <? 256))
    && ((0 <=? AesGcm.gf_mul 3 a) && (AesGcm.gf_mul 3 a <? 256))) ltac:(vm_compute; reflexivity) a Ha) as H.
  cbv beta in H. b2p. unfold byte_ok. split_and!; (assumption || lia).
Qed.

(** ** Rounds *)

Lemma foldl_inv {A} (P : list Z -> Prop) (f g : list Z -> A -> list Z) (l : list A) s :
  (forall s a, P s -> P (g s a) /\ f s a = g s a) -> P s -> P (foldl g s l) /\ foldl f s l = foldl g s l.
Proof.
  intros Hfg. revert s. induction l as [|a l IH]; intros s Hs; simpl; [done|].
  destruct (Hfg s a Hs) as [H1 ->]. by apply IH.
Qed.

Lemma mix_same s : bytes_ok s ->
  bytes_ok (AesGcm.aes_mix_columns s) /\ Aes256.mix_columns s = AesGcm.aes_mix_columns s.
Proof.
  apply foldl_inv. clear s. intros s c Hs. unfold Aes256.mix_column, AesGcm.mix_column.
  destruct (gmul_same (at_ s (c * 4)) ltac:(auto with nekros)) as (-> & -> & ? & ?).
  destruct (gmul_same (at_ s (c * 4 + 1)) ltac:(auto with nekros)) as (-> & -> & ? & ?).
  destruct (gmul_same (at_ s (c * 4 + 2)) ltac:(auto with nekros)) as (-> & -> & ? & ?).
  destruct (gmul_same (at_ s (c * 4 + 3)) ltac:(auto with nekros)) as (-> & -> & ? & ?).
  split; [|done]. repeat apply put_ok; auto 10 with nekros.
Qed.

Lemma add_key_same rk off s : bytes_ok s ->
  bytes_ok (AesGcm.aes_add_round_key s rk off) /\
  Aes256.add_round_key rk off s = AesGcm.aes_add_round_key s rk off.
Proof.
  apply foldl_inv. clear s. intros s i Hs. unfold Aes256.add_key_word, AesGcm.add_key_word.
  replace (4 * i)%nat with (i * 4)%nat by lia. split; [|done].
  repeat first [apply put_ok | apply lxor_byte | apply at_ok | apply wbyte_ok | done].
Qed.

Lemma shift_ok s : bytes_ok s -> bytes_ok (AesGcm.aes_shift_rows s).
Proof. intros. unfold AesGcm.aes_shift_rows. repeat first [done | apply put_ok | apply at_ok]. Qed.

Lemma sub_ok s : bytes_ok (AesGcm.aes_sub_bytes s).
Proof. apply Forall_forall. intros x (b & -> & _)%list_elem_of_fmap. apply sb_ok. Qed.

Lemma shift_same s : Aes256.shift_rows s = AesGcm.aes_shift_rows s.
Proof. reflexivity. Qed.
Lemma sub_same s : Aes256.sub_bytes s = AesGcm.aes_sub_bytes s.
Proof. reflexivity. Qed.
#[local] Opaque Aes256.shift_rows AesGcm.aes_shift_rows Aes256.sub_bytes AesGcm.aes_sub_bytes
  Aes256.mix_columns AesGcm.aes_mix_columns Aes256.add_round_key AesGcm.aes_add_round_key.

Lemma round_same rk s r : bytes_ok s ->
  bytes_ok (AesGcm.aes_round rk s r) /\ Aes256.main_round rk s r = AesGcm.aes_round rk s r.
Proof.
  intros Hs. unfold Aes256.main_round, AesGcm.aes_round.
  rewrite (shift_same (Aes256.sub_bytes s)), (sub_same s).
  destruct (mix_same (AesGcm.aes_shift_rows (AesGcm.aes_sub_bytes s))) as [H1 ->]; [apply shift_ok, sub_ok|].
  by apply add_key_same.
Qed.

(** The block function on an expanded key. *)
Definition encrypt_rk (rk inp : list Z) : list Z :=
  AesGcm.aes_add_round_key (AesGcm.aes_shift_rows (AesGcm.aes_sub_bytes
    (foldl (AesGcm.aes_round rk) (AesGcm.aes_add_round_key (take 16 inp) rk 0) (seq 1 13)))) rk 56.

Lemma encrypt_block_rk key inp :
  AesGcm.aes256_encrypt_block key inp = encrypt_rk (AesGcm.aes256_key_expand key) inp.
Proof. reflexivity. Qed.

Lemma block_same rk inp : bytes_ok inp ->
  bytes_ok (encrypt_rk rk inp) /\ Aes256.aes256_block_encrypt rk inp = encrypt_rk rk inp.
Proof.
  intros Hi. unfold Aes256.aes256_block_encrypt, encrypt_rk.
  destruct (add_key_same rk 0 (take 16 inp) (Forall_take _ _ _ Hi)) as [H1 ->].
  destruct (foldl_inv bytes_ok (Aes256.main_round rk) (AesGcm.aes_round rk) (seq 1 13)
    (AesGcm.aes_add_round_key (take 16 inp) rk 0)) as [H2 E]; [|done|].
  { intros s r Hs. by apply round_same. }
  change (seq 1 (Aes256.AES256_ROUNDS - 1)) with (seq 1 13). rewrite E.
  change (Aes256.AES256_ROUNDS * 4)%nat with 56%nat.
  generalize (foldl (AesGcm.aes_round rk) (AesGcm.aes_add_round_key (take 16 inp) rk 0) (seq 1 13)). intros s.
  rewrite (shift_same (Aes256.sub_bytes s)), (sub_same s). apply add_key_same, shift_ok, sub_ok.
Qed.

(** ** Key schedule *)

Lemma rot_byte w k j : 0 <= w < 2 ^ 32 -> (k = 24 /\ j = 16 \/ k = 16 /\ j = 8 \/ k = 8 /\ j = 0 \/ k = 0 /\ j = 24) ->
  AesGcm.wbyte (Aes256.rotword w) k = AesGcm.wbyte w j.
Proof.
  intros Hw Hkj. apply Z.bits_inj'. intros i Hi. destruct (Z.lt_ge_cases i 8).
  - rewrite !wbyte_bit by lia. unfold Aes256.rotword.
    rewrite Z.lor_spec, shl32_bit, Z.shiftr_spec by lia.
    rewrite (proj2 (Z.ltb_lt _ _)) by lia. cbn [andb].
    destruct Hkj as [[-> ->]|[[-> ->]|[[-> ->]|[-> ->]]]].
    1-3: rewrite (testbit_high w 32 (_ + _ + 24)) by lia; rewrite orb_false_r; f_equal; lia.
    rewrite Z.testbit_neg_r by lia. simpl. f_equal. lia.
  - rewrite !(testbit_high _ 8) by (apply wbyte_ok || lia). done.
Qed.

Lemma top_byte_xor a r b c d : byte_ok b -> byte_ok c -> byte_ok d ->
  Z.lxor (Z.lor (Z.lor (Z.lor (shl32 a 24) (shl32 b 16)) (shl32 c 8)) d) (shl32 r 24) =
  Z.lor (Z.lor (Z.lor (shl32 (Z.lxor a r) 24) (shl32 b 16)) (shl32 c 8)) d.
Proof.
  intros Hb Hc Hd. apply Z.bits_inj'. intros i Hi.
  rewrite Z.lxor_spec, !Z.lor_spec, !shl32_bit, Z.lxor_spec by lia.
  destruct (Z.ltb_spec i 32); simpl; [|by rewrite xorb_false_r].
  destruct (Z.lt_ge_cases i 24).
  - rewrite !(Z.testbit_neg_r _ (i - 24)) by lia. by rewrite xorb_false_r.
  - rewrite (testbit_high b 8), (testbit_high c 8), (testbit_high d 8) by (apply Hb || apply Hc || apply Hd || lia).
    by rewrite !orb_false_r.
Qed.

Lemma word_range a b c d : byte_ok a -> byte_ok b -> byte_ok c -> byte_ok d ->
  0 <= Z.lor (Z.lor (Z.lor (shl32 a 24) (shl32 b 16)) (shl32 c 8)) d < 2 ^ 32.
Proof.
  intros Ha Hb Hc [Hd1 Hd2]. repeat apply lor_range; try apply u32_range; try lia.
Qed.

Definition word_ok (w : Z) : Prop := 0 <= w < 2 ^ 32.

Lemma at_word l i : Forall word_ok l -> word_ok (at_ l i).
Proof.
  intros H. unfold at_. destruct (nth_in_or_default i l 0) as [Hin| ->]; [|split; lia].
  rewrite Forall_forall in H. apply H. by apply list_elem_of_In.
Qed.

Lemma subword_rot w r : word_ok w ->
  Z.lxor (Aes256.subword (Aes256.rotword w)) (shl32 r 24) =
  Z.lor (Z.lor (Z.lor (shl32 (Z.lxor (AesGcm.sb (AesGcm.wbyte w 16)) r) 24)
                      (shl32 (AesGcm.sb (AesGcm.wbyte w 8)) 16))
               (shl32 (AesGcm.sb (AesGcm.wbyte w 0)) 8))
        (AesGcm.sb (AesGcm.wbyte w 24)).
Proof.
  intros Hw. rewrite <- top_byte_xor by apply sb_ok. unfold Aes256.subword. rewrite !sb_same.
  change Aes256.wbyte with AesGcm.wbyte.
  by rewrite (rot_byte w 24 16), (rot_byte w 16 8), (rot_byte w 8 0), (rot_byte w 0 24) by (done || lia).
Qed.

Lemma rk_extend_same n : forall rk, Forall word_ok rk -> Aes256.rk_extend rk n = AesGcm.rk_extend rk n.
Proof.
  induction n as [|n IH]; intros rk Hrk; [done|]. cbn [Aes256.rk_extend AesGcm.rk_extend].
  rewrite subword_rot by (by apply at_word).
  change (Aes256.subword (at_ rk (length rk - 1))) with
    (let w := at_ rk (length rk - 1) in
     Z.lor (Z.lor (Z.lor (shl32 (AesGcm.sb (AesGcm.wbyte w 24)) 24) (shl32 (AesGcm.sb (AesGcm.wbyte w 16)) 16))
               (shl32 (AesGcm.sb (AesGcm.wbyte w 8)) 8)) (AesGcm.sb (AesGcm.wbyte w 0))).
  cbv zeta. apply IH. apply Forall_app. split; [done|]. apply Forall_singleton.
  apply lxor_range; [lia | by apply at_word |].
  destruct (length rk mod 8 =? 0)%nat; [|destruct (length rk mod 8 =? 4)%nat; [|by apply at_word]].
  - repeat apply lor_range; try apply u32_range; try lia. pose proof (sb_ok (AesGcm.wbyte (at_ rk (length rk - 1)) 24)). unfold byte_ok in *. lia.
  - apply word_range; apply sb_ok.
Qed.

Lemma key_expand_same key : bytes_ok key -> Aes256.aes256_key_expand key = AesGcm.aes256_key_expand key.
Proof.
  intros Hk. unfold Aes256.aes256_key_expand, AesGcm.aes256_key_expand.
  change (Aes256.AES256_RK_WORDS - 8)%nat with 52%nat. rewrite rk_extend_same.
  - reflexivity.
  - apply Forall_forall. intros x (i & -> & _)%list_elem_of_fmap. unfold be32.
    apply word_range; by apply at_ok.
Qed.

(** ** Counter mode *)

Lemma ctr_ref_ext ks ks' fuel : (forall c, ks c = ks' c) -> forall ctr input,
  ctr_ref ks ctr input fuel = ctr_ref ks' ctr input fuel.
Proof.
  intros H. induction fuel as [|f IH]; intros ctr input; [done|]. cbn [ctr_ref].
  destruct input; [done|]. by rewrite H, IH.
Qed.

Lemma ctr_loop_ref' rk nonce fuel : forall ctr input,
  Aes256.ctr_loop rk nonce ctr input fuel =
  ctr_ref (fun c => Aes256.aes256_block_encrypt rk (Aes256.counter_block nonce c)) ctr input fuel.
Proof.
  induction fuel as [|f IH]; intros ctr input; [done|]. cbn [ctr_ref Aes256.ctr_loop].
  destruct input; [done|]. by rewrite IH.
Qed.

Lemma counter_same iv c : Aes256.counter_block iv c = AesGcm.counter_block iv c.
Proof. unfold Aes256.counter_block, AesGcm.counter_block. by rewrite !wbyte_u8, Z.shiftr_0_r. Qed.

Lemma counter_ok iv c : bytes_ok iv -> bytes_ok (AesGcm.counter_block iv c).
Proof.
  intros H. apply Forall_app. split; [by apply Forall_take|].
  repeat (apply Forall_cons; split; [apply wbyte_ok|]). by apply Forall_nil.
Qed.

Lemma ctr_same key iv ctr input : bytes_ok key -> bytes_ok iv ->
  Aes256.aes256_ctr_crypt (Aes256.aes256_key_expand key) iv ctr input = AesGcm.aes256_ctr_crypt key iv ctr input.
Proof.
  intros Hk Hiv. unfold Aes256.aes256_ctr_crypt, AesGcm.aes256_ctr_crypt.
  rewrite ctr_loop_ref', ctr_loop_ref. apply ctr_ref_ext. intros c.
  rewrite counter_same, key_expand_same by done. by apply block_same, counter_ok.
Qed.

End AesEquiv.
