(* ===== verification/GhashEquiv.v ===== *)
(** * GHASH on 64-bit halves and GHASH on bytes

    [rep] relates the byte array of drivers/cortexcrypto/core/aes256.c to the pair
    of words of crypto/aes_gcm.c; every step of the multiplication preserves it. *)

From S2P Require Import Prelude Bytes AesGcm Aes256 AesProof AesEquiv.
Import Bytes AesProof AesEquiv.

Module GhashEquiv.

(** ** Bits of the big-endian load *)

Lemma load_bits y off n k : bytes_ok y -> (n <= 8)%nat -> 0 <= k ->
  Z.testbit (foldl (fun h i => Z.lor (shl64 h 8) (at_ y (off + i))) 0 (seq 0 n)) k =
  (k <? 8 * Z.of_nat n) && Z.testbit (at_ y (off + (n - 1 - Z.to_nat (k / 8)))) (k mod 8).
Proof.
  intros Hy. revert k. induction n as [|n IH]; intros k Hn Hk.
  { cbn [seq foldl]. rewrite Z.bits_0, (proj2 (Z.ltb_ge _ _)) by lia. done. }
  rewrite seq_S, foldl_app. cbn [foldl]. rewrite Z.lor_spec, shl64_bit by lia.
  pose proof (at_ok y (off + (0 + n)) Hy) as Hb.
  destruct (Z.lt_ge_cases k 8) as [H8|H8].
  - rewrite (Z.testbit_neg_r _ (k - 8)), andb_false_r by lia. simpl orb.
    rewrite (proj2 (Z.ltb_lt _ _)) by lia. simpl andb.
    rewrite Z.div_small, Z.mod_small by lia. do 2 f_equal. lia.
  - rewrite (testbit_high (at_ y _) 8), orb_false_r by (exact Hb || lia). rewrite IH by lia.
    destruct (Z.ltb_spec k (8 * Z.of_nat (S n))), (Z.ltb_spec (k - 8) (8 * Z.of_nat n)); cbn [andb];
      rewrite ?andb_false_r; try (exfalso; lia); [|done].
    rewrite (proj2 (Z.ltb_lt _ _)) by lia. simpl andb. f_equal; [f_equal; zdm | zdm].
Qed.

Lemma load64_bit y off k : bytes_ok y -> 0 <= k < 64 ->
  Z.testbit (AesGcm.load64 y off) k = Z.testbit (at_ y (off + (7 - Z.to_nat (k / 8)))) (k mod 8).
Proof.
  intros Hy Hk. unfold AesGcm.load64. rewrite load_bits by (done || lia).
  rewrite (proj2 (Z.ltb_lt _ _)) by lia. done.
Qed.

Lemma load64_high y off k : bytes_ok y -> 64 <= k -> Z.testbit (AesGcm.load64 y off) k = false.
Proof.
  intros Hy Hk. unfold AesGcm.load64. rewrite load_bits by (done || lia).
  by rewrite (proj2 (Z.ltb_ge _ _)) by lia.
Qed.

(** Equality with a 64-bit load, bit by bit. *)
Lemma load64_ext y off x : bytes_ok y ->
  (forall k, 64 <= k -> Z.testbit x k = false) ->
  (forall k, 0 <= k < 64 -> Z.testbit (at_ y (off + (7 - Z.to_nat (k / 8)))) (k mod 8) = Z.testbit x k) ->
  AesGcm.load64 y off = x.
Proof.
  intros Hy Hhi Hlo. apply Z.bits_inj'. intros k Hk. destruct (Z.lt_ge_cases k 64).
  - rewrite load64_bit by (done || lia). apply Hlo. lia.
  - rewrite load64_high, Hhi by done. done.
Qed.

(** ** Exclusive or *)

Lemma at_xor a b i : length a = length b -> (i < length a)%nat ->
  at_ (xor_bytes a b) i = Z.lxor (at_ a i) (at_ b i).
Proof.
  revert b i. induction a as [|x a IH]; intros [|y b] i Hl Hi; simpl in *; try lia.
  destruct i as [|i]; [done|]. apply (IH b i); lia.
Qed.

Lemma xor_bytes_ok a b : bytes_ok a -> bytes_ok b -> bytes_ok (xor_bytes a b).
Proof.
  intros Ha. revert b. induction Ha as [|x a Hx _ IH]; intros b Hb; [done|].
  destruct b as [|y b]; [by apply Forall_nil|]. apply Forall_cons in Hb as [Hy Hb].
  apply Forall_cons. split; [by apply lxor_byte | by apply IH].
Qed.

Lemma load64_xor a b off : bytes_ok a -> bytes_ok b -> length a = 16%nat -> length b = 16%nat -> (off <= 8)%nat ->
  AesGcm.load64 (xor_bytes a b) off = Z.lxor (AesGcm.load64 a off) (AesGcm.load64 b off).
Proof.
  intros Ha Hb La Lb Ho. apply load64_ext; [by apply xor_bytes_ok | |].
  - intros k Hk. by rewrite Z.lxor_spec, !load64_high.
  - intros k Hk. rewrite at_xor, !Z.lxor_spec, !load64_bit by (done || lia). done.
Qed.

Lemma xor64_bits X b off n k : (n <= 8)%nat -> 0 <= k -> bytes_ok b ->
  Z.testbit (foldl (fun X j => Z.lxor X (shl64 (at_ b (off + j)) (56 - Z.of_nat j * 8))) X (seq 0 n)) k =
  xorb (Z.testbit X k)
    ((64 - 8 * Z.of_nat n <=? k) && (k <? 64) && Z.testbit (at_ b (off + (7 - Z.to_nat (k / 8)))) (k mod 8)).
Proof.
  intros Hn Hk Hb. induction n as [|n IH].
  { cbn [seq foldl]. replace (64 - 8 * Z.of_nat 0) with 64 by lia.
    destruct (Z.leb_spec 64 k), (Z.ltb_spec k 64); cbn [andb]; try (exfalso; lia); by destruct (Z.testbit X k). }
  rewrite seq_S, foldl_app. cbn [foldl]. rewrite Z.lxor_spec, IH, shl64_bit by lia. rewrite xorb_assoc. f_equal.
  destruct (Z.ltb_spec k 64); simpl; [|by rewrite !andb_false_r].
  rewrite !andb_true_r. pose proof (at_ok b (off + n) Hb) as Hbn.
  destruct (Z.leb_spec (64 - 8 * Z.of_nat n) k); simpl.
  - rewrite (proj2 (Z.leb_le _ _)) by lia. rewrite (testbit_high (at_ b (off + n)) 8) by (apply Hbn || lia).
    by rewrite xorb_false_r.
  - destruct (Z.leb_spec (64 - 8 * Z.of_nat (S n)) k); simpl.
    + f_equal; [f_equal; f_equal; zdm | zdm].
    + by rewrite Z.testbit_neg_r by lia.
Qed.

Lemma xor64_load X b off : bytes_ok b -> AesGcm.xor64 X b off = Z.lxor X (AesGcm.load64 b off).
Proof.
  intros Hb. apply Z.bits_inj'. intros k Hk. unfold AesGcm.xor64. rewrite xor64_bits, Z.lxor_spec by (done || lia).
  f_equal. rewrite (proj2 (Z.leb_le _ _)) by lia. simpl. destruct (Z.ltb_spec k 64); simpl.
  - by rewrite load64_bit by (done || lia).
  - by rewrite load64_high.
Qed.

(** ** The shift *)

Definition carry_in (v : list Z) (c : Z) (j : nat) : Z :=
  match j with O => c | S j' => Z.land (at_ v j') 1 end.

Lemma shift1_spec v : forall c,
  length (Aes256.shift_right1 v c).1 = length v /\
  (Aes256.shift_right1 v c).2 = carry_in v c (length v) /\
  forall j, (j < length v)%nat -> at_ (Aes256.shift_right1 v c).1 j =
    Z.lor (Z.shiftr (at_ v j) 1) (u8 (Z.shiftl (carry_in v c j) 7)).
Proof.
  induction v as [|b v IH]; intros c; simpl; [split_and!; [done | done | intros; lia]|].
  destruct (IH (Z.land b 1)) as (H1 & H2 & H3). destruct (Aes256.shift_right1 v (Z.land b 1)) as [r c'].
  simpl in *. split_and!.
  - by rewrite H1.
  - rewrite H2. destruct v; done.
  - intros j Hj. destruct j as [|j]; [done|]. etrans; [apply (H3 j); lia|]. by destruct j.
Qed.

Lemma land1_bit x : Z.testbit (Z.land x 1) 0 = Z.testbit x 0.
Proof. rewrite Z.land_spec. by rewrite andb_true_r. Qed.

Lemma shifted_bit x c m : byte_ok x -> 0 <= m < 8 ->
  Z.testbit (Z.lor (Z.shiftr x 1) (u8 (Z.shiftl c 7))) m = if m =? 7 then Z.testbit c 0 else Z.testbit x (m + 1).
Proof.
  intros Hx Hm. rewrite Z.lor_spec, Z.shiftr_spec by lia. unfold u8.
  rewrite Z.mod_pow2_bits_low, Z.shiftl_spec by lia. destruct (Z.eqb_spec m 7) as [->|].
  - rewrite (testbit_high x 8) by (apply Hx || lia). done.
  - by rewrite (Z.testbit_neg_r _ (m - 7)), orb_false_r by lia.
Qed.

Lemma shifted_byte x c : byte_ok x -> byte_ok (Z.lor (Z.shiftr x 1) (u8 (Z.shiftl c 7))).
Proof.
  intros [H1 H2]. apply (lor_range _ _ 8); [lia | | apply u8_range].
  rewrite Z.shiftr_div_pow2 by lia. change (2 ^ 1) with 2. zdm.
Qed.

Lemma shift1_bytes v c : bytes_ok v -> bytes_ok (Aes256.shift_right1 v c).1.
Proof.
  intros H. revert c. induction H as [|b v Hb _ IH]; intros c; simpl; [by apply Forall_nil|].
  specialize (IH (Z.land b 1)). destruct (Aes256.shift_right1 v (Z.land b 1)). simpl in *.
  apply Forall_cons. split; [by apply shifted_byte | done].
Qed.

Section shift.
Context (v : list Z) (Hv : bytes_ok v) (Hl : length v = 16%nat).
Let v' := (Aes256.shift_right1 v 0).1.

Lemma at_shift j m : (j < 16)%nat -> 0 <= m < 8 ->
  Z.testbit (at_ v' j) m =
  if m =? 7 then match j with O => false | S j' => Z.testbit (at_ v j') 0 end else Z.testbit (at_ v j) (m + 1).
Proof.
  intros Hj Hm. destruct (shift1_spec v 0) as (_ & _ & H). unfold v'. rewrite H by lia.
  rewrite shifted_bit by (done || by apply at_ok). destruct (m =? 7); [|done].
  destruct j; [done|]. apply land1_bit.
Qed.

Lemma load_shift_hi : AesGcm.load64 v' 0 = Z.shiftr (AesGcm.load64 v 0) 1.
Proof.
  apply load64_ext; [by apply shift1_bytes | |].
  - intros k Hk. rewrite Z.shiftr_spec by lia. apply load64_high; [done | lia].
  - intros k Hk. rewrite Z.shiftr_spec, at_shift by zdm. destruct (Z.eqb_spec (k mod 8) 7) as [E|E].
    + destruct (Z.eq_dec k 63) as [->|].
      * rewrite load64_high by (done || lia). reflexivity.
      * rewrite load64_bit by (done || lia).
        replace (Z.to_nat (k / 8)) with (7 - S (7 - Z.to_nat ((k + 1) / 8)))%nat by zdm.
        replace (0 + (7 - (7 - S (7 - Z.to_nat ((k + 1) / 8)))))%nat with (S (7 - Z.to_nat ((k + 1) / 8))) by zdm.
        f_equal. zdm.
    + rewrite load64_bit by (done || zdm). f_equal; [f_equal; f_equal; zdm | zdm].
Qed.

Lemma load_shift_lo :
  AesGcm.load64 v' 8 = Z.lor (Z.shiftr (AesGcm.load64 v 8) 1) (shl64 (AesGcm.load64 v 0) 63).
Proof.
  apply load64_ext; [by apply shift1_bytes | |].
  - intros k Hk. rewrite Z.lor_spec, Z.shiftr_spec, shl64_bit, load64_high by (done || lia).
    by rewrite (proj2 (Z.ltb_ge _ _)) by lia.
  - intros k Hk. rewrite Z.lor_spec, Z.shiftr_spec, shl64_bit, at_shift by zdm.
    rewrite (proj2 (Z.ltb_lt k 64)) by lia. cbn [andb]. destruct (Z.eq_dec k 63) as [->|].
    + rewrite load64_high, (load64_bit v 0 (63 - 63)) by (done || lia). done.
    + rewrite (Z.testbit_neg_r _ (k - 63)), orb_false_r by lia. rewrite load64_bit by (done || lia).
      destruct (Z.eqb_spec (k mod 8) 7) as [E|E].
      * assert (8 + (7 - Z.to_nat (k / 8)) = S (8 + (7 - Z.to_nat ((k + 1) / 8))))%nat as -> by zdm.
        f_equal. zdm.
      * f_equal; [f_equal; f_equal; zdm | zdm].
Qed.

Lemma shift_carry : truthy (Aes256.shift_right1 v 0).2 = truthy (Z.land (AesGcm.load64 v 8) 1).
Proof.
  destruct (shift1_spec v 0) as (_ & -> & _). rewrite Hl. simpl carry_in.
  pose proof (truthy_bit (at_ v 15) 0) as H1. pose proof (truthy_bit (AesGcm.load64 v 8) 0) as H2.
  rewrite !Z.shiftr_0_r in *. rewrite H1, H2, load64_bit by (done || lia). done.
Qed.

End shift.

Lemma reduce_load v : bytes_ok v -> length v = 16%nat ->
  let w := Aes256.put v 0 (Z.lxor (at_ v 0) 0xE1) in
  bytes_ok w /\ AesGcm.load64 w 0 = Z.lxor (AesGcm.load64 v 0) 0xe100000000000000 /\
  AesGcm.load64 w 8 = AesGcm.load64 v 8.
Proof.
  intros Hv Hl w. assert (bytes_ok w) as Hw.
  { apply put_ok; [done|]. apply lxor_byte; [by apply at_ok | split; lia]. }
  assert (forall j, at_ w j = if decide (j = 0%nat) then Z.lxor (at_ v 0) 0xE1 else at_ v j) as Hat.
  { intros j. unfold w, Aes256.put. destruct v as [|x v]; [done|]. by destruct j. }
  assert (0xe100000000000000 = Z.shiftl 0xE1 56) as -> by reflexivity.
  split; [done|]. split; (apply load64_ext; [done | |]); intros k Hk.
  - rewrite Z.lxor_spec, load64_high, Z.shiftl_spec by (done || lia).
    by rewrite (testbit_high 0xE1 8) by lia.
  - rewrite Hat, Z.lxor_spec, load64_bit, Z.shiftl_spec by (done || lia).
    case_decide as Hd.
    + rewrite Z.lxor_spec. f_equal; [|f_equal; zdm]. f_equal. f_equal. lia.
    + rewrite (Z.testbit_neg_r _ (k - 56)), xorb_false_r by zdm. done.
  - by apply load64_high.
  - rewrite Hat, decide_False, load64_bit by (done || lia). done.
Qed.

(** ** Multiplication *)

Record rep (y : list Z) (X : AesGcm.u128) : Prop := {
  rep_len : length y = 16%nat;
  rep_ok : bytes_ok y;
  rep_hi : AesGcm.hi X = AesGcm.load64 y 0;
  rep_lo : AesGcm.lo X = AesGcm.load64 y 8
}.

Lemma rep_xor y X b : rep y X -> length b = 16%nat -> bytes_ok b ->
  rep (xor_bytes y b) (AesGcm.mk128 (AesGcm.xor64 (AesGcm.hi X) b 0) (AesGcm.xor64 (AesGcm.lo X) b 8)).
Proof.
  intros [L O Hh Hl] Lb Ob. split; simpl.
  - rewrite length_xor_bytes; lia.
  - by apply xor_bytes_ok.
  - by rewrite xor64_load, Hh, load64_xor by (done || lia).
  - by rewrite xor64_load, Hl, load64_xor by (done || lia).
Qed.

Lemma rep_bit y X i : rep y X -> (i < 128)%nat ->
  (if (i <? 64)%nat then truthy (Z.land (Z.shiftr (AesGcm.hi X) (63 - Z.of_nat i)) 1)
   else truthy (Z.land (Z.shiftr (AesGcm.lo X) (127 - Z.of_nat i)) 1)) =
  truthy (Z.land (Z.shiftr (at_ y (i / 8)) (7 - Z.of_nat (i mod 8))) 1).
Proof.
  intros [L O Hh Hl] Hi.
  assert (Z.of_nat (i / 8) = Z.of_nat i / 8 /\ Z.of_nat (i mod 8) = Z.of_nat i mod 8) as [Hd Hm].
  { by rewrite Nat2Z.inj_div, Nat2Z.inj_mod. }
  rewrite Hm. destruct (Nat.ltb_spec i 64); rewrite !truthy_bit by zdm; rewrite ?Hh, ?Hl, load64_bit by (done || lia);
    (f_equal; [f_equal; zdm | zdm]).
Qed.

Lemma step_rep x X z Z0 v V i : rep x X -> rep z Z0 -> rep v V -> (i < 128)%nat ->
  rep (Aes256.ghash_bit x (z, v) i).1 (AesGcm.gf128_step X (Z0, V) i).1 /\
  rep (Aes256.ghash_bit x (z, v) i).2 (AesGcm.gf128_step X (Z0, V) i).2.
Proof.
  intros Rx Rz Rv Hi. unfold Aes256.ghash_bit, AesGcm.gf128_step.
  rewrite (rep_bit x X i Rx Hi). pose proof (rep_ok _ _ Rv) as Ov. pose proof (rep_len _ _ Rv) as Lv.
  pose proof (shift_carry v Ov Lv) as Hc. pose proof (load_shift_hi v Ov Lv) as Hhi.
  pose proof (load_shift_lo v Ov Lv) as Hlo. pose proof (shift1_bytes v 0 Ov) as Os.
  destruct (shift1_spec v 0) as (Ls & _ & _). rewrite Lv in Ls.
  destruct (Aes256.shift_right1 v 0) as [v' c]. cbn [fst snd] in *.
  rewrite (rep_hi _ _ Rv), (rep_lo _ _ Rv), <- Hc, <- Hhi, <- Hlo. split.
  - destruct (truthy (Z.land (Z.shiftr (at_ x (i / 8)) _) 1)); [|done]. destruct Rz as [Lz Oz Hz1 Hz2]. split; simpl.
    + rewrite length_xor_bytes; lia.
    + by apply xor_bytes_ok.
    + by rewrite Hz1, load64_xor by (done || lia).
    + by rewrite Hz2, load64_xor by (done || lia).
  - destruct (truthy c); [|by split]. destruct (reduce_load v' Os Ls) as (H1 & H2 & H3).
    split; cbn [AesGcm.hi AesGcm.lo]; [|done|done|done]. unfold Aes256.put. by rewrite length_insert.
Qed.

Lemma fold_rep x X l : rep x X -> Forall (fun i => (i < 128)%nat) l -> forall z Z0 v V, rep z Z0 -> rep v V ->
  rep (foldl (Aes256.ghash_bit x) (z, v) l).1 (foldl (AesGcm.gf128_step X) (Z0, V) l).1.
Proof.
  intros Rx. induction 1 as [|i l Hi _ IH]; intros z Z0 v V Rz Rv; [done|].
  cbn [foldl]. destruct (step_rep x X z Z0 v V i Rx Rz Rv Hi) as [H1 H2].
  rewrite (surjective_pairing (Aes256.ghash_bit x (z, v) i)), (surjective_pairing (AesGcm.gf128_step X (Z0, V) i)).
  by apply IH.
Qed.

Lemma rep_zero : rep (replicate 16 0) (AesGcm.mk128 0 0).
Proof. split; [done | apply bytes_ok_dec; reflexivity | reflexivity | reflexivity]. Qed.

(** One block: [y = (y ^ x) * H]. *)
Lemma block_rep y X b h H : rep y X -> length b = 16%nat -> bytes_ok b -> rep h H ->
  rep (Aes256.ghash_block y b h)
    (AesGcm.gf128_mul (AesGcm.mk128 (AesGcm.xor64 (AesGcm.hi X) b 0) (AesGcm.xor64 (AesGcm.lo X) b 8)) H).
Proof.
  intros Ry Lb Ob Rh. unfold Aes256.ghash_block, AesGcm.gf128_mul. apply fold_rep; [by apply rep_xor | | apply rep_zero | done].
  apply Forall_forall. intros i Hi. apply elem_of_seq in Hi. lia.
Qed.

(** ** Whole inputs *)

Lemma padded_ok data i : bytes_ok data -> length (AesGcm.padded_block data i) = 16%nat /\ bytes_ok (AesGcm.padded_block data i).
Proof.
  intros Hd. unfold AesGcm.padded_block. set (c := Z.to_nat _).
  assert (c <= 16)%nat by (unfold c, MIN; casei; b2p; lia).
  assert (length (take c (drop (i * 16) data)) <= 16)%nat by (rewrite length_take; lia).
  split; [rewrite length_splice; rewrite length_replicate; lia|]. unfold splice.
  apply Forall_app. split; [apply Forall_nil; done|]. apply Forall_app. split; [by apply Forall_take, Forall_drop|].
  apply Forall_drop, Forall_replicate. split; lia.
Qed.

Lemma data_rep h H data fuel : rep h H -> bytes_ok data -> Z.of_nat (length data) <= 2 ^ 32 - 16 ->
  forall c y X, rep y X -> (length data <= 16 * (c + fuel))%nat ->
  rep (Aes256.ghash_loop h data y (16 * Z.of_nat c) fuel)
    (foldl (AesGcm.ghash_step H data) X (seq c ((length data + 15) / 16 - c))).
Proof.
  intros Rh Hd Hlen. induction fuel as [|f IH]; intros c y X Ry Hf; cbn [Aes256.ghash_loop].
  { replace ((length data + 15) / 16 - c)%nat with 0%nat; [done|].
    assert ((length data + 15) / 16 < S c)%nat by (apply Nat.Div0.div_lt_upper_bound; lia). lia. }
  destruct (Z.ltb_spec (16 * Z.of_nat c) (Z.of_nat (length data))) as [Hlt|Hge].
  - assert (c < (length data + 15) / 16)%nat as Hc by (apply Nat.div_le_lower_bound; lia).
    replace ((length data + 15) / 16 - c)%nat with (S ((length data + 15) / 16 - S c)) by lia.
    cbn [seq foldl]. rewrite u32_small by lia.
    replace (u32 (16 * Z.of_nat c + 16)) with (16 * Z.of_nat (S c)) by (rewrite u32_small; lia).
    apply IH; [|lia]. replace (splice _ _ _) with (AesGcm.padded_block data c).
    + unfold AesGcm.ghash_step. destruct (padded_ok data c Hd). by apply block_rep.
    + unfold AesGcm.padded_block. rewrite u64_small by lia.
      replace (Z.to_nat (16 * Z.of_nat c)) with (c * 16)%nat by lia. by rewrite (Z.mul_comm (Z.of_nat c)).
  - replace ((length data + 15) / 16 - c)%nat with 0%nat; [done|].
    assert ((length data + 15) / 16 < S c)%nat by (apply Nat.Div0.div_lt_upper_bound; lia). lia.
Qed.

Lemma data_rep' h H data y X : rep h H -> bytes_ok data -> Z.of_nat (length data) <= 2 ^ 32 - 16 -> rep y X ->
  rep (Aes256.ghash_loop h data y 0 (length data)) (AesGcm.ghash_data H data X).
Proof.
  intros Rh Hd Hlen Ry. unfold AesGcm.ghash_data. rewrite u64_small by lia.
  replace (Z.to_nat ((Z.of_nat (length data) + 15) / 16)) with ((length data + 15) / 16 - 0)%nat.
  - apply (data_rep h H data (length data) Rh Hd Hlen 0); [done | lia].
  - rewrite Nat.sub_0_r, <- (Nat2Z.id ((length data + 15) / 16)), Nat2Z.inj_div, Nat2Z.inj_add. done.
Qed.

(** ** Stores *)

Lemma store_load y off i : bytes_ok y -> (i < 8)%nat ->
  AesGcm.wbyte (AesGcm.load64 y off) (56 - Z.of_nat i * 8) = at_ y (off + i).
Proof.
  intros Hy Hi. apply Z.bits_inj'. intros k Hk. pose proof (at_ok y (off + i) Hy) as Hb.
  destruct (Z.lt_ge_cases k 8).
  - rewrite wbyte_bit, load64_bit by (done || lia). f_equal; [f_equal; zdm | zdm].
  - rewrite (testbit_high (at_ _ _) 8), (testbit_high (AesGcm.wbyte _ _) 8) by (apply Hb || apply wbyte_ok || lia). done.
Qed.

Lemma store_rep y X : rep y X -> AesGcm.store64 (AesGcm.hi X) ++ AesGcm.store64 (AesGcm.lo X) = y.
Proof.
  intros [L O Hh Hl]. rewrite Hh, Hl. apply at_ext; [by rewrite L|]. change (length (_ ++ _)) with 16%nat.
  intros i Hi. assert (forall j, (j < 8)%nat -> at_ (AesGcm.store64 (AesGcm.load64 y 0) ++ AesGcm.store64 (AesGcm.load64 y 8)) j = at_ y j
    /\ at_ (AesGcm.store64 (AesGcm.load64 y 0) ++ AesGcm.store64 (AesGcm.load64 y 8)) (8 + j) = at_ y (8 + j)) as H.
  { intros j Hj. pose proof (store_load y 0 j O Hj) as E0. pose proof (store_load y 8 j O Hj) as E8.
    change (0 + j)%nat with j in E0. rewrite <- E8. split; [etrans; [|exact E0]|];
      (do 8 (destruct j as [|j]; [reflexivity|]); lia). }
  destruct (decide (i < 8)%nat); [by apply H|]. replace i with (8 + (i - 8))%nat by lia. apply H. lia.
Qed.

Lemma load_store x off l : 0 <= x < 2 ^ 64 -> bytes_ok l -> (forall i, (i < 8)%nat -> at_ l (off + i) = AesGcm.wbyte x (56 - Z.of_nat i * 8)) ->
  AesGcm.load64 l off = x.
Proof.
  intros Hx Hl Hat. apply load64_ext; [done | |].
  - intros k Hk. by apply (testbit_high x 64); [|lia|lia].
  - intros k Hk. rewrite Hat, wbyte_bit by zdm. f_equal. zdm.
Qed.

Lemma len_block_spec a c : Aes256.len_block a c = AesGcm.store64 (u64 (a * 8)) ++ AesGcm.store64 (u64 (c * 8)).
Proof.
  unfold Aes256.len_block, AesGcm.store64. generalize (u64 (a * 8)) (u64 (c * 8)). intros x y.
  cbn [foldl Aes256.len_byte fst seq map app Aes256.put]. unfold AesGcm.wbyte.
  rewrite !Z.shiftr_shiftr by lia. reflexivity.
Qed.

Lemma store64_ok x : bytes_ok (AesGcm.store64 x).
Proof. apply Forall_forall. intros b (i & -> & _)%list_elem_of_fmap. apply wbyte_ok. Qed.

Lemma len_block_load a c :
  length (Aes256.len_block a c) = 16%nat /\ bytes_ok (Aes256.len_block a c) /\
  AesGcm.load64 (Aes256.len_block a c) 0 = u64 (a * 8) /\ AesGcm.load64 (Aes256.len_block a c) 8 = u64 (c * 8).
Proof.
  rewrite len_block_spec. assert (bytes_ok (AesGcm.store64 (u64 (a * 8)) ++ AesGcm.store64 (u64 (c * 8)))) as Hb.
  { apply Forall_app. split; apply store64_ok. }
  split_and!; [done | done | |]; apply load_store; auto using u64_range;
    intros i Hi; do 8 (destruct i as [|i]; [reflexivity|]); lia.
Qed.

Lemma ghash_same h aad ct : length h = 16%nat -> bytes_ok h -> bytes_ok aad -> bytes_ok ct ->
  Z.of_nat (length aad) <= 2 ^ 32 - 16 -> Z.of_nat (length ct) <= 2 ^ 32 - 16 ->
  Aes256.ghash h aad ct = AesGcm.ghash h aad ct.
Proof.
  intros Lh Oh Oa Oc Ha Hc. unfold AesGcm.ghash. cbv zeta. set (H := AesGcm.mk128 (AesGcm.load64 h 0) (AesGcm.load64 h 8)).
  assert (rep h H) as Rh by (split; [exact Lh | exact Oh | reflexivity | reflexivity]). symmetry. apply store_rep. unfold Aes256.ghash.
  destruct (len_block_load (Z.of_nat (length aad)) (Z.of_nat (length ct))) as (L1 & L2 & L3 & L4).
  rewrite <- L3, <- L4, <- !xor64_load by done. apply block_rep; [|done|done|done].
  apply data_rep'; [done | done | done |]. apply data_rep'; [done | done | done | apply rep_zero].
Qed.

(** ** The AEAD *)

Section aead.
Context (key iv aad : list Z).
Context (Hkey : bytes_ok key) (Hiv : bytes_ok iv) (Liv : length iv = 12%nat) (Haad : bytes_ok aad).
Context (Laad : Z.of_nat (length aad) <= 2 ^ 32 - 16).

Lemma encrypt_block_same inp : bytes_ok inp ->
  Aes256.aes256_block_encrypt (Aes256.aes256_key_expand key) inp = AesGcm.aes256_encrypt_block key inp /\
  bytes_ok (AesGcm.aes256_encrypt_block key inp).
Proof.
  intros Hi. rewrite key_expand_same, encrypt_block_rk by done.
  destruct (block_same (AesGcm.aes256_key_expand key) inp Hi) as [H1 H2]. split; [exact H2 | exact H1].
Qed.

Lemma tag_same ct : bytes_ok ct -> Z.of_nat (length ct) <= 2 ^ 32 - 16 ->
  Aes256.gcm_tag (Aes256.aes256_key_expand key) iv aad ct = AesGcm.gcm_tag key iv aad ct.
Proof.
  intros Hct Lct. unfold Aes256.gcm_tag, AesGcm.gcm_tag.
  destruct (encrypt_block_same (replicate 16 0)) as [-> O1]; [apply bytes_ok_dec; reflexivity|].
  destruct (encrypt_block_same (AesGcm.J0 iv)) as [E _].
  { apply Forall_app. split; [by apply Forall_take | apply bytes_ok_dec; reflexivity]. }
  change (Aes256.j0 iv) with (AesGcm.J0 iv). rewrite E.
  rewrite ghash_same; [reflexivity | by apply length_encrypt_block | assumption ..].
Qed.

Lemma ctr_bytes ctr input : bytes_ok input -> bytes_ok (AesGcm.aes256_ctr_crypt key iv ctr input).
Proof.
  unfold AesGcm.aes256_ctr_crypt. generalize (length input). intros fuel.
  revert ctr input. induction fuel as [|f IH]; intros ctr input Hi; [by apply Forall_nil|].
  cbn [AesGcm.ctr_loop]. destruct input as [|x l]; [by apply Forall_nil|].
  apply Forall_app. split; [|apply IH; by apply Forall_drop].
  apply xor_bytes_ok; apply Forall_take; [done|]. by apply encrypt_block_same, counter_ok.
Qed.

End aead.

(** ** Theorems *)

Lemma seal_same key iv aad pt :
  bytes_ok key -> bytes_ok iv -> length iv = 12%nat -> bytes_ok aad -> bytes_ok pt ->
  Z.of_nat (length aad) <= 2 ^ 32 - 16 -> Z.of_nat (length pt) <= 2 ^ 32 - 16 ->
  Aes256.aes256gcm_encrypt key iv pt (Some aad) = AesGcm.aes256_gcm_encrypt key iv aad pt.
Proof.
  intros Hk Hiv Liv Ha Hp La Lp. unfold Aes256.aes256gcm_encrypt, AesGcm.aes256_gcm_encrypt. cbn [default from_option id].
  rewrite ctr_same by done. f_equal. apply tag_same; try assumption.
  - by apply ctr_bytes.
  - destruct (ctr_involutive key iv 2 pt) as [_ ->]; lia.
Qed.

(** (C29) The kernel's and CortexCrypto's AES-256-GCM agree: for every key, nonce,
    associated data and message of bytes up to 2^32 - 16 long, they produce the
    same ciphertext and tag. *)
Theorem aes_gcm_implementations_agree key iv aad pt :
  bytes_ok key -> bytes_ok iv -> length iv = 12%nat -> bytes_ok aad -> bytes_ok pt ->
  Z.of_nat (length aad) <= 2 ^ 32 - 16 -> Z.of_nat (length pt) <= 2 ^ 32 - 16 ->
  Aes256.aes256gcm_encrypt key iv pt (Some aad) = AesGcm.aes256_gcm_encrypt key iv aad pt.
Proof. apply seal_same. Qed.

Lemma aes_gcm_implementations_agree_witness :
  Aes256.aes256gcm_encrypt (replicate 32 7) (replicate 12 9) [1; 2; 3] (Some [4; 5]) =
  AesGcm.aes256_gcm_encrypt (replicate 32 7) (replicate 12 9) [4; 5] [1; 2; 3].
Proof.
  apply (aes_gcm_implementations_agree (replicate 32 7) (replicate 12 9) [4; 5] [1; 2; 3]);
    try (apply bytes_ok_dec; reflexivity); [reflexivity | simpl; lia | simpl; lia].
Defined.

Lemma tag_diff_same a b : Aes256.tag_diff a b = AesGcm.tag_diff a b.
Proof. unfold Aes256.tag_diff, AesGcm.tag_diff. reflexivity. Qed.

#[local] Opaque AesGcm.aes256_ctr_crypt AesGcm.gcm_tag Aes256.tag_diff AesGcm.tag_diff.

(** CortexCrypto's AEAD, with its own error code. *)
Lemma open_same key iv aad ct tag :
  bytes_ok key -> bytes_ok iv -> length iv = 12%nat -> bytes_ok aad -> bytes_ok ct ->
  Z.of_nat (length aad) <= 2 ^ 32 - 16 -> Z.of_nat (length ct) <= 2 ^ 32 - 16 ->
  Aes256.aes256gcm_decrypt key iv ct tag (Some aad) =
  match AesGcm.aes256_gcm_decrypt key iv aad ct tag with inl _ => inl (-1) | inr pt => inr pt end.
Proof.
  intros Hk Hiv Liv Ha Hc La Lc. unfold Aes256.aes256gcm_decrypt, AesGcm.aes256_gcm_decrypt. cbn [default from_option id].
  rewrite tag_same, ctr_same by assumption. generalize (AesGcm.gcm_tag key iv aad ct). intros t.
  rewrite (tag_diff_same t tag). by destruct (truthy (AesGcm.tag_diff t tag)).
Qed.

(** CortexCrypto opens exactly what either implementation seals: decryption
    of a ciphertext under the tag computed for it returns the plaintext, and under
    any other 16-byte tag fails with -1 and no plaintext. *)
Theorem cortexcrypto_opens key iv aad pt tag :
  bytes_ok key -> bytes_ok iv -> length iv = 12%nat -> bytes_ok aad -> bytes_ok pt ->
  Z.of_nat (length aad) <= 2 ^ 32 - 16 -> Z.of_nat (length pt) <= 2 ^ 32 - 16 -> length tag = 16%nat ->
  let (ct, good) := AesGcm.aes256_gcm_encrypt key iv aad pt in
  Aes256.aes256gcm_decrypt key iv ct tag (Some aad) = if decide (tag = good) then inr pt else inl (-1).
Proof.
  intros Hk Hiv Liv Ha Hp La Lp Lt.
  pose proof (open_seal key iv aad pt Liv) as Ho. destruct (seal_spec key iv aad pt Liv) as [Ls Ht].
  pose proof (open_tag key iv aad (seal key iv aad pt).1 tag Liv Lt) as Hi. simpl in Ho, Ls, Ht, Hi.
  unfold AesGcm.aes256_gcm_encrypt in *. cbn [fst snd] in *.
  set (ct := AesGcm.aes256_ctr_crypt key iv 2 pt) in *.
  rewrite open_same; try assumption; [|by apply ctr_bytes | rewrite Ls; lia].
  case_decide as Hd; [by rewrite Hd, Ho|]. destruct (AesGcm.aes256_gcm_decrypt key iv aad ct tag) as [e|p] eqn:E; [done|].
  destruct Hd. apply Hi. eauto.
Qed.

Lemma cortexcrypto_opens_witness :
  let (ct, good) := AesGcm.aes256_gcm_encrypt (replicate 32 7) (replicate 12 9) [4; 5] [1; 2; 3] in
  Aes256.aes256gcm_decrypt (replicate 32 7) (replicate 12 9) ct (replicate 16 0) (Some [4; 5]) =
  if decide (replicate 16 0 = good) then inr [1; 2; 3] else inl (-1).
Proof.
  apply (cortexcrypto_opens (replicate 32 7) (replicate 12 9) [4; 5] [1; 2; 3] (replicate 16 0));
    try (apply bytes_ok_dec; reflexivity); try reflexivity; simpl; lia.
Defined.

End GhashEquiv.
