(* ===== verification/Glue.v ===== *)
(** * kernel/glue.c: the names of the cryptography

    The aliases under which the resource manager would find CortexCrypto's AES-256-GCM.  The
    file is not in the Makefile's list, where crypto/aes_gcm.c has the same names; the two can
    be exchanged but for the error code of a refused tag.  [sha256] there calls a function no
    source defines, so it is left out; the interrupt table is in Hal, the fingerprint in Vfs. *)

From S2P Require Import Prelude Bytes AesGcm Aes256 AesProof AesEquiv GhashEquiv.
Import Bytes AesEquiv GhashEquiv.

Module Glue.

(** The ciphertext and the tag; the function returns nothing. *)
Definition aes256_gcm_encrypt (key iv aad pt : list Z) : list Z * list Z := Aes256.aes256gcm_encrypt key iv pt (Some aad).
Definition aes256_gcm_decrypt (key iv aad ct tag : list Z) : Z + list Z := Aes256.aes256gcm_decrypt key iv ct tag (Some aad).

(** The aliases are the functions of crypto/aes_gcm.c, but that a refused tag is -1 instead
    of -EBADMSG; in particular what either seals, the other opens. *)
Theorem glue_aliases key iv aad pt ct tag :
  bytes_ok key -> bytes_ok iv -> length iv = 12%nat -> bytes_ok aad -> bytes_ok pt -> bytes_ok ct ->
  Z.of_nat (length aad) <= 2 ^ 32 - 16 -> Z.of_nat (length pt) <= 2 ^ 32 - 16 -> Z.of_nat (length ct) <= 2 ^ 32 - 16 ->
  aes256_gcm_encrypt key iv aad pt = AesGcm.aes256_gcm_encrypt key iv aad pt /\
  aes256_gcm_decrypt key iv aad ct tag =
    match AesGcm.aes256_gcm_decrypt key iv aad ct tag with inl _ => inl (-1) | inr pt => inr pt end.
Proof. intros. split; [by apply seal_same | by apply open_same]. Qed.

End Glue.
