(* ===== verification/Locks.v ===== *)
(** * include/nekros/types.h: spin locks and read-write locks

    The locks are step relations over any number of threads that interleave: every
    atomic access of the source is one step, taken in program order.  [spin_lock] is the
    fetch-and-add that takes a ticket and then the loop on [owner]; [spin_trylock] is two loads
    and a compare-and-swap; the ticket lock refines an abstract queue of threads. *)

From S2P Require Import Prelude.

Module Locks.

(** ** The ticket lock *)

Record spinlock_t := mk_lock { owner : Z; next : Z }.
Definition SPINLOCK_INIT : spinlock_t := mk_lock 0 0.

(** [__atomic_fetch_add(&l->next, 1)]: the ticket and the lock after it. *)
Definition take_ticket (l : spinlock_t) : Z * spinlock_t := (next l, mk_lock (owner l) (u16 (next l + 1))).
(** The exit test of the loop in [spin_lock], and the test [t != o] of [spin_trylock]. *)
Definition served (l : spinlock_t) (ticket : Z) : bool := owner l =? ticket.
Definition spin_unlock (l : spinlock_t) : spinlock_t := mk_lock (u16 (owner l + 1)) (next l).
(** The compare-and-swap at the end of [spin_trylock]: what it returns, and the lock. *)
Definition try_swap (l : spinlock_t) (t : Z) : bool * spinlock_t :=
  if next l =? t then (true, mk_lock (owner l) (u16 (t + 1))) else (false, l).

(** A thread outside, in [spin_trylock] after the first load and after the second,
    spinning with its ticket, or in the critical section.  The second number of the two
    states of [spin_trylock] is not in the code: how many tickets had been drawn at the first load. *)
Inductive pc := Idle | Loaded (t seen : Z) | Matched (t seen : Z) | Wait (ticket : Z) | Crit.
Definition outside (p : pc) : bool := match p with Idle | Loaded _ _ | Matched _ _ => true | Wait _ | Crit => false end.

(** [drawn], which the code does not keep, counts the tickets without wrapping around. *)
Record config := mk_config { lock : spinlock_t; drawn : Z; threads : list pc }.

(** The swap of [spin_trylock] succeeds in time when fewer than [2 ^ 16] tickets were drawn
    since its first load; [strict] restricts the runs to those. *)
Inductive step (strict : bool) : config -> config -> Prop :=
| step_ticket l d ts i :
    ts !! i = Some Idle -> step strict (mk_config l d ts) (mk_config (take_ticket l).2 (d + 1) (<[i := Wait (take_ticket l).1]> ts))
| step_spin l d ts i t :
    ts !! i = Some (Wait t) -> served l t = false -> step strict (mk_config l d ts) (mk_config l d ts)
| step_enter l d ts i t :
    ts !! i = Some (Wait t) -> served l t = true -> step strict (mk_config l d ts) (mk_config l d (<[i := Crit]> ts))
| step_leave l d ts i :
    ts !! i = Some Crit -> step strict (mk_config l d ts) (mk_config (spin_unlock l) d (<[i := Idle]> ts))
| step_try l d ts i :
    ts !! i = Some Idle -> step strict (mk_config l d ts) (mk_config l d (<[i := Loaded (next l) d]> ts))
| step_match l d ts i t n :
    ts !! i = Some (Loaded t n) -> step strict (mk_config l d ts) (mk_config l d (<[i := if served l t then Matched t n else Idle]> ts))
| step_swap l d ts i t n :
    ts !! i = Some (Matched t n) -> (try_swap l t).1 = true -> (strict = true -> d - n < 2 ^ 16) ->
    step strict (mk_config l d ts) (mk_config (try_swap l t).2 (d + 1) (<[i := Crit]> ts))
| step_lost l d ts i t n :
    ts !! i = Some (Matched t n) -> (try_swap l t).1 = false -> step strict (mk_config l d ts) (mk_config l d (<[i := Idle]> ts)).

Inductive reachable (strict : bool) (n : nat) : config -> Prop :=
| r_init : reachable strict n (mk_config SPINLOCK_INIT 0 (replicate n Idle))
| r_step c c' : reachable strict n c -> step strict c c' -> reachable strict n c'.

(** The abstract lock: threads in the order they asked, and whether the first one is in. *)
Definition alock : Type := list nat * bool.
Inductive astep : alock -> alock -> Prop :=
| a_ask q b i : i ∉ q -> astep (q, b) (q ++ [i], b)
| a_enter i q : astep (i :: q, false) (i :: q, true)
| a_leave i q : astep (i :: q, true) (q, false)
| a_try i : astep ([], false) ([i], true).

(** [O] tickets have been served; the thread at place [j] holds ticket [O + j].  A thread in
    [spin_trylock] that saw the counters equal saw a free lock, unless tickets were drawn since. *)
Record lock_inv (c : config) (O : Z) (a : alock) : Prop := {
  li_drawn : drawn c = O + Z.of_nat (length a.1);
  li_owner : owner (lock c) = O mod 2 ^ 16;
  li_next : next (lock c) = drawn c mod 2 ^ 16;
  li_nodup : NoDup a.1;
  li_short : Z.of_nat (length a.1) <= 2 ^ 16;
  li_queue : forall j i, a.1 !! j = Some i ->
    threads c !! i = Some (if bool_decide (j = 0%nat) && a.2 then Crit else Wait ((O + Z.of_nat j) mod 2 ^ 16));
  li_busy : forall i p, threads c !! i = Some p -> outside p = false -> i ∈ a.1;
  li_loaded : forall i t n, threads c !! i = Some (Loaded t n) -> t = n mod 2 ^ 16 /\ n <= drawn c;
  li_matched : forall i t n, threads c !! i = Some (Matched t n) -> t = n mod 2 ^ 16 /\ n <= drawn c /\ (drawn c = n -> O = n);
  li_in : a.2 = true -> a.1 <> []
}.

Lemma queue_index (a : list nat) (i : nat) : i ∈ a -> exists j, a !! j = Some i.
Proof. apply list_elem_of_lookup_1. Qed.

Lemma queue_bounded (ts : list pc) q : NoDup q -> (forall i, i ∈ q -> is_Some (ts !! i)) -> (length q <= length ts)%nat.
Proof.
  intros Hnd Hin. rewrite <- (length_seq (length ts) 0). apply submseteq_length, NoDup_submseteq; [done|].
  intros i Hi. apply elem_of_seq. apply Hin, lookup_lt_is_Some in Hi. lia.
Qed.

(** Reading the thread list after one thread has moved. *)
Lemma moved (ts : list pc) i p k x : <[i := p]> ts !! k = Some x -> (k = i /\ x = p) \/ (k <> i /\ ts !! k = Some x).
Proof.
  destruct (decide (k = i)) as [->|Hne]; [|rewrite list_lookup_insert_ne by done; by right].
  intros H. left. destruct (decide (i < length ts)%nat).
  - rewrite list_lookup_insert_eq in H by done. by injection H.
  - rewrite list_insert_ge in H by lia. apply lookup_lt_Some in H. lia.
Qed.

Section inv.
Context (l : spinlock_t) (d : Z) (ts : list pc) (O : Z) (q : list nat) (b : bool) (H : lock_inv (mk_config l d ts) O (q, b)).

Lemma out_of_queue i p : ts !! i = Some p -> outside p = true -> i ∉ q.
Proof.
  intros Hi Hp [j Hj]%queue_index. pose proof (li_queue _ _ _ H j i Hj) as E. simpl in E. rewrite Hi in E. injection E as ->.
  by destruct (bool_decide (j = 0%nat) && b).
Qed.

(** A thread outside the queue leaves room in it for one more. *)
Lemma queue_room i p : ts !! i = Some p -> outside p = true -> Z.of_nat (length ts) <= 2 ^ 16 ->
  NoDup (q ++ [i]) /\ Z.of_nat (length (q ++ [i])) <= 2 ^ 16.
Proof.
  intros Hi Hp Hn. pose proof (out_of_queue i p Hi Hp) as Hni.
  assert (NoDup (q ++ [i])) as Hnd.
  { apply NoDup_app. split; [apply (li_nodup _ _ _ H)|]. split; [|apply NoDup_singleton]. intros x Hx ->%list_elem_of_singleton. done. }
  split; [done|]. etrans; [|exact Hn]. apply inj_le, queue_bounded; [done|].
  intros x [Hx|Hx]%elem_of_app.
  - apply queue_index in Hx as [j Hj]. pose proof (li_queue _ _ _ H j x Hj) as E. simpl in E. rewrite E. eauto.
  - apply list_elem_of_singleton in Hx as ->. eauto.
Qed.

(** A move that stays outside the queue. *)
Lemma inv_outside i p p' : ts !! i = Some p -> outside p = true -> outside p' = true ->
  (forall t n, p' = Loaded t n -> t = n mod 2 ^ 16 /\ n <= d) ->
  (forall t n, p' = Matched t n -> t = n mod 2 ^ 16 /\ n <= d /\ (d = n -> O = n)) ->
  lock_inv (mk_config l d (<[i := p']> ts)) O (q, b).
Proof.
  intros Hi Hp Hp' HL HM. pose proof (out_of_queue i p Hi Hp) as Hni. destruct H as [Hd Ho Hx Hnd Hs Hq Hb Hl Hm Hin]. simpl in *.
  split; simpl; try done.
  - intros j k Hj. rewrite list_lookup_insert_ne; [by apply Hq|]. intros <-. apply Hni. by eapply list_elem_of_lookup_2.
  - intros k x [[-> ->]|[Hne Hk]]%moved; [congruence | by apply Hb].
  - intros k t n [[-> E]|[Hne Hk]]%moved; [by apply HL | by eapply Hl].
  - intros k t n [[-> E]|[Hne Hk]]%moved; [by apply HM | by eapply Hm].
Qed.

Lemma inv_ticket i : Z.of_nat (length ts) <= 2 ^ 16 -> ts !! i = Some Idle ->
  lock_inv (mk_config (take_ticket l).2 (d + 1) (<[i := Wait (take_ticket l).1]> ts)) O (q ++ [i], b) /\ astep (q, b) (q ++ [i], b).
Proof.
  intros Hn Hi. pose proof (out_of_queue i _ Hi eq_refl) as Hni. destruct (queue_room i _ Hi eq_refl Hn) as [Hnd' Hs'].
  destruct H as [Hd Ho Hx Hnd Hs Hq Hb Hl Hm Hin]. simpl in *.
  assert (i < length ts)%nat as Hlt by by eapply lookup_lt_Some.
  split; [split; simpl; try done|by constructor].
  - rewrite length_app. simpl. lia.
  - unfold u16. by rewrite Hx, Zplus_mod_idemp_l.
  - intros j k Hj. apply lookup_app_Some in Hj as [Hj|[Hj1 Hj2]].
    + assert (k <> i) by (intros ->; apply Hni; by eapply list_elem_of_lookup_2).
      rewrite list_lookup_insert_ne by done. by apply Hq.
    + apply list_lookup_singleton_Some in Hj2 as [Hj2 <-]. rewrite list_lookup_insert_eq by done.
      assert (j = length q) as -> by lia. rewrite Hx, Hd.
      destruct q as [|x q']; simpl; [|done]. destruct b; [by destruct Hin | done].
  - intros k p. rewrite elem_of_app, list_elem_of_singleton. intros [[-> _]|[Hne Hk]]%moved; [by right|]. left. by eapply Hb.
  - intros k t n [[_ E]|[_ Hk]]%moved; [done|]. destruct (Hl k t n Hk). split; [done | lia].
  - intros k t n [[_ E]|[_ Hk]]%moved; [done|]. destruct (Hm k t n Hk) as (? & ? & ?). split; [done | split; lia].
  - intros Hb' Hnil. by destruct q.
Qed.

Lemma inv_enter i t : ts !! i = Some (Wait t) -> served l t = true ->
  exists q', q = i :: q' /\ b = false /\ lock_inv (mk_config l d (<[i := Crit]> ts)) O (q, true).
Proof.
  intros Hi Hs. destruct H as [Hd Ho Hx Hnd Hsh Hq Hb Hl Hm Hin]. simpl in *.
  destruct (queue_index q i (Hb i _ Hi eq_refl)) as [j Hj]. pose proof (Hq j i Hj) as Hj'. rewrite Hi in Hj'.
  destruct (bool_decide (j = 0%nat) && b) eqn:E; [done|]. injection Hj' as Et.
  unfold served in Hs. apply Z.eqb_eq in Hs. apply lookup_lt_Some in Hj as Hjl.
  assert (j = 0%nat) as -> by (rewrite Ho, Et in Hs; zdm). rewrite bool_decide_true in E by done. simpl in E. subst b.
  destruct q as [|x q']; [done|]. injection Hj as ->. exists q'. split; [done|]. split; [done|].
  assert (i < length ts)%nat as Hlt by by eapply lookup_lt_Some.
  split; simpl; try done.
  - intros j k Hj. destruct j as [|j]; simpl in *.
    + injection Hj as ->. by rewrite list_lookup_insert_eq.
    + apply NoDup_cons in Hnd as [Hni _]. assert (k <> i) by (intros ->; apply Hni; by eapply list_elem_of_lookup_2).
      rewrite list_lookup_insert_ne by done. exact (Hq (S j) k Hj).
  - intros k p [[-> _]|[_ Hk]]%moved; [intros _; apply list_elem_of_here | by apply Hb].
  - intros k u n [[_ E]|[_ Hk]]%moved; [done | by eapply Hl].
  - intros k u n [[_ E]|[_ Hk]]%moved; [done | by eapply Hm].
Qed.

Lemma inv_crit i : ts !! i = Some Crit -> exists q', q = i :: q' /\ b = true.
Proof.
  intros Hi. destruct H as [Hd Ho Hx Hnd Hsh Hq Hb Hl Hm Hin]. simpl in *.
  destruct (queue_index q i (Hb i _ Hi eq_refl)) as [j Hj]. pose proof (Hq j i Hj) as Hj'. rewrite Hi in Hj'.
  destruct (bool_decide (j = 0%nat)) eqn:E; simpl in Hj'; [|done]. apply bool_decide_eq_true in E as ->.
  destruct b; [|done]. destruct q as [|x q']; [done|]. injection Hj as ->. eauto.
Qed.

Lemma inv_leave i : ts !! i = Some Crit ->
  exists q', q = i :: q' /\ b = true /\ lock_inv (mk_config (spin_unlock l) d (<[i := Idle]> ts)) (O + 1) (q', false).
Proof.
  intros Hi. destruct (inv_crit i Hi) as (q' & -> & ->). exists q'. split; [done|]. split; [done|].
  destruct H as [Hd Ho Hx Hnd Hsh Hq Hb Hl Hm Hin]. simpl in *. apply NoDup_cons in Hnd as [Hni Hnd].
  split; simpl; try done.
  - lia.
  - unfold u16. by rewrite Ho, Zplus_mod_idemp_l.
  - lia.
  - intros j k Hj. assert (k <> i) by (intros ->; apply Hni; by eapply list_elem_of_lookup_2).
    rewrite list_lookup_insert_ne by done. rewrite andb_false_r. pose proof (Hq (S j) k Hj) as Hk. simpl in Hk.
    rewrite Hk. do 3 f_equal. lia.
  - intros k p [[-> ->]|[Hne Hk]]%moved Hp; [done|]. specialize (Hb k p Hk Hp). apply elem_of_cons in Hb as [?|?]; done.
  - intros k t n [[_ E]|[_ Hk]]%moved; [done | by eapply Hl].
  - intros k t n [[_ E]|[_ Hk]]%moved; [done|]. destruct (Hm k t n Hk) as (? & ? & ?). split; [done | split; lia].
Qed.

(** The second load: with no ticket drawn since the first one, equal counters mean that
    nobody is in the queue, which is never longer than the other threads are many. *)
Lemma inv_match i t n : Z.of_nat (length ts) <= 2 ^ 16 -> ts !! i = Some (Loaded t n) ->
  lock_inv (mk_config l d (<[i := if served l t then Matched t n else Idle]> ts)) O (q, b).
Proof.
  intros Hn Hi. destruct (queue_room i _ Hi eq_refl Hn) as [_ Hs]. rewrite length_app in Hs. simpl in Hs.
  destruct (li_loaded _ _ _ H i t n Hi) as [Ht Hle]. pose proof (li_owner _ _ _ H) as Ho. pose proof (li_drawn _ _ _ H) as Hd. simpl in *.
  apply (inv_outside i _ _ Hi eq_refl); [by destruct (served l t) | by destruct (served l t)|].
  intros u m E. unfold served in E. destruct (Z.eqb_spec (owner l) t) as [Ew|_]; [|done]. injection E as <- <-.
  split; [done|]. split; [done|]. intros ->. rewrite Ho, Ht, Hd in Ew. zdm.
Qed.

(** The swap in time: nobody drew a ticket since the first load, so the lock is free. *)
Lemma inv_swap i t n : Z.of_nat (length ts) <= 2 ^ 16 -> ts !! i = Some (Matched t n) -> (try_swap l t).1 = true -> d - n < 2 ^ 16 ->
  q = [] /\ b = false /\ lock_inv (mk_config (try_swap l t).2 (d + 1) (<[i := Crit]> ts)) O ([i], true).
Proof.
  intros Hn Hi Hsw Hlt. pose proof (li_in _ _ _ H) as Hin. destruct (li_matched _ _ _ H i t n Hi) as (Ht & Hle & Hfree).
  pose proof (li_next _ _ _ H) as Hx. pose proof (li_drawn _ _ _ H) as Hd. simpl in *.
  unfold try_swap in *. destruct (Z.eqb_spec (next l) t) as [E|_]; [|done]. cbn [fst snd] in *.
  assert (d = n) as Edn by (rewrite Hx, Ht in E; zdm). specialize (Hfree Edn).
  assert (q = []) as -> by (destruct q; [done | simpl in Hd; lia]). assert (b = false) as -> by (destruct b; [by destruct Hin | done]).
  split; [done|]. split; [done|]. destruct H as [_ Ho _ _ _ _ Hb Hl Hm _]. simpl in *.
  assert (i < length ts)%nat as Hlt' by by eapply lookup_lt_Some. split; simpl; try done.
  - lia.
  - unfold u16. by rewrite Ht, Edn, Zplus_mod_idemp_l.
  - apply NoDup_singleton.
  - intros j k [-> <-]%list_lookup_singleton_Some. by rewrite list_lookup_insert_eq.
  - intros k p [[-> _]|[Hne Hk]]%moved Hp; [by apply list_elem_of_singleton | by apply (Hb k p Hk), elem_of_nil in Hp].
  - intros k u m [[_ E']|[_ Hk]]%moved; [done|]. destruct (Hl k u m Hk). split; [done | lia].
  - intros k u m [[_ E']|[_ Hk]]%moved; [done|]. destruct (Hm k u m Hk) as (? & ? & ?). split; [done | split; lia].
Qed.

End inv.

Lemma step_length strict c c' : step strict c c' -> length (threads c') = length (threads c).
Proof. destruct 1; simpl; by rewrite ?length_insert. Qed.

Lemma init_inv n : lock_inv (mk_config SPINLOCK_INIT 0 (replicate n Idle)) 0 ([], false).
Proof.
  split; simpl; try done; [apply NoDup_nil_2 | intros i p | intros i t m | intros i t m]; by intros [E _]%lookup_replicate; subst.
Qed.

(** Simulation: every step of the lock is a step of the queue, or none. *)
Lemma step_sim n c c' O a : Z.of_nat n <= 2 ^ 16 -> length (threads c) = n -> lock_inv c O a -> step true c c' ->
  exists O' a', lock_inv c' O' a' /\ (a' = a \/ astep a a').
Proof.
  intros Hn <- H Hs. destruct a as [q b].
  destruct Hs as [l d ts i Hi | l d ts i t Hi Hf | l d ts i t Hi Ht | l d ts i Hi | l d ts i Hi | l d ts i t m Hi | l d ts i t m Hi Ht Hd | l d ts i t m Hi Ht]; simpl in Hn.
  - destruct (inv_ticket l d ts O q b H i Hn Hi) as [H' A]. eauto.
  - exists O, (q, b). eauto.
  - destruct (inv_enter l d ts O q b H i t Hi Ht) as (q' & -> & -> & H'). exists O, (i :: q', true). split; [done|]. right. constructor.
  - destruct (inv_leave l d ts O q b H i Hi) as (q' & -> & -> & H'). exists (O + 1), (q', false). split; [done|]. right. constructor.
  - exists O, (q, b). split; [|by left]. apply (inv_outside l d ts O q b H i _ _ Hi eq_refl); [done| |done].
    intros t m [= <- <-]. split; [apply (li_next _ _ _ H) | done].
  - exists O, (q, b). split; [|by left]. by apply inv_match.
  - destruct (inv_swap l d ts O q b H i t m Hn Hi Ht (Hd eq_refl)) as (-> & -> & H'). exists O, ([i], true). split; [done|]. right. constructor.
  - exists O, (q, b). split; [|by left]. by apply (inv_outside l d ts O q b H i _ _ Hi).
Qed.

Lemma reachable_inv n c : Z.of_nat n <= 2 ^ 16 -> reachable true n c -> length (threads c) = n /\ exists O a, lock_inv c O a.
Proof.
  intros Hn. induction 1 as [|c c' _ [Hl (O & a & H)] Hs].
  - split; [apply length_replicate|]. eexists _, _. apply init_inv.
  - split; [by rewrite (step_length true c c' Hs)|]. destruct (step_sim n c c' O a Hn Hl H Hs) as (O' & a' & H' & _). eauto.
Qed.

(** (C15) The ticket lock, for up to 65536 threads that use [spin_lock], [spin_trylock] and
    [spin_unlock], where a [spin_trylock] that succeeds does so within 65536 tickets: in every
    reachable state at most one thread is in the critical section; the lock implements a queue
    (threads enter in the order in which they took their tickets, although the 16-bit counters
    wrap, and [spin_trylock] enters only when the queue is empty); and it is never stuck: while
    anybody waits or holds the lock, somebody can enter or leave. *)
Theorem ticket_lock_correct n c : Z.of_nat n <= 2 ^ 16 -> reachable true n c ->
  (forall i j, threads c !! i = Some Crit -> threads c !! j = Some Crit -> i = j) /\
  (exists O a, lock_inv c O a /\
     forall c', step true c c' -> exists O' a', lock_inv c' O' a' /\ (a' = a \/ astep a a')) /\
  ((exists i p, threads c !! i = Some p /\ outside p = false) ->
   exists i, threads c !! i = Some Crit \/ exists t, threads c !! i = Some (Wait t) /\ served (lock c) t = true).
Proof.
  intros Hn Hr. destruct (reachable_inv n c Hn Hr) as (Hl & O & [q b] & H). destruct c as [l d ts]. split; [|split].
  - intros i j Hi Hj. destruct (inv_crit l d ts O q b H i Hi) as (q1 & E1 & _).
    destruct (inv_crit l d ts O q b H j Hj) as (q2 & E2 & _). congruence.
  - exists O, (q, b). split; [done|]. intros c' Hs. by apply (step_sim n (mk_config l d ts) c' O (q, b)).
  - intros (i & p & Hi & Hp). pose proof (li_busy _ _ _ H i p Hi Hp) as Hin. simpl in Hin.
    destruct q as [|x q]; [by apply elem_of_nil in Hin|]. exists x.
    pose proof (li_queue _ _ _ H 0%nat x eq_refl) as Hx. simpl in Hx. destruct b; [by left|right].
    eexists. split; [exact Hx|]. unfold served. rewrite Z.add_0_r. apply Z.eqb_eq. apply (li_owner _ _ _ H).
Qed.

(** Thread 0 enters by [spin_trylock], thread 1 waits behind it. *)
Lemma ticket_lock_correct_witness : reachable true 2 (mk_config (mk_lock 0 2) 2 [Crit; Wait 1]) /\
  exists O a, lock_inv (mk_config (mk_lock 0 2) 2 [Crit; Wait 1]) O a /\
    forall c', step true (mk_config (mk_lock 0 2) 2 [Crit; Wait 1]) c' -> exists O' a', lock_inv c' O' a' /\ (a' = a \/ astep a a').
Proof.
  assert (reachable true 2 (mk_config (mk_lock 0 2) 2 [Crit; Wait 1])) as R.
  { apply (r_step true 2 (mk_config (mk_lock 0 1) 1 [Crit; Idle])); [|exact (step_ticket true (mk_lock 0 1) 1 [Crit; Idle] 1 eq_refl)].
    apply (r_step true 2 (mk_config SPINLOCK_INIT 0 [Matched 0 0; Idle]));
      [|exact (step_swap true SPINLOCK_INIT 0 [Matched 0 0; Idle] 0 0 0 eq_refl eq_refl (fun _ => eq_refl))].
    apply (r_step true 2 (mk_config SPINLOCK_INIT 0 [Loaded 0 0; Idle])); [|exact (step_match true SPINLOCK_INIT 0 [Loaded 0 0; Idle] 0 0 0 eq_refl)].
    apply (r_step true 2 (mk_config SPINLOCK_INIT 0 [Idle; Idle])); [apply (r_init true 2) | exact (step_try true SPINLOCK_INIT 0 [Idle; Idle] 0 eq_refl)]. }
  split; [exact R|]. apply (ticket_lock_correct 2 (mk_config (mk_lock 0 2) 2 [Crit; Wait 1])); [discriminate | exact R].
Defined.

(** Without the limit the counters come around: a thread that stops between its loads and its
    swap while another one takes the lock 65536 times finds [next] as it left it, and both are in. *)
Lemma laps k : reachable false 2 (mk_config (mk_lock (u16 (Z.of_nat k)) (u16 (Z.of_nat k))) (Z.of_nat k) [Matched 0 0; Idle]).
Proof.
  induction k as [|k IH].
  - apply (r_step false 2 (mk_config SPINLOCK_INIT 0 [Loaded 0 0; Idle])); [|exact (step_match false SPINLOCK_INIT 0 [Loaded 0 0; Idle] 0 0 0 eq_refl)].
    apply (r_step false 2 (mk_config SPINLOCK_INIT 0 [Idle; Idle])); [apply (r_init false 2) | exact (step_try false SPINLOCK_INIT 0 [Idle; Idle] 0 eq_refl)].
  - set (x := u16 (Z.of_nat k)) in *. set (d := Z.of_nat k) in *.
    assert (u16 (x + 1) = u16 (Z.of_nat (S k))) as <-.
    { unfold x, u16. rewrite Zplus_mod_idemp_l. f_equal. lia. }
    replace (Z.of_nat (S k)) with (d + 1) by lia.
    apply (r_step false 2 (mk_config (mk_lock x (u16 (x + 1))) (d + 1) [Matched 0 0; Crit])); [|exact (step_leave false (mk_lock x (u16 (x + 1))) (d + 1) [Matched 0 0; Crit] 1 eq_refl)].
    apply (r_step false 2 (mk_config (mk_lock x (u16 (x + 1))) (d + 1) [Matched 0 0; Wait x]));
      [|exact (step_enter false (mk_lock x (u16 (x + 1))) (d + 1) [Matched 0 0; Wait x] 1 x eq_refl (Z.eqb_refl x))].
    apply (r_step false 2 _ _ IH). exact (step_ticket false (mk_lock x x) d [Matched 0 0; Idle] 1 eq_refl).
Qed.

Theorem trylock_laps : exists c, reachable false 2 c /\ threads c = [Crit; Crit].
Proof.
  pose proof (laps 65535) as R. change (u16 (Z.of_nat 65535)) with 65535 in R. change (Z.of_nat 65535) with 65535 in R.
  eexists (mk_config (mk_lock 65535 1) 65537 [Crit; Crit]). split; [|done].
  apply (r_step false 2 (mk_config (mk_lock 65535 0) 65536 [Matched 0 0; Crit]));
    [|exact (step_swap false (mk_lock 65535 0) 65536 [Matched 0 0; Crit] 0 0 0 eq_refl eq_refl (fun E => match diff_false_true E with end))].
  apply (r_step false 2 (mk_config (mk_lock 65535 0) 65536 [Matched 0 0; Wait 65535]));
    [|exact (step_enter false (mk_lock 65535 0) 65536 [Matched 0 0; Wait 65535] 1 65535 eq_refl eq_refl)].
  apply (r_step false 2 _ _ R). exact (step_ticket false (mk_lock 65535 65535) 65535 [Matched 0 0; Idle] 1 eq_refl).
Qed.

(** ** The read-write lock *)

(** [count]: the number of readers, or -1 with a writer inside.  One round of the loop of
    [read_lock] loads [c] and then tests and swaps; one round of [write_lock] is a swap. *)
Definition RWLOCK_INIT : Z := 0.
Definition read_lock (count c : Z) : option Z := if (0 <=? c) && (count =? c) then Some (s32 (c + 1)) else None.
Definition read_unlock (count : Z) : Z := s32 (count - 1).
Definition write_lock (count : Z) : option Z := if count =? 0 then Some (-1) else None.
Definition write_unlock (count : Z) : Z := 0.

(** Outside or about to start a round, between the load and the swap of [read_lock], inside. *)
Inductive rw := Out | Sampled (c : Z) | Reading | Writing.
#[export] Instance rw_eq : EqDecision rw.
Proof. solve_decision. Defined.

Inductive rwstep : Z * list rw -> Z * list rw -> Prop :=
| rw_load c ts i : ts !! i = Some Out -> rwstep (c, ts) (c, <[i := Sampled c]> ts)
| rw_read c c' v ts i : ts !! i = Some (Sampled v) -> read_lock c v = Some c' -> rwstep (c, ts) (c', <[i := Reading]> ts)
| rw_again c v ts i : ts !! i = Some (Sampled v) -> read_lock c v = None -> rwstep (c, ts) (c, <[i := Out]> ts)
| rw_unread c ts i : ts !! i = Some Reading -> rwstep (c, ts) (read_unlock c, <[i := Out]> ts)
| rw_write c c' ts i : ts !! i = Some Out -> write_lock c = Some c' -> rwstep (c, ts) (c', <[i := Writing]> ts)
| rw_spin c ts i : ts !! i = Some Out -> write_lock c = None -> rwstep (c, ts) (c, ts)
| rw_unwrite c ts i : ts !! i = Some Writing -> rwstep (c, ts) (write_unlock c, <[i := Out]> ts).

Inductive rwreach (n : nat) : Z * list rw -> Prop :=
| rwr_init : rwreach n (RWLOCK_INIT, replicate n Out)
| rwr_step x y : rwreach n x -> rwstep x y -> rwreach n y.

Definition count_of (p : rw) (ts : list rw) : nat := length (filter (fun q => q = p) ts).

Lemma count_insert p q r ts i : ts !! i = Some q ->
  (count_of p (<[i := r]> ts) + (if decide (q = p) then 1 else 0) = count_of p ts + (if decide (r = p) then 1 else 0))%nat.
Proof.
  unfold count_of. revert i. induction ts as [|x ts IH]; intros i Hi; [done|]. destruct i as [|i]; simpl in *.
  - injection Hi as ->. rewrite !filter_cons. repeat case_decide; simpl; lia.
  - specialize (IH i Hi). rewrite !filter_cons. repeat case_decide; simpl; lia.
Qed.

Definition rw_inv (x : Z * list rw) : Prop :=
  (count_of Writing x.2 = 0%nat /\ x.1 = Z.of_nat (count_of Reading x.2)) \/
  (count_of Writing x.2 = 1%nat /\ count_of Reading x.2 = 0%nat /\ x.1 = -1).

Lemma count_le p ts : (count_of p ts <= length ts)%nat.
Proof. apply length_filter. Qed.

Lemma count_pos p ts i : ts !! i = Some p -> (1 <= count_of p ts)%nat.
Proof.
  intros Hi. unfold count_of. assert (p ∈ filter (fun q => q = p) ts) as Hin.
  { apply list_elem_of_filter. split; [done | by eapply list_elem_of_lookup_2]. }
  destruct (filter _ ts); [by apply elem_of_nil in Hin | simpl; lia].
Qed.

(** A thread that stays outside changes no count. *)
Lemma count_outside p ts i q r : ts !! i = Some q -> q <> p -> r <> p -> count_of p (<[i := r]> ts) = count_of p ts.
Proof. intros Hi Hq Hr. pose proof (count_insert p q r ts i Hi) as C. rewrite !decide_False in C by done. lia. Qed.

Lemma rw_step_inv n x y : Z.of_nat n < 2 ^ 31 -> length x.2 = n -> rw_inv x -> rwstep x y -> rw_inv y /\ length y.2 = n.
Proof.
  intros Hn Hl H Hs. destruct Hs as [c ts i Hi | c c' v ts i Hi Hc | c v ts i Hi _ | c ts i Hi | c c' ts i Hi Hc | c ts i _ _ | c ts i Hi];
    [| | | | |done|]; simpl in *; rewrite length_insert; (split; [|done]); unfold rw_inv in *; simpl in *.
  - by rewrite !(count_outside _ ts i Out).
  - pose proof (count_insert Writing _ Reading ts i Hi) as CW. pose proof (count_insert Reading _ Reading ts i Hi) as CR. simpl in *.
    unfold read_lock in Hc. destruct (Z.leb_spec 0 v), (Z.eqb_spec c v); try done. injection Hc as <-.
    destruct H as [[HW HR]|(HW & HR & HC)]; [left | lia].
    split; [lia|]. pose proof (count_le Reading (<[i := Reading]> ts)) as CL'. rewrite length_insert in CL'. rewrite s32_small; lia.
  - by rewrite !(count_outside _ ts i (Sampled v)).
  - pose proof (count_insert Writing _ Out ts i Hi) as CW. pose proof (count_insert Reading _ Out ts i Hi) as CR. simpl in *.
    pose proof (count_le Reading ts). pose proof (count_pos _ _ _ Hi). destruct H as [[HW HR]|(HW & HR & HC)]; [left | lia].
    unfold read_unlock. rewrite s32_small; lia.
  - pose proof (count_insert Writing _ Writing ts i Hi) as CW. pose proof (count_insert Reading _ Writing ts i Hi) as CR. simpl in *.
    unfold write_lock in Hc. destruct (Z.eqb_spec c 0); [|done]. injection Hc as <-.
    destruct H as [[HW HR]|(HW & HR & HC)]; [right; lia | lia].
  - pose proof (count_insert Writing _ Out ts i Hi) as CW. pose proof (count_insert Reading _ Out ts i Hi) as CR. simpl in *.
    pose proof (count_pos _ _ _ Hi). unfold write_unlock. destruct H as [[HW HR]|(HW & HR & HC)]; [lia | left; lia].
Qed.

(** The read-write lock, for fewer than 2^31 threads: a writer excludes readers and
    other writers in every reachable state, the counter is the number of readers
    or -1, and when nobody is inside both a reader and a writer can get in. *)
Theorem rwlock_correct n x : Z.of_nat n < 2 ^ 31 -> rwreach n x ->
  (forall i j, x.2 !! i = Some Writing -> x.2 !! j <> Some Reading /\ (x.2 !! j = Some Writing -> i = j)) /\
  (x.1 = Z.of_nat (count_of Reading x.2) \/ x.1 = -1) /\
  (count_of Reading x.2 = 0%nat -> count_of Writing x.2 = 0%nat -> read_lock x.1 x.1 = Some 1 /\ write_lock x.1 = Some (-1)).
Proof.
  intros Hn Hr. assert (rw_inv x /\ length x.2 = n) as [H _].
  { induction Hr as [|x y _ [H Hl] Hs]; [|by apply (rw_step_inv n x y)]. split; [|apply length_replicate].
    assert (forall p, p <> Out -> count_of p (replicate n Out) = 0%nat) as G.
    { intros p Hp. unfold count_of. clear Hn. induction n as [|m IH]; [done|]. simpl. rewrite filter_cons, decide_False by congruence. exact IH. }
    left. simpl. rewrite !G by done. done. }
  split; [|split].
  - intros i j Hi. pose proof (count_pos _ _ _ Hi). destruct H as [[HW _]|(HW & HR & _)]; [lia|]. split.
    + intros Hj. pose proof (count_pos _ _ _ Hj). lia.
    + intros Hj. destruct (decide (i = j)) as [->|Hne]; [done|]. exfalso.
      pose proof (count_insert Writing _ Out x.2 i Hi) as C. simpl in C.
      assert (<[i := Out]> x.2 !! j = Some Writing) as Hj' by (by rewrite list_lookup_insert_ne).
      pose proof (count_pos _ _ _ Hj'). lia.
  - destruct H as [[_ HR]|(_ & _ & HC)]; [left | right]; done.
  - intros H1 H2. destruct H as [[_ HR]|(HW & _)]; [|lia]. rewrite HR, H1. done.
Qed.

Lemma rwlock_correct_witness : rwreach 2 (-1, [Writing; Out]) /\ [Writing; Out] !! 1%nat <> Some Reading.
Proof.
  assert (rwreach 2 (-1, [Writing; Out])) as R.
  { apply (rwr_step 2 (0, [Out; Out])); [apply (rwr_init 2) | apply (rw_write 0 (-1) [Out; Out] 0); reflexivity]. }
  split; [exact R|]. apply (rwlock_correct 2 (-1, [Writing; Out]) eq_refl R) with (i := 0%nat). reflexivity.
Defined.

End Locks.
