(* ===== verification/ListHead.v ===== *)
(** * include/nekros/types.h: intrusive doubly-linked lists

    A [list_head_t] is a node of a heap of links; NULL is [None] and a
    dereference of NULL, or of memory that holds no [list_head_t], is a fault
    ([None] as the result of an operation).  [ring] is the circular list hanging
    off a head. *)

From S2P Require Import Prelude.

Module ListHead.

Section list_head.
Context {A : Type} `{EqDecision A} `{Countable A}.

Record list_head := mk_lh { next : option A; prev : option A }.
Abbreviation links := (gmap A list_head).
Implicit Types (m : links) (n h x y : A).

(** [p->next] and [p->prev] for a pointer [p]. *)
Definition get_next m (p : option A) : option (option A) := x ← p; next <$> m !! x.
Definition get_prev m (p : option A) : option (option A) := x ← p; prev <$> m !! x.
(** [p->next = v] and [p->prev = v]. *)
Definition set_next m (p v : option A) : option links :=
  x ← p; c ← m !! x; Some (<[x := mk_lh v (prev c)]> m).
Definition set_prev m (p v : option A) : option links :=
  x ← p; c ← m !! x; Some (<[x := mk_lh (next c) v]> m).

#[local] Arguments set_next : simpl never.
#[local] Arguments set_prev : simpl never.

(** [h->next = h->prev = h], on storage that may hold anything. *)
Definition list_init m h : links := <[h := mk_lh (Some h) (Some h)]> m.

Definition list_empty m h : option bool :=
  nx ← get_next m (Some h); Some (bool_decide (nx = Some h)).

Definition list_add_between m n (prv nxt : option A) : option links :=
  m ← set_prev m nxt (Some n);
  m ← set_next m (Some n) nxt;
  m ← set_prev m (Some n) prv;
  set_next m prv (Some n).

Definition list_add m n h : option links :=
  nx ← get_next m (Some h); list_add_between m n (Some h) nx.
Definition list_add_tail m n h : option links :=
  pv ← get_prev m (Some h); list_add_between m n pv (Some h).

Definition list_del m n : option links :=
  pv ← get_prev m (Some n); nx ← get_next m (Some n);
  m ← set_next m pv nx;
  pv ← get_prev m (Some n); nx ← get_next m (Some n);
  m ← set_prev m nx pv;
  m ← set_prev m (Some n) None;
  set_next m (Some n) None.

(** [list_for_each]: the nodes visited from [h->next] until [h] comes round. *)
Fixpoint for_each m h (pos : option A) (fuel : nat) : option (list A) :=
  match fuel with
  | O => None
  | S f =>
      if bool_decide (pos = Some h) then Some []
      else x ← pos; nx ← get_next m pos; l ← for_each m h nx f; Some (x :: l)
  end.

(** ** Circular lists *)

Definition nxt m x : option (option A) := next <$> m !! x.
Definition prv m x : option (option A) := prev <$> m !! x.

Fixpoint seg m x (l : list A) y : Prop :=
  match l with
  | [] => nxt m x = Some (Some y) /\ prv m y = Some (Some x)
  | z :: l' => nxt m x = Some (Some z) /\ prv m z = Some (Some x) /\ seg m z l' y
  end.

(** [l] hangs off [h], each node once. *)
Definition ring m h (l : list A) : Prop := NoDup (h :: l) /\ seg m h l h.

Lemma seg_app m x l1 y l2 z : seg m x (l1 ++ y :: l2) z <-> seg m x l1 y /\ seg m y l2 z.
Proof.
  revert x. induction l1 as [|w l1 IH]; intros x; simpl; [tauto|]. rewrite IH. tauto.
Qed.

Lemma seg_frame m m' x l y :
  (forall u, u ∈ x :: l -> nxt m' u = nxt m u) -> (forall u, u ∈ l ++ [y] -> prv m' u = prv m u) ->
  seg m x l y -> seg m' x l y.
Proof.
  revert x. induction l as [|z l IH]; intros x Hn Hp; simpl.
  - rewrite Hn, Hp by set_solver. done.
  - intros (E1 & E2 & E3). rewrite Hn, Hp by set_solver. split; [done|]. split; [done|].
    apply IH; [| |done]; intros u Hu; [apply Hn | apply Hp]; set_solver.
Qed.

Lemma set_next_spec m x v : is_Some (m !! x) ->
  exists m', set_next m (Some x) v = Some m' /\ (forall u, is_Some (m !! u) -> is_Some (m' !! u)) /\
    nxt m' x = Some v /\ (forall u, u <> x -> nxt m' u = nxt m u) /\ (forall u, prv m' u = prv m u).
Proof.
  intros [c Hc]. unfold set_next, nxt, prv. simpl. rewrite Hc. simpl. eexists. split; [done|]. split_and!.
  - intros u Hu. destruct (decide (u = x)) as [->|]; [by rewrite lookup_insert_eq | by rewrite lookup_insert_ne].
  - by rewrite lookup_insert_eq.
  - intros u Hu. by rewrite lookup_insert_ne.
  - intros u. destruct (decide (u = x)) as [->|]; [by rewrite lookup_insert_eq, Hc | by rewrite lookup_insert_ne].
Qed.

Lemma set_prev_spec m x v : is_Some (m !! x) ->
  exists m', set_prev m (Some x) v = Some m' /\ (forall u, is_Some (m !! u) -> is_Some (m' !! u)) /\
    prv m' x = Some v /\ (forall u, u <> x -> prv m' u = prv m u) /\ (forall u, nxt m' u = nxt m u).
Proof.
  intros [c Hc]. unfold set_prev, nxt, prv. simpl. rewrite Hc. simpl. eexists. split; [done|]. split_and!.
  - intros u Hu. destruct (decide (u = x)) as [->|]; [by rewrite lookup_insert_eq | by rewrite lookup_insert_ne].
  - by rewrite lookup_insert_eq.
  - intros u Hu. by rewrite lookup_insert_ne.
  - intros u. destruct (decide (u = x)) as [->|]; [by rewrite lookup_insert_eq, Hc | by rewrite lookup_insert_ne].
Qed.

Lemma nxt_some m x v : nxt m x = Some v -> is_Some (m !! x).
Proof. unfold nxt. destruct (m !! x); simpl; [eauto | done]. Qed.
Lemma prv_some m x v : prv m x = Some v -> is_Some (m !! x).
Proof. unfold prv. destruct (m !! x); simpl; [eauto | done]. Qed.

(** Linking [n] between two neighbours [p] and [q]. *)
Lemma add_between_spec m n p q : is_Some (m !! n) -> is_Some (m !! p) -> is_Some (m !! q) -> n <> p -> n <> q ->
  exists m', list_add_between m n (Some p) (Some q) = Some m' /\
    nxt m' p = Some (Some n) /\ prv m' n = Some (Some p) /\ nxt m' n = Some (Some q) /\ prv m' q = Some (Some n) /\
    (forall u, u <> p -> u <> n -> nxt m' u = nxt m u) /\ (forall u, u <> q -> u <> n -> prv m' u = prv m u).
Proof.
  intros Hn Hp Hq Hnp Hnq. unfold list_add_between.
  destruct (set_prev_spec m q (Some n) Hq) as (m1 & -> & D1 & P1 & P1' & N1). simpl.
  destruct (set_next_spec m1 n (Some q)) as (m2 & -> & D2 & N2 & N2' & P2); [auto|]. simpl.
  destruct (set_prev_spec m2 n (Some p)) as (m3 & -> & D3 & P3 & P3' & N3); [auto|]. simpl.
  destruct (set_next_spec m3 p (Some n)) as (m4 & -> & D4 & N4 & N4' & P4); [auto|].
  exists m4. split; [done|]. split_and!.
  - done.
  - by rewrite P4, P3.
  - by rewrite N4', N3, N2 by done.
  - by rewrite P4, P3', P2, P1 by done.
  - intros u Hu1 Hu2. by rewrite N4', N3, N2', N1 by done.
  - intros u Hu1 Hu2. by rewrite P4, P3', P2, P1' by done.
Qed.

Lemma seg_ends m x l y : seg m x l y ->
  is_Some (m !! x) /\ is_Some (m !! y) /\ forall u, u ∈ l -> is_Some (m !! u).
Proof.
  revert x. induction l as [|z l IH]; intros x; simpl.
  - intros [E1 E2]. split_and!; eauto using nxt_some, prv_some. set_solver.
  - intros (E1 & E2 & E3). destruct (IH z E3) as (I1 & I2 & I3). split_and!; eauto using nxt_some.
    intros u [->|Hu]%elem_of_cons; eauto using prv_some.
Qed.

Lemma list_add_tail_ring m n h l : ring m h l -> is_Some (m !! n) -> n ∉ h :: l ->
  exists m', list_add_tail m n h = Some m' /\ ring m' h (l ++ [n]) /\
    (forall u, u <> n -> u ∉ h :: l -> m' !! u = m !! u).
Proof.
  intros [Hnd Hs] Hn Hni. unfold list_add_tail.
  assert (exists p l0, h :: l = l0 ++ [p] /\ prv m h = Some (Some p) /\ is_Some (m !! p)) as (p & l0 & El & Ep & Hp).
  { destruct l as [|z l _] using rev_ind.
    - destruct Hs as [? ?]. exists h, []. split_and!; eauto using nxt_some.
    - apply seg_app in Hs as [Hs1 [Hs2 Hs3]]. exists z, (h :: l). split_and!; eauto using nxt_some. }
  destruct (seg_ends _ _ _ _ Hs) as (Hh & _ & _).
  unfold get_prev. simpl. unfold prv in Ep. rewrite Ep. simpl.
  assert (p ∈ h :: l) as Hpin by (rewrite El; set_solver).
  destruct (add_between_spec m n p h) as (m' & E & E1 & E2 & E3 & E4 & E5 & E6);
    [done | done | done | intros ->; done | intros ->; set_solver |].
  exists m'. split; [done|]. assert (NoDup (h :: l ++ [n])) as Hnd'.
  { change (h :: l ++ [n]) with ((h :: l) ++ [n]). apply NoDup_app. split; [done|].
    split; [set_solver | apply NoDup_singleton]. }
  split; [split; [done|]|].
  - apply seg_app. split; [|by split].
    destruct l as [|z l _] using rev_ind.
    { assert (p = h) as -> by (destruct l0 as [|? [|? ?]]; simplify_eq/=; done). split; done. }
    change (h :: l ++ [z]) with ((h :: l) ++ [z]) in El. apply app_inj_tail in El as [<- <-].
    apply seg_app in Hs as [Hs1 _]. apply seg_app. split; [|split; done].
    eapply seg_frame; [| |exact Hs1].
    + intros u Hu. apply E5.
      * intros ->. change (h :: l ++ [z]) with ((h :: l) ++ [z]) in Hnd. apply NoDup_app in Hnd as (_ & Hd & _).
        apply (Hd z Hu). set_solver.
      * intros ->. apply Hni. set_solver.
    + intros u Hu. apply E6.
      * intros ->. apply NoDup_cons in Hnd as [Hd _]. done.
      * intros ->. apply Hni. set_solver.
  - intros u Hu1 Hu2. assert (u <> p) by (intros ->; done). assert (u <> h) by (intros ->; set_solver).
    specialize (E5 u ltac:(done) Hu1). specialize (E6 u ltac:(done) Hu1). unfold nxt, prv in E5, E6.
    destruct (m' !! u) as [[? ?]|], (m !! u) as [[? ?]|]; simplify_eq/=; done.
Qed.

(** Insertion at the head. *)
Lemma list_add_ring m n h l : ring m h l -> is_Some (m !! n) -> n ∉ h :: l ->
  exists m', list_add m n h = Some m' /\ ring m' h (n :: l) /\
    (forall u, u <> n -> u ∉ h :: l -> m' !! u = m !! u).
Proof.
  intros [Hnd Hs] Hn Hni. unfold list_add. destruct (seg_ends _ _ _ _ Hs) as (Hh & _ & Hl).
  set (q := List.hd h l). assert (nxt m h = Some (Some q)) as Eq by (destruct l; [by destruct Hs | by destruct Hs as (? & _)]).
  assert (q ∈ h :: l) as Hq by (unfold q; destruct l; set_solver).
  unfold get_next. simpl. unfold nxt in Eq. rewrite Eq. simpl.
  destruct (add_between_spec m n h q) as (m' & E & E1 & E2 & E3 & E4 & E5 & E6);
    [done | done | apply elem_of_cons in Hq as [->|Hq]; auto | intros ->; set_solver | intros ->; done |].
  exists m'. split; [done|]. split; [split|].
  - change (h :: n :: l) with ([h] ++ n :: l). apply NoDup_cons in Hnd as [Hhl Hnd].
    apply NoDup_app. split; [apply NoDup_singleton|]. split; [set_solver|]. apply NoDup_cons. set_solver.
  - split; [done|]. split; [done|]. unfold q in *. destruct l as [|z l]; simpl in *; [by split|].
    destruct Hs as (_ & _ & Hs). split; [done|]. split; [done|].
    apply NoDup_cons in Hnd as [Hhl Hnd]. apply NoDup_cons in Hnd as [Hzl Hnd].
    eapply seg_frame; [| |exact Hs]; intros u Hu; [apply E5 | apply E6]; intros ->; set_solver.
  - intros u Hu1 Hu2. assert (u <> q) by (intros ->; done). assert (u <> h) by (intros ->; set_solver).
    specialize (E5 u ltac:(done) Hu1). specialize (E6 u ltac:(done) Hu1). unfold nxt, prv in E5, E6.
    destruct (m' !! u) as [[? ?]|], (m !! u) as [[? ?]|]; simplify_eq/=; done.
Qed.

(** What [list_del] does to a linked node. *)
Lemma del_spec m n p q : nxt m n = Some (Some q) -> prv m n = Some (Some p) ->
  is_Some (m !! p) -> is_Some (m !! q) -> n <> p -> n <> q ->
  exists m', list_del m n = Some m' /\ m' !! n = Some (mk_lh None None) /\
    nxt m' p = Some (Some q) /\ prv m' q = Some (Some p) /\
    (forall u, u <> p -> u <> n -> nxt m' u = nxt m u) /\ (forall u, u <> q -> u <> n -> prv m' u = prv m u).
Proof.
  intros Hn Hp Ip Iq Hnp Hnq. unfold list_del, get_prev, get_next. simpl.
  unfold nxt, prv in Hn, Hp. rewrite Hp, Hn. simpl.
  destruct (set_next_spec m p (Some q) Ip) as (m1 & -> & D1 & N1 & N1' & P1). simpl.
  pose proof (P1 n) as P1n. pose proof (N1' n Hnp) as N1n. unfold nxt, prv in P1n, N1n.
  rewrite P1n, N1n, Hp, Hn. simpl.
  destruct (set_prev_spec m1 q (Some p)) as (m2 & -> & D2 & P2 & P2' & N2); [auto|]. simpl.
  assert (is_Some (m !! n)) as In by (eapply (nxt_some m n (Some q)); done).
  destruct (set_prev_spec m2 n None) as (m3 & -> & D3 & P3 & P3' & N3); [auto|]. simpl.
  destruct (set_next_spec m3 n None) as (m4 & -> & D4 & N4 & N4' & P4); [auto|].
  exists m4. split; [done|]. split_and!.
  - assert (prv m4 n = Some None) as P4n by (by rewrite P4). unfold nxt in N4. unfold prv in P4n.
    destruct (m4 !! n) as [[? ?]|]; simplify_eq/=; done.
  - by rewrite N4', N3, N2, N1 by done.
  - by rewrite P4, P3', P2 by done.
  - intros u Hu1 Hu2. by rewrite N4', N3, N2, N1' by done.
  - intros u Hu1 Hu2. by rewrite P4, P3', P2', P1 by done.
Qed.

(** The neighbours of a member of a ring. *)
Lemma ring_split m h l1 n l2 : ring m h (l1 ++ n :: l2) ->
  exists p q, nxt m n = Some (Some q) /\ prv m n = Some (Some p) /\ n <> p /\ n <> q /\
    p = List.last (h :: l1) h /\ q = List.hd h l2.
Proof.
  intros [Hnd Hs]. apply seg_app in Hs as [Hs1 Hs2].
  exists (List.last (h :: l1) h), (List.hd h l2). split_and!; try done.
  - destruct l2; simpl in *; [apply Hs2 | apply Hs2].
  - destruct l1 as [|z l1 _] using rev_ind; [apply Hs1|]. apply seg_app in Hs1 as [_ Hs1].
    change (h :: l1 ++ [z]) with ((h :: l1) ++ [z]). rewrite last_last. apply Hs1.
  - destruct l1 as [|z l1 _] using rev_ind.
    + simpl. intros ->. apply NoDup_cons in Hnd as [Hd _]. set_solver.
    + change (h :: l1 ++ [z]) with ((h :: l1) ++ [z]). rewrite last_last. intros ->.
      apply NoDup_cons in Hnd as [_ Hnd]. apply NoDup_app in Hnd as (_ & Hd & _). apply (Hd z); set_solver.
  - destruct l2 as [|z l2]; simpl; intros ->.
    + apply NoDup_cons in Hnd as [Hd _]. set_solver.
    + apply NoDup_cons in Hnd as [_ Hnd]. apply NoDup_app in Hnd as (_ & _ & Hnd).
      apply NoDup_cons in Hnd as [Hd _]. set_solver.
Qed.

Lemma seg_last m x l1 n : seg m x l1 n -> forall l0 p, x :: l1 = l0 ++ [p] ->
  forall m' q, (forall u, u ∈ l0 -> nxt m' u = nxt m u) -> (forall u, u ∈ l1 -> prv m' u = prv m u) ->
  nxt m' p = Some (Some q) -> prv m' q = Some (Some p) -> seg m' x l1 q.
Proof.
  intros Hs l0 p El m' q Hn Hp Hnp Hpq. destruct l1 as [|z l1 _] using rev_ind.
  - assert (p = x) as -> by (destruct l0 as [|? [|? ?]]; simplify_eq/=; done). done.
  - change (x :: l1 ++ [z]) with ((x :: l1) ++ [z]) in El. apply app_inj_tail in El as [<- <-].
    apply seg_app in Hs as [Hs1 _]. apply seg_app. split; [|by split].
    eapply seg_frame; [exact Hn | exact Hp | exact Hs1].
Qed.

Lemma list_del_ring m h l1 n l2 : ring m h (l1 ++ n :: l2) ->
  exists m', list_del m n = Some m' /\ ring m' h (l1 ++ l2) /\ m' !! n = Some (mk_lh None None) /\
    (forall u, u ∉ h :: l1 ++ n :: l2 -> m' !! u = m !! u).
Proof.
  intros HR. destruct (ring_split m h l1 n l2 HR) as (p & q & Hn & Hp & Hnp & Hnq & Ep & Eq).
  destruct HR as [Hnd Hs]. destruct (seg_ends _ _ _ _ Hs) as (Ih & _ & Il).
  assert (p ∈ h :: l1) as Hpin.
  { rewrite Ep. destruct l1 as [|z l1 _] using rev_ind; [set_solver|].
    change (h :: l1 ++ [z]) with ((h :: l1) ++ [z]). rewrite last_last. set_solver. }
  assert (q ∈ h :: l2) as Hqin by (rewrite Eq; destruct l2; simpl; set_solver).
  assert (forall u, u ∈ h :: l1 ++ l2 -> is_Some (m !! u)) as Iall.
  { intros u [->|Hu]%elem_of_cons; [done|]. apply Il. set_solver. }
  destruct (del_spec m n p q Hn Hp) as (m' & E & Em & E1 & E2 & E3 & E4);
    [apply Iall; set_solver | apply Iall; set_solver | done | done |].
  exists m'. split; [done|]. split; [|split; [done|]].
  - apply NoDup_cons in Hnd as [Hh Hnd]. pose proof Hnd as (Hn1 & Hd & [Hn2 Hn3]%NoDup_cons)%NoDup_app.
    assert (NoDup (h :: l1 ++ l2)) as Hnd'.
    { apply NoDup_cons. split; [set_solver|]. apply NoDup_app. split_and!; [done | set_solver | done]. }
    split; [done|]. apply seg_app in Hs as [Hs1 Hs2].
    assert (exists l0, h :: l1 = l0 ++ [p]) as [l0 El0].
    { destruct l1 as [|z l1 _] using rev_ind; [by exists []; rewrite Ep|].
      exists (h :: l1). rewrite Ep. change (h :: l1 ++ [z]) with ((h :: l1) ++ [z]). by rewrite last_last. }
    assert (seg m' h l1 q) as S1.
    { apply (seg_last m h l1 n Hs1 l0 p El0); try done.
      - intros u Hu. assert (NoDup (l0 ++ [p])) as Hl0.
        { rewrite <- El0. apply NoDup_cons. split; [set_solver | done]. }
        assert (u <> p) by (intros ->; apply NoDup_app in Hl0 as (_ & Hx & _); apply (Hx p Hu), list_elem_of_here).
        assert (u ∈ h :: l1) as Hu' by (rewrite El0; apply elem_of_app; by left).
        apply E3; [done|]. intros ->. apply elem_of_cons in Hu' as [->|Hu'].
        + apply Hh, elem_of_app. right. apply list_elem_of_here.
        + apply (Hd n Hu'), list_elem_of_here.
      - intros u Hu. apply E4; intros ->.
        + destruct l2 as [|z l2]; simpl in Eq; subst q; [apply Hh, elem_of_app; by left|].
          apply (Hd z Hu), list_elem_of_further, list_elem_of_here.
        + apply (Hd n Hu), list_elem_of_here. }
    destruct l2 as [|z l2]; simpl in Eq; subst q; [by rewrite app_nil_r|].
    apply seg_app. split; [done|]. destruct Hs2 as (_ & _ & Hs2).
    assert (h ∉ n :: z :: l2) as Hh2 by (intros Hx; apply Hh, elem_of_app; by right).
    clear - Hs2 E3 E4 Hpin Hh2 Hd Hn2 Hn3.
    eapply seg_frame; [| |exact Hs2]; intros u Hu.
    + apply E3; intros ->; [|done]. apply elem_of_cons in Hpin as [->|Hp]; [by apply Hh2, list_elem_of_further|].
      by apply (Hd p Hp), list_elem_of_further.
    + apply NoDup_cons in Hn3 as [Hz _]. apply elem_of_app in Hu as [Hu| ->%list_elem_of_singleton]; apply E4; intros ->.
      * done.
      * by apply Hn2, list_elem_of_further.
      * apply Hh2, list_elem_of_further, list_elem_of_here.
      * apply Hh2, list_elem_of_here.
  - intros u Hu. assert (u <> n /\ u <> p /\ u <> q) as (Hu1 & Hu2 & Hu3).
    { clear - Hu Hpin Hqin. split_and!; intros ->; set_solver. }
    specialize (E3 u Hu2 Hu1). specialize (E4 u Hu3 Hu1). unfold nxt, prv in E3, E4.
    destruct (m' !! u) as [[? ?]|], (m !! u) as [[? ?]|]; simplify_eq/=; done.
Qed.

(** Traversal visits the ring in order. *)
Lemma for_each_seg m h l : forall x fuel, seg m x l h -> h ∉ l -> (length l < fuel)%nat ->
  (nx ← nxt m x; for_each m h nx fuel) = Some l.
Proof.
  induction l as [|z l IH]; intros x fuel Hs Hni Hf; (destruct fuel as [|f]; [simpl in Hf; lia|]).
  - destruct Hs as [-> _]. simpl. by rewrite bool_decide_eq_true_2.
  - destruct Hs as (-> & _ & Hs). simpl. rewrite bool_decide_eq_false_2 by (intros [= ->]; set_solver). simpl.
    specialize (IH z f Hs ltac:(set_solver) ltac:(simpl in Hf; lia)). unfold nxt in IH. unfold get_next. simpl.
    destruct (next <$> m !! z); simpl in *; [|done]. by rewrite IH.
Qed.

Lemma for_each_ring m h l fuel : ring m h l -> (length l < fuel)%nat ->
  (nx ← get_next m (Some h); for_each m h nx fuel) = Some l.
Proof. intros [Hnd Hs] Hf. apply NoDup_cons in Hnd as [Hni _]. by apply (for_each_seg m h l h fuel). Qed.

Lemma list_empty_ring m h l : ring m h l -> list_empty m h = Some (bool_decide (l = [])).
Proof.
  intros [Hnd Hs]. unfold list_empty, get_next. simpl. destruct l as [|z l]; simpl in Hs.
  - destruct Hs as [E _]. unfold nxt in E. rewrite E. simpl. by rewrite !bool_decide_eq_true_2.
  - destruct Hs as (E & _ & _). unfold nxt in E. rewrite E. simpl. f_equal.
    apply bool_decide_eq_false_2.
    intros [= ->]. apply NoDup_cons in Hnd as [Hd _]. apply Hd, list_elem_of_here.
Qed.

Lemma list_init_ring m h : ring (list_init m h) h [].
Proof.
  split; [apply NoDup_singleton|]. unfold list_init, nxt, prv. simpl. unfold nxt, prv. by rewrite lookup_insert_eq.
Qed.

(** The members are link cells, so a walk that visits one a step ends in time. *)
Lemma ring_members m h l n : ring m h l -> n ∈ h :: l -> is_Some (m !! n).
Proof.
  intros [_ Hs] Hn. destruct (seg_ends m h l h Hs) as (Hh & _ & Hl).
  apply elem_of_cons in Hn as [->|Hn]; [done | by apply Hl].
Qed.
Lemma ring_bounded m h l : ring m h l -> (length l < S (size m))%nat.
Proof.
  intros Hr. assert (length (h :: l) <= size m)%nat as Hl; [|simpl in Hl; lia].
  rewrite <- size_dom. pose proof Hr as [Hnd _]. rewrite <- (size_list_to_set (C := gset A) (h :: l)) by done.
  apply subseteq_size. intros n Hn. apply elem_of_list_to_set in Hn. apply elem_of_dom. by eapply ring_members.
Qed.

(** A ring none of whose nodes changed. *)
Lemma ring_frame m m' h l : ring m h l -> (forall u, u ∈ h :: l -> m' !! u = m !! u) -> ring m' h l.
Proof.
  intros [Hnd Hs] Hf. split; [done|]. eapply seg_frame; [| |exact Hs]; intros u Hu; unfold nxt, prv;
    rewrite Hf; set_solver.
Qed.

(** A node that [list_del] has already unlinked is not unlinked again: its links
    are NULL and the first store faults. *)
Lemma list_del_null m n : m !! n = Some (mk_lh None None) -> list_del m n = None.
Proof. intros E. unfold list_del, get_prev, get_next. simpl. by rewrite E. Qed.

(** Deleting a node that points to itself touches no other. *)
Lemma list_del_self m n : m !! n = Some (mk_lh (Some n) (Some n)) ->
  exists m', list_del m n = Some m' /\ m' !! n = Some (mk_lh None None) /\ forall u, u <> n -> m' !! u = m !! u.
Proof.
  intros E. unfold list_del, get_prev, get_next, set_prev, set_next. simpl. rewrite E. simpl. rewrite E. simpl.
  rewrite !lookup_insert_eq. simpl. rewrite !lookup_insert_eq. simpl. rewrite !lookup_insert_eq. simpl. rewrite !lookup_insert_eq. simpl.
  eexists. split; [reflexivity|]. split; [apply lookup_insert_eq|]. intros u Hu. by rewrite !lookup_insert_ne.
Qed.

(** The intrusive lists are lists: on a ring standing for [l], insertion at
    the head or the tail of a node that is on no list gives [n :: l] or [l ++ [n]],
    deletion of a member removes exactly it and leaves it with NULL links, so that a
    second deletion faults, the emptiness test is exact, traversal visits [l] in
    order, and nodes outside the ring and [n] are untouched. *)
Theorem list_ops_correct m h l : ring m h l ->
  list_empty m h = Some (bool_decide (l = [])) /\
  (nx ← get_next m (Some h); for_each m h nx (S (length l))) = Some l /\
  (forall n, is_Some (m !! n) -> n ∉ h :: l ->
     (exists m', list_add m n h = Some m' /\ ring m' h (n :: l) /\ (forall u, u <> n -> u ∉ h :: l -> m' !! u = m !! u)) /\
     (exists m', list_add_tail m n h = Some m' /\ ring m' h (l ++ [n]) /\ (forall u, u <> n -> u ∉ h :: l -> m' !! u = m !! u))) /\
  (forall l1 n l2, l = l1 ++ n :: l2 ->
     exists m', list_del m n = Some m' /\ ring m' h (l1 ++ l2) /\ list_del m' n = None /\
       (forall u, u ∉ h :: l -> m' !! u = m !! u)).
Proof.
  intros R. split; [by apply list_empty_ring|]. split; [apply (for_each_ring m h l); [done|lia]|]. split.
  - intros n Hn Hni. split; [by apply list_add_ring | by apply list_add_tail_ring].
  - intros l1 n l2 ->. destruct (list_del_ring m h l1 n l2 R) as (m' & E & R' & En & Hf).
    exists m'. split_and!; auto using list_del_null.
Qed.

End list_head.

Arguments list_head : clear implicits.

Lemma list_ops_correct_witness : exists m', list_add (list_init {[2 := mk_lh None None]} 1) 2 1 = Some m' /\ ring m' 1 [2].
Proof.
  destruct (list_ops_correct (list_init {[2 := mk_lh None None]} 1) 1 []) as (_ & _ & Ha & _); [apply list_init_ring|].
  destruct (Ha 2) as [(m' & E & R & _) _]; [eexists; reflexivity | set_solver |]. exists m'. split; [exact E | exact R].
Defined.

End ListHead.
