(* ===== verification/Strings.v ===== *)
(** * include/nekros/string.h and lib/string.c

    A [const char *] is the list of bytes from the pointer to the end of the object it
    points into; reading past that end is a [Fault].  Returned pointers are
    offsets.  Bytes are 0..255; the sources compare characters with ASCII ranges
    only, so the sign of [char] does not matter.  [mem*] work on one array, with
    offsets, so that source and destination may overlap. *)

From Stdlib Require Import Ascii String.
From S2P Require Import Prelude Bytes.
Import Bytes.

Module Strings.

(** ** Memory *)

(** [while (n--) *d++ = c]. *)
Fixpoint memset (m : list Z) (d : nat) (c : Z) (n : nat) : list Z :=
  match n with O => m | S n' => memset (<[d := u8 c]> m) (S d) c n' end.
Definition memzero_explicit (m : list Z) (d n : nat) : list Z := memset m d 0 n.
(** Forward and backward copies. *)
Fixpoint memcpy (m : list Z) (d s n : nat) : list Z :=
  match n with O => m | S n' => memcpy (<[d := at_ m s]> m) (S d) (S s) n' end.
Fixpoint copy_down (m : list Z) (d s n : nat) : list Z :=
  match n with O => m | S n' => copy_down (<[(d + n')%nat := at_ m (s + n')%nat]> m) d s n' end.
Definition memmove (m : list Z) (d s n : nat) : list Z := if (d <? s)%nat then memcpy m d s n else copy_down m d s n.
Fixpoint memcmp (x y : list Z) (n : nat) : Z :=
  match n with
  | O => 0
  | S n' => if at_ x 0 =? at_ y 0 then memcmp (tail x) (tail y) n' else at_ x 0 - at_ y 0
  end.

(** ** Strings *)

Fixpoint strlen (s : list Z) : outcome nat :=
  match s with
  | [] => Fault
  | c :: s' => if c =? 0 then Done 0%nat else n ← strlen s'; Done (S n)
  end.
Fixpoint strnlen (s : list Z) (max : nat) : outcome nat :=
  match max with
  | O => Done 0%nat
  | S m => match s with
           | [] => Fault
           | c :: s' => if c =? 0 then Done 0%nat else n ← strnlen s' m; Done (S n)
           end
  end.
Fixpoint strcmp (a b : list Z) : outcome Z :=
  match a, b with
  | x :: a', y :: b' => if truthy x && (x =? y) then strcmp a' b' else Done (x - y)
  | _, _ => Fault
  end.
(** The loop ends with [n] at [(size_t)-1] exactly when it ran out of characters. *)
Fixpoint strncmp (a b : list Z) (n : nat) : outcome Z :=
  match n with
  | O => Done 0
  | S n' => match a, b with
            | x :: a', y :: b' => if truthy x && (x =? y) then strncmp a' b' n' else Done (x - y)
            | _, _ => Fault
            end
  end.
(** Copies: the bytes written from [dst] on. *)
Fixpoint strcpy (src : list Z) : outcome (list Z) :=
  match src with
  | [] => Fault
  | c :: src' => if c =? 0 then Done [0] else l ← strcpy src'; Done (c :: l)
  end.
Fixpoint strncpy (src : list Z) (n : nat) : outcome (list Z) :=
  match n with
  | O => Done []
  | S n' => match src with
            | [] => Fault
            | c :: src' => if c =? 0 then Done (replicate n 0) else l ← strncpy src' n'; Done (c :: l)
            end
  end.
(** The bytes written and the length returned. *)
Definition strlcpy (src : list Z) (size : nat) : outcome (list Z * nat) :=
  len ← strlen src;
  if (size =? 0)%nat then Done ([], len)
  else let n := if (len <? size - 1)%nat then len else (size - 1)%nat in
       Done (take n src ++ [0], len).

Fixpoint strchr_from (s : list Z) (c : Z) (i : nat) : outcome (option nat) :=
  match s with
  | [] => Fault
  | x :: s' => if x =? 0 then Done (if truthy c then None else Some i)
               else if x =? u8 c then Done (Some i) else strchr_from s' c (S i)
  end.
Definition strchr (s : list Z) (c : Z) : outcome (option nat) := strchr_from s c 0.
Fixpoint strrchr_from (s : list Z) (c : Z) (i : nat) (found : option nat) : outcome (option nat) :=
  match s with
  | [] => Fault
  | x :: s' => if x =? 0 then Done (if truthy c then found else Some i)
               else strrchr_from s' c (S i) (if x =? u8 c then Some i else found)
  end.
Definition strrchr (s : list Z) (c : Z) : outcome (option nat) := strrchr_from s c 0 None.

Fixpoint strstr_from (haystack needle : list Z) (nl i : nat) : outcome (option nat) :=
  match haystack with
  | [] => Fault
  | x :: h' => if x =? 0 then Done None
               else r ← strncmp haystack needle nl; if r =? 0 then Done (Some i) else strstr_from h' needle nl (S i)
  end.
Definition strstr (haystack needle : list Z) : outcome (option nat) :=
  nl ← strlen needle; if (nl =? 0)%nat then Done (Some 0%nat) else strstr_from haystack needle nl 0.

(** ** Numbers *)

Definition isdigit (c : Z) : bool := (48 <=? c) && (c <=? 57).
Definition isxdigit (c : Z) : bool := isdigit c || ((97 <=? c) && (c <=? 102)) || ((65 <=? c) && (c <=? 70)).
Definition isspace (c : Z) : bool := (c =? 32) || (c =? 9) || (c =? 10) || (c =? 13).
Definition toupper (c : Z) : Z := if (97 <=? c) && (c <=? 122) then c - 32 else c.
Definition tolower (c : Z) : Z := if (65 <=? c) && (c <=? 90) then c + 32 else c.
Definition digit (c : Z) : Z := if isdigit c then c - 48 else toupper c - 65 + 10.

Fixpoint skip_spaces (s : list Z) (i : nat) : outcome (list Z * nat) :=
  match s with
  | [] => Fault
  | c :: s' => if isspace c then skip_spaces s' (S i) else Done (s, i)
  end.
Fixpoint digits_loop (s : list Z) (base result : Z) (i : nat) : outcome (Z * nat) :=
  match s with
  | [] => Fault
  | c :: s' =>
      if isxdigit c then
        if base <=? digit c then Done (result, i) else digits_loop s' base (u64 (result * base + digit c)) (S i)
      else Done (result, i)
  end.
(** The value and the offset stored through [end]. *)
Definition simple_strtoull (s : list Z) (base : Z) : outcome (Z * nat) :=
  '(s, i) ← skip_spaces s 0;
  if base =? 0 then
    match s with
    | 48 :: x :: s' => if (x =? 120) || (x =? 88) then digits_loop s' 16 0 (i + 2) else digits_loop (x :: s') 8 0 (i + 1)
    | [48] => Fault
    | _ => digits_loop s 10 0 i
    end
  else digits_loop s base 0 i.

(** ** Hexadecimal *)

Definition hx : list Z := bytes_of_string "0123456789abcdef".
(** Two characters a byte, and the terminator. *)
Definition bytes_to_hex (l : list Z) : list Z :=
  concat (map (fun b => [at_ hx (Z.to_nat (Z.shiftr b 4)); at_ hx (Z.to_nat (Z.land b 0xf))]) l) ++ [0].
(** The bytes written, and the result; a string that ends early is refused before
    anything behind it is read, one character apart. *)
Fixpoint hex_to_bytes (hex : list Z) (len : nat) : outcome (list Z * Z) :=
  match len with
  | O => Done ([], 0)
  | S n =>
      match hex with
      | hi :: lo :: hex' =>
          if negb (isxdigit hi) || negb (isxdigit lo) then Done ([], - EINVAL)
          else '(l, r) ← hex_to_bytes hex' n;
               Done (u8 (Z.lor (Z.shiftl (digit hi) 4) (digit lo)) :: l, r)
      | _ => Fault
      end
  end.

(** ** Lemmas *)

Lemma at_lookup m i : (i < length m)%nat -> m !! i = Some (at_ m i).
Proof. intros Hi. apply lookup_lt_is_Some in Hi as [x Hx]. unfold at_. by rewrite nth_lookup, Hx. Qed.
(** Byte [i] after a copy that reads no byte it has written. *)
Definition copied (m : list Z) (d s n i : nat) : option Z := if decide (d <= i < d + n)%nat then m !! (s + (i - d))%nat else m !! i.

Lemma length_memcpy n : forall m d s, length (memcpy m d s n) = length m.
Proof. induction n as [|n IH]; intros; cbn [memcpy]; [done|]. by rewrite IH, length_insert. Qed.
Lemma length_copy_down n : forall m d s, length (copy_down m d s n) = length m.
Proof. induction n as [|n IH]; intros; cbn [copy_down]; [done|]. by rewrite IH, length_insert. Qed.

Lemma memcpy_lookup n : forall m d s i, (d < s \/ s + n <= d)%nat -> (d + n <= length m)%nat -> (s + n <= length m)%nat ->
  memcpy m d s n !! i = copied m d s n i.
Proof.
  unfold copied. induction n as [|n IH]; intros m d s i Ho Hd Hs; cbn [memcpy]; [by rewrite decide_False by lia|].
  rewrite IH by (rewrite ?length_insert; lia). destruct (decide (i = d)) as [->|Hne].
  - rewrite decide_False, decide_True, list_lookup_insert_eq by lia. rewrite Nat.sub_diag, Nat.add_0_r. symmetry. apply at_lookup. lia.
  - destruct (decide (S d <= i < S d + n)%nat).
    + rewrite decide_True, list_lookup_insert_ne by lia. f_equal. lia.
    + rewrite decide_False, list_lookup_insert_ne by lia. done.
Qed.
Lemma copy_down_lookup n : forall m d s i, (s <= d)%nat -> (d + n <= length m)%nat -> copy_down m d s n !! i = copied m d s n i.
Proof.
  unfold copied. induction n as [|n IH]; intros m d s i Ho Hd; cbn [copy_down]; [by rewrite decide_False by lia|].
  rewrite IH by (rewrite ?length_insert; lia). destruct (decide (i = d + n)%nat) as [->|Hne].
  - rewrite decide_False, decide_True, list_lookup_insert_eq by lia. replace (s + (d + n - d))%nat with (s + n)%nat by lia. symmetry. apply at_lookup. lia.
  - destruct (decide (d <= i < d + n)%nat).
    + rewrite decide_True, list_lookup_insert_ne by lia. done.
    + rewrite decide_False, list_lookup_insert_ne by lia. done.
Qed.

Lemma strlen_terminated l rest : 0 ∉ l -> strlen (l ++ 0 :: rest) = Done (length l).
Proof.
  induction l as [|c l IH]; intros Hl; cbn [app strlen]; [done|]. apply not_elem_of_cons in Hl as [Hc Hl].
  rewrite (proj2 (Z.eqb_neq _ _)) by congruence. by rewrite IH.
Qed.

(** ** Theorems *)

(** [memmove] moves the bytes whatever the overlap; [memcpy] as the kernel has it does
    so when the destination is below the source, or apart from it. *)
Theorem memmove_moves m d s n : (d + n <= length m)%nat -> (s + n <= length m)%nat ->
  memmove m d s n = splice m d (slice m s n) /\ ((d < s \/ s + n <= d)%nat -> memcpy m d s n = splice m d (slice m s n)).
Proof.
  intros Hd Hs. assert (forall l, (forall i, l !! i = copied m d s n i) -> l = splice m d (slice m s n)) as He.
  { intros l Hl. apply list_eq. intros i. rewrite Hl, lookup_splice, length_slice by (rewrite ?length_slice; lia). unfold copied.
    case_decide; [|done]. by rewrite lookup_slice, decide_True by lia. }
  split; [|intros Ho; apply He; intros i; by apply memcpy_lookup]. apply He. intros i. unfold memmove.
  destruct (Nat.ltb_spec d s); [apply memcpy_lookup; auto | by apply copy_down_lookup].
Qed.

(** Bounded copy: [strlcpy] writes at most [size] bytes, always a terminated string
    that is the longest prefix of the source fitting, and returns the length of
    the source. *)
Theorem strlcpy_bounded l rest size : 0 ∉ l ->
  exists w, strlcpy (l ++ 0 :: rest) size = Done (w, length l) /\ (length w <= size)%nat /\
    ((0 < size)%nat -> w = take (size - 1) l ++ [0]).
Proof.
  intros Hl. unfold strlcpy. rewrite strlen_terminated by done. cbn [mbind outcome_bind]. destruct (Nat.eqb_spec size 0) as [->|Hs].
  - exists []. split; [done|]. split; [done | lia].
  - eexists. split; [reflexivity|]. assert (forall n, (n <= length l)%nat -> take n (l ++ 0 :: rest) = take n l) as Et by (intros; by apply take_app_le).
    destruct (Nat.ltb_spec (length l) (size - 1)).
    + rewrite Et, take_ge by lia. rewrite length_app. cbn [length]. split; [lia|]. intros _. by rewrite take_ge by lia.
    + rewrite Et, length_app, length_take by lia. cbn [length]. split; [lia | done].
Qed.

End Strings.
