(* ===== verification/Printk.v ===== *)
(** * kernel/printk.c: the console

    Serial line and VGA text buffer, the number and format printers, [panic].  The
    theorems about it and about the string functions are at the end. *)

From Stdlib Require Import Ascii String.
From S2P Require Import Prelude Bytes Strings.
Import Bytes Strings.

Module Printk.

Definition VGA_COLS : Z := 80.
Definition VGA_ROWS : Z := 25.

Record console := mk_console {
  serial_ready : bool;
  serial : list Z;             (* bytes sent, the newest last *)
  vga_buf : list Z;            (* 80 x 25 cells of 16 bits *)
  vga_col : Z; vga_row : Z;
  vga_attr : Z
}.

(** The divisor and line control writes to COM1 precede it. *)
Definition serial_init (c : console) : console := mk_console true (serial c) (vga_buf c) (vga_col c) (vga_row c) (vga_attr c).

Definition serial_putc (c : console) (ch : Z) : console :=
  if negb (serial_ready c) then c
  else mk_console true (serial c ++ (if ch =? 10 then [10; 13] else [u8 ch])) (vga_buf c) (vga_col c) (vga_row c) (vga_attr c).

Definition blank (c : console) : Z := Z.lor (Z.shiftl (vga_attr c) 8) 32.
(** Rows move up by one and the last is cleared. *)
Definition vga_scroll (c : console) : console :=
  let n := Z.to_nat VGA_COLS in
  mk_console (serial_ready c) (serial c)
    (slice (vga_buf c) n (Z.to_nat (VGA_ROWS - 1) * n) ++ replicate n (blank c) ++ drop (Z.to_nat VGA_ROWS * n) (vga_buf c))
    (vga_col c) (VGA_ROWS - 1) (vga_attr c).

Definition vga_putc (c : console) (ch : Z) : outcome console :=
  let mk b x y := mk_console (serial_ready c) (serial c) b x y (vga_attr c) in
  c' ← (if ch =? 10 then Done (mk (vga_buf c) 0 (u32 (vga_row c + 1)))
        else if ch =? 13 then Done (mk (vga_buf c) 0 (vga_row c))
        else
          let i := u32 (vga_row c * VGA_COLS + vga_col c) in
          if Z.of_nat (length (vga_buf c)) <=? i then Fault else
          let b := <[Z.to_nat i := Z.lor (Z.shiftl (vga_attr c) 8) (u8 ch)]> (vga_buf c) in
          let x := u32 (vga_col c + 1) in
          Done (if VGA_COLS <=? x then mk b 0 (u32 (vga_row c + 1)) else mk b x (vga_row c)));
  Done (if VGA_ROWS <=? vga_row c' then vga_scroll c' else c').

Definition put_char (c : console) (ch : Z) : outcome console := vga_putc (serial_putc c ch) ch.
Fixpoint put_chars (c : console) (l : list Z) : outcome console :=
  match l with [] => Done c | ch :: l' => c ← put_char c ch; put_chars c l' end.
(** [while ( *s) put_char( *s++)]. *)
Fixpoint put_str (c : console) (s : list Z) : outcome console :=
  match s with
  | [] => Fault
  | ch :: s' => if ch =? 0 then Done c else c ← put_char c ch; put_str c s'
  end.

(** ** Numbers *)

Definition digits_lo : list Z := bytes_of_string "0123456789abcdef".
Definition digits_hi : list Z := bytes_of_string "0123456789ABCDEF".
(** [buf], the least significant digit first; 64 rounds are enough for any base. *)
Fixpoint digits_of (v base : Z) (upper : bool) (fuel : nat) : list Z :=
  match fuel with
  | O => []
  | S f => if truthy v then at_ (if upper then digits_hi else digits_lo) (Z.to_nat (v mod base)) :: digits_of (v / base) base upper f else []
  end.
Definition u64_chars (v base : Z) (upper : bool) (width pad : Z) : list Z :=
  let b := if truthy v then digits_of v base upper 64 else [48] in
  replicate (Z.to_nat (width - Z.of_nat (length b))) pad ++ rev b.
Definition put_u64_base (c : console) (v base : Z) (upper : bool) (width pad : Z) : outcome console := put_chars c (u64_chars v base upper width pad).
Definition put_s64 (c : console) (v width pad : Z) : outcome console :=
  if v <? 0 then c ← put_char c 45; put_u64_base c (u64 (- v)) 10 false (width - 1) pad
  else put_u64_base c (u64 v) 10 false width pad.

(** ** Formats *)

(** An argument of the call: an integer or pointer as its 64-bit pattern, or a string
    ([None] for NULL). *)
Inductive arg := AInt (v : Z) | AStr (s : option (list Z)).

Fixpoint width_loop (f : list Z) (width : Z) : outcome (list Z * Z) :=
  match f with
  | [] => Fault
  | c :: f' => if isdigit c then width_loop f' (s32 (width * 10 + (c - 48))) else Done (f, width)
  end.
(** After the '%': padding, width, long, and the string from the conversion on. *)
Definition parse_flags (f : list Z) : outcome (Z * Z * bool * list Z) :=
  match f with
  | [] => Fault
  | c0 :: f0 =>
      let pad := if c0 =? 48 then 48 else 32 in
      '(f, width) ← width_loop (if c0 =? 48 then f0 else f) 0;
      match f with
      | 108 :: 108 :: f' | 108 :: f' => Done (pad, width, true, f')
      | _ => Done (pad, width, false, f)
      end
  end.

Definition null_str : list Z := bytes_of_string "(null)" ++ [0].
Definition convert (c : console) (conv pad width : Z) (long : bool) (args : list arg) : outcome (console * list arg) :=
  let int_arg := match args with AInt v :: a => Done (v, a) | _ => Fault end in
  let uint v := if long then v else u32 v in
  if (conv =? 100) || (conv =? 105) then '(v, a) ← int_arg; c ← put_s64 c (if long then s64 v else s32 v) width pad; Done (c, a)
  else if conv =? 117 then '(v, a) ← int_arg; c ← put_u64_base c (uint v) 10 false width pad; Done (c, a)
  else if conv =? 120 then '(v, a) ← int_arg; c ← put_u64_base c (uint v) 16 false width pad; Done (c, a)
  else if conv =? 88 then '(v, a) ← int_arg; c ← put_u64_base c (uint v) 16 true width pad; Done (c, a)
  else if conv =? 112 then
    '(v, a) ← int_arg; c ← put_chars c (bytes_of_string "0x"); c ← put_u64_base c v 16 false 16 48; Done (c, a)
  else if conv =? 115 then
    match args with
    | AStr s :: a => c ← put_str c (match s with Some s => s | None => null_str end); Done (c, a)
    | _ => Fault
    end
  else if conv =? 99 then '(v, a) ← int_arg; c ← put_char c (u8 v); Done (c, a)
  else if conv =? 37 then c ← put_char c 37; Done (c, args)
  else c ← put_char c 37; c ← put_char c conv; Done (c, args).

(** The loop over the format; a round consumes a character. *)
Fixpoint format_loop (c : console) (f : list Z) (args : list arg) (fuel : nat) : outcome console :=
  match fuel with
  | O => Fault
  | S n =>
      match f with
      | [] => Fault
      | ch :: f' =>
          if ch =? 0 then Done c
          else if negb (ch =? 37) then c ← put_char c ch; format_loop c f' args n
          else
            '(pad, width, long, f) ← parse_flags f';
            match f with
            | [] => Fault
            | conv :: f'' => '(c, args) ← convert c conv pad width long args; format_loop c f'' args n
            end
      end
  end.

(** [fmt[0] == '<' && fmt[2] == '>']. *)
Definition strip_level (fmt : list Z) : outcome (list Z) :=
  match fmt with
  | [] => Fault
  | c0 :: _ => if c0 =? 60 then match fmt with
                                | _ :: _ :: c2 :: f => Done (if c2 =? 62 then f else fmt)
                                | _ => Fault
                                end
               else Done fmt
  end.
Definition printk (c : console) (fmt : option (list Z)) (args : list arg) : outcome console :=
  match fmt with
  | None => Done c
  | Some fmt => f ← strip_level fmt; format_loop c f args (S (length f))
  end.

(** What [panic] and [panic_raw] leave on the console before they halt. *)
Definition set_attr (c : console) (a : Z) : console := mk_console (serial_ready c) (serial c) (vga_buf c) (vga_col c) (vga_row c) a.
Definition banner : list Z := [10; 10] ++ bytes_of_string "*** NEKROS PANIC ***" ++ [10; 0].
Definition halted : list Z := [10] ++ bytes_of_string "System halted." ++ [10; 0].
Definition panic (c : console) (fmt : list Z) : outcome console :=
  c ← put_str c banner; c ← put_str (set_attr c 0x4F) fmt; put_str c halted.
Definition panic_raw (c : console) (msg : list Z) : outcome console :=
  c ← put_str (set_attr c 0x4F) banner; c ← put_str c msg; put_str c halted.

(** ** The console *)

(** The cursor is inside the buffer. *)
Record good (c : console) : Prop := {
  go_len : length (vga_buf c) = Z.to_nat (VGA_ROWS * VGA_COLS);
  go_col : 0 <= vga_col c < VGA_COLS;
  go_row : 0 <= vga_row c < VGA_ROWS
}.
(** What goes over the serial line for the characters [l]. *)
Definition wire (c : console) (l : list Z) : list Z :=
  if serial_ready c then concat (map (fun ch => if ch =? 10 then [10; 13] else [u8 ch]) l) else [].
(** [c'] is [c] after printing [l]. *)
Record printed (c : console) (l : list Z) (c' : console) : Prop := {
  pr_good : good c';
  pr_serial : serial c' = serial c ++ wire c l;
  pr_ready : serial_ready c' = serial_ready c
}.

Lemma printed_nil c : good c -> printed c [] c.
Proof. intros H. split; [done| |done]. unfold wire. destruct (serial_ready c); by rewrite app_nil_r. Qed.
Lemma printed_app c l1 c1 l2 c2 : printed c l1 c1 -> printed c1 l2 c2 -> printed c (l1 ++ l2) c2.
Proof.
  intros [_ H1 R1] [H2 H3 R2]. split; [done| |congruence]. rewrite H3, H1, <- app_assoc. f_equal. unfold wire. rewrite R1.
  destruct (serial_ready c); [|done]. by rewrite map_app, concat_app.
Qed.

Lemma scroll_good c : length (vga_buf c) = Z.to_nat (VGA_ROWS * VGA_COLS) -> 0 <= vga_col c < VGA_COLS -> good (vga_scroll c).
Proof.
  intros Hl Hc. split; cbn [vga_scroll vga_buf vga_col vga_row]; [|done|by split].
  rewrite !length_app, length_replicate, length_drop, length_slice, Hl; unfold VGA_ROWS, VGA_COLS in *; rewrite ?Hl; lia.
Qed.

Lemma put_char_ok c ch : good c -> exists c', put_char c ch = Done c' /\ printed c [ch] c'.
Proof.
  intros [Hl Hc Hr]. unfold put_char, vga_putc. set (c0 := serial_putc c ch).
  assert (vga_buf c0 = vga_buf c /\ vga_col c0 = vga_col c /\ vga_row c0 = vga_row c /\ serial_ready c0 = serial_ready c /\ serial c0 = serial c ++ wire c [ch])
    as (-> & -> & -> & -> & ->).
  { unfold c0, serial_putc, wire. destruct (serial_ready c) eqn:Er; cbn [negb map concat]; rewrite ?app_nil_r; repeat split; congruence. }
  pose (mk b x y := mk_console (serial_ready c) (serial c ++ wire c [ch]) b x y (vga_attr c0)). assert (forall b x y, length b = length (vga_buf c) -> 0 <= x < VGA_COLS -> 0 <= y <= VGA_ROWS ->
    printed c [ch] (if VGA_ROWS <=? vga_row (mk b x y) then vga_scroll (mk b x y) else mk b x y)) as Hmk.
  { intros b x y Hb Hx Hy. destruct (Z.leb_spec VGA_ROWS (vga_row (mk b x y))); (split; [|done|done]).
    - apply scroll_good; cbn; [congruence | done].
    - split; cbn in *; [congruence | done | lia]. }
  unfold VGA_COLS, VGA_ROWS in *. destruct (ch =? 10).
  { cbn [mbind outcome_bind]. eexists. split; [reflexivity|]. apply Hmk; [done | lia | rewrite u32_small; lia]. }
  destruct (ch =? 13).
  { cbn [mbind outcome_bind]. eexists. split; [reflexivity|]. apply Hmk; [done | lia | lia]. }
  rewrite u32_small, (proj2 (Z.leb_gt _ _)), (u32_small (vga_col c + 1)) by lia. cbn [mbind outcome_bind].
  destruct (Z.leb_spec 80 (vga_col c + 1)); (eexists; split; [reflexivity|]); apply Hmk; rewrite ?length_insert, ?u32_small; try done; lia.
Qed.

(** A printer prints some characters and returns some value, the same on every console,
    or faults on every console. *)
Definition renders {A} (f : console -> outcome (console * A)) : Prop :=
  (exists out a, forall c, good c -> exists c', f c = Done (c', a) /\ printed c out c') \/ (forall c, good c -> f c = Fault).

Lemma renders_ret {A} (a : A) : renders (fun c => Done (c, a)).
Proof. left. exists [], a. intros c Hc. exists c. split; [done | by apply printed_nil]. Qed.
Lemma renders_fault {A} : renders (fun _ => @Fault (console * A)).
Proof. by right. Qed.
Lemma renders_bind {A B} (f : console -> outcome (console * A)) (g : A -> console -> outcome (console * B)) :
  renders f -> (forall a, renders (g a)) -> renders (fun c => r ← f c; g r.2 r.1).
Proof.
  intros [(l1 & a & Hf)|Hf] Hg; [|right; intros c Hc; by rewrite Hf].
  destruct (Hg a) as [(l2 & b & H2)|H2].
  - left. exists (l1 ++ l2), b. intros c Hc. destruct (Hf c Hc) as (c1 & -> & P1). destruct (H2 c1 (pr_good _ _ _ P1)) as (c2 & E2 & P2).
    exists c2. split; [done | by eapply printed_app].
  - right. intros c Hc. destruct (Hf c Hc) as (c1 & -> & P1). cbn. apply H2, P1.
Qed.
(** Printers without a result. *)
Definition prints (f : console -> outcome console) : Prop := renders (fun c => c' ← f c; Done (c', tt)).
Lemma prints_bind {B} (f : console -> outcome console) (g : console -> outcome (console * B)) : prints f -> renders g -> renders (fun c => c' ← f c; g c').
Proof.
  intros Hf Hg. destruct (renders_bind _ (fun _ : unit => g) Hf ltac:(done)) as [(l & b & H)|H]; [left; exists l, b|right]; intros c Hc; specialize (H c Hc);
    by destruct (f c).
Qed.
Lemma prints_seq (f g : console -> outcome console) : prints f -> prints g -> prints (fun c => c' ← f c; g c').
Proof.
  intros Hf Hg. destruct (prints_bind f _ Hf Hg) as [(l & b & H)|H]; [left; exists l, b|right]; intros c Hc; specialize (H c Hc); by destruct (f c).
Qed.
Lemma prints_ret : prints Done.
Proof. exact (renders_ret tt). Qed.
Lemma prints_char ch : prints (fun c => put_char c ch).
Proof. left. exists [ch], tt. intros c Hc. destruct (put_char_ok c ch Hc) as (c' & -> & P). by exists c'. Qed.
Lemma prints_chars l : prints (fun c => put_chars c l).
Proof. induction l as [|ch l IH]; [exact prints_ret|]. exact (prints_seq _ _ (prints_char ch) IH). Qed.
Lemma prints_str s : prints (fun c => put_str c s).
Proof.
  induction s as [|ch s IH]; [by right|]. cbn [put_str]. destruct (ch =? 0); [exact prints_ret|]. exact (prints_seq _ _ (prints_char ch) IH).
Qed.
Lemma prints_s64 v width pad : prints (fun c => put_s64 c v width pad).
Proof.
  unfold put_s64. destruct (v <? 0); [|apply prints_chars]. exact (prints_seq _ _ (prints_char 45) (prints_chars _)).
Qed.
#[local] Hint Resolve prints_char prints_chars prints_str prints_s64 renders_ret renders_fault prints_bind : nekros.

Lemma renders_convert conv pad width long args : renders (fun c => convert c conv pad width long args).
Proof.
  unfold convert, put_u64_base. repeat case_match; cbn [mbind outcome_bind]; try (by right); try (apply prints_bind; [|apply renders_ret]); auto with nekros.
  all: try (apply (prints_bind (fun c => put_chars c _)); [apply prints_chars|]; apply prints_bind; auto with nekros).
  all: apply prints_bind; [apply prints_char|]; apply prints_bind; auto with nekros.
Qed.

Lemma renders_ext {A} (f g : console -> outcome (console * A)) : (forall c, f c = g c) -> renders g -> renders f.
Proof. intros E [(l & a & H)|H]; [left; exists l, a|right]; intros c Hc; rewrite E; by apply H. Qed.
Lemma parse_flags_no_panic f : parse_flags f <> Panic.
Proof.
  assert (forall l w, width_loop l w <> Panic) as Hw by (induction l as [|c l IH]; intros w; cbn; [done|]; by case_match).
  unfold parse_flags. destruct f as [|c0 f]; [done|]. destruct (width_loop _ 0) as [[l w]| |] eqn:E; cbn [mbind outcome_bind]; [|by apply Hw in E|done].
  repeat case_match; done.
Qed.

Lemma prints_format fuel : forall f args, prints (fun c => format_loop c f args fuel).
Proof.
  induction fuel as [|n IH]; intros f args; cbn [format_loop]; [by right|]. destruct f as [|ch f]; [by right|].
  destruct (ch =? 0); [exact prints_ret|]. destruct (ch =? 37); cbn [negb].
  - destruct (parse_flags f) as [[[[pad width] long] [|conv f']]| |] eqn:E; cbn [mbind outcome_bind]; [by right| |by destruct (parse_flags_no_panic f)|by right].
    eapply renders_ext; [|exact (renders_bind _ (fun a c => c' ← format_loop c f' a n; Done (c', tt)) (renders_convert conv pad width long args) (IH f'))].
    intros c. cbv beta. by destruct (convert c conv pad width long args) as [[? ?]| |].
  - exact (prints_seq _ _ (prints_char ch) (IH f args)).
Qed.


(** ** Printing and parsing numbers *)

Definition is_digit_of (base c : Z) : Prop := isxdigit c = true /\ 0 <= digit c < base.
Definition value (base : Z) (r : Z) (l : list Z) : Z := foldl (fun r c => r * base + digit c) r l.

Lemma digit_char (upper : bool) k : 0 <= k < 16 -> let c := at_ (if upper then digits_hi else digits_lo) (Z.to_nat k) in isxdigit c = true /\ digit c = k.
Proof.
  intros Hk. assert (k ∈ seqZ 0 16) as Hin by (apply elem_of_seqZ; lia).
  assert (Forall (fun k => let c := at_ (if upper then digits_hi else digits_lo) (Z.to_nat k) in isxdigit c = true /\ digit c = k) (seqZ 0 16)) as HF.
  { cbv zeta. destruct upper; apply (bool_decide_unpack _); vm_compute; exact I. }
  rewrite Forall_forall in HF. by apply HF.
Qed.

Lemma digits_of_ok base upper fuel : 2 <= base <= 16 -> forall v, 0 <= v < base ^ Z.of_nat fuel ->
  Forall (is_digit_of base) (digits_of v base upper fuel) /\ value base 0 (rev (digits_of v base upper fuel)) = v.
Proof.
  intros Hb. induction fuel as [|f IH]; intros v Hv; cbn [digits_of].
  - split; [constructor|]. cbn in *. lia.
  - unfold truthy. destruct (Z.eqb_spec v 0) as [->|Hne]; cbn [negb]; [split; [constructor | done]|].
    rewrite Nat2Z.inj_succ, Z.pow_succ_r in Hv by lia. pose proof (Z.mod_pos_bound v base ltac:(lia)).
    destruct (IH (v / base)) as [H1 H2]; [split; [apply Z.div_pos; lia | apply Z.div_lt_upper_bound; lia]|].
    destruct (digit_char upper (v mod base) ltac:(lia)) as [D1 D2]. split.
    + constructor; [|done]. split; [done|]. rewrite D2. lia.
    + cbn [rev]. unfold value in *. rewrite foldl_app, H2. cbn [foldl]. rewrite D2. pose proof (Z.div_mod v base). lia.
Qed.

Lemma value_mono base l : forall r, 1 <= base -> 0 <= r -> Forall (is_digit_of base) l -> r <= value base r l.
Proof.
  unfold value. induction l as [|c l IH]; intros r Hb Hr Hl; cbn [foldl]; [lia|]. apply Forall_cons in Hl as [[_ Hc] Hl].
  specialize (IH (r * base + digit c) Hb ltac:(nia) Hl). nia.
Qed.
Lemma digits_loop_ok base l rest : 1 <= base -> Forall (is_digit_of base) l -> forall r i, 0 <= r -> value base r l < 2 ^ 64 ->
  digits_loop (l ++ rest) base r i = digits_loop rest base (value base r l) (i + length l).
Proof.
  intros Hb. induction l as [|c l IH]; intros Hl r i Hr Hv; cbn [app digits_loop length]; [by rewrite Nat.add_0_r|].
  apply Forall_cons in Hl as [[Hx Hc] Hl]. rewrite Hx, (proj2 (Z.leb_gt _ _)) by lia. cbn [value foldl] in Hv. fold (value base) in Hv.
  pose proof (value_mono base l (r * base + digit c) Hb ltac:(nia) Hl) as Hm. change (foldl _ (r * base + digit c) l) with (value base (r * base + digit c) l) in Hv.
  rewrite u64_small by nia. rewrite IH by (done || nia). by rewrite Nat.add_succ_r.
Qed.

Lemma u64_chars_digits v base upper width : 2 <= base <= 16 -> 0 <= v < 2 ^ 64 ->
  exists n l, u64_chars v base upper width 48 = replicate n 48 ++ l /\ u64_chars v base upper width 32 = replicate n 32 ++ l /\
    Forall (is_digit_of base) l /\ value base 0 l = v /\ l <> [].
Proof.
  intros Hb Hv. unfold u64_chars. destruct (Z.eq_dec v 0) as [->|Hne].
  - exists (Z.to_nat (width - 1)), [48]. repeat split; try done. constructor; [|done]. split; [done|]. cbn. lia.
  - unfold truthy. rewrite (proj2 (Z.eqb_neq _ _)) by done. cbn [negb]. eexists _, _. split; [reflexivity|]. split; [reflexivity|].
    destruct (digits_of_ok base upper 64 Hb v) as [H1 H2].
    { split; [lia|]. eapply Z.lt_le_trans; [apply Hv|]. apply Z.pow_le_mono_l. lia. }
    split; [by apply Forall_rev|]. split; [done|]. intros E. rewrite E in H2. cbn in H2. lia.
Qed.

Lemma value_zeros base n : foldl (fun r c => r * base + digit c) 0 (replicate n 48) = 0.
Proof. induction n as [|n IH]; [done|]. cbn [replicate foldl]. rewrite Z.mul_0_l. exact IH. Qed.
Lemma xdigit_not_space c : isxdigit c = true -> isspace c = false.
Proof.
  intros Hx. destruct (isspace c) eqn:E; [|done]. unfold isspace in E. rewrite !orb_true_iff, !Z.eqb_eq in E.
  destruct E as [[[->| ->]| ->]| ->]; discriminate Hx.
Qed.

(** Numbers printed by [printk] parse back: for every 64-bit value, in decimal and in
    hexadecimal of either case, padded to any width with zeros or spaces,
    [simple_strtoull] returns the value and stops at the end of the number. *)
Theorem print_parse_round_trip v base upper width pad rest : 0 <= v < 2 ^ 64 -> base = 10 \/ base = 16 -> pad = 48 \/ pad = 32 ->
  let text := u64_chars v base upper width pad in
  simple_strtoull (text ++ 0 :: rest) base = Done (v, length text).
Proof.
  intros Hv Hb Hp text. assert (2 <= base <= 16) as Hb' by lia. destruct (u64_chars_digits v base upper width Hb' Hv) as (n & l & E48 & E32 & Hl & Hval & Hne).
  assert (forall i, digits_loop (l ++ 0 :: rest) base 0 i = Done (v, i + length l)%nat) as Hd.
  { intros i. rewrite digits_loop_ok by (done || lia). by rewrite Hval. }
  assert (forall m, skip_spaces (l ++ m) 0 = Done (l ++ m, 0%nat) /\ forall k, skip_spaces (replicate k 32 ++ l ++ m) 0 = Done (l ++ m, k)) as Hsk.
  { intros m. destruct l as [|c l]; [done|]. assert (isspace c = false) as Hc.
    { apply Forall_cons in Hl as [[Hx _] _]. by apply xdigit_not_space. }
    assert (forall k i, skip_spaces (replicate k 32 ++ (c :: l) ++ m) i = Done ((c :: l) ++ m, i + k)%nat) as H.
    { induction k as [|k IH]; intros i; cbn [replicate app skip_spaces]; [by rewrite Hc, Nat.add_0_r|].
      change (isspace 32) with true. cbn iota. rewrite IH. by rewrite Nat.add_succ_r. }
    split; [apply (H 0%nat) | intros k; apply (H k)]. }
  unfold simple_strtoull, text. destruct Hp as [->| ->].
  - rewrite E48. assert (Forall (is_digit_of base) (replicate n 48 ++ l)) as Hall.
    { apply Forall_app. split; [|done]. apply Forall_replicate. split; [done|]. cbn. lia. }
    assert (value base 0 (replicate n 48 ++ l) = v) as Hv0.
    { unfold value in *. rewrite foldl_app. by rewrite value_zeros. }
    destruct (replicate n 48 ++ l) as [|c l'] eqn:El; [by destruct n, l|]. cbn [app skip_spaces].
    assert (isspace c = false) as ->.
    { apply Forall_cons in Hall as [[Hx _] _]. by apply xdigit_not_space. }
    cbn [mbind outcome_bind]. rewrite (proj2 (Z.eqb_neq base 0)) by lia.
    change (c :: l' ++ 0 :: rest) with ((c :: l') ++ 0 :: rest). rewrite digits_loop_ok by (done || lia). by rewrite Hv0.
  - rewrite E32, <- app_assoc. rewrite (proj2 (Hsk _)). cbn [mbind outcome_bind]. rewrite (proj2 (Z.eqb_neq base 0)) by lia.
    rewrite Hd. by rewrite length_app, length_replicate.
Qed.

Lemma print_parse_round_trip_witness : u64_chars 48879 16 false 8 48 = [48; 48; 48; 48; 98; 101; 101; 102] /\
  simple_strtoull (u64_chars 48879 16 false 8 48 ++ 0 :: [65]) 16 = Done (48879, 8%nat).
Proof. split; [reflexivity|]. apply (print_parse_round_trip 48879 16 false 8 48 [65]); [lia | right; reflexivity | left; reflexivity]. Defined.

(** Hexadecimal dumps read back. *)
Theorem hex_round_trip l rest : bytes_ok l -> hex_to_bytes (bytes_to_hex l ++ rest) (length l) = Done (l, 0).
Proof.
  unfold bytes_to_hex. assert (forall b, byte_ok b -> isxdigit (at_ hx (Z.to_nat (Z.shiftr b 4))) = true /\ isxdigit (at_ hx (Z.to_nat (Z.land b 0xf))) = true /\
    u8 (Z.lor (Z.shiftl (digit (at_ hx (Z.to_nat (Z.shiftr b 4)))) 4) (digit (at_ hx (Z.to_nat (Z.land b 0xf))))) = b) as Hb.
  { intros b Hb. assert (b ∈ seqZ 0 256) as Hin by (apply elem_of_seqZ; unfold byte_ok in Hb; lia).
    match goal with |- ?P => assert (Forall (fun b => isxdigit (at_ hx (Z.to_nat (Z.shiftr b 4))) = true /\ isxdigit (at_ hx (Z.to_nat (Z.land b 0xf))) = true /\
      u8 (Z.lor (Z.shiftl (digit (at_ hx (Z.to_nat (Z.shiftr b 4)))) 4) (digit (at_ hx (Z.to_nat (Z.land b 0xf))))) = b) (seqZ 0 256)) as HF end.
    { apply (bool_decide_unpack _). vm_compute. exact I. }
    rewrite Forall_forall in HF. by apply HF. }
  induction 1 as [|b l Hb0 _ IH]; [done|]. cbn [map concat app length hex_to_bytes]. destruct (Hb b Hb0) as (E1 & E2 & E3). rewrite E1, E2. cbn [negb orb].
  rewrite IH. cbn [mbind outcome_bind]. by rewrite E3.
Qed.

(** A format that ends in a percent sign is read past its end; a minus sign is not a
    flag. *)
Definition text (s : string) : list Z := bytes_of_string s ++ [0].
Definition console_ex : console := mk_console true [] (replicate 2000 0) 0 0 7.
Theorem format_departures :
  printk console_ex (Some (text "100%")) [] = Fault /\
  exists c, printk console_ex (Some (text "%-4s|%3d")) [AInt (2 ^ 64 - 5)] = Done c /\ serial c = bytes_of_string "%-4s|- 5".
Proof. split; [vm_compute; reflexivity|]. eexists. split; [vm_compute; reflexivity|]. vm_compute. reflexivity. Qed.

End Printk.
