(* ===== verification/Coc.v ===== *)
(** * crypto/coc.c: the chain of custody

    The array of 256 links, its eviction, recording and verification.  The
    theorems relate it to the unbounded chain of everything ever recorded, whose
    head commits to that whole history up to a collision of SHA-256. *)

From S2P Require Import Prelude Bytes Sha256 Sha256Proof.
Import Bytes Sha256 Sha256Proof.

Module Coc.

Definition COC_SRC_BOOT : Z := 0.
Definition COC_MAX_ENTRIES : Z := 256.

Record coc_link := mk_link { hash : list Z; seq : Z; timestamp_ns : Z; source_id : Z }.

Record coc := mk_coc {
  coc_chain : list coc_link;    (* [coc_chain[COC_MAX_ENTRIES]] *)
  coc_count : Z;
  coc_boot_tsc : Z
}.

Definition zero_link : coc_link := mk_link (replicate 32 0) 0 0 0.

(** [u] is the uninitialised hashing context on the stack, [tsc] the counter. *)
Definition coc_init (u : sha256_ctx) (tsc : Z) : coc :=
  let chain := replicate (Z.to_nat COC_MAX_ENTRIES) zero_link in
  let genesis := mk_link (sha256 u (replicate 64 0)) 0 0 COC_SRC_BOOT in
  mk_coc (<[0%nat := genesis]> chain) 1 tsc.

(** [memmove(&coc_chain[1], &coc_chain[2], (COC_MAX_ENTRIES - 2) * sizeof)]. *)
Definition evict (c : list coc_link) : list coc_link :=
  let n := Z.to_nat (COC_MAX_ENTRIES - 2) in
  take 1 c ++ take n (drop 2 c) ++ drop (1 + n) c.

(** The digest both functions compute; [data] is empty where nothing is added. *)
Definition link_hash (u : sha256_ctx) (prev_hash : list Z) (sq ts src : Z) (data : list Z) : list Z :=
  let ctx := sha256_update (sha256_init u) prev_hash in
  let ctx := sha256_update ctx (le_bytes 8 sq) in
  let ctx := sha256_update ctx (le_bytes 8 ts) in
  let ctx := sha256_update ctx (le_bytes 4 src) in
  let ctx := match data with [] => ctx | _ => sha256_update ctx data end in
  (sha256_final ctx).2.

(** The new state and the link copied to [out].  Before [coc_init] the predecessor
    is [coc_chain[0xFFFFFFFF]]. *)
Definition coc_record (u : sha256_ctx) (tsc : Z) (s : coc) (source : Z) (data : list Z) : outcome (coc * coc_link) :=
  let full := COC_MAX_ENTRIES <=? coc_count s in
  let chain := if full then evict (coc_chain s) else coc_chain s in
  let n := if full then COC_MAX_ENTRIES - 1 else coc_count s in
  prev ← faulting (chain !! Z.to_nat (u32 (n - 1)));
  let sq := u64 (seq prev + 1) in
  let ts := u64 (tsc - coc_boot_tsc s) in
  let cur := mk_link (link_hash u (hash prev) sq ts source data) sq ts source in
  Done (mk_coc (<[Z.to_nat n := cur]> chain) (u32 (n + 1)) (coc_boot_tsc s), cur).

(** The links [coc_verify_chain] reports as broken: index and source. *)
Definition broken (u : sha256_ctx) (c : list coc_link) (i : nat) : bool :=
  let prev := nth (i - 1) c zero_link in
  let cur := nth i c zero_link in
  negb (bool_decide (link_hash u (hash prev) (seq cur) (timestamp_ns cur) (source_id cur) [] = hash cur)).
Definition coc_verify_chain (u : sha256_ctx) (s : coc) : list (Z * Z) :=
  map (fun i => (Z.of_nat i, source_id (nth i (coc_chain s) zero_link)))
    (filter (fun i => broken u (coc_chain s) i = true) (List.seq 1 (Z.to_nat (coc_count s) - 1))).

Definition coc_head (s : coc) : option coc_link :=
  if truthy (coc_count s) then coc_chain s !! Z.to_nat (coc_count s - 1) else None.

(** The links copied and the number returned. *)
Definition coc_get_all (s : coc) (max : Z) : list coc_link * Z :=
  let n := MIN (coc_count s) max in
  (take (Z.to_nat n) (coc_chain s), n).

(** ** The history the chain stands for

    An event is a time stamp, a source and data; a history is the list of all
    events since [coc_init], the newest first. *)
Abbreviation event := (Z * Z * list Z)%type.
Abbreviation history := (list event).

Definition link_msg (prev_hash : list Z) (sq ts src : Z) (data : list Z) : list Z :=
  prev_hash ++ le_bytes 8 sq ++ le_bytes 8 ts ++ le_bytes 4 src ++ data.
Definition genesis : coc_link := mk_link (sha256_spec (replicate 64 0)) 0 0 COC_SRC_BOOT.
Definition next_link (prev : coc_link) (e : event) : coc_link :=
  let '(ts, src, data) := e in
  let sq := u64 (seq prev + 1) in
  mk_link (sha256_spec (link_msg (hash prev) sq ts src data)) sq ts src.
Fixpoint head_of (h : history) : coc_link :=
  match h with [] => genesis | e :: h' => next_link (head_of h') e end.
(** All links after the genesis, the oldest first. *)
Fixpoint links (h : history) : list coc_link :=
  match h with [] => [] | e :: h' => links h' ++ [head_of h] end.
(** What the array keeps: the genesis and the 255 newest links. *)
Definition window (h : history) : list coc_link := genesis :: drop (length h - 255) (links h).

Definition stack_ok (u : sha256_ctx) : Prop := length (buf u) = 64%nat.

Lemma link_hash_ok u ph sq ts src data : stack_ok u ->
  link_hash u ph sq ts src data = sha256_spec (link_msg ph sq ts src data).
Proof.
  intros Hu. unfold link_hash, link_msg. apply final_ok. pose proof (stands_init u Hu) as Hs.
  do 4 (eapply stands_update in Hs). rewrite app_nil_l, <- !app_assoc in Hs. destruct data as [|b d].
  - rewrite app_nil_r. exact Hs.
  - eapply stands_update in Hs. rewrite <- !app_assoc in Hs. exact Hs.
Qed.

Lemma length_links h : length (links h) = length h.
Proof. induction h as [|e h IH]; simpl; [done|]. rewrite length_app, IH. simpl. lia. Qed.
Lemma length_window h : length (window h) = (1 + min (length h) 255)%nat.
Proof. unfold window. simpl. rewrite length_drop, length_links. lia. Qed.
Lemma window_last h : last (window h) = Some (head_of h).
Proof.
  unfold window. destruct h as [|e h]; [done|]. simpl links. rewrite drop_app_le by (rewrite length_links; simpl; lia).
  rewrite app_comm_cons. by rewrite last_snoc.
Qed.
Lemma window_snoc e h : window (e :: h) = genesis :: drop (S (length h) - 255) (links h) ++ [head_of (e :: h)].
Proof. unfold window. simpl length. simpl links. rewrite drop_app_le by (rewrite length_links; lia). done. Qed.

(** The array represents a history. *)
Record represents (s : coc) (h : history) : Prop := {
  rep_len : length (coc_chain s) = 256%nat;
  rep_count : coc_count s = Z.of_nat (length (window h));
  rep_window : take (length (window h)) (coc_chain s) = window h
}.

Lemma init_represents u tsc : stack_ok u -> represents (coc_init u tsc) [].
Proof.
  intros Hu. unfold coc_init. rewrite sha256_ok by done. split; cbn [coc_chain]; [by rewrite length_insert, length_replicate | done..].
Qed.

Lemma last_lookup_window {A} (l w : list A) x : take (length w) l = w -> last w = Some x -> l !! (length w - 1)%nat = Some x.
Proof.
  intros E Hw. rewrite last_lookup in Hw. destruct w as [|y w]; [done|].
  rewrite <- E in Hw. rewrite lookup_take_lt in Hw by (rewrite E; simpl; lia). rewrite E in Hw. simpl in *. by rewrite Nat.sub_0_r.
Qed.

Lemma take_insert_last {A} (l : list A) n x : (n < length l)%nat -> take (S n) (<[n := x]> l) = take n l ++ [x].
Proof.
  intros Hn. rewrite (take_S_r _ _ x) by (by apply list_lookup_insert_eq). by rewrite take_insert_ge by lia.
Qed.

(** After the eviction, if there is one, the array holds what it keeps and one
    free place. *)
Lemma evicted s h : represents s h ->
  let full := COC_MAX_ENTRIES <=? coc_count s in
  let chain := if full then evict (coc_chain s) else coc_chain s in
  let n := if full then COC_MAX_ENTRIES - 1 else coc_count s in
  let w := genesis :: drop (S (length h) - 255) (links h) in
  length chain = 256%nat /\ n = Z.of_nat (length w) /\ (length w < 256)%nat /\ take (length w) chain = w /\ last w = Some (head_of h).
Proof.
  intros [Hl Hc Hw] full chain n w. pose proof (length_window h) as Lw.
  assert (length w = (1 + (length h - (S (length h) - 255)))%nat) as Lw'. { unfold w. simpl. by rewrite length_drop, length_links. }
  assert (last w = Some (head_of h)) as HL.
  { unfold w. destruct h as [|e h]; [done|]. rewrite <- (window_last (e :: h)). unfold window. simpl links.
    rewrite !drop_app_le by (rewrite length_links; simpl; lia). by rewrite !app_comm_cons, !last_snoc. }
  subst n chain full. unfold COC_MAX_ENTRIES. destruct (Z.leb_spec 256 (coc_count s)) as [Hf|Hf].
  - assert (256 <= length (window h))%nat by lia. assert (255 <= length h)%nat by lia. unfold evict. change (Z.to_nat (COC_MAX_ENTRIES - 2)) with 254%nat.
    rewrite !length_app, !length_take, !length_drop, Hl. repeat split; try lia; [|done].
    rewrite take_ge in Hw by lia. rewrite Hw. unfold w, window. simpl. f_equal.
    rewrite drop_drop, take_app_le.
    2:{ rewrite length_take, !length_drop, length_links. lia. }
    rewrite length_drop, length_links. rewrite take_take.
    rewrite take_ge by (rewrite length_drop, length_links; lia).
    f_equal. lia.
  - assert (window h = w) as E. { unfold w, window. replace (S (length h) - 255)%nat with (length h - 255)%nat by lia. done. }
    rewrite <- E in *. split; [exact Hl|]. split; [exact Hc|]. split; [lia|]. split; [exact Hw | exact HL].
Qed.

Lemma record_represents u tsc s h src data : stack_ok u -> represents s h ->
  let e := (u64 (tsc - coc_boot_tsc s), src, data) in
  exists s', coc_record u tsc s src data = Done (s', head_of (e :: h)) /\ represents s' (e :: h) /\ coc_boot_tsc s' = coc_boot_tsc s.
Proof.
  intros Hu Hr e. destruct (evicted s h Hr) as (Hl & Hn & Hlt & Hw & HL). unfold coc_record.
  set (w := genesis :: _) in *. set (chain := if COC_MAX_ENTRIES <=? _ then evict _ else _) in *.
  set (n := if COC_MAX_ENTRIES <=? _ then COC_MAX_ENTRIES - 1 else _) in *.
  assert (0 < length w)%nat by (simpl; lia).
  replace (Z.to_nat (u32 (n - 1))) with (length w - 1)%nat by (rewrite u32_small; lia).
  rewrite (last_lookup_window _ _ _ Hw HL). simpl faulting. cbn [mbind outcome_bind].
  rewrite link_hash_ok by done. eexists. split; [reflexivity|]. split; [|done].
  assert (window (e :: h) = w ++ [head_of (e :: h)]) as Ew. { rewrite window_snoc. done. }
  rewrite Hn, Nat2Z.id. split; cbn [coc_chain coc_count].
  - by rewrite length_insert.
  - rewrite Ew, length_app. simpl length at 3. rewrite u32_small; lia.
  - rewrite Ew, length_app, Nat.add_1_r, take_insert_last, Hw by lia. done.
Qed.

(** A run of [coc_record]: time stamp counter, source and data of each call. *)
Fixpoint record_all (u : sha256_ctx) (s : coc) (calls : list (Z * Z * list Z)) : outcome coc :=
  match calls with
  | [] => Done s
  | (tsc, src, data) :: calls' => r ← coc_record u tsc s src data; record_all u r.1 calls'
  end.
Definition recorded (tsc0 : Z) (calls : list (Z * Z * list Z)) : history :=
  rev (map (fun c => (u64 (c.1.1 - tsc0), c.1.2, c.2)) calls).

Lemma record_all_represents u tsc0 calls : stack_ok u -> forall s h, represents s h -> coc_boot_tsc s = tsc0 ->
  exists s', record_all u s calls = Done s' /\ represents s' (recorded tsc0 calls ++ h).
Proof.
  intros Hu. induction calls as [|[[tsc src] data] calls IH]; intros s h Hr Hb; [by exists s|].
  destruct (record_represents u tsc s h src data Hu Hr) as (s1 & E & Hr1 & Hb1).
  destruct (IH s1 _ Hr1 ltac:(congruence)) as (s2 & E2 & Hr2). exists s2. cbn [record_all]. rewrite E. cbn [mbind outcome_bind fst].
  rewrite E2. split; [done|]. unfold recorded in *. simpl. rewrite <- app_assoc. rewrite Hb in Hr2. exact Hr2.
Qed.

Lemma seq_head h : seq (head_of h) = u64 (Z.of_nat (length h)).
Proof.
  induction h as [|[[ts src] data] h IH]; [done|]. cbn [head_of next_link seq length]. rewrite IH. unfold u64.
  rewrite Z.add_mod_idemp_l by lia. f_equal. lia.
Qed.
Lemma length_hash h : length (hash (head_of h)) = 32%nat.
Proof. destruct h as [|[[ts src] data] h]; apply length_spec. Qed.

(** The messages hashed along a history. *)
Fixpoint hashed (h : history) : list (list Z) :=
  match h with
  | [] => [replicate 64 0]
  | (ts, src, data) :: h' => link_msg (hash (head_of h')) (u64 (seq (head_of h') + 1)) ts src data :: hashed h'
  end.
Definition event_ok (e : event) : Prop := 0 <= e.1.1 < 2 ^ 64 /\ 0 <= e.1.2 < 2 ^ 32.

Lemma hash_head h : exists m, m ∈ hashed h /\ hash (head_of h) = sha256_spec m /\ hashed h !! 0%nat = Some m.
Proof. destruct h as [|[[ts src] data] h]; eexists; (split; [apply list_elem_of_here|]); done. Qed.

Lemma link_msg_inj p1 q1 t1 s1 d1 p2 q2 t2 s2 d2 : length p1 = length p2 -> link_msg p1 q1 t1 s1 d1 = link_msg p2 q2 t2 s2 d2 ->
  p1 = p2 /\ le_bytes 8 q1 = le_bytes 8 q2 /\ le_bytes 8 t1 = le_bytes 8 t2 /\ le_bytes 4 s1 = le_bytes 4 s2 /\ d1 = d2.
Proof.
  intros Hl E. unfold link_msg in E. apply app_inj_1 in E as [-> E]; [|done].
  do 3 (apply app_inj_1 in E as [? E]; [|by rewrite !length_le_bytes]). done.
Qed.

(** A link after the genesis hashes another message than the genesis. *)
Lemma link_not_genesis p q t s d : length p = 32%nat -> 0 < q < 2 ^ 64 -> link_msg p q t s d <> replicate 64 0.
Proof.
  intros Hp Hq E. assert (le_bytes 8 q = replicate 8 0) as Eq.
  { apply (f_equal (fun l => take 8 (drop 32 l))) in E. unfold link_msg in E. rewrite drop_app_length' in E by done.
    rewrite take_app_length' in E by (by rewrite length_le_bytes). exact E. }
  apply (f_equal le_load) in Eq. rewrite le_load_bytes, Z.mod_small in Eq by (simpl; lia). simpl in Eq. lia.
Qed.

Lemma same_head_same_history h1 : forall h2, Forall event_ok h1 -> Forall event_ok h2 ->
  Z.of_nat (length h1) < 2 ^ 64 -> Z.of_nat (length h2) < 2 ^ 64 -> hash (head_of h1) = hash (head_of h2) ->
  h1 = h2 \/ exists m1 m2, m1 ∈ hashed h1 /\ m2 ∈ hashed h2 /\ m1 <> m2 /\ sha256_spec m1 = sha256_spec m2.
Proof.
  induction h1 as [|[[t1 s1] d1] h1 IH]; intros [|[[t2 s2] d2] h2] F1 F2 L1 L2 E; [by left| | |].
  1,2: right; cbn [length] in L1, L2; cbn [hashed]; eexists _, _;
       (split; [apply list_elem_of_here|]); (split; [apply list_elem_of_here|]); (split; [|exact E]);
       rewrite seq_head; first [apply link_not_genesis | apply not_eq_sym, link_not_genesis]; [apply length_hash|];
       unfold u64; rewrite Z.add_mod_idemp_l, Z.mod_small by lia; lia.
  cbn [length] in L1, L2. apply Forall_cons in F1 as [[B1 C1] F1], F2 as [[B2 C2] F2]. simpl in B1, B2, C1, C2.
  cbn [head_of next_link hash] in E. set (m1 := link_msg _ _ t1 s1 d1) in *. set (m2 := link_msg _ _ t2 s2 d2) in *.
  destruct (decide (m1 = m2)) as [Em|Hm].
  - apply link_msg_inj in Em as (Eh & _ & Et & Es & ->); [|by rewrite !length_hash].
    apply le_bytes_inj in Et as ->; [|done..]. apply le_bytes_inj in Es as ->; [|done..].
    destruct (IH h2 F1 F2 ltac:(lia) ltac:(lia) Eh) as [->|(n1 & n2 & H1 & H2 & H3)]; [by left|].
    right. exists n1, n2. split; [by right|]. split; [by right | done].
  - right. exists m1, m2. split; [apply list_elem_of_here|]. split; [apply list_elem_of_here | done].
Qed.

(** ** Theorems *)

(** (C20) The array refines the unbounded chain: after any calls of [coc_record] the head
    is the head of the whole history, the array holds the genesis and the newest
    255 links, and sequence numbers count the events. *)
Theorem coc_refines_history u tsc0 calls : stack_ok u ->
  let h := recorded tsc0 calls in
  exists s, record_all u (coc_init u tsc0) calls = Done s /\
    coc_head s = Some (head_of h) /\
    coc_get_all s (2 ^ 32 - 1) = (window h, Z.of_nat (length (window h))) /\
    seq (head_of h) = u64 (Z.of_nat (length calls)).
Proof.
  intros Hu h. destruct (record_all_represents u tsc0 calls Hu _ [] (init_represents u tsc0 Hu) eq_refl) as (s & E & Hr).
  rewrite app_nil_r in Hr. fold h in Hr. exists s. split; [done|]. destruct Hr as [Hl Hc Hw]. pose proof (length_window h) as Lw.
  split; [|split].
  - unfold coc_head, truthy. rewrite Hc, (proj2 (Z.eqb_neq _ _)) by lia. cbn [negb].
    replace (Z.to_nat _) with (length (window h) - 1)%nat by lia. apply last_lookup_window; [done | apply window_last].
  - unfold coc_get_all, MIN. rewrite Hc, (proj2 (Z.ltb_lt _ _)) by lia. by rewrite Nat2Z.id, Hw.
  - rewrite seq_head. unfold h, recorded. by rewrite length_rev, length_map.
Qed.

Lemma coc_refines_history_witness : exists s,
  record_all zero_ctx (coc_init zero_ctx 5) [(9, 3, [1; 2]); (12, 4, [])] = Done s /\ coc_head s = Some (head_of [(7, 4, []); (4, 3, [1; 2])]).
Proof.
  destruct (coc_refines_history zero_ctx 5 [(9, 3, [1; 2]); (12, 4, [])] eq_refl) as (s & E & H & _). exists s. split; [exact E | exact H].
Defined.



Lemma nth_links h i d : (i <= length h)%nat -> nth i (genesis :: links h) d = head_of (drop (length h - i) h).
Proof.
  induction h as [|e h IH]; intros Hi.
  - by replace i with 0%nat by (simpl in Hi; lia).
  - cbn [length] in *. cbn [links]. rewrite app_comm_cons. destruct (decide (i = S (length h))) as [->|Hne].
    + rewrite Nat.sub_diag. rewrite app_nth2; simpl length; rewrite length_links; [|lia]. by rewrite Nat.sub_diag.
    + rewrite app_nth1 by (simpl; rewrite length_links; lia). rewrite IH by lia.
      by replace (S (length h) - i)%nat with (S (length h - i)) by lia.
Qed.
(** The place [i] of the array holds the link of event number [i + length h - 255],
    the genesis apart. *)
Lemma represented_nth s h i : represents s h -> (1 <= i <= min (length h) 255)%nat ->
  nth i (coc_chain s) zero_link = head_of (drop (length h - (i + (length h - 255))) h).
Proof.
  intros [Hl Hc Hw] Hi. rewrite <- (nth_links h _ zero_link) by lia. pose proof (length_window h).
  rewrite <- (take_drop (length (window h)) (coc_chain s)), app_nth1, Hw by (rewrite length_take; lia).
  unfold window. destruct i as [|i]; [lia|]. cbn [nth Nat.add]. rewrite !nth_lookup, lookup_drop. do 2 f_equal. lia.
Qed.
Lemma represented_0 s h : represents s h -> nth 0 (coc_chain s) zero_link = genesis.
Proof. intros [Hl Hc Hw]. unfold window in Hw. destruct (coc_chain s) as [|c l]; [done|]. simpl in Hw. by injection Hw as ->. Qed.

(** What verification reports of link [i] of the array, for an event with data
    [data]: it hashes without the data, and takes the genesis for the predecessor
    of link 1 even when that predecessor was evicted.  So it accepts intact links
    without data, and reports intact links as broken when they carry data and,
    once something was evicted, at place 1 (unless the two digests collide). *)
Theorem coc_verify_reports u s h i ts src data : stack_ok u -> represents s h -> (1 <= i <= min (length h) 255)%nat ->
  let n := (length h - (i + (length h - 255)))%nat in
  h !! n = Some (ts, src, data) ->
  let prev := head_of (drop (S n) h) in
  let msg p d := link_msg (hash p) (u64 (seq prev + 1)) ts src d in
  (Z.of_nat i, src) ∈ coc_verify_chain u s <->
  sha256_spec (msg prev data) <> sha256_spec (msg (if (i =? 1)%nat then genesis else prev) []).
Proof.
  intros Hu Hr Hi n Hev prev msg. unfold coc_verify_chain. pose proof (rep_count s h Hr) as Hc. rewrite length_window in Hc.
  assert (drop n h = (ts, src, data) :: drop (S n) h) as Ed by (by apply drop_S).
  assert (nth i (coc_chain s) zero_link = next_link prev (ts, src, data)) as Ei.
  { rewrite (represented_nth s h) by (done || lia). fold n. by rewrite Ed. }
  assert (nth (i - 1) (coc_chain s) zero_link = if (i =? 1)%nat then genesis else prev) as Ep.
  { destruct (Nat.eqb_spec i 1) as [->|]; [by apply (represented_0 s h)|].
    rewrite (represented_nth s h) by (done || lia). unfold prev, n. do 2 f_equal. lia. }
  assert (broken u (coc_chain s) i = true <->
    sha256_spec (msg prev data) <> sha256_spec (msg (if (i =? 1)%nat then genesis else prev) [])) as Hb.
  { unfold broken. rewrite Ep, Ei. cbn [next_link hash seq timestamp_ns source_id]. rewrite link_hash_ok by done.
    rewrite negb_true_iff, bool_decide_eq_false. split; apply not_eq_sym. }
  rewrite <- Hb, list_elem_of_fmap. split.
  - intros (j & [= Ej _] & Hj). apply list_elem_of_filter in Hj as [Hj _]. by replace i with j by lia.
  - intros H. exists i. rewrite Ei. split; [done|]. apply list_elem_of_filter. split; [done|]. apply list_elem_of_In, in_seq. lia.
Qed.

Lemma coc_verify_reports_witness : exists s, (1, 3) ∈ coc_verify_chain zero_ctx s.
Proof.
  destruct (record_represents zero_ctx 9 (coc_init zero_ctx 5) [] 3 [1; 2] eq_refl (init_represents zero_ctx 5 eq_refl)) as (s & _ & Hr & _).
  exists s. apply (coc_verify_reports zero_ctx s _ 1 4 3 [1; 2] eq_refl Hr); [cbn; lia | reflexivity|].
  vm_compute. discriminate.
Defined.

(** Recording before [coc_init], which nothing calls, reads [coc_chain[0xFFFFFFFF]]. *)
Definition coc_bss : coc := mk_coc (replicate 256 zero_link) 0 0.
Lemma record_before_init u tsc src data : coc_record u tsc coc_bss src data = Fault.
Proof. unfold coc_record. change (_ <=? _) with false. cbn [coc_count coc_bss coc_chain].
  rewrite lookup_ge_None_2; [done|]. rewrite length_replicate. change (u32 (0 - 1)) with (2 ^ 32 - 1). lia.
Qed.

End Coc.
