(* ===== verification/Ipc.v ===== *)
(** * ipc/ipc.c: channels with authenticated messages

    The table of channels and every operation.  The eight shared pages of a channel
    are its [ring]: the fields of [ipc_ring_hdr_t] and the bytes of the slots after
    it, which the endpoints can write as well.  [ipc_close] clears the header of the
    ring after it has given the pages back, so there it writes the memory of the
    page allocator.  Calls go to the modelled page allocator, SHA-256 and chain of
    custody. *)

From Stdlib Require Import Ascii String.
From S2P Require Import Prelude Bytes Pmm Sha256 Coc.
Import Bytes Pmm Sha256 Coc.

Module Ipc.

Definition IPC_MAX_CHANNELS : Z := 1024.
Definition IPC_PAGE_POOL : Z := 8.
Definition IPC_SLOTS : Z := 64.
(** [sizeof(ipc_msg_hdr_t)] and [sizeof(ipc_ring_hdr_t)]. *)
Definition MSG_HDR : Z := 64.
Definition RING_HDR : Z := 80.
(** crypto/crypto.h's value, the one ipc.c is compiled with. *)
Definition COC_SRC_SYSCALL : Z := 0.

Record ipc_ring := mk_ring {
  write_seq : Z; read_seq : Z;      (* [u64] patterns of the atomic counters *)
  slot_size : Z; n_slots : Z;       (* [u32] *)
  ring_key : list Z;
  slots : list Z                    (* the bytes from [ring + 1] on *)
}.
Record ipc_channel := mk_channel {
  active : bool;
  creator_pid : Z; peer_pid : Z;
  shared_pa : Z;
  ring : ipc_ring;
  channel_key : list Z;
  send_count : Z; recv_count : Z; hmac_fail_count : Z
}.
Record ipc := mk_ipc {
  g_channels : list ipc_channel;
  g_machine_fingerprint : list Z;
  pm : pmm;
  log : coc
}.

Definition with_channels (s : ipc) (c : list ipc_channel) : ipc := mk_ipc c (g_machine_fingerprint s) (pm s) (log s).
Definition with_channel (s : ipc) (fd : Z) (c : ipc_channel) : ipc := with_channels s (<[Z.to_nat fd := c]> (g_channels s)).
Definition with_pm (s : ipc) (p : pmm) : ipc := mk_ipc (g_channels s) (g_machine_fingerprint s) p (log s).
Definition with_log (s : ipc) (l : coc) : ipc := mk_ipc (g_channels s) (g_machine_fingerprint s) (pm s) l.
Definition set_active (c : ipc_channel) (b : bool) : ipc_channel :=
  mk_channel b (creator_pid c) (peer_pid c) (shared_pa c) (ring c) (channel_key c) (send_count c) (recv_count c) (hmac_fail_count c).
Definition set_ring (c : ipc_channel) (r : ipc_ring) : ipc_channel :=
  mk_channel (active c) (creator_pid c) (peer_pid c) (shared_pa c) r (channel_key c) (send_count c) (recv_count c) (hmac_fail_count c).

Definition zero_ring : ipc_ring := mk_ring 0 0 0 0 (replicate 32 0) (replicate (Z.to_nat (IPC_PAGE_POOL * PAGE_SIZE - RING_HDR)) 0).
Definition zero_channel : ipc_channel := mk_channel false 0 0 0 zero_ring (replicate 32 0) 0 0 0.

(** [g_channels[fd]] after the test of [fd]. *)
Definition channel (s : ipc) (fd : Z) : ipc_channel := nth (Z.to_nat fd) (g_channels s) zero_channel.
Definition bad_fd (fd : Z) : bool := IPC_MAX_CHANNELS <=? u32 fd.

Definition ipc_set_machine_fingerprint (s : ipc) (fp : list Z) : ipc := mk_ipc (g_channels s) fp (pm s) (log s).

Definition derive_channel_key (u : sha256_ctx) (fp : list Z) (creator peer : Z) : list Z :=
  let info := bytes_of_string "nekros-ipc-v1   " in
  let ikm := fp ++ le_bytes 4 creator ++ le_bytes 4 peer ++ replicate 32 0 in
  hkdf_sha256 u ikm None info 32.

(** The first inactive channel from [i] on. *)
Fixpoint find_inactive (l : list ipc_channel) (i : Z) : option Z :=
  match l with
  | [] => None
  | c :: l' => if negb (active c) then Some i else find_inactive l' (i + 1)
  end.

Definition new_ring : ipc_ring :=
  let size := u32 ((IPC_PAGE_POOL * PAGE_SIZE - RING_HDR) / IPC_SLOTS) in
  mk_ring 0 0 size IPC_SLOTS (ring_key zero_ring) (slots zero_ring).

Definition ipc_create (s : ipc) (creator : Z) : ipc * Z :=
  match find_inactive (g_channels s) 0 with
  | None => (s, - ENFILE)
  | Some fd =>
      let c := channel s fd in
      let (p, pa) := pmm_alloc_pages (pm s) 3 in
      let s := with_pm s p in
      if pa =? 0 then
        (with_channel s fd (mk_channel false creator (-1) pa (ring c) (channel_key c) (send_count c) (recv_count c) (hmac_fail_count c)), - ENOMEM)
      else (with_channel s fd (mk_channel true creator (-1) pa new_ring (channel_key c) 0 0 0), fd)
  end.

Definition ipc_connect (u : sha256_ctx) (s : ipc) (fd peer : Z) : ipc * Z :=
  if bad_fd fd then (s, - EINVAL) else
  let c := channel s fd in
  if negb (active c) then (s, - ENOENT) else
  let key := derive_channel_key u (g_machine_fingerprint s) (creator_pid c) peer in
  let r := ring c in
  let r := mk_ring (write_seq r) (read_seq r) (slot_size r) (n_slots r) key (slots r) in
  (with_channel s fd (mk_channel (active c) (creator_pid c) peer (shared_pa c) r key (send_count c) (recv_count c) (hmac_fail_count c)), 0).

(** [slot_ptr - (ring + 1)] for a sequence number. *)
Definition slot_offset (r : ipc_ring) (sq : Z) : outcome Z :=
  if n_slots r =? 0 then Fault else Done (u32 (u32 (sq mod n_slots r) * slot_size r)).

(** The authenticated bytes: sequence number, sender, payload up to 4096 bytes. *)
Definition combined (sq pid : Z) (payload : list Z) : list Z := le_bytes 8 sq ++ le_bytes 4 pid ++ take 4096 payload.

(** [data] are the [len] bytes of the caller's buffer, [None] for NULL; [u] is the
    stack and [tsc] the counter coc_record reads. *)
Definition ipc_send (u : sha256_ctx) (tsc : Z) (s : ipc) (fd sender : Z) (data : option (list Z)) : outcome (ipc * Z) :=
  match data with
  | None => Done (s, - EINVAL)
  | Some data =>
      if bad_fd fd then Done (s, - EINVAL) else
      let c := channel s fd in
      let len := u32 (Z.of_nat (length data)) in
      if negb (active c) || (peer_pid c <? 0) then Done (s, - ENOTCONN) else
      let r := ring c in
      if u64 (slot_size r - MSG_HDR) <? len then Done (s, - EMSGSIZE) else
      let wseq := write_seq r in
      off ← slot_offset r wseq;
      m ← store_bytes (slots r) off (le_bytes 8 wseq ++ le_bytes 4 sender ++ le_bytes 4 len);
      m ← store_bytes m (off + MSG_HDR) data;
      m ← store_bytes m (off + 16) (hmac_sha256 u (channel_key c) (combined wseq (u32 sender) data));
      let r := mk_ring (u64 (wseq + 1)) (read_seq r) (slot_size r) (n_slots r) (ring_key r) m in
      let c := mk_channel (active c) (creator_pid c) (peer_pid c) (shared_pa c) r (channel_key c)
                 (u64 (send_count c + 1)) (recv_count c) (hmac_fail_count c) in
      let s := with_channel s fd c in
      l ← coc_record u tsc (log s) COC_SRC_SYSCALL (le_bytes 8 wseq ++ le_bytes 4 sender ++ le_bytes 4 len);
      Done (with_log s l.1, s32 len)
  end.

(** The wait loop: [env n] is what the others did before poll [n].  The state at the
    poll that found a message, or [None] after 1000001 polls. *)
Fixpoint ipc_wait (env : nat -> ipc -> ipc) (s : ipc) (fd : Z) (n fuel : nat) : ipc * bool :=
  match fuel with
  | O => (s, false)
  | S f =>
      let s := env n s in
      if read_seq (ring (channel s fd)) <? write_seq (ring (channel s fd)) then (s, true) else ipc_wait env s fd (S n) f
  end.

(** The loop over the 32 bytes of the tag. *)
Fixpoint mac_diff (a b : list Z) : Z :=
  match a, b with
  | x :: a', y :: b' => Z.lor (Z.lxor x y) (mac_diff a' b')
  | _, _ => 0
  end.

(** From the message found on: the result, the payload and the sender copied out. *)
Definition recv_message (u : sha256_ctx) (s : ipc) (fd buflen : Z) : outcome (ipc * Z * option (list Z * Z)) :=
  let c := channel s fd in
  let r := ring c in
  let rseq := read_seq r in
  off ← slot_offset r rseq;
  len ← load_bytes (slots r) (off + 12) 4;
  let plen := le_load len in
  if buflen <? plen then Done (s, - ERANGE, None) else
  sq ← load_bytes (slots r) off 8;
  pid ← load_bytes (slots r) (off + 8) 4;
  signed ← load_bytes (slots r) (off + MSG_HDR) (MIN plen 4096);
  let expected := hmac_sha256 u (channel_key c) (combined (le_load sq) (le_load pid) signed) in
  mac ← load_bytes (slots r) (off + 16) 32;
  if truthy (mac_diff expected mac) then
    Done (with_channel s fd (mk_channel (active c) (creator_pid c) (peer_pid c) (shared_pa c) r (channel_key c)
            (send_count c) (recv_count c) (u64 (hmac_fail_count c + 1))), - EBADMSG, None)
  else
    payload ← load_bytes (slots r) (off + MSG_HDR) plen;
    let r := mk_ring (write_seq r) (u64 (rseq + 1)) (slot_size r) (n_slots r) (ring_key r) (slots r) in
    Done (with_channel s fd (mk_channel (active c) (creator_pid c) (peer_pid c) (shared_pa c) r (channel_key c)
            (send_count c) (u64 (recv_count c + 1)) (hmac_fail_count c)), s32 plen, Some (payload, s32 (le_load pid))).

Definition POLLS : Z := 1000001.
Definition ipc_recv (u : sha256_ctx) (env : nat -> ipc -> ipc) (s : ipc) (fd : Z) (buf : bool) (buflen : Z) :
    outcome (ipc * Z * option (list Z * Z)) :=
  if bad_fd fd || negb buf then Done (s, - EINVAL, None) else
  if negb (active (channel s fd)) then Done (s, - ENOENT, None) else
  let (s, found) := ipc_wait env s fd 0 (Z.to_nat POLLS) in
  if found then recv_message u s fd buflen else Done (s, - EAGAIN, None).

(** [memzero_explicit(ch->ring, sizeof(ipc_ring_hdr_t))] comes after the pages are back
    on a free list: ten words of the allocator's memory. *)
Definition ipc_close (s : ipc) (fd : Z) : ipc :=
  if bad_fd fd then s else
  let c := channel s fd in
  if negb (active c) then s else
  let p := pmm_free_pages (pm s) (shared_pa c) 3 in
  let p := with_mem p (mzero (mem p) (phys_to_virt (shared_pa c)) 10) in
  with_channel (with_pm s p) fd
    (mk_channel false (creator_pid c) (peer_pid c) (shared_pa c) (ring c) (replicate 32 0) (send_count c) (recv_count c) (hmac_fail_count c)).

Definition ipc_init (s : ipc) : ipc := with_channels s (replicate (Z.to_nat IPC_MAX_CHANNELS) zero_channel).

End Ipc.
