(* ===== verification/IpcProof.v ===== *)
(** * ipc/ipc.c: the theorems

    A channel with at most 64 messages outstanding is a FIFO queue; what a receiver
    is given carries a valid tag under the channel key, whatever the endpoints
    wrote to the shared pages; how long a receiver waits. *)

From S2P Require Import Prelude Bytes Pmm PmmSpec Sha256 Sha256Proof Coc Ipc.
Import Bytes Pmm PmmSpec Sha256 Sha256Proof Coc Ipc.

Module IpcProof.

#[local] Opaque le_bytes hmac_spec replicate.

(** ** Slots *)

Abbreviation message := (Z * list Z)%type.   (* sender and payload *)
Definition CAP : nat := 446.
Definition message_ok (m : message) : Prop := 0 <= m.1 < 2 ^ 32 /\ (length m.2 <= CAP)%nat.

Definition header (sq : Z) (m : message) : list Z := le_bytes 8 sq ++ le_bytes 4 m.1 ++ le_bytes 4 (Z.of_nat (length m.2)).
(** Slot [i] holds message [m] with number [sq] and its tag. *)
Record holds (key l : list Z) (i : nat) (sq : Z) (m : message) : Prop := {
  h_hdr : slice l (510 * i) 16 = header sq m;
  h_mac : slice l (510 * i + 16) 32 = hmac_spec key (combined sq m.1 m.2);
  h_data : slice l (510 * i + 64) (length m.2) = m.2
}.

Lemma length_header sq m : length (header sq m) = 16%nat.
Proof. unfold header. by rewrite !length_app, !length_le_bytes. Qed.
Lemma length_mac key sq pid d : length (hmac_spec key (combined sq pid d)) = 32%nat.
Proof. apply length_hmac. Qed.

(** The slot's three writes. *)
Definition put_slot (key l : list Z) (i : nat) (sq : Z) (m : message) : list Z :=
  splice (splice (splice l (510 * i) (header sq m)) (510 * i + 64) m.2) (510 * i + 16) (hmac_spec key (combined sq m.1 m.2)).

Lemma put_slot_facts key l i sq m : length l = Z.to_nat 32688 -> (i < 64)%nat -> message_ok m ->
  length (put_slot key l i sq m) = length l /\ holds key (put_slot key l i sq m) i sq m /\
  forall j sq' m', (j < 64)%nat -> j <> i -> message_ok m' -> holds key l j sq' m' -> holds key (put_slot key l i sq m) j sq' m'.
Proof.
  intros Hl Hi [_ Hm]. unfold CAP in *. pose proof (length_header sq m) as L1. pose proof (length_mac key sq m.1 m.2) as L2. unfold put_slot.
  assert (length (splice l (510 * i) (header sq m)) = length l) as E1 by (apply length_splice; lia).
  assert (length (splice (splice l (510 * i) (header sq m)) (510 * i + 64) m.2) = length l) as E2 by (rewrite length_splice; lia).
  split; [rewrite length_splice; lia|]. split.
  - split.
    + rewrite !slice_splice_out by lia. apply slice_splice_eq; lia.
    + apply slice_splice_eq; lia.
    + rewrite slice_splice_out by lia. apply slice_splice_eq; lia.
  - intros j sq' m' Hj Hne [_ Hm'] [H1 H2 H3]. unfold CAP in *. assert (j < i \/ i < j)%nat as [?|?] by lia.
    all: split; rewrite !slice_splice_out by lia; done.
Qed.

Lemma header_parts l o sq m : slice l o 16 = header sq m -> 0 <= sq < 2 ^ 64 -> message_ok m ->
  le_load (slice l o 8) = sq /\ le_load (slice l (o + 8) 4) = m.1 /\ le_load (slice l (o + 12) 4) = Z.of_nat (length m.2).
Proof.
  intros H Hs [Hp Hm]. unfold CAP in Hm.
  assert (forall a n, (a + n <= 16)%nat -> slice l (o + a) n = slice (slice l o 16) a n) as E.
  { intros a n Ha. apply list_eq. intros i. rewrite !lookup_slice. case_decide; [|done]. rewrite decide_True by lia. f_equal. lia. }
  rewrite <- (Nat.add_0_r o) at 1. rewrite !E, H by lia. unfold header, slice. rewrite drop_0.
  rewrite take_app_length' by (by rewrite length_le_bytes).
  rewrite drop_app_length', take_app_length' by (by rewrite length_le_bytes).
  rewrite app_assoc, drop_app_length', take_ge by (rewrite ?length_app, !length_le_bytes; done).
  rewrite !le_load_bytes. repeat split; apply Z.mod_small; simpl Z.mul; lia.
Qed.

Lemma mac_diff_eq a : mac_diff a a = 0.
Proof. induction a as [|x a IH]; simpl; [done|]. by rewrite IH, Z.lxor_nilpotent. Qed.
Lemma mac_diff_0 a : forall b, length a = length b -> mac_diff a b = 0 -> a = b.
Proof.
  induction a as [|x a IH]; intros [|y b] Hl H; simpl in *; try done.
  apply Z.lor_eq_0_iff in H as [H1 H2]. apply Z.lxor_eq in H1 as ->. f_equal. apply IH; [lia | done].
Qed.

Lemma load_ok l o n a k : a = Z.of_nat o -> k = Z.of_nat n -> (o + n <= length l)%nat -> load_bytes l a k = Done (slice l o n).
Proof. intros -> -> ?. unfold load_bytes. rewrite (proj2 (Z.leb_le _ _)), (proj2 (Z.leb_le _ _)), !Nat2Z.id by lia. done. Qed.
Lemma store_ok l o src : (o + length src <= length l)%nat -> store_bytes l (Z.of_nat o) src = Done (splice l o src).
Proof. intros. unfold store_bytes. rewrite (proj2 (Z.leb_le _ _)), (proj2 (Z.leb_le _ _)), Nat2Z.id by lia. done. Qed.

(** ** Channels *)

(** Shape of a connected channel's ring. *)
Record shaped (c : ipc_channel) : Prop := {
  sh_active : active c = true;
  sh_peer : 0 <= peer_pid c;
  sh_size : slot_size (ring c) = 510;
  sh_slots : n_slots (ring c) = 64;
  sh_len : length (slots (ring c)) = Z.to_nat 32688
}.
(** The channel holds the queue [q]. *)
Record queued (c : ipc_channel) (q : list message) : Prop := {
  qu_shape : shaped c;
  qu_read : 0 <= read_seq (ring c);
  qu_write : write_seq (ring c) = read_seq (ring c) + Z.of_nat (length q);
  qu_cap : (length q <= 64)%nat;
  qu_ok : Forall message_ok q;
  qu_holds : forall k m, q !! k = Some m ->
    holds (channel_key c) (slots (ring c)) (Z.to_nat ((read_seq (ring c) + Z.of_nat k) mod 64)) (read_seq (ring c) + Z.of_nat k) m
}.

Lemma offset_ok c sq : shaped c -> 0 <= sq -> slot_offset (ring c) sq = Done (Z.of_nat (510 * Z.to_nat (sq mod 64))).
Proof.
  intros [_ _ Hs Hn _] Hq. unfold slot_offset. rewrite Hn, Hs. cbn [Z.eqb]. pose proof (Z.mod_pos_bound sq 64).
  rewrite (u32_small (sq mod 64)), u32_small by lia. f_equal. lia.
Qed.

(** The channel after [ipc_send] and after a successful [ipc_recv]. *)
Definition sent (c : ipc_channel) (m : message) : ipc_channel :=
  let r := ring c in
  let l := put_slot (channel_key c) (slots r) (Z.to_nat (write_seq r mod 64)) (write_seq r) m in
  mk_channel (active c) (creator_pid c) (peer_pid c) (shared_pa c)
    (mk_ring (u64 (write_seq r + 1)) (read_seq r) (slot_size r) (n_slots r) (ring_key r) l) (channel_key c)
    (u64 (send_count c + 1)) (recv_count c) (hmac_fail_count c).
Definition received (c : ipc_channel) : ipc_channel :=
  let r := ring c in
  mk_channel (active c) (creator_pid c) (peer_pid c) (shared_pa c)
    (mk_ring (write_seq r) (u64 (read_seq r + 1)) (slot_size r) (n_slots r) (ring_key r) (slots r)) (channel_key c)
    (send_count c) (u64 (recv_count c + 1)) (hmac_fail_count c).

Lemma le_bytes_u32 v : le_bytes 4 (u32 v) = le_bytes 4 v.
Proof. exact (le_bytes_mod 4 v). Qed.

Section ops.
Context (u : sha256_ctx) (Hu : stack_ok u).

Lemma send_ok tsc s fd sender data h : 0 <= fd < 1024 -> shaped (channel s fd) -> 0 <= write_seq (ring (channel s fd)) < 2 ^ 64 ->
  (length data <= CAP)%nat -> represents (log s) h ->
  exists l e, represents l (e :: h) /\ ipc_send u tsc s fd sender (Some data) =
    Done (with_log (with_channel s fd (sent (channel s fd) (u32 sender, data))) l, Z.of_nat (length data)).
Proof.
  intros Hfd Hs Hw Hd Hr. unfold CAP in *. unfold ipc_send, bad_fd, IPC_MAX_CHANNELS. rewrite (u32_small fd), (proj2 (Z.leb_gt _ _)) by lia.
  pose proof (sh_len _ Hs) as Hlen. pose proof (sh_peer _ Hs) as Hp. cbv zeta. rewrite (sh_active _ Hs), (proj2 (Z.ltb_ge (peer_pid _) 0)) by lia. cbn [negb orb].
  rewrite (u32_small (Z.of_nat _)), (sh_size _ Hs) by lia. change (u64 (510 - MSG_HDR)) with 446. rewrite (proj2 (Z.ltb_ge _ _)) by lia.
  rewrite offset_ok by (done || lia). cbn [mbind outcome_bind]. set (c := channel s fd) in *. set (wseq := write_seq (ring c)) in *.
  pose proof (Z.mod_pos_bound wseq 64 ltac:(lia)) as Hmod. set (i := Z.to_nat (wseq mod 64)).
  pose proof (length_header wseq (u32 sender, data)) as L1. unfold header in L1. cbn [fst snd] in L1. rewrite le_bytes_u32 in L1.
  rewrite store_ok by lia. cbn [mbind outcome_bind]. replace (Z.of_nat (510 * i) + MSG_HDR) with (Z.of_nat (510 * i + 64)) by (unfold MSG_HDR; lia).
  rewrite store_ok by (rewrite length_splice; lia). cbn [mbind outcome_bind]. rewrite hmac_ok by done.
  replace (Z.of_nat (510 * i) + 16) with (Z.of_nat (510 * i + 16)) by lia.
  rewrite store_ok by (rewrite length_mac, !length_splice; rewrite ?length_splice; lia). cbn [mbind outcome_bind].
  destruct (record_represents u tsc (log s) h COC_SRC_SYSCALL (le_bytes 8 wseq ++ le_bytes 4 sender ++ le_bytes 4 (Z.of_nat (length data))) Hu Hr)
    as (l & E & Hr' & _). cbn [with_channel with_channels log]. rewrite E. cbn [mbind outcome_bind fst]. eexists l, _. split; [exact Hr'|].
  rewrite s32_small by lia. unfold sent, put_slot, header. cbn [fst snd]. rewrite le_bytes_u32, (sh_active _ Hs), (sh_size _ Hs). done.
Qed.

Lemma recv_ok s fd buflen sq m : shaped (channel s fd) -> 0 <= read_seq (ring (channel s fd)) -> 0 <= sq < 2 ^ 64 -> message_ok m ->
  holds (channel_key (channel s fd)) (slots (ring (channel s fd))) (Z.to_nat (read_seq (ring (channel s fd)) mod 64)) sq m ->
  recv_message u s fd buflen =
    if buflen <? Z.of_nat (length m.2) then Done (s, - ERANGE, None)
    else Done (with_channel s fd (received (channel s fd)), Z.of_nat (length m.2), Some (m.2, s32 m.1)).
Proof.
  intros Hs Hq Hsq Hm [H1 H2 H3]. unfold recv_message. set (c := channel s fd) in *. rewrite offset_ok by done. cbn [mbind outcome_bind].
  assert (Z.to_nat (read_seq (ring c) mod 64) < 64)%nat as Hi by (pose proof (Z.mod_pos_bound (read_seq (ring c)) 64); lia).
  set (i := Z.to_nat (read_seq (ring c) mod 64)) in *. clearbody i.
  pose proof (sh_len _ Hs) as Hlen. destruct (header_parts _ _ _ _ H1 Hsq Hm) as (E1 & E2 & E3). destruct Hm as [Hp Hm]. unfold CAP in Hm.
  rewrite (load_ok _ (510 * i + 12) 4 (Z.of_nat (510 * i) + 12) 4) by lia. cbn [mbind outcome_bind]. rewrite E3.
  destruct (Z.ltb_spec buflen (Z.of_nat (length m.2))); [done|].
  rewrite (load_ok _ (510 * i) 8 (Z.of_nat (510 * i)) 8) by lia. cbn [mbind outcome_bind]. rewrite E1.
  rewrite (load_ok _ (510 * i + 8) 4 (Z.of_nat (510 * i) + 8) 4) by lia. cbn [mbind outcome_bind]. rewrite E2.
  unfold MSG_HDR, MIN. rewrite (proj2 (Z.ltb_lt (Z.of_nat _) 4096)) by lia.
  rewrite (load_ok _ (510 * i + 64) (length m.2) (Z.of_nat (510 * i) + 64) (Z.of_nat (length m.2))), H3 by lia. cbn [mbind outcome_bind].
  rewrite (load_ok _ (510 * i + 16) 32 (Z.of_nat (510 * i) + 16) 32) by lia. cbn [mbind outcome_bind].
  rewrite H2, hmac_ok, mac_diff_eq by done. change (truthy 0) with false. cbn iota. cbn [mbind outcome_bind].
  rewrite s32_small by lia. done.
Qed.

End ops.

(** ** The queue *)

Lemma holds_sent c m : shaped c -> 0 <= write_seq (ring c) -> message_ok m ->
  shaped (sent c m) /\ holds (channel_key c) (slots (ring (sent c m))) (Z.to_nat (write_seq (ring c) mod 64)) (write_seq (ring c)) m.
Proof.
  intros Hs Hw Hm. pose proof (Z.mod_pos_bound (write_seq (ring c)) 64).
  destruct (put_slot_facts (channel_key c) (slots (ring c)) (Z.to_nat (write_seq (ring c) mod 64)) (write_seq (ring c)) m) as (L & H1 & _);
    [apply Hs | lia | done|].
  split; [|done]. destruct Hs. split; try done. cbn [sent ring slots]. congruence.
Qed.

Lemma queued_sent c q m : queued c q -> message_ok m -> (length q < 64)%nat -> write_seq (ring c) < 2 ^ 64 - 1 -> queued (sent c m) (q ++ [m]).
Proof.
  intros [Hs Hr Hw Hc Hok Hh] Hm Hq Hlim. destruct (holds_sent c m Hs ltac:(lia) Hm) as [Hs' Hh'].
  split; cbn [sent ring read_seq write_seq slots channel_key].
  - done.
  - done.
  - rewrite u64_small, length_app by lia. simpl. lia.
  - rewrite length_app. simpl. lia.
  - apply Forall_app. split; [done | by constructor].
  - intros k x Hk. apply lookup_app_Some in Hk as [Hk|[Hge Hk]].
    + pose proof (lookup_lt_Some _ _ _ Hk). pose proof (Z.mod_pos_bound (read_seq (ring c) + Z.of_nat k) 64).
      pose proof (Z.mod_pos_bound (write_seq (ring c)) 64).
      eapply (put_slot_facts (channel_key c) (slots (ring c)) (Z.to_nat (write_seq (ring c) mod 64)) (write_seq (ring c)) m);
        [apply Hs | lia | done | lia | | by eapply Forall_lookup_1 | by apply Hh].
      intros E. apply Z2Nat.inj in E; [|lia..]. rewrite Hw in E. zdm.
    + apply list_lookup_singleton_Some in Hk as [Hk <-]. replace (read_seq (ring c) + Z.of_nat k) with (write_seq (ring c)) by lia. done.
Qed.

Lemma queued_received c m q : queued c (m :: q) -> write_seq (ring c) < 2 ^ 64 -> queued (received c) q.
Proof.
  intros [Hs Hr Hw Hc Hok Hh] Hlim. simpl in Hw, Hc. split; cbn [received ring read_seq write_seq slots channel_key]; rewrite ?u64_small by lia.
  - by destruct Hs.
  - lia.
  - lia.
  - lia.
  - by apply Forall_cons in Hok as [_ ?].
  - intros k x Hk. replace (read_seq (ring c) + 1 + Z.of_nat k) with (read_seq (ring c) + Z.of_nat (S k)) by lia. by apply Hh.
Qed.

(** Waiting with nobody interfering. *)
Definition alone (_ : nat) (s : ipc) : ipc := s.
Lemma wait_empty s fd : read_seq (ring (channel s fd)) = write_seq (ring (channel s fd)) -> forall fuel n, ipc_wait alone s fd n fuel = (s, false).
Proof. intros E. induction fuel as [|f IH]; intros n; simpl; [done|]. unfold alone at 1 2 3. by rewrite E, Z.ltb_irrefl. Qed.
Lemma wait_found env s fd n fuel : read_seq (ring (channel (env n s) fd)) < write_seq (ring (channel (env n s) fd)) ->
  ipc_wait env s fd n (S fuel) = (env n s, true).
Proof. intros H. simpl. by rewrite (proj2 (Z.ltb_lt _ _)). Qed.

Lemma channel_with_log s l fd : channel (with_log s l) fd = channel s fd.
Proof. done. Qed.
Lemma channel_with s fd c : 0 <= fd < Z.of_nat (length (g_channels s)) -> channel (with_channel s fd c) fd = c.
Proof. intros. unfold channel, with_channel. cbn [g_channels with_channels]. rewrite nth_lookup, list_lookup_insert_eq by lia. done. Qed.

Lemma channel_with_or s fd c : channel (with_channel s fd c) fd = c \/ channel (with_channel s fd c) fd = channel s fd.
Proof.
  unfold channel, with_channel. cbn [g_channels with_channels]. rewrite !nth_lookup. destruct (decide (Z.to_nat fd < length (g_channels s))%nat).
  - left. by rewrite list_lookup_insert_eq.
  - right. by rewrite list_insert_ge by lia.
Qed.

(** ** Runs *)

Inductive op := OSend (sender : Z) (data : list Z) | ORecv (buflen : Z).
Abbreviation result := (Z * option (list Z * Z))%type.

Definition exec_op (u : sha256_ctx) (fd : Z) (s : ipc) (o : op) : outcome (ipc * result) :=
  match o with
  | OSend sender data => r ← ipc_send u 0 s fd sender (Some data); Done (r.1, (r.2, None))
  | ORecv buflen => r ← ipc_recv u alone s fd true buflen; Done (r.1.1, (r.1.2, r.2))
  end.
Fixpoint exec (u : sha256_ctx) (fd : Z) (s : ipc) (ops : list op) : outcome (list result) :=
  match ops with
  | [] => Done []
  | o :: ops' => r ← exec_op u fd s o; rs ← exec u fd r.1 ops'; Done (r.2 :: rs)
  end.

(** The specification: a queue of messages. *)
Definition spec_op (q : list message) (o : op) : list message * result :=
  match o with
  | OSend sender data =>
      if (CAP <? length data)%nat then (q, (- EMSGSIZE, None))
      else (q ++ [(u32 sender, data)], (Z.of_nat (length data), None))
  | ORecv buflen =>
      match q with
      | [] => (q, (- EAGAIN, None))
      | m :: q' => if buflen <? Z.of_nat (length m.2) then (q, (- ERANGE, None))
                   else (q', (Z.of_nat (length m.2), Some (m.2, s32 m.1)))
      end
  end.
Fixpoint spec (q : list message) (ops : list op) : list result :=
  match ops with [] => [] | o :: ops' => (spec_op q o).2 :: spec (spec_op q o).1 ops' end.
(** Never more than 64 messages outstanding; lengths and pids are 32-bit. *)
Fixpoint fits (q : list message) (ops : list op) : bool :=
  match ops with
  | [] => true
  | o :: ops' => (length (spec_op q o).1 <=? 64)%nat &&
      match o with OSend _ data => Z.of_nat (length data) <? 2 ^ 32 | _ => true end && fits (spec_op q o).1 ops'
  end.

(** The state stands for queue [q]; [n] more messages can be numbered. *)
Definition stands (fd : Z) (s : ipc) (q : list message) (n : nat) : Prop :=
  0 <= fd < 1024 /\ length (g_channels s) = 1024%nat /\ (exists h, represents (log s) h) /\
  queued (channel s fd) q /\ write_seq (ring (channel s fd)) + Z.of_nat n < 2 ^ 64.

Lemma stands_less fd s q n : stands fd s q (S n) -> stands fd s q n.
Proof. intros (H1 & H2 & H3 & H4 & H5). split; [done|]. split; [done|]. split; [done|]. split; [done | lia]. Qed.

Lemma exec_op_ok u fd s q o n : stack_ok u -> stands fd s q (S n) -> fits q [o] = true ->
  exists s', exec_op u fd s o = Done (s', (spec_op q o).2) /\ stands fd s' (spec_op q o).1 n.
Proof.
  intros Hu Hst Hf. pose proof (stands_less _ _ _ _ Hst) as Hst'. destruct Hst as (Hfd & Hlen & [h Hh] & Hq & Hn). cbn [fits] in Hf. rewrite andb_true_r in Hf. b2p. pose proof Hq as [Hs Hr Hw Hc Hok Hhd].
  destruct o as [sender data|buflen]; cbn [spec_op exec_op] in *.
  - destruct (Nat.ltb_spec CAP (length data)) as [Hlong|Hshort]; cbn [fst snd] in *.
    + exists s. split; [|exact Hst']. unfold ipc_send, bad_fd, IPC_MAX_CHANNELS. b2p. unfold CAP in Hlong.
      rewrite (u32_small fd), (proj2 (Z.leb_gt _ _)), (sh_active _ Hs) by lia. cbv zeta.
      pose proof (sh_peer _ Hs). rewrite (proj2 (Z.ltb_ge (peer_pid _) 0)) by lia. cbn [negb orb].
      rewrite (sh_size _ Hs), u32_small by lia. change (u64 (510 - MSG_HDR)) with 446. rewrite (proj2 (Z.ltb_lt _ _)) by lia. done.
    + rewrite length_app in *. cbn [length] in *. destruct (send_ok u Hu 0 s fd sender data h Hfd Hs ltac:(lia) Hshort Hh) as (l & e & Hl & ->).
      cbn [mbind outcome_bind fst snd]. eexists. split; [reflexivity|].
      split; [done|]. cbn [with_log with_channel with_channels g_channels]. rewrite length_insert. split; [done|]. split; [by exists (e :: h)|].
      rewrite channel_with_log, channel_with by lia. split; [apply queued_sent; try done; try lia|].
      * split; [apply u32_range | done].
      * cbn [sent ring write_seq]. rewrite u64_small; lia.
  - unfold ipc_recv, bad_fd, IPC_MAX_CHANNELS. rewrite (u32_small fd), (proj2 (Z.leb_gt _ _)), (sh_active _ Hs) by lia. cbn [negb orb].
    destruct q as [|m q]; cbn [spec_op fst snd] in *.
    + rewrite wait_empty by (simpl in Hw; lia). by exists s.
    + replace (Z.to_nat POLLS) with (S (Z.to_nat (POLLS - 1))) by (unfold POLLS; lia).
      rewrite wait_found by (unfold alone; simpl in Hw; lia). unfold alone.
      pose proof (Hhd 0%nat m eq_refl) as Hm. rewrite Z.add_0_r in Hm.
      rewrite (recv_ok u Hu s fd buflen (read_seq (ring (channel s fd))) m); [|done|done|simpl in Hw; lia|by apply Forall_cons in Hok as [? _]|done].
      destruct (buflen <? Z.of_nat (length m.2)); cbn [mbind outcome_bind fst snd] in *; eexists; (split; [reflexivity|]).
      * exact Hst'.
      * split; [done|]. cbn [with_channel with_channels g_channels]. rewrite length_insert. split; [done|]. split; [by exists h|].
        rewrite channel_with by lia. split; [apply (queued_received _ m); [done | lia]|]. cbn [received ring write_seq]. lia.
Qed.

Lemma channel_run_ok u fd ops : stack_ok u -> forall s q, stands fd s q (length ops) -> fits q ops = true -> exec u fd s ops = Done (spec q ops).
Proof.
  intros Hu. induction ops as [|o ops IH]; intros s q Hs Hf; [done|]. cbn [fits] in Hf. apply andb_true_iff in Hf as [H1 H2].
  destruct (exec_op_ok u fd s q o _ Hu Hs) as (s' & E & Hs'); [cbn [fits]; by rewrite andb_true_r|].
  cbn [exec spec]. rewrite E. cbn [mbind outcome_bind fst snd]. by rewrite (IH s' _ Hs' H2).
Qed.

Lemma find_inactive_bound l : forall i fd, find_inactive l i = Some fd -> i <= fd < i + Z.of_nat (length l).
Proof.
  induction l as [|c l IH]; intros i fd H; [done|]. simpl in H. destruct (active c); simpl in *; [apply IH in H; lia|]. injection H as <-. lia.
Qed.

(** A new channel, connected, stands for the empty queue. *)
Lemma created_connected u s creator peer n : length (g_channels s) = 1024%nat -> (exists h, represents (log s) h) -> 0 <= peer -> Z.of_nat n < 2 ^ 64 ->
  0 <= (ipc_create s creator).2 ->
  let r := ipc_connect u (ipc_create s creator).1 (ipc_create s creator).2 peer in
  r.2 = 0 /\ stands (ipc_create s creator).2 r.1 [] n.
Proof.
  intros Hl Hh Hp Hn. unfold ipc_create. destruct (find_inactive (g_channels s) 0) as [fd|] eqn:Ef; [|by cbn].
  pose proof (find_inactive_bound _ _ _ Ef) as Hfd. destruct (pmm_alloc_pages (pm s) 3) as [p pa]. destruct (pa =? 0); [by cbn|].
  intros _. cbn [fst snd]. unfold ipc_connect, bad_fd, IPC_MAX_CHANNELS. rewrite (u32_small fd), (proj2 (Z.leb_gt _ _)) by lia.
  rewrite channel_with by (cbn [with_pm g_channels]; lia). cbn [active negb fst snd]. split; [done|]. split; [lia|].
  cbn [with_channel with_channels with_pm g_channels log]. rewrite !length_insert. split; [done|]. split; [done|].
  rewrite channel_with by (cbn [with_channel with_channels with_pm g_channels]; rewrite length_insert; lia). split; [|cbn; lia].
  split; cbn [ring read_seq write_seq new_ring length]; try done; try lia.
Qed.

(** ** Theorems *)

(** (C18) A channel is a FIFO queue of messages: from its creation and connection on, any
    sequence of sends and receives with at most 64 messages outstanding gives the
    results of the specification (payload and sender of the oldest message, or the
    error code for a message too long, a buffer too short, an empty queue). *)
Theorem ipc_is_fifo u s creator peer ops : stack_ok u -> length (g_channels s) = 1024%nat -> (exists h, represents (log s) h) ->
  0 <= peer -> Z.of_nat (length ops) < 2 ^ 64 -> 0 <= (ipc_create s creator).2 -> fits [] ops = true ->
  let (s1, fd) := ipc_create s creator in
  let (s2, r) := ipc_connect u s1 fd peer in
  r = 0 /\ exec u fd s2 ops = Done (spec [] ops).
Proof.
  intros Hu Hl Hh Hp Hn Hfd Hf. destruct (created_connected u s creator peer (length ops) Hl Hh Hp Hn Hfd) as [E Hs].
  destruct (ipc_create s creator) as [s1 fd]. cbn [fst snd] in *. destruct (ipc_connect u s1 fd peer) as [s2 r]. split; [done|]. by apply channel_run_ok.
Qed.


(** Waiting: [ipc_recv] returns the message found at the first of its 1000001 polls
    that sees one, and -EAGAIN exactly when none of them does; it never waits
    longer, whatever the other tasks do meanwhile. *)
Theorem ipc_recv_waits u env s fd buflen : 0 <= fd < 1024 -> active (channel s fd) = true ->
  let seen k := Nat.iter k (fun p : nat * ipc => (S p.1, env p.1 p.2)) (0%nat, s) in
  let ready k := read_seq (ring (channel (seen k).2 fd)) < write_seq (ring (channel (seen k).2 fd)) in
  (forall k, (1 <= k <= Z.to_nat POLLS)%nat -> ready k -> (forall j, (1 <= j < k)%nat -> ~ ready j) ->
     ipc_recv u env s fd true buflen = recv_message u (seen k).2 fd buflen) /\
  ((forall j, (1 <= j <= Z.to_nat POLLS)%nat -> ~ ready j) ->
     ipc_recv u env s fd true buflen = Done ((seen (Z.to_nat POLLS)).2, - EAGAIN, None)).
Proof.
  intros Hfd Ha seen ready. unfold ipc_recv, bad_fd, IPC_MAX_CHANNELS. rewrite (u32_small fd), (proj2 (Z.leb_gt _ _)), Ha by lia. cbn [negb orb].
  assert (forall n, (seen n).1 = n) as Hn by (induction n as [|n IHn]; [done | simpl; by rewrite IHn]).
  assert (forall n, (seen (S n)).2 = env n (seen n).2) as HS by (intros n; simpl; by rewrite Hn).
  assert (forall m n, (forall j, (n < j <= n + m)%nat -> ~ ready j) -> forall f, ipc_wait env (seen n).2 fd n (m + f) = ipc_wait env (seen (n + m)%nat).2 fd (n + m) f) as Hskip.
  { induction m as [|m IH]; intros n Hj f; [by rewrite Nat.add_0_r|]. cbn [Nat.add ipc_wait]. rewrite <- HS.
    rewrite (proj2 (Z.ltb_ge _ _)) by (apply Z.nlt_ge; apply Hj; lia). rewrite IH by (intros; apply Hj; lia). by rewrite Nat.add_succ_comm. }
  assert (forall m, (forall j, (1 <= j <= m)%nat -> ~ ready j) -> forall f, ipc_wait env s fd 0 (m + f) = ipc_wait env (seen m).2 fd m f) as Hfirst.
  { intros m Hj. apply (Hskip m 0%nat). intros; apply Hj; lia. }
  split.
  - intros k Hk Hr Hj. replace (Z.to_nat POLLS) with ((k - 1) + S (Z.to_nat POLLS - k))%nat by lia. rewrite Hfirst by (intros; apply Hj; lia).
    rewrite wait_found; rewrite <- HS; replace (S (k - 1)) with k by lia; done.
  - intros Hj. rewrite <- (Nat.add_0_r (Z.to_nat POLLS)) at 1. by rewrite Hfirst by done.
Qed.

(** ** Concrete runs *)

Definition ipc_ex : ipc := mk_ipc (replicate (Z.to_nat 1024) zero_channel) (replicate 32 5) (boot no_bytes map_ex) (coc_init zero_ctx 0).

Lemma ipc_is_fifo_witness : exists s2, exec zero_ctx 0 s2 [OSend 7 [1; 2; 3]; OSend 8 [4]; ORecv 64; ORecv 0; ORecv 64; ORecv 64] =
  Done [(3, None); (1, None); (3, Some ([1; 2; 3], 7)); (- ERANGE, None); (1, Some ([4], 8)); (- EAGAIN, None)].
Proof.
  pose proof (ipc_is_fifo zero_ctx ipc_ex 7 8 [OSend 7 [1; 2; 3]; OSend 8 [4]; ORecv 64; ORecv 0; ORecv 64; ORecv 64] eq_refl
    ltac:(apply length_replicate) (ex_intro _ [] (init_represents zero_ctx 0 eq_refl)) ltac:(lia) ltac:(cbn; lia)
    ltac:(vm_compute; discriminate) eq_refl) as H.
  destruct (ipc_create ipc_ex 7) as [s1 fd] eqn:E. assert (fd = 0) as -> by (apply (f_equal snd) in E; vm_compute in E; by symmetry).
  destruct (ipc_connect zero_ctx s1 0 8) as [s2 r]. exists s2. exact (proj2 H).
Defined.

(** A slot holding a message with a wrong tag. *)
Definition forged : ipc := mk_ipc
  [mk_channel true 7 8 0x1000000 (mk_ring 1 0 510 64 (replicate 32 0) (splice (replicate 600 0) 0 (header 0 (7, [1; 2; 3])))) (replicate 32 9) 1 0 0]
  (replicate 32 5) pmm_bss coc_bss.

Lemma ipc_recv_waits_witness : exists s', ipc_recv zero_ctx (fun _ _ => forged) (with_channel ipc_ex 0 (set_active zero_channel true)) 0 true 64 = s' /\
  s' = recv_message zero_ctx forged 0 64.
Proof.
  eexists. split; [reflexivity|].
  apply (ipc_recv_waits zero_ctx (fun _ _ => forged) (with_channel ipc_ex 0 (set_active zero_channel true)) 0 64 ltac:(lia) eq_refl) with (k := 1%nat);
    [unfold POLLS; lia | reflexivity | intros j Hj; lia].
Defined.

(** A sixty-fifth outstanding message overwrites the oldest, and is delivered in its
    place: the receiver does not compare the number in the slot with its own. *)
Theorem ipc_overrun u tsc s fd q h sender data buflen : stack_ok u -> 0 <= fd < 1024 -> length (g_channels s) = 1024%nat ->
  queued (channel s fd) q -> length q = 64%nat -> write_seq (ring (channel s fd)) < 2 ^ 64 -> represents (log s) h ->
  (length data <= CAP)%nat -> Z.of_nat (length data) <= buflen ->
  exists s', ipc_send u tsc s fd sender (Some data) = Done (s', Z.of_nat (length data)) /\
    exists s'', recv_message u s' fd buflen = Done (s'', Z.of_nat (length data), Some (data, s32 (u32 sender))).
Proof.
  intros Hu Hfd Hl [Hs Hr Hw _ _ _] Hq Hlim Hh Hd Hb. assert (message_ok (u32 sender, data)) as Hm by (split; [apply u32_range | done]).
  destruct (send_ok u Hu tsc s fd sender data h Hfd Hs ltac:(lia) Hd Hh) as (l & e & _ & E). eexists. split; [exact E|].
  destruct (holds_sent (channel s fd) (u32 sender, data) Hs ltac:(lia) Hm) as [Hs' Hh'].
  assert (forall l, channel (with_log (with_channel s fd (sent (channel s fd) (u32 sender, data))) l) fd = sent (channel s fd) (u32 sender, data)) as Ec.
  { intros l'. rewrite channel_with_log. apply channel_with. lia. }
  eexists. rewrite (recv_ok u Hu _ fd buflen (write_seq (ring (channel s fd))) (u32 sender, data)); rewrite ?Ec; try done; [|lia|].
  - cbn [fst snd]. rewrite (proj2 (Z.ltb_ge _ _)) by lia. done.
  - cbn [sent ring read_seq channel_key]. replace (read_seq (ring (channel s fd)) mod 64) with (write_seq (ring (channel s fd)) mod 64); [done|].
    rewrite Hw, Hq. zdm.
Qed.

(** Closing a channel clears the link its pages carry on the free list: of two free
    blocks of 32 KB the older one is lost. *)
Definition three : ipc := (ipc_create (ipc_create (ipc_create ipc_ex 7).1 7).1 7).1.
Theorem close_loses_free_block :
  let block k := shared_pa (channel three k) in
  let freed := pmm_free_pages (pmm_free_pages (pm three) (block 0) 3) (block 2) 3 in
  mread (mem freed) (phys_to_virt (block 2)) = phys_to_virt (block 0) /\
  mread (mem (pm (ipc_close (ipc_close three 0) 2))) (phys_to_virt (block 2)) = 0.
Proof. split; vm_compute; reflexivity. Qed.

End IpcProof.
