(* ===== verification/Asm.v ===== *)
(** * arch/x86/kernel: the interrupt stubs and the context switch

    The instructions isr_stubs.S and sched_asm.S use, as functions of the machine state
    (sixteen registers, the flags, memory in words), and the two programs as lists of them.
    A jump at the end of a list is the address it goes to. *)

From S2P Require Import Prelude.

Module Asm.

(** ** The machine *)

Inductive reg := RAX | RBX | RCX | RDX | RSI | RDI | RBP | RSP | R8 | R9 | R10 | R11 | R12 | R13 | R14 | R15.
#[export] Instance reg_eq : EqDecision reg.
Proof. solve_decision. Defined.
Definition reg_eqb (a b : reg) : bool := bool_decide (a = b).

Record machine := mk_machine { regs : reg -> Z; flags : Z; mem : memory }.
Definition set_reg (s : machine) (r : reg) (v : Z) : machine :=
  mk_machine (fun x => if reg_eqb x r then v else regs s x) (flags s) (mem s).
Definition set_mem (s : machine) (a v : Z) : machine := mk_machine (regs s) (flags s) (mwrite (mem s) a v).

Inductive instr :=
| Push (r : reg) | PushI (v : Z) | Pop (r : reg) | Pushf | Popf
| Load (off : Z) (base dst : reg) | Store (src : reg) (off : Z) (base : reg)
| Mov (src dst : reg) | AndI (v : Z) (r : reg) | AddI (v : Z) (r : reg) | SubI (v : Z) (r : reg).

Definition push (s : machine) (v : Z) : machine :=
  let sp := u64 (regs s RSP - 8) in set_mem (set_reg s RSP sp) sp v.
(** The word popped and the machine after it. *)
Definition pop (s : machine) : Z * machine := (mread (mem s) (regs s RSP), set_reg s RSP (u64 (regs s RSP + 8))).

Definition step (s : machine) (i : instr) : machine :=
  match i with
  | Push r => push s (regs s r)
  | PushI v => push s v
  | Pop r => let (v, s) := pop s in set_reg s r v
  | Pushf => push s (flags s)
  | Popf => let (v, s) := pop s in mk_machine (regs s) v (mem s)
  | Load off base dst => set_reg s dst (mread (mem s) (u64 (regs s base + off)))
  | Store src off base => set_mem s (u64 (regs s base + off)) (regs s src)
  | Mov src dst => set_reg s dst (regs s src)
  | AndI v r => set_reg s r (Z.land (regs s r) (u64 v))
  | AddI v r => set_reg s r (u64 (regs s r + v))
  | SubI v r => set_reg s r (u64 (regs s r - v))
  end.
Definition exec (s : machine) (l : list instr) : machine := foldl step s l.

(** ** isr_stubs.S *)

(** The exceptions for which the processor pushes an error code itself. *)
Definition has_code (v : Z) : bool := existsb (Z.eqb v) [8; 10; 11; 12; 13; 14; 17; 21; 29; 30].
Definition isr_stub (v : Z) : list instr := if has_code v then [PushI v] else [PushI 0; PushI v].

Definition saved : list reg := [RAX; RBX; RCX; RDX; RSI; RDI; RBP; R8; R9; R10; R11; R12; R13; R14; R15].
(** [isr_common] up to the call of [nekros_interrupt_dispatch], with its arguments... *)
Definition isr_call : list instr := [Load 128 RSP RDI; Load 120 RSP RSI; Mov RSP RDX; AndI (-16) RSP; SubI 8 RSP].
Definition isr_entry : list instr := (Push <$> saved) ++ isr_call.
(** ...and from its return to the [iretq]. *)
Definition isr_exit : list instr := [AddI 8 RSP] ++ (Pop <$> reverse saved) ++ [AddI 16 RSP].

(** ** sched_asm.S *)

Definition TASK_CTX_RSP : Z := 96.
Definition TASK_CTX_RBP : Z := 104.
Definition TASK_CTX_RBX : Z := 112.
Definition TASK_CTX_R12 : Z := 120.
Definition TASK_CTX_R13 : Z := 128.
Definition TASK_CTX_R14 : Z := 136.
Definition TASK_CTX_R15 : Z := 144.
Definition TASK_CTX_RIP : Z := 152.
Definition TASK_CTX_RFLAGS : Z := 160.

Definition switch_save : list instr :=
  [Store RSP TASK_CTX_RSP RDI; Store RBP TASK_CTX_RBP RDI; Store RBX TASK_CTX_RBX RDI; Store R12 TASK_CTX_R12 RDI;
   Store R13 TASK_CTX_R13 RDI; Store R14 TASK_CTX_R14 RDI; Store R15 TASK_CTX_R15 RDI;
   Load 0 RSP RAX; Store RAX TASK_CTX_RIP RDI; Pushf; Pop RAX; Store RAX TASK_CTX_RFLAGS RDI].
Definition switch_restore : list instr :=
  [Load TASK_CTX_R15 RSI R15; Load TASK_CTX_R14 RSI R14; Load TASK_CTX_R13 RSI R13; Load TASK_CTX_R12 RSI R12;
   Load TASK_CTX_RBX RSI RBX; Load TASK_CTX_RBP RSI RBP; Load TASK_CTX_RFLAGS RSI RAX; Push RAX; Popf;
   Load TASK_CTX_RSP RSI RSP; Load TASK_CTX_RIP RSI RAX].
(** [__switch_to(prev, next)]: the machine and the address of the final jump. *)
Definition switch_to (s : machine) : machine * Z :=
  let s := if regs s RDI =? 0 then s else exec s switch_save in
  let s := exec s switch_restore in
  (s, regs s RAX).

(** ** Sequences of pushes and pops *)

Lemma reg_eqb_refl r : reg_eqb r r = true.
Proof. by apply bool_decide_eq_true. Qed.
Lemma reg_eqb_ne a b : a <> b -> reg_eqb a b = false.
Proof. intros. by apply bool_decide_eq_false. Qed.
(** Whether two registers are the same. *)
Ltac reg_simpl := repeat (rewrite reg_eqb_refl || rewrite reg_eqb_ne by discriminate).
Lemma exec_app s l1 l2 : exec s (l1 ++ l2) = exec (exec s l1) l2.
Proof. apply foldl_app. Qed.

(** The words pushed lie below the stack pointer in order; nothing else changes. *)
Lemma exec_pushes l : forall s, RSP ∉ l -> 8 * Z.of_nat (length l) <= regs s RSP < 2 ^ 64 ->
  let s' := exec s (Push <$> l) in
  regs s' RSP = regs s RSP - 8 * Z.of_nat (length l) /\ (forall r, r <> RSP -> regs s' r = regs s r) /\
  (forall k r, l !! k = Some r -> mread (mem s') (regs s RSP - 8 * (Z.of_nat k + 1)) = regs s r) /\
  (forall a, regs s RSP <= a -> mread (mem s') a = mread (mem s) a).
Proof.
  induction l as [|r l IH]; intros s Hl Hs; cbv zeta.
  { simpl. split; [lia|]. split; [done|]. split; [intros k r Hk; by rewrite lookup_nil in Hk | done]. }
  apply not_elem_of_cons in Hl as [Hr Hl]. simpl in Hs.
  set (s1 := push s (regs s r)). assert (regs s1 RSP = regs s RSP - 8) as E1.
  { cbn. rewrite reg_eqb_refl. apply u64_small. lia. }
  destruct (IH s1 Hl ltac:(lia)) as (A & B & C & D). change (exec s (Push <$> r :: l)) with (exec s1 (Push <$> l)).
  assert (forall x, x <> RSP -> regs s1 x = regs s x) as E2 by (intros x Hx; cbn; by rewrite reg_eqb_ne).
  assert (forall a, mread (mem s1) a = if regs s RSP - 8 =? a then regs s r else mread (mem s) a) as E3.
  { intros a. cbn. rewrite mread_mwrite, u64_small by lia. done. }
  split; [rewrite A, E1; simpl; lia|]. split; [intros x Hx; rewrite B by done; by apply E2|]. split.
  - intros [|k] x Hk; simpl in Hk.
    + injection Hk as <-. rewrite D by lia. rewrite E3. rewrite (proj2 (Z.eqb_eq _ _)) by lia. done.
    + replace (regs s RSP - 8 * (Z.of_nat (S k) + 1)) with (regs s1 RSP - 8 * (Z.of_nat k + 1)) by lia.
      rewrite (C k x Hk). apply E2. intros ->. apply Hl. by eapply list_elem_of_lookup_2.
  - intros a Ha. rewrite D by lia. rewrite E3, (proj2 (Z.eqb_neq _ _)) by lia. done.
Qed.

(** Pops read the words above the stack pointer in order. *)
Lemma exec_pops l : forall s, NoDup l -> RSP ∉ l -> 0 <= regs s RSP -> regs s RSP + 8 * Z.of_nat (length l) < 2 ^ 64 ->
  let s' := exec s (Pop <$> l) in
  regs s' RSP = regs s RSP + 8 * Z.of_nat (length l) /\ mem s' = mem s /\ flags s' = flags s /\
  (forall k r, l !! k = Some r -> regs s' r = mread (mem s) (regs s RSP + 8 * Z.of_nat k)) /\
  (forall r, r <> RSP -> r ∉ l -> regs s' r = regs s r).
Proof.
  induction l as [|r l IH]; intros s Hnd Hl H0 Hs; cbv zeta.
  { simpl. split; [lia|]. do 2 (split; [done|]). split; [intros k r Hk; by rewrite lookup_nil in Hk | done]. }
  apply NoDup_cons in Hnd as [Hni Hnd]. apply not_elem_of_cons in Hl as [Hr Hl]. simpl in Hs.
  set (s1 := step s (Pop r)). assert (regs s1 RSP = regs s RSP + 8) as E1.
  { cbn. rewrite reg_eqb_ne, reg_eqb_refl by done. apply u64_small. lia. }
  assert (regs s1 r = mread (mem s) (regs s RSP)) as E2 by (cbn; by rewrite reg_eqb_refl).
  assert (forall x, x <> RSP -> x <> r -> regs s1 x = regs s x) as E3 by (intros x H1 H2; cbn; by rewrite !reg_eqb_ne).
  destruct (IH s1 Hnd Hl ltac:(lia) ltac:(lia)) as (A & B & B' & C & D). change (exec s (Pop <$> r :: l)) with (exec s1 (Pop <$> l)).
  split; [rewrite A, E1; simpl; lia|]. split; [by rewrite B|]. split; [by rewrite B'|]. split.
  - intros [|k] x Hk; simpl in Hk.
    + injection Hk as <-. rewrite D by done. rewrite E2. f_equal. lia.
    + rewrite (C k x Hk). change (mem s1) with (mem s). f_equal. lia.
  - intros x H1 [H2 H3]%not_elem_of_cons. rewrite D by done. by apply E3.
Qed.
(** ** Interrupts *)

Lemma rsp_not_saved : RSP ∉ saved.
Proof. unfold saved. intros Hx. repeat (apply elem_of_cons in Hx as [Hx|Hx]; [discriminate Hx|]). by apply elem_of_nil in Hx. Qed.

(** What the stubs pass to [nekros_interrupt_dispatch(vec, errcode, frame)] as its first two
    arguments: the word at 128(%rsp), which is the error code, and the one at 120(%rsp), the
    vector. *)
Definition isr_args (v code : Z) : Z * Z := (code, v).

(** The processor has entered the stub of vector [v]; [H] is the address of the saved RIP. *)
Record at_stub (s : machine) (v H code : Z) : Prop := {
  as_rsp : regs s RSP = if has_code v then H - 8 else H;
  as_code : if has_code v then mread (mem s) (H - 8) = code else code = 0;
  as_room : 4096 <= H < 2 ^ 64;
  as_aligned : H mod 16 = 8
}.

Lemma align_id x : 0 <= x < 2 ^ 64 -> x mod 16 = 0 -> Z.land x (u64 (-16)) = x.
Proof.
  intros Hx Hm. change (u64 (-16)) with (not64 (u64 (2 ^ 4 - 1))). rewrite land_not64 by lia. change (2 ^ 4) with 16. zdm.
Qed.

(** After the two words of the stub. *)
Lemma stub_spec s v H code : at_stub s v H code ->
  let s' := exec s (isr_stub v) in
  regs s' RSP = H - 16 /\ (forall r, r <> RSP -> regs s' r = regs s r) /\
  mread (mem s') (H - 16) = v /\ mread (mem s') (H - 8) = code /\ (forall a, H <= a -> mread (mem s') a = mread (mem s) a).
Proof.
  intros [Hr Hc Hb _]. cbv zeta. unfold isr_stub. destruct (has_code v).
  - assert (regs (exec s [PushI v]) RSP = H - 16) as E by (cbn; rewrite Hr; reg_simpl; rewrite u64_small; lia).
    split; [done|]. split; [intros r H1; cbn; by rewrite reg_eqb_ne|]. cbn. rewrite Hr, u64_small by lia.
    split; [rewrite mread_mwrite, (proj2 (Z.eqb_eq _ _)); lia|]. split; [by rewrite mread_mwrite, (proj2 (Z.eqb_neq _ _)) by lia|].
    intros a Ha. by rewrite mread_mwrite, (proj2 (Z.eqb_neq _ _)) by lia.
  - subst code. assert (u64 (H - 8) = H - 8 /\ u64 (H - 8 - 8) = H - 16) as [E1 E2] by (rewrite !u64_small; lia).
    cbn. reg_simpl. rewrite Hr, E1, E2.
    split; [done|]. split; [intros r H1; by rewrite !reg_eqb_ne|].
    split; [by rewrite mread_mwrite_eq|]. split; [rewrite mread_mwrite_ne by lia; by rewrite mread_mwrite_eq|].
    intros a Ha. by rewrite !mread_mwrite_ne by lia.
Qed.

(** The arguments of the call. *)
Lemma call_spec s F : regs s RSP = F -> 8 <= F < 2 ^ 64 - 128 -> F mod 16 = 0 ->
  let s' := exec s isr_call in
  regs s' RDI = mread (mem s) (F + 128) /\ regs s' RSI = mread (mem s) (F + 120) /\ regs s' RDX = F /\ regs s' RSP = F - 8 /\ mem s' = mem s.
Proof.
  intros Hr Hb Hm. cbn -[Z.land u64]. reg_simpl. rewrite Hr, align_id, !u64_small by lia. done.
Qed.

Lemma isr_entry_spec s v H code : at_stub s v H code ->
  let s' := exec s (isr_stub v ++ isr_entry) in
  (regs s' RDI, regs s' RSI) = isr_args v code /\ regs s' RDX = H - 136 /\ regs s' RSP = H - 144 /\
  (forall k r, saved !! k = Some r -> mread (mem s') (H - 24 - 8 * Z.of_nat k) = regs s r) /\
  mread (mem s') (H - 16) = v /\ mread (mem s') (H - 8) = code /\ (forall a, H <= a -> mread (mem s') a = mread (mem s) a).
Proof.
  intros Hs. destruct (stub_spec s v H code Hs) as (A & B & C & D & E). destruct Hs as [_ _ Hb Hm]. cbv zeta in *.
  unfold isr_entry. rewrite !exec_app. generalize dependent (exec s (isr_stub v)). intros s1 A B C D E.
  destruct (exec_pushes saved s1 rsp_not_saved) as (P1 & P2 & P3 & P4); [rewrite A; simpl; lia|]. cbv zeta in *.
  generalize dependent (exec s1 (Push <$> saved)). intros s2 P1 P2 P3 P4. rewrite A in *. simpl length in P1.
  destruct (call_spec s2 (H - 136)) as (C1 & C2 & C3 & C4 & C5); [lia | lia | zdm|]. cbv zeta in *.
  generalize dependent (exec s2 isr_call). intros s3 C1 C2 C3 C4 C5. rewrite C1, C2, C3, C4, C5.
  replace (H - 136 + 128) with (H - 8) by lia. replace (H - 136 + 120) with (H - 16) by lia.
  rewrite (P4 (H - 8)), (P4 (H - 16)), C, D by lia. split; [done|]. split; [done|]. split; [lia|]. split.
  - intros k r Hk. rewrite <- (B r), <- (P3 k r Hk); [f_equal; lia|]. intros ->. apply rsp_not_saved. by eapply list_elem_of_lookup_2.
  - split; [done|]. split; [done|]. intros a Ha. rewrite (P4 a) by lia. by apply E.
Qed.

Lemma addi_spec s v x : regs s RSP = x -> 0 <= x + v < 2 ^ 64 ->
  regs (exec s [AddI v RSP]) RSP = x + v /\ (forall r, r <> RSP -> regs (exec s [AddI v RSP]) r = regs s r) /\ mem (exec s [AddI v RSP]) = mem s.
Proof.
  intros Hr Hb. cbn -[u64]. rewrite reg_eqb_refl, Hr, u64_small by lia. split; [done|]. split; [|done]. intros r Hne. by rewrite reg_eqb_ne.
Qed.

Lemma isr_exit_spec s H : 4096 <= H < 2 ^ 64 -> regs s RSP = H - 144 ->
  let s' := exec s isr_exit in
  regs s' RSP = H /\ (forall k r, saved !! k = Some r -> regs s' r = mread (mem s) (H - 24 - 8 * Z.of_nat k)).
Proof.
  intros Hb Hr. cbv zeta. unfold isr_exit. rewrite !exec_app.
  destruct (addi_spec s 8 (H - 144) Hr ltac:(lia)) as (A1 & _ & A3). generalize dependent (exec s [AddI 8 RSP]). intros s1 A1 A3.
  assert (NoDup (reverse saved)) as Hnd by (apply (bool_decide_unpack _); vm_compute; exact I).
  assert (RSP ∉ reverse saved) as Hn by (rewrite elem_of_reverse; apply rsp_not_saved).
  destruct (exec_pops (reverse saved) s1 Hnd Hn) as (P1 & _ & _ & P4 & _); [lia | rewrite length_reverse; simpl; lia|].
  cbv zeta in *. rewrite length_reverse in P1. simpl length in P1. rewrite A3, A1 in *.
  generalize dependent (exec s1 (Pop <$> reverse saved)). intros s2 P1 P4.
  destruct (addi_spec s2 16 (H - 16)) as (B1 & B2 & _); [lia | lia|]. split; [lia|].
  intros k r Hk. assert (k < 15)%nat as Hk' by (by apply lookup_lt_Some in Hk).
  assert (reverse saved !! (14 - k)%nat = Some r) as Hk2
    by (rewrite reverse_lookup by (simpl; lia); simpl length; by replace (15 - S (14 - k))%nat with k by lia).
  rewrite B2 by (intros ->; apply Hn; by eapply list_elem_of_lookup_2). rewrite (P4 _ _ Hk2). f_equal. lia.
Qed.

Lemma saved_all r : r <> RSP -> exists k, saved !! k = Some r.
Proof. intros Hr. destruct r; try done; by eapply list_elem_of_lookup_1, (bool_decide_unpack _); vm_compute. Qed.

(** (C34) Interrupts are transparent: whatever the vector and the registers, the stub calls the
    dispatcher with the error code and the vector, in this order, and the address of the frame;
    every register is in its slot of the frame; and when the dispatcher returns with the stack
    pointer it was called with, every register is loaded from its slot again and the stack
    pointer is at the words the processor pushed. *)
Theorem interrupts_transparent s v H code s2 : at_stub s v H code ->
  regs s2 RSP = regs (exec s (isr_stub v ++ isr_entry)) RSP ->
  let s1 := exec s (isr_stub v ++ isr_entry) in
  let s3 := exec s2 isr_exit in
  (regs s1 RDI, regs s1 RSI) = isr_args v code /\
  mread (mem s1) (regs s1 RDX + 120) = v /\ mread (mem s1) (regs s1 RDX + 128) = code /\ regs s1 RDX + 136 = H /\
  (forall a, H <= a -> mread (mem s1) a = mread (mem s) a) /\
  regs s3 RSP = H /\
  forall r, r <> RSP -> exists slot, 0 <= slot < 15 /\
    mread (mem s1) (regs s1 RDX + 8 * slot) = regs s r /\ regs s3 r = mread (mem s2) (regs s1 RDX + 8 * slot).
Proof.
  intros Hs E2. destruct (isr_entry_spec s v H code Hs) as (A & B & C & D & Ev & Ec & F). cbv zeta in *.
  generalize dependent (exec s (isr_stub v ++ isr_entry)). intros s1 E2 A B C D Ev Ec F. rewrite C in E2.
  destruct (isr_exit_spec s2 H (as_room _ _ _ _ Hs) E2) as [X1 X2]. cbv zeta in *.
  generalize dependent (exec s2 isr_exit). intros s3 X1 X2. rewrite B.
  split; [done|]. replace (H - 136 + 120) with (H - 16) by lia. replace (H - 136 + 128) with (H - 8) by lia.
  do 2 (split; [done|]). split; [lia|]. split; [done|]. split; [done|].
  intros r Hr. destruct (saved_all r Hr) as [k Hk]. pose proof (lookup_lt_Some _ _ _ Hk) as Hlt. simpl in Hlt.
  exists (14 - Z.of_nat k). split; [lia|]. replace (H - 136 + 8 * (14 - Z.of_nat k)) with (H - 24 - 8 * Z.of_nat k) by lia.
  split; [by apply D | by apply X2].
Qed.

(** A timer interrupt (vector 32) at stack pointer 0x9008. *)
Definition interrupted : machine := mk_machine (fun r => if reg_eqb r RSP then 0x9008 else 5) 0x202 ∅.
Lemma interrupts_transparent_witness : at_stub interrupted 32 0x9008 0 /\
  (regs (exec interrupted (isr_stub 32 ++ isr_entry)) RDI, regs (exec interrupted (isr_stub 32 ++ isr_entry)) RSI) = (0, 32).
Proof.
  assert (at_stub interrupted 32 0x9008 0) as H by (split; [reflexivity | reflexivity | lia | reflexivity]).
  split; [exact H|]. exact (proj1 (interrupts_transparent interrupted 32 0x9008 0 (exec interrupted (isr_stub 32 ++ isr_entry)) H eq_refl)).
Defined.

(** ** The context switch *)

(** The nine words of the task at [t] the switch uses. *)
Definition ctx_words (t a : Z) : Prop := t + 96 <= a < t + 168.

Ltac mem_simpl := repeat ((rewrite mread_mwrite_ne by lia) || rewrite mread_mwrite_eq).
Ltac asm_simpl := cbn [exec foldl step push pop set_reg set_mem regs flags mem fst snd]; unfold TASK_CTX_RSP, TASK_CTX_RBP, TASK_CTX_RBX,
  TASK_CTX_R12, TASK_CTX_R13, TASK_CTX_R14, TASK_CTX_R15, TASK_CTX_RIP, TASK_CTX_RFLAGS in *; reg_simpl; cbv iota.

Lemma switch_save_spec s prev sp : regs s RDI = prev -> regs s RSP = sp -> 0 <= prev < 2 ^ 64 - 168 -> 8 <= sp < 2 ^ 64 - 8 ->
  ~ ctx_words prev (sp - 8) -> ~ ctx_words prev sp ->
  let s' := exec s switch_save in
  mread (mem s') (prev + 96) = sp /\ mread (mem s') (prev + 104) = regs s RBP /\ mread (mem s') (prev + 112) = regs s RBX /\
  mread (mem s') (prev + 120) = regs s R12 /\ mread (mem s') (prev + 128) = regs s R13 /\ mread (mem s') (prev + 136) = regs s R14 /\
  mread (mem s') (prev + 144) = regs s R15 /\ mread (mem s') (prev + 152) = mread (mem s) sp /\ mread (mem s') (prev + 160) = flags s /\
  regs s' RSP = sp /\ regs s' RSI = regs s RSI /\
  (forall a, ~ ctx_words prev a -> a <> sp - 8 -> mread (mem s') a = mread (mem s) a).
Proof.
  intros Hd Hs Hp Hsp N1 N2. unfold ctx_words in *. cbv zeta. unfold switch_save. asm_simpl. rewrite Hd, Hs.
  rewrite ?Z.add_0_r, !(u64_small (_ + _)), (u64_small (sp - 8)), ?(u64_small sp) by lia. replace (sp - 8 + 8) with sp by lia. rewrite ?(u64_small sp) by lia.
  split_and!; [by mem_simpl..|]. intros a Ha Hne. by mem_simpl.
Qed.

Lemma switch_restore_spec s next sp : regs s RSI = next -> regs s RSP = sp -> 0 <= next < 2 ^ 64 - 168 -> 8 <= sp < 2 ^ 64 ->
  ~ ctx_words next (sp - 8) ->
  let s' := exec s switch_restore in
  regs s' RSP = mread (mem s) (next + 96) /\ regs s' RBP = mread (mem s) (next + 104) /\ regs s' RBX = mread (mem s) (next + 112) /\
  regs s' R12 = mread (mem s) (next + 120) /\ regs s' R13 = mread (mem s) (next + 128) /\ regs s' R14 = mread (mem s) (next + 136) /\
  regs s' R15 = mread (mem s) (next + 144) /\ regs s' RAX = mread (mem s) (next + 152) /\ flags s' = mread (mem s) (next + 160) /\
  (forall a, a <> sp - 8 -> mread (mem s') a = mread (mem s) a).
Proof.
  intros Hd Hs Hp Hsp N1. unfold ctx_words in *. cbv zeta. unfold switch_restore. asm_simpl. rewrite Hd, Hs.
  rewrite !(u64_small (next + _)), (u64_small (sp - 8)) by lia. split_and!; [by mem_simpl..|]. intros a Ha. by mem_simpl.
Qed.

End Asm.
