(* ===== verification/Hal.v ===== *)
(** * arch/x86/hal/hal.c, gp_fixup.c and the interrupt table of kernel/glue.c

    Processor detection, model-specific registers with the write white list and the
    recovery from a refused write, the interrupt descriptor table and the common
    interrupt entry with the arguments the stubs of [Asm] give it, the local APIC behind the boot page tables, time stamps.  What
    the processor decides (CPUID, which register values it refuses) is an argument. *)

From S2P Require Import Prelude Vmm Asm.
Import Vmm.

Module Hal.

(** ** State *)

Record cpu_info := mk_cpu {
  vendor : list Z;              (* [char vendor[13]] *)
  max_leaf : Z; family : Z; model : Z; stepping : Z; logical_cpus : Z;
  tsc_khz : Z;
  has_sse2 : bool; has_avx : bool; has_avx2 : bool; has_sha : bool;
  has_rdrand : bool; has_rdseed : bool; has_tsc_invariant : bool; has_hfi : bool
}.
Record idt_entry := mk_gate {
  offset_lo : Z; selector : Z; ist : Z; type_attr : Z; offset_mid : Z; offset_hi : Z; reserved : Z
}.
Record hal := mk_hal {
  g_cpu_info : cpu_info;
  msrs : Z -> Z;
  cr0 : Z; cr4 : Z;
  idt : list idt_entry;
  g_apic_base : Z;
  apic : Z -> Z;                (* the device's registers by byte offset *)
  g_ncpus : Z; g_cpu_ids : list Z
}.
(** What the processor and the firmware fix. *)
Record cpu := mk_hw {
  cpuid : Z -> Z -> Z * Z * Z * Z;       (* eax, ebx, ecx, edx *)
  refuses : Z -> Z -> bool;              (* WRMSR of this value raises #GP *)
  mapped : Z -> bool                     (* the page tables map this address *)
}.

Definition with_msrs (s : hal) (m : Z -> Z) : hal :=
  mk_hal (g_cpu_info s) m (cr0 s) (cr4 s) (idt s) (g_apic_base s) (apic s) (g_ncpus s) (g_cpu_ids s).
Definition with_idt (s : hal) (t : list idt_entry) : hal :=
  mk_hal (g_cpu_info s) (msrs s) (cr0 s) (cr4 s) t (g_apic_base s) (apic s) (g_ncpus s) (g_cpu_ids s).
Definition with_apic (s : hal) (b : Z) (a : Z -> Z) : hal :=
  mk_hal (g_cpu_info s) (msrs s) (cr0 s) (cr4 s) (idt s) b a (g_ncpus s) (g_cpu_ids s).

(** ** Processor detection *)

Definition bit (x n : Z) : bool := truthy (Z.land x (shl32 1 n)).
Definition le4 (v : Z) : list Z := [u8 v; u8 (Z.shiftr v 8); u8 (Z.shiftr v 16); u8 (Z.shiftr v 24)].

(** Leaf 0x15 ([eax] is the denominator, [ebx] the numerator), then leaf 0x16, then
    2 GHz. *)
Definition detect_tsc_khz (hw : cpu) (leaves : Z) : Z :=
  let khz := if 0x15 <=? leaves then
               let '(den, num, crystal_hz, _) := cpuid hw 0x15 0 in
               if truthy den && truthy num && truthy crystal_hz then u64 (crystal_hz * num) / den / 1000 else 0
             else 0 in
  let khz := if negb (truthy khz) && (0x16 <=? leaves) then
               let '(eax, _, _, _) := cpuid hw 0x16 0 in u32 (Z.land eax 0xFFFF * 1000)
             else khz in
  if negb (truthy khz) then 2000000 else khz.

Definition detect_cpu (hw : cpu) (old : cpu_info) : cpu_info :=
  let '(eax0, ebx0, ecx0, edx0) := cpuid hw 0 0 in
  let '(eax1, ebx1, ecx1, edx1) := cpuid hw 1 0 in
  let '(_, ebx7, _, edx7) := cpuid hw 7 0 in
  let '(_, _, _, edx8) := cpuid hw 0x80000007 0 in
  let seven := 7 <=? eax0 in
  mk_cpu (le4 ebx0 ++ le4 edx0 ++ le4 ecx0 ++ [0]) eax0
    (Z.land (Z.shiftr eax1 8) 0xF + Z.land (Z.shiftr eax1 20) 0xFF)
    (Z.lor (Z.land (Z.shiftr eax1 4) 0xF) (shl32 (Z.land (Z.shiftr eax1 16) 0xF) 4))
    (Z.land eax1 0xF)
    (Z.land (Z.shiftr ebx1 16) 0xFF)
    (detect_tsc_khz hw eax0)
    (bit edx1 26) (bit ecx1 28) (if seven then bit ebx7 5 else false) (if seven then bit ebx7 29 else has_sha old)
    (bit ecx1 30) (if seven then bit ebx7 18 else has_rdseed old) (bit edx8 8) (if seven then bit edx7 23 else has_hfi old).

Definition nekros_tsc_to_ns (s : hal) (tsc_delta : Z) : outcome Z :=
  if tsc_khz (g_cpu_info s) =? 0 then Fault else Done (u64 (tsc_delta * 1000000) / tsc_khz (g_cpu_info s)).

Definition detect_topology (s : hal) : hal :=
  let n := MIN (logical_cpus (g_cpu_info s)) NCPUS_MAX in
  let n := if truthy n then n else 1 in
  mk_hal (g_cpu_info s) (msrs s) (cr0 s) (cr4 s) (idt s) (g_apic_base s) (apic s) n
    (map Z.of_nat (seq 0 (Z.to_nat n)) ++ drop (Z.to_nat n) (g_cpu_ids s)).

(** ** Control registers *)
Definition enable_fpu_sse (s : hal) : hal :=
  let c0 := Z.lor (Z.land (cr0 s) (not64 (shl64 1 2))) (shl64 1 1) in
  let c4 := Z.lor (Z.lor (Z.lor (Z.lor (cr4 s) (shl64 1 9)) (shl64 1 10)) (shl64 1 7)) (shl64 1 20) in
  mk_hal (g_cpu_info s) (msrs s) c0 c4 (idt s) (g_apic_base s) (apic s) (g_ncpus s) (g_cpu_ids s).

(** ** Interrupts *)

Record isr_frame := mk_frame {
  r15 : Z; r14 : Z; r13 : Z; r12 : Z; r11 : Z; r10 : Z; r9 : Z; r8 : Z;
  rbp : Z; rdi : Z; rsi : Z; rdx : Z; rcx : Z; rbx : Z; rax : Z;
  vec : Z; errcode : Z; rip : Z; cs : Z; rflags : Z; rsp : Z; ss : Z
}.
Definition set_rip (f : isr_frame) (x : Z) : isr_frame :=
  mk_frame (r15 f) (r14 f) (r13 f) (r12 f) (r11 f) (r10 f) (r9 f) (r8 f) (rbp f) (rdi f) (rsi f) (rdx f) (rcx f) (rbx f) (rax f)
    (vec f) (errcode f) x (cs f) (rflags f) (rsp f) (ss f).
Definition set_rax (f : isr_frame) (x : Z) : isr_frame :=
  mk_frame (r15 f) (r14 f) (r13 f) (r12 f) (r11 f) (r10 f) (r9 f) (r8 f) (rbp f) (rdi f) (rsi f) (rdx f) (rcx f) (rbx f) x
    (vec f) (errcode f) (rip f) (cs f) (rflags f) (rsp f) (ss f).

Definition idt_set_gate (t : list idt_entry) (v : nat) (handler dpl ist_ : Z) : list idt_entry :=
  <[v := mk_gate (Z.land handler 0xFFFF) 0x08 (Z.land ist_ 0x7) (Z.lor 0x8E (Z.shiftl (Z.land dpl 3) 5))
           (Z.land (Z.shiftr handler 16) 0xFFFF) (Z.land (Z.shiftr handler 32) 0xFFFFFFFF) 0]> t.

(** gp_fixup.c: the table at address [start], entries of two signed 32-bit offsets. *)
Fixpoint fixup_walk (e : Z) (table : list (Z * Z)) (fault_rip : Z) : Z :=
  match table with
  | [] => 0
  | (insn_rel, fixup_rel) :: table' =>
      if u64 (e + insn_rel) =? fault_rip then u64 (e + 4 + fixup_rel) else fixup_walk (e + 8) table' fault_rip
  end.
(** [None]: the weak symbols are absent. *)
Definition gp_fixup_find (table : option (Z * list (Z * Z))) (fault_rip : Z) : Z :=
  match table with None => 0 | Some (start, l) => fixup_walk start l fault_rip end.

(** kernel/glue.c: handlers by address, 0 for none. *)
Definition irq_register (irq_table : list Z) (irq h : Z) : list Z :=
  if irq <? 16 then <[Z.to_nat irq := h]> irq_table else irq_table.
(** The handler that is called, if any. *)
Definition irq_dispatch (irq_table : list Z) (irq : Z) : option Z :=
  if irq <? 16 then let h := nth (Z.to_nat irq) irq_table 0 in if truthy h then Some h else None else None.

(** ** APIC *)

Definition APIC_BASE_MSR : Z := 0x1B.
Definition APIC_ID : Z := 0x020.
Definition APIC_EOI : Z := 0x0B0.
Definition APIC_SVR : Z := 0x0F0.
Definition APIC_TIMER_LVT : Z := 0x320.
Definition APIC_TIMER_ICR : Z := 0x380.
Definition APIC_TIMER_DCR : Z := 0x3E0.

Definition apic_read (hw : cpu) (s : hal) (reg : Z) : outcome Z :=
  if mapped hw (g_apic_base s + reg / 4 * 4) then Done (apic s (reg / 4 * 4)) else Fault.
Definition apic_write (hw : cpu) (s : hal) (reg val : Z) : outcome hal :=
  if mapped hw (g_apic_base s + reg / 4 * 4)
  then Done (with_apic s (g_apic_base s) (fun r => if r =? reg / 4 * 4 then val else apic s r)) else Fault.
Definition apic_eoi (hw : cpu) (s : hal) : outcome hal := apic_write hw s APIC_EOI 0.

(** The common entry.  A system call and a handler act on the rest of the kernel,
    [K]. *)
Section dispatch.
Context {K : Type} (syscall : K -> Z -> Z -> Z -> Z -> Z -> Z -> outcome (K * Z)) (handler : Z -> Z -> K -> outcome K).
Context (hw : cpu) (table : option (Z * list (Z * Z))) (irq_table : list Z).

Definition nekros_interrupt_dispatch (k : K) (s : hal) (v err : Z) (f : isr_frame) : outcome (K * hal * isr_frame) :=
  if v <? 32 then
    let fixup_rip := if v =? 13 then gp_fixup_find table (rip f) else 0 in
    if truthy fixup_rip then Done (k, s, set_rip f fixup_rip) else Panic
  else if v =? 0x80 then
    r ← syscall k (rax f) (rdi f) (rsi f) (rdx f) (r10 f) (r8 f);
    Done (r.1, s, set_rax f r.2)
  else if (32 <=? v) && (v <? 48) then
    let irq := u32 (v - 32) in
    k ← match irq_dispatch irq_table irq with Some h => handler h irq k | None => Done k end;
    s ← apic_eoi hw s;
    Done (k, s, f)
  else Done (k, s, f).
(** Interrupt or exception [v] with error code [code], through its stub. *)
Definition interrupt (k : K) (s : hal) (v code : Z) (f : isr_frame) : outcome (K * hal * isr_frame) :=
  let '(a, b) := Asm.isr_args v code in nekros_interrupt_dispatch k s a b f.
End dispatch.

(** ** Model-specific registers *)

Definition MSR_PKG_POWER_LIMIT : Z := 0x610.
Definition MSR_EFER : Z := 0xC0000080.
Definition MSR_STAR : Z := 0xC0000081.
Definition MSR_LSTAR : Z := 0xC0000082.
Definition MSR_SYSCALL_MASK : Z := 0xC0000084.
Definition MSR_FS_BASE : Z := 0xC0000100.
Definition MSR_GS_BASE : Z := 0xC0000101.

Definition rdmsr (s : hal) (msr : Z) : Z := msrs s msr.
Definition set_msr (s : hal) (msr val : Z) : hal := with_msrs s (fun m => if m =? msr then val else msrs s m).
(** A refused value raises #GP, and the dispatcher panics: there is no record for
    this instruction. *)
Definition wrmsr (hw : cpu) (s : hal) (msr val : Z) : outcome hal := if refuses hw msr val then Panic else Done (set_msr s msr val).

Definition zero_frame : isr_frame := mk_frame 0 0 0 0 0 0 0 0 0 0 0 0 0 0 0 0 0 0 0 0 0 0.
Definition no_syscall (k : unit) (_ _ _ _ _ _ : Z) : outcome (unit * Z) := Done (k, 0).

(** [insn] is the address of the WRMSR and [landing] of its recovery code; on a #GP the
    frame the dispatcher returns decides where execution goes on. *)
Definition wrmsr_safe (hw : cpu) (table : option (Z * list (Z * Z))) (insn landing : Z) (s : hal) (msr val : Z) : outcome (hal * Z) :=
  let sval := Z.shiftr (s64 (Z.shiftl (s64 val) 16)) 16 in
  if ((msr =? MSR_FS_BASE) || (msr =? MSR_GS_BASE)) && negb (u64 sval =? val) then Done (s, - EFAULT)
  else if refuses hw msr val then
    r ← interrupt no_syscall (fun _ _ k => Done k) hw table [] tt s 13 0 (set_rip zero_frame insn);
    if rip r.2 =? landing then Done (r.1.2, - EFAULT) else Fault
  else Done (set_msr s msr val, 0).

Definition neri_hal_read_msr : hal -> Z -> Z := rdmsr.
Definition msr_write_allowed (msr : Z) : bool :=
  if msr =? MSR_PKG_POWER_LIMIT then true else
  if msr =? MSR_FS_BASE then true else
  if msr =? MSR_GS_BASE then true else false.
Definition neri_hal_write_msr (hw : cpu) (table : option (Z * list (Z * Z))) (insn landing : Z) (s : hal) (msr val : Z) : outcome hal :=
  if negb (msr_write_allowed msr) then Done s
  else r ← wrmsr_safe hw table insn landing s msr val; Done r.1.

(** ** Initialisation *)

Definition apic_init (hw : cpu) (s : hal) : outcome hal :=
  let base := Z.lor (rdmsr s APIC_BASE_MSR) (shl64 1 11) in
  s ← wrmsr hw s APIC_BASE_MSR base;
  let s := with_apic s (phys_to_virt (Z.land base (not64 0xFFF))) (apic s) in
  svr ← apic_read hw s APIC_SVR;
  s ← apic_write hw s APIC_SVR (Z.lor svr 0x1FF);
  s ← apic_write hw s APIC_TIMER_DCR 0x3;
  s ← apic_write hw s APIC_TIMER_ICR 0x10000;
  apic_write hw s APIC_TIMER_LVT 0x20020.

Fixpoint set_gates (t : list idt_entry) (stubs : list Z) (i : nat) : list idt_entry :=
  match stubs with [] => t | h :: stubs' => set_gates (idt_set_gate t i h 0 0) stubs' (S i) end.

(** [isr_stub_table] has 256 entries. *)
Definition hal_init (hw : cpu) (isr_stub_table : list Z) (s : hal) : outcome hal :=
  let s := mk_hal (detect_cpu hw (g_cpu_info s)) (msrs s) (cr0 s) (cr4 s) (idt s) (g_apic_base s) (apic s) (g_ncpus s) (g_cpu_ids s) in
  let s := enable_fpu_sse s in
  let t := set_gates (idt s) isr_stub_table 0 in
  let s := with_idt s (idt_set_gate t 0x80 (nth 0x80 isr_stub_table 0) 3 0) in
  s ← apic_init hw s;
  Done (detect_topology s).

Definition smp_processor_id (hw : cpu) (s : hal) : outcome Z :=
  if g_apic_base s =? 0 then Done 0 else id ← apic_read hw s APIC_ID; Done (Z.shiftr id 24).

(** entry.S, setup_paging: one gigabyte at 0 and at the kernel base. *)
Definition boot_mapped (a : Z) : bool :=
  ((0 <=? a) && (a <? 2 ^ 30)) || ((KERNEL_VIRT_BASE <=? a) && (a <? KERNEL_VIRT_BASE + 2 ^ 30)).

(** ** Lemmas *)

(** The sign extension of [wrmsr_safe] accepts the canonical addresses. *)
Lemma sign_extension_canonical val : 0 <= val < 2 ^ 64 ->
  (u64 (Z.shiftr (s64 (Z.shiftl (s64 val) 16)) 16) =? val) = canonical val.
Proof.
  intros Hv. unfold canonical, s64, u64. rewrite Z.shiftl_mul_pow2, Z.shiftr_div_pow2 by lia.
  change (2 ^ 16) with 65536. change (2 ^ 63) with 0x8000000000000000. change (2 ^ 64) with 0x10000000000000000 in *. change (2 ^ 47) with 0x800000000000.
  destruct (Z.ltb_spec val 0x800000000000); [|destruct (Z.leb_spec (0x10000000000000000 - 0x800000000000) val)]; cbn [orb];
    [apply Z.eqb_eq | apply Z.eqb_eq | apply Z.eqb_neq]; zdm.
Qed.

(** The address the processor jumps to through a gate. *)
Definition gate_target (g : idt_entry) : Z := offset_lo g + 2 ^ 16 * offset_mid g + 2 ^ 32 * offset_hi g.
Definition gate_for (handler dpl : Z) (g : idt_entry) : Prop :=
  gate_target g = handler /\ selector g = 0x08 /\ type_attr g = 0x8E + 32 * dpl /\ ist g = 0 /\ reserved g = 0.

Lemma set_gate_target t v h dpl : 0 <= h < 2 ^ 64 -> dpl = 0 \/ dpl = 3 -> (v < length t)%nat ->
  exists g, idt_set_gate t v h dpl 0 = <[v := g]> t /\ gate_for h dpl g.
Proof.
  intros Hh Hd Hv. eexists. split; [reflexivity|]. unfold gate_for, gate_target. cbn [offset_lo offset_mid offset_hi selector type_attr ist reserved].
  split; [|by destruct Hd as [->| ->]]. change 0xFFFFFFFF with (2 ^ 32 - 1). change 0xFFFF with (2 ^ 16 - 1). rewrite !land_ones_mod, !Z.shiftr_div_pow2 by lia.
  change (2 ^ 16) with 65536. change (2 ^ 32) with 4294967296. change (2 ^ 64) with 18446744073709551616 in Hh. zdm.
Qed.

Lemma set_gates_spec stubs : forall t i, Forall (fun h => 0 <= h < 2 ^ 64) stubs -> (i + length stubs <= length t)%nat ->
  length (set_gates t stubs i) = length t /\
  forall j, (if decide (i <= j < i + length stubs)%nat
     then exists g, set_gates t stubs i !! j = Some g /\ gate_for (nth (j - i) stubs 0) 0 g
     else set_gates t stubs i !! j = t !! j).
Proof.
  induction stubs as [|h stubs IH]; intros t i HF Hl; cbn [set_gates length] in *.
  - split; [done|]. intros j. by rewrite decide_False by lia.
  - apply Forall_cons in HF as [Hh HF]. destruct (set_gate_target t i h 0 Hh ltac:(auto) ltac:(lia)) as (g & -> & Hg).
    destruct (IH (<[i := g]> t) (S i) HF) as [L Hj]; [rewrite length_insert; lia|]. rewrite L, length_insert. split; [done|]. intros j. specialize (Hj j).
    destruct (decide (j = i)) as [->|Hne].
    + rewrite decide_False in Hj by lia. rewrite decide_True by lia. exists g. rewrite Hj, list_lookup_insert_eq, Nat.sub_diag by lia. done.
    + destruct (decide (S i <= j < S i + length stubs)%nat).
      * rewrite decide_True by lia. destruct Hj as (g' & ? & ?). exists g'. split; [done|]. by replace (j - i)%nat with (S (j - S i)) by lia.
      * rewrite decide_False by lia. rewrite Hj. by rewrite list_lookup_insert_ne by lia.
Qed.

Lemma tsc_khz_pos hw old : (forall l i, let '(a, b, c, d) := cpuid hw l i in 0 <= a < 2 ^ 32 /\ 0 <= b < 2 ^ 32 /\ 0 <= c < 2 ^ 32) ->
  0 < tsc_khz (detect_cpu hw old).
Proof.
  intros Hw. unfold detect_cpu. destruct (cpuid hw 0 0) as [[[eax0 ?] ?] ?]. destruct (cpuid hw 1 0) as [[[? ?] ?] ?].
  destruct (cpuid hw 7 0) as [[[? ?] ?] ?]. destruct (cpuid hw 0x80000007 0) as [[[? ?] ?] ?]. cbn [tsc_khz]. unfold detect_tsc_khz.
  set (k1 := if 0x15 <=? eax0 then _ else 0). assert (0 <= k1) as H1.
  { unfold k1. destruct (0x15 <=? eax0); [|done]. pose proof (Hw 0x15 0) as H. destruct (cpuid hw 0x15 0) as [[[den num] hz] ?].
    destruct (_ && _); [|done]. pose proof (u64_range (hz * num)). destruct H as (? & ? & ?).
    destruct (Z.eq_dec den 0) as [->|]; [by rewrite Z.div_0_r|]. apply Z.div_pos; [apply Z.div_pos; lia | lia]. }
  set (k2 := if negb (truthy k1) && _ then _ else k1). assert (0 <= k2) as H2.
  { unfold k2. destruct (_ && _); [|done]. destruct (cpuid hw 0x16 0) as [[[eax ?] ?] ?]. apply u32_range. }
  unfold truthy. destruct (Z.eqb_spec k2 0); cbn [negb]; lia.
Qed.

(** ** Theorems *)

(** The registers a runtime write may reach. *)
Definition power_or_base (msr : Z) : Prop := msr = MSR_PKG_POWER_LIMIT \/ msr = MSR_FS_BASE \/ msr = MSR_GS_BASE.

(** Through the stubs every interrupt and exception without an error code is vector 0 to the
    dispatcher: the kernel panics at the first timer tick and at every system call. *)
Theorem interrupts_panic {K} syscall handler hw table irq_table (k : K) s v f :
  interrupt syscall handler hw table irq_table k s v 0 f = Panic.
Proof. reflexivity. Qed.

(** Called with the vector first, as its signature says, the dispatcher recovers: a #GP at an
    instruction with a record resumes at its landing. *)
Theorem dispatch_recovers {K} syscall handler hw table irq_table (k : K) s code f landing :
  gp_fixup_find table (rip f) = landing -> landing <> 0 ->
  nekros_interrupt_dispatch syscall handler hw table irq_table k s 13 code f = Done (k, s, set_rip f landing).
Proof.
  intros <- Hn. unfold nekros_interrupt_dispatch, truthy. cbn [Z.ltb Z.eqb Z.compare Pos.compare Pos.compare_cont Pos.eqb].
  by rewrite (proj2 (Z.eqb_neq _ 0) Hn).
Qed.

(** The write white list and the canonical check let the write through. *)
Definition write_reaches (msr val : Z) : bool := msr_write_allowed msr && ((msr =? MSR_PKG_POWER_LIMIT) || canonical val).

(** (C35) Runtime writes of model-specific registers are contained: they change no register
    but the power limit and the two segment bases, nothing else of the machine state, and
    the bases get canonical addresses only.  The kernel stops exactly when such a write
    reaches the processor and is refused: the record for recovery does not help, since the
    exception is not delivered as vector 13. *)
Theorem hal_write_msr_contained hw table insn landing s msr val : 0 <= val < 2 ^ 64 ->
  let r := neri_hal_write_msr hw table insn landing s msr val in
  if write_reaches msr val && refuses hw msr val then r = Panic
  else exists s', r = Done s' /\ s' = with_msrs s (msrs s') /\
    (forall m, msrs s' m = if write_reaches msr val && (m =? msr) then val else msrs s m) /\
    (write_reaches msr val = true -> power_or_base msr /\ (msr <> MSR_PKG_POWER_LIMIT -> canonical val = true)).
Proof.
  intros Hv r. assert (s = with_msrs s (msrs s)) as Eid by (by destruct s).
  unfold r, neri_hal_write_msr, write_reaches, msr_write_allowed, wrmsr_safe. rewrite sign_extension_canonical by done. unfold power_or_base.
  destruct (Z.eqb_spec msr MSR_PKG_POWER_LIMIT) as [->|N1]; [|destruct (Z.eqb_spec msr MSR_FS_BASE) as [->|N2]; [|destruct (Z.eqb_spec msr MSR_GS_BASE) as [->|N3]]].
  - cbn [negb andb orb]. change (MSR_PKG_POWER_LIMIT =? MSR_FS_BASE) with false. change (MSR_PKG_POWER_LIMIT =? MSR_GS_BASE) with false. cbn [orb andb].
    destruct (refuses hw MSR_PKG_POWER_LIMIT val); [reflexivity|]. eexists. split; [reflexivity|]. split; [done|]. split; [done|]. intros _. split; [auto | done].
  - cbn [negb andb orb]. destruct (canonical val) eqn:Ec; cbn [negb andb orb].
    + destruct (refuses hw MSR_FS_BASE val); [reflexivity|]. eexists. split; [reflexivity|]. split; [done|]. split; [done|]. auto.
    + exists s. split; [reflexivity|]. split; [done|]. split; done.
  - rewrite orb_true_r. cbn [negb andb orb]. destruct (canonical val) eqn:Ec; cbn [negb andb orb].
    + destruct (refuses hw MSR_GS_BASE val); [reflexivity|]. eexists. split; [reflexivity|]. split; [done|]. split; [done|]. auto.
    + exists s. split; [reflexivity|]. split; [done|]. split; done.
  - cbn [negb andb]. exists s. split; [done|]. split; [done|]. split; [done|]. done.
Qed.

Definition hw_ex : cpu := mk_hw (fun _ _ => (0, 0, 0, 0)) (fun msr _ => msr =? MSR_PKG_POWER_LIMIT) boot_mapped.
Definition no_cpu : cpu_info := mk_cpu [] 0 0 0 0 0 0 false false false false false false false false.
Definition hal_bss : hal := mk_hal no_cpu (fun _ => 0) 0 0 (replicate 256 (mk_gate 0 0 0 0 0 0 0)) 0 (fun _ => 0) 1 (replicate 256 0).

Lemma hal_write_msr_contained_witness :
  neri_hal_write_msr hw_ex (Some (0x9000, [(16, 92); (0x100, 0x200)])) 0x9108 0x920c hal_bss MSR_PKG_POWER_LIMIT 7 = Panic /\
  exists s', neri_hal_write_msr hw_ex None 0x9108 0x920c hal_bss MSR_FS_BASE 0x7000 = Done s' /\ msrs s' MSR_FS_BASE = 0x7000.
Proof.
  split; [exact (hal_write_msr_contained hw_ex (Some (0x9000, [(16, 92); (0x100, 0x200)])) 0x9108 0x920c hal_bss MSR_PKG_POWER_LIMIT 7 ltac:(lia))|].
  destruct (hal_write_msr_contained hw_ex None 0x9108 0x920c hal_bss MSR_FS_BASE 0x7000 ltac:(lia)) as (s' & E & _ & H & _).
  exists s'. split; [exact E|]. rewrite H. reflexivity.
Defined.

(** What [hal_init] leaves when it returns. *)
Record hal_ready (stubs : list Z) (s' : hal) : Prop := {
  hr_gates : forall v, (v < 256)%nat -> exists g, idt s' !! v = Some g /\ gate_for (nth v stubs 0) (if decide (v = 0x80%nat) then 3 else 0) g;
  hr_tsc : 0 < tsc_khz (g_cpu_info s');
  hr_smep : Z.testbit (cr4 s') 20 = true;
  hr_cpus : 1 <= g_ncpus s' <= NCPUS_MAX
}.

Lemma smep_set s : Z.testbit (cr4 (enable_fpu_sse s)) 20 = true.
Proof. cbn [enable_fpu_sse cr4]. rewrite !Z.lor_spec. by rewrite orb_true_r. Qed.

(** The frame of the APIC's registers, in the base register of the processor. *)
Definition apic_page (s : hal) : Z := msrs s APIC_BASE_MSR / 4096 * 4096.

Lemma apic_pointer v : 0 <= v < 2 ^ 52 -> Z.land (Z.lor v (shl64 1 11)) (not64 0xFFF) = v / 4096 * 4096.
Proof.
  intros Hv. change 0xFFF with (u64 (2 ^ 12 - 1)). assert (0 <= Z.lor v (shl64 1 11)) as H0 by (apply Z.lor_nonneg; split; [lia | done]).
  assert (Z.lor v (shl64 1 11) <= v + 2048) as H1.
  { change (shl64 1 11) with 2048. pose proof (Z.add_lor_land v 2048). pose proof (proj2 (Z.land_nonneg v 2048) ltac:(lia)). lia. }
  rewrite land_not64 by lia.
  change 4096 with (2 ^ 12). f_equal. rewrite <- !Z.shiftr_div_pow2, Z.shiftr_lor by lia. change (Z.shiftr (shl64 1 11) 12) with 0. apply Z.lor_0_r.
Qed.

Lemma apic_reg_mapped hw s reg : mapped hw = boot_mapped -> 0 <= reg < 4096 ->
  (exists pa, 0 <= pa < 2 ^ 30 /\ pa mod 4096 = 0 /\ g_apic_base s = phys_to_virt pa) -> mapped hw (g_apic_base s + reg / 4 * 4) = true.
Proof.
  intros -> Hr (pa & Hp & Ha & ->). unfold phys_to_virt, boot_mapped. rewrite u64_small by (unfold KERNEL_VIRT_BASE; lia).
  apply orb_true_iff. right. apply andb_true_iff. rewrite Z.leb_le, Z.ltb_lt. change (2 ^ 30) with 0x40000000 in *. zdm.
Qed.

Lemma apic_init_ok hw s : mapped hw = boot_mapped -> (forall v, refuses hw APIC_BASE_MSR v = false) ->
  0 <= msrs s APIC_BASE_MSR < 2 ^ 52 -> apic_page s < 2 ^ 30 ->
  exists s', apic_init hw s = Done s' /\ g_cpu_info s' = g_cpu_info s /\ idt s' = idt s /\ cr4 s' = cr4 s.
Proof.
  intros Hm Hr Hv Hp. unfold apic_init, wrmsr, rdmsr. rewrite Hr. cbn [mbind outcome_bind]. rewrite apic_pointer by done. fold (apic_page s).
  assert (0 <= apic_page s < 2 ^ 30 /\ apic_page s mod 4096 = 0) as [Hp0 Ha]. { unfold apic_page in *. split; [zdm | by rewrite Z.mod_mul by lia]. }
  unfold apic_read, apic_write. cbn [g_apic_base with_apic].
  assert (forall s' reg, 0 <= reg < 4096 -> g_apic_base s' = phys_to_virt (apic_page s) -> mapped hw (g_apic_base s' + reg / 4 * 4) = true) as Hmap.
  { intros s' reg Hreg Eb. apply apic_reg_mapped; [done..|]. exists (apic_page s). by rewrite Eb. }
  set (s1 := with_apic _ _ _). assert (forall reg, 0 <= reg < 4096 -> mapped hw (phys_to_virt (apic_page s) + reg / 4 * 4) = true) as Hall.
  { intros reg Hreg. by apply (Hmap s1). }
  rewrite !Hall by (unfold APIC_SVR, APIC_TIMER_DCR, APIC_TIMER_ICR, APIC_TIMER_LVT; lia). cbn [mbind outcome_bind g_apic_base with_apic].
  rewrite !Hall by (unfold APIC_SVR, APIC_TIMER_DCR, APIC_TIMER_ICR, APIC_TIMER_LVT; lia). cbn [mbind outcome_bind g_apic_base with_apic].
  rewrite !Hall by (unfold APIC_SVR, APIC_TIMER_DCR, APIC_TIMER_ICR, APIC_TIMER_LVT; lia). cbn [mbind outcome_bind g_apic_base with_apic].
  rewrite !Hall by (unfold APIC_SVR, APIC_TIMER_DCR, APIC_TIMER_ICR, APIC_TIMER_LVT; lia). eexists. split; [reflexivity|]. done.
Qed.

(** Initialisation of the hardware layer.  If the APIC's registers lie in the first
    gigabyte, [hal_init] returns with all 256 gates leading to their stubs (only
    0x80 open to user code), SMEP on, a positive clock rate and a processor count
    in range.  At 0xFEE00000, where the registers are on real machines,
    [phys_to_virt] wraps around and the first access faults. *)
Theorem hal_init_outcome hw stubs s : mapped hw = boot_mapped -> (forall v, refuses hw APIC_BASE_MSR v = false) ->
  (forall l i, let '(a, b, c, d) := cpuid hw l i in 0 <= a < 2 ^ 32 /\ 0 <= b < 2 ^ 32 /\ 0 <= c < 2 ^ 32) ->
  length stubs = 256%nat -> Forall (fun h => 0 <= h < 2 ^ 64) stubs -> length (idt s) = 256%nat -> 0 <= msrs s APIC_BASE_MSR < 2 ^ 52 ->
  (apic_page s < 2 ^ 30 -> exists s', hal_init hw stubs s = Done s' /\ hal_ready stubs s') /\
  (apic_page s = 0xFEE00000 -> hal_init hw stubs s = Fault).
Proof.
  intros Hm Hr Hc Hl Hs Hi Hv. unfold hal_init. cbn [g_cpu_info msrs cr0 cr4 idt g_apic_base apic g_ncpus g_cpu_ids enable_fpu_sse].
  set (s1 := with_idt _ _). split.
  - intros Hp. destruct (apic_init_ok hw s1 Hm Hr Hv Hp) as (s2 & -> & E1 & E2 & E3). cbn [mbind outcome_bind]. eexists. split; [reflexivity|].
    split; cbn [detect_topology idt g_cpu_info cr4 g_ncpus].
    + intros v Hv'. rewrite E2. cbn [s1 with_idt idt]. destruct (set_gates_spec stubs (idt s) 0 Hs ltac:(lia)) as [L Hg].
      destruct (set_gate_target (set_gates (idt s) stubs 0) 0x80 (nth 0x80 stubs 0) 3) as (g & -> & Hg80); [|auto|lia|].
      { rewrite nth_lookup. destruct (stubs !! 0x80%nat) eqn:E80; [by eapply (Forall_lookup_1 _ _ _ _ Hs)|]. cbn. lia. }
      case_decide as Hd.
      * subst v. exists g. rewrite list_lookup_insert_eq by lia. done.
      * rewrite list_lookup_insert_ne by done. specialize (Hg v). rewrite decide_True in Hg by lia. by rewrite Nat.sub_0_r in Hg.
    + rewrite E1. cbn [s1 with_idt g_cpu_info]. by apply tsc_khz_pos.
    + rewrite E3. exact (smep_set (mk_hal (detect_cpu hw (g_cpu_info s)) (msrs s) (cr0 s) (cr4 s) (idt s) (g_apic_base s) (apic s) (g_ncpus s) (g_cpu_ids s))).
    + unfold MIN, NCPUS_MAX, truthy. assert (0 <= logical_cpus (g_cpu_info s2)).
      { rewrite E1. cbn [s1 with_idt g_cpu_info]. unfold detect_cpu. destruct (cpuid hw 0 0) as [[[? ?] ?] ?]. destruct (cpuid hw 1 0) as [[[? ?] ?] ?].
        destruct (cpuid hw 7 0) as [[[? ?] ?] ?]. destruct (cpuid hw 0x80000007 0) as [[[? ?] ?] ?]. cbn [logical_cpus]. apply Z.land_nonneg. auto with lia. }
      destruct (Z.ltb_spec (logical_cpus (g_cpu_info s2)) 256); destruct (Z.eqb_spec (logical_cpus (g_cpu_info s2)) 0); cbn; lia.
  - intros Hp. unfold apic_init, wrmsr, rdmsr. rewrite Hr. cbn [mbind outcome_bind]. rewrite apic_pointer by done.
    change (msrs s1 APIC_BASE_MSR / 4096 * 4096) with (apic_page s). rewrite Hp. unfold apic_read. rewrite Hm. done.
Qed.

Definition hal_qemu (base : Z) : hal := mk_hal no_cpu (fun _ => base) 0 0 (replicate 256 (mk_gate 0 0 0 0 0 0 0)) 0 (fun _ => 0) 1 (replicate 256 0).
Definition hw_accepts : cpu := mk_hw (fun _ _ => (0, 0, 0, 0)) (fun _ _ => false) boot_mapped.
Lemma hal_init_outcome_witness : hal_init hw_accepts (replicate 256 0x1000) (hal_qemu 0xFEE00900) = Fault /\
  exists s', hal_init hw_accepts (replicate 256 0x1000) (hal_qemu 0x900) = Done s' /\ hal_ready (replicate 256 0x1000) s'.
Proof.
  split.
  - apply (hal_init_outcome hw_accepts (replicate 256 0x1000) (hal_qemu 0xFEE00900) eq_refl ltac:(reflexivity) ltac:(intros l i; cbn; lia) eq_refl
      ltac:(apply Forall_replicate; lia) eq_refl ltac:(cbn; lia)). reflexivity.
  - apply (hal_init_outcome hw_accepts (replicate 256 0x1000) (hal_qemu 0x900) eq_refl ltac:(reflexivity) ltac:(intros l i; cbn; lia) eq_refl
      ltac:(apply Forall_replicate; lia) eq_refl ltac:(cbn; lia)). reflexivity.
Defined.

(** Time stamps: exact floor while the product fits, from about two and a half hours
    of a 2 GHz clock on reduced modulo 2^64. *)
Theorem tsc_to_ns_range s d : 0 < tsc_khz (g_cpu_info s) -> 0 <= d ->
  (d * 1000000 < 2 ^ 64 -> nekros_tsc_to_ns s d = Done (d * 1000000 / tsc_khz (g_cpu_info s))) /\
  (tsc_khz (g_cpu_info s) = 2000000 -> d = 18446744073710 -> nekros_tsc_to_ns s d = Done 0).
Proof.
  intros Hk Hd. unfold nekros_tsc_to_ns. rewrite (proj2 (Z.eqb_neq _ _)) by lia. split.
  - intros Hlt. by rewrite u64_small by lia.
  - intros -> ->. done.
Qed.

End Hal.
