(* ===== verification/StartAsm.v ===== *)
(** * arch/x86/boot/entry.S: from the loader to C

    The 32-bit start code as a function of the registers and of memory in 32-bit words, and the
    page tables it builds.  The tables are read back the way the processor does, which gives the
    addresses [Hal.boot_mapped] assumes; the descriptors are decoded.  The addresses the linker
    gives the symbols are arguments; [section_load] is the rule of nekros.ld for the sections
    after the start code. *)

From S2P Require Import Prelude Vmm VmmMap AesEquiv Hal.
Import Vmm VmmMap.

Module StartAsm.

(** ** boot.h *)

Definition KERNEL_PHYS_BASE : Z := 0x100000.
Definition MB2_MAGIC : Z := 0xE85250D6.
Definition PTE_P : Z := 1.
Definition PTE_W : Z := 2.
Definition PTE_PS : Z := 0x80.
Definition CR0_WP : Z := 2 ^ 16.
Definition CR0_PG : Z := 2 ^ 31.
Definition CR4_PSE : Z := 2 ^ 4.
Definition CR4_PAE : Z := 2 ^ 5.
Definition EFER_LME : Z := 2 ^ 8.
Definition EFER_NX : Z := 2 ^ 11.

(** ** setup_paging *)

(** Where the linker puts the symbols; the four tables are four pages in a row. *)
Record symbols := mk_symbols {
  pml4 : Z; mb2_info_phys : Z; long_mode_entry : Z; gdt64_ptr : Z
}.
Definition pdpt_lo (y : symbols) : Z := pml4 y + 4096.
Definition pdpt_hi (y : symbols) : Z := pml4 y + 8192.
Definition pd (y : symbols) : Z := pml4 y + 12288.

(** The address the code uses for a symbol. *)
Definition at_ (sym : Z) : Z := u32 (sym - KERNEL_PHYS_BASE).
Definition movl (m : memory) (a v : Z) : memory := mwrite m (u32 a) (u32 v).

(** The loop from [1:] on, [ecx] entries into the directory; [n] bounds the rounds. *)
Fixpoint fill_pd (y : symbols) (m : memory) (ecx : Z) (n : nat) : memory :=
  match n with
  | O => m
  | S n =>
      let edx := u32 (at_ (pd y) + ecx * 8) in
      let m := movl m edx (Z.lor (u32 (Z.shiftl ecx 21)) (Z.lor PTE_P (Z.lor PTE_W PTE_PS))) in
      let m := movl m (edx + 4) 0 in
      let ecx := u32 (ecx + 1) in
      if ecx <? 512 then fill_pd y m ecx n else m
  end.
Definition setup_paging (y : symbols) (m : memory) : memory :=
  let m := movl m (at_ (pml4 y)) (Z.lor (at_ (pdpt_lo y)) (Z.lor PTE_P PTE_W)) in
  let m := movl m (at_ (pml4 y) + 511 * 8) (Z.lor (at_ (pdpt_hi y)) (Z.lor PTE_P PTE_W)) in
  let m := movl m (at_ (pdpt_lo y)) (Z.lor (at_ (pd y)) (Z.lor PTE_P PTE_W)) in
  let m := movl m (at_ (pdpt_hi y) + 510 * 8) (Z.lor (at_ (pd y)) (Z.lor PTE_P PTE_W)) in
  fill_pd y m 0 512.

(** ** _start32 *)

Record cpu32 := mk_cpu32 { eax : Z; ebx : Z; cr0 : Z; cr3 : Z; cr4 : Z; efer : Z; gdtr : Z; mem : memory }.
(** The processor halts for ever, or goes on in 64-bit code at an address. *)
Inductive arrival := Halted (s : cpu32) | LongMode (s : cpu32) (rip : Z).

Definition boot_panic_nomultiboot (s : cpu32) : arrival :=
  let m := movl (mem s) 0xB8000 0x4F4F4F4E in
  let m := movl m (0xB8000 + 4) 0x4F324F20 in
  Halted (mk_cpu32 (eax s) (ebx s) (cr0 s) (cr3 s) (cr4 s) (efer s) (gdtr s) m).

Definition start32 (y : symbols) (s : cpu32) : arrival :=
  let m := movl (mem s) (at_ (mb2_info_phys y)) (ebx s) in
  if negb (eax s =? MB2_MAGIC)
  then boot_panic_nomultiboot (mk_cpu32 (eax s) (ebx s) (cr0 s) (cr3 s) (cr4 s) (efer s) (gdtr s) m)
  else
    let m := setup_paging y m in
    LongMode (mk_cpu32 (Z.lor (cr0 s) (Z.lor CR0_PG CR0_WP)) (ebx s) (Z.lor (cr0 s) (Z.lor CR0_PG CR0_WP)) (at_ (pml4 y))
                (Z.lor (cr4 s) (Z.lor CR4_PAE CR4_PSE)) (Z.lor (efer s) (Z.lor EFER_LME EFER_NX)) (at_ (gdt64_ptr y)) m)
      (at_ (long_mode_entry y)).

(** ** The descriptors *)

Definition GDT64_CODE_SEL : Z := 0x08.
Definition GDT64_DATA_SEL : Z := 0x10.
Definition GDT64_USER_CODE : Z := 0x18.
Definition GDT64_USER_DATA : Z := 0x20.
Definition GDT64_TSS_SEL : Z := 0x28.
Definition gdt64 : list Z :=
  [0; 0x00AF9A000000FFFF; 0x00CF92000000FFFF; 0x00AFFA000000FFFF; 0x00CFF2000000FFFF; 0; 0].
Definition descriptor (sel : Z) : Z := nth (Z.to_nat (sel / 8)) gdt64 0.

(** How the processor reads a descriptor: bit 47 present, 45-46 the privilege level, bit 44 a
    segment for code or data, bit 43 code, bit 41 readable or writable, bit 53 64-bit code. *)
Inductive segment := Code64 (dpl : Z) | Data (dpl : Z) | System (type : Z) | Absent.
Definition decode (d : Z) : segment :=
  if negb (Z.testbit d 47) then Absent
  else if Z.testbit d 44 then
    if Z.testbit d 43 then if Z.testbit d 53 then Code64 (Z.land (Z.shiftr d 45) 3) else Absent
    else if Z.testbit d 41 then Data (Z.land (Z.shiftr d 45) 3) else Absent
  else System (Z.land (Z.shiftr d 40) 15).

(** The selectors of boot.h name the descriptors they are meant to; the one [ltr] loads is empty. *)
Theorem gdt64_descriptors :
  map (fun sel => decode (descriptor sel)) [GDT64_CODE_SEL; GDT64_DATA_SEL; GDT64_USER_CODE; GDT64_USER_DATA; GDT64_TSS_SEL]
  = [Code64 0; Data 0; Code64 3; Data 3; Absent].
Proof. vm_compute. reflexivity. Qed.

(** ** long_mode_entry *)

(** What the segment loads and [ltr] require of a descriptor; a violation is a protection fault,
    and with no interrupt table yet it ends the machine. *)
Definition load_seg (sel : Z) : outcome unit :=
  if sel <? 4 then Done tt else match decode (descriptor sel) with Data _ | Code64 _ => Done tt | _ => Fault end.
Definition load_ss (sel : Z) : outcome unit := match decode (descriptor sel) with Data 0 => Done tt | _ => Fault end.
Definition ltr (sel : Z) : outcome unit := match decode (descriptor sel) with System 9 => Done tt | _ => Fault end.

(** [rep stosb] over words of four bytes; the section starts and ends on pages. *)
Fixpoint clear_words (m : memory) (a : Z) (n : nat) : memory :=
  match n with O => m | S n => clear_words (movl m a 0) (a + 4) n end.

(** The stack pointer, the argument and memory with which [nekros_main] is called. *)
Definition long_mode_start (boot_stack_top bss_start bss_end info : Z) (m : memory) : outcome (Z * Z * memory) :=
  _ ← load_seg GDT64_DATA_SEL;
  _ ← load_seg GDT64_DATA_SEL;
  _ ← load_ss GDT64_DATA_SEL;
  _ ← load_seg 0;
  _ ← load_seg 0;
  _ ← ltr GDT64_TSS_SEL;
  Done (boot_stack_top, info, clear_words m bss_start (Z.to_nat ((bss_end - bss_start) / 4))).

(** The task register is loaded from the empty descriptor before anything has filled it in. *)
Theorem long_mode_start_faults top bs be info m : long_mode_start top bs be info m = Fault.
Proof. vm_compute. reflexivity. Qed.

(** ** The processor's view of the tables *)

Definition entry64 (m : memory) (a : Z) : Z := mread m a + 2 ^ 32 * mread m (a + 4).
(** Four levels, with 1 GB and 2 MB pages. *)
Definition translate (m : memory) (root a : Z) : option Z :=
  if negb (canonical a) then None
  else
    let e := entry64 m (root + 8 * pml4_i a) in
    if negb (present e) then None
    else
      let e := entry64 m (Z.land e PTE_ADDR_MASK + 8 * pdpt_i a) in
      if negb (present e) then None
      else if Z.testbit e 7 then Some (Z.land e PTE_ADDR_MASK / 2 ^ 30 * 2 ^ 30 + a mod 2 ^ 30)
      else
        let e := entry64 m (Z.land e PTE_ADDR_MASK + 8 * pd_i a) in
        if negb (present e) then None
        else if Z.testbit e 7 then Some (Z.land e PTE_ADDR_MASK / 2 ^ 21 * 2 ^ 21 + a mod 2 ^ 21)
        else
          let e := entry64 m (Z.land e PTE_ADDR_MASK + 8 * pt_i a) in
          if negb (present e) then None else Some (Z.land e PTE_ADDR_MASK + a mod 4096).

(** ** What the tables map *)

(** The pages at the addresses the code uses are aligned, in reach and clear. *)
Record room (y : symbols) (m : memory) : Prop := {
  rm_range : KERNEL_PHYS_BASE <= pml4 y /\ pml4 y + 16384 <= 2 ^ 31;
  rm_page : (4096 | pml4 y);
  rm_clear : forall a, at_ (pml4 y) <= a < at_ (pml4 y) + 16384 -> mread m a = 0
}.

Section tables.
Context (y : symbols) (m : memory) (R : room y m).
#[local] Abbreviation q := (pml4 y - KERNEL_PHYS_BASE).

Lemma at_table k : 0 <= k <= 12288 -> u32 (pml4 y + k - KERNEL_PHYS_BASE) = q + k.
Proof. intros Hk. destruct (rm_range _ _ R) as [H1 H2]. unfold KERNEL_PHYS_BASE in *. rewrite u32_small by lia. lia. Qed.
Lemma q_page : (4096 | q) /\ 0 <= q /\ q + 16384 <= 2 ^ 31.
Proof. destruct (rm_range _ _ R) as [H1 H2], (rm_page _ _ R) as [c Hc]. unfold KERNEL_PHYS_BASE in *. split; [exists (c - 256); lia | lia]. Qed.

(** [n] rounds of the loop from entry [i] on. *)
Lemma fill_pd_spec n : forall i m', 0 <= i -> i + Z.of_nat n = 512 -> forall a, (4 | a) ->
  mread (fill_pd y m' i n) a =
    if (q + 12288 + 8 * i <=? a) && (a <? q + 12288 + 4096)
    then if (a - (q + 12288)) mod 8 =? 0 then Z.lor (Z.shiftl ((a - (q + 12288)) / 8) 21) 0x83 else 0
    else mread m' a.
Proof.
  destruct q_page as ([c Q0] & Q1 & Q2). induction n as [|n IH]; intros i m' Hi Hn a [d Hd].
  { cbn [fill_pd]. by rewrite (proj2 (andb_false_iff _ _)) by (rewrite Z.leb_gt, Z.ltb_ge; lia). }
  cbn [fill_pd]. unfold at_, pd. rewrite at_table by lia. unfold movl.
  rewrite !(u32_small (q + 12288 + i * 8)), !(u32_small (q + 12288 + i * 8 + 4)), !(u32_small (i + 1)) by lia.
  rewrite (u32_small (Z.shiftl i 21)) by (rewrite Z.shiftl_mul_pow2; lia). change (Z.lor PTE_P (Z.lor PTE_W PTE_PS)) with 0x83.
  rewrite (u32_small (Z.lor _ _)) by (apply AesEquiv.AesEquiv.lor_range; rewrite ?Z.shiftl_mul_pow2; lia). change (u32 0) with 0.
  assert (forall x, mread (mwrite (mwrite m' (q + 12288 + i * 8) (Z.lor (Z.shiftl i 21) 0x83)) (q + 12288 + i * 8 + 4) 0) x =
    if q + 12288 + i * 8 + 4 =? x then 0 else if q + 12288 + i * 8 =? x then Z.lor (Z.shiftl i 21) 0x83 else mread m' x) as Em
    by (intros x; by rewrite !mread_mwrite).
  set (m2 := mwrite (mwrite _ _ _) _ _) in *.
  transitivity (if (q + 12288 + 8 * (i + 1) <=? a) && (a <? q + 12288 + 4096)
    then if (a - (q + 12288)) mod 8 =? 0 then Z.lor (Z.shiftl ((a - (q + 12288)) / 8) 21) 0x83 else 0 else mread m2 a).
  - destruct (Z.ltb_spec (i + 1) 512); [apply IH; [lia | lia | by exists d]|].
    by rewrite (proj2 (andb_false_iff _ _)) by (rewrite Z.leb_gt, Z.ltb_ge; lia).
  - rewrite Em. destruct (Z.eqb_spec (q + 12288 + i * 8 + 4) a) as [Ea|Na]; [|destruct (Z.eqb_spec (q + 12288 + i * 8) a) as [Eb|Nb]].
    + rewrite (proj2 (andb_false_iff _ _)) by (rewrite Z.leb_gt; lia). rewrite (proj2 (andb_true_iff _ _)) by (rewrite Z.leb_le, Z.ltb_lt; lia).
      by rewrite (proj2 (Z.eqb_neq _ _)) by zdm.
    + rewrite (proj2 (andb_false_iff _ _)) by (rewrite Z.leb_gt; lia). rewrite (proj2 (andb_true_iff _ _)) by (rewrite Z.leb_le, Z.ltb_lt; lia).
      rewrite (proj2 (Z.eqb_eq _ _)) by zdm. replace ((a - (q + 12288)) / 8) with i by zdm. done.
    + replace (q + 12288 + 8 * (i + 1) <=? a) with (q + 12288 + 8 * i <=? a); [done|].
      destruct (Z.leb_spec (q + 12288 + 8 * i) a), (Z.leb_spec (q + 12288 + 8 * (i + 1)) a); try done; lia.
Qed.

(** The words of the tables. *)
Lemma table_word a : (4 | a) -> mread (setup_paging y m) a =
  if (q + 12288 <=? a) && (a <? q + 16384)
  then if (a - (q + 12288)) mod 8 =? 0 then Z.lor (Z.shiftl ((a - (q + 12288)) / 8) 21) 0x83 else 0
  else if a =? q + 8192 + 4080 then Z.lor (q + 12288) 3
  else if a =? q + 4096 then Z.lor (q + 12288) 3
  else if a =? q + 4088 then Z.lor (q + 8192) 3
  else if a =? q then Z.lor (q + 4096) 3
  else mread m a.
Proof.
  intros Ha. destruct q_page as (_ & Q1 & Q2). unfold setup_paging. rewrite fill_pd_spec by (done || lia).
  replace (q + 12288 + 8 * 0) with (q + 12288) by lia. replace (q + 12288 + 4096) with (q + 16384) by lia.
  destruct ((q + 12288 <=? a) && (a <? q + 16384)); [done|]. unfold movl, at_, pdpt_lo, pdpt_hi, pd.
  assert (u32 q = q) as -> by (apply u32_small; lia). rewrite !at_table by lia. change (Z.lor PTE_P PTE_W) with 3.
  rewrite !(u32_small (Z.lor _ _)) by (apply AesEquiv.AesEquiv.lor_range; lia). rewrite !u32_small by lia. rewrite !mread_mwrite.
  replace (q + 8192 + 510 * 8) with (q + 8192 + 4080) by lia. replace (q + 511 * 8) with (q + 4088) by lia. by rewrite !(Z.eqb_sym _ a).
Qed.

(** Decides the comparisons of [table_word] at a given place. *)
Ltac at_word :=
  repeat match goal with
  | |- context [?x <=? ?z] => destruct (Z.leb_spec x z); try lia
  | |- context [?x <? ?z] => destruct (Z.ltb_spec x z); try lia
  | |- context [?x =? ?z] => destruct (Z.eqb_spec x z); try zdm
  end; cbn [andb].

Lemma word_clear a : q <= a < q + 16384 -> mread m a = 0.
Proof. intros Ha. apply (rm_clear _ _ R). unfold at_. destruct q_page as (_ & ? & ?). rewrite u32_small by lia. done. Qed.

Lemma entry_of a v : (8 | a) -> q <= a < q + 16384 -> mread (setup_paging y m) a = v -> entry64 (setup_paging y m) a = v.
Proof.
  intros [d Hd] Ha Hv. destruct q_page as ([c Q0] & Q1 & Q2). unfold entry64. rewrite Hv. enough (mread (setup_paging y m) (a + 4) = 0) as -> by lia.
  rewrite table_word by (exists (2 * d + 1); lia). pose proof (word_clear (a + 4) ltac:(lia)) as Hc. at_word; done.
Qed.

Lemma entry_pml4 i : 0 <= i < 512 ->
  entry64 (setup_paging y m) (q + 8 * i) = if i =? 0 then Z.lor (q + 4096) 3 else if i =? 511 then Z.lor (q + 8192) 3 else 0.
Proof.
  intros Hi. destruct q_page as ([c Q0] & Q1 & Q2). apply entry_of; [exists (c * 512 + i); lia | lia|].
  rewrite table_word by (exists (c * 1024 + 2 * i); lia). pose proof (word_clear (q + 8 * i) ltac:(lia)) as Hc. at_word; done.
Qed.
Lemma entry_pdpt_lo i : 0 <= i < 512 -> entry64 (setup_paging y m) (q + 4096 + 8 * i) = if i =? 0 then Z.lor (q + 12288) 3 else 0.
Proof.
  intros Hi. destruct q_page as ([c Q0] & Q1 & Q2). apply entry_of; [exists (c * 512 + 512 + i); lia | lia|].
  rewrite table_word by (exists (c * 1024 + 1024 + 2 * i); lia). pose proof (word_clear (q + 4096 + 8 * i) ltac:(lia)) as Hc. at_word; done.
Qed.
Lemma entry_pdpt_hi i : 0 <= i < 512 -> entry64 (setup_paging y m) (q + 8192 + 8 * i) = if i =? 510 then Z.lor (q + 12288) 3 else 0.
Proof.
  intros Hi. destruct q_page as ([c Q0] & Q1 & Q2). apply entry_of; [exists (c * 512 + 1024 + i); lia | lia|].
  rewrite table_word by (exists (c * 1024 + 2048 + 2 * i); lia). pose proof (word_clear (q + 8192 + 8 * i) ltac:(lia)) as Hc. at_word; done.
Qed.
Lemma entry_pd i : 0 <= i < 512 -> entry64 (setup_paging y m) (q + 12288 + 8 * i) = Z.lor (Z.shiftl i 21) 0x83.
Proof.
  intros Hi. destruct q_page as ([c Q0] & Q1 & Q2). apply entry_of; [exists (c * 512 + 1536 + i); lia | lia|].
  rewrite table_word by (exists (c * 1024 + 3072 + 2 * i); lia). rewrite (proj2 (andb_true_iff _ _)) by (rewrite Z.leb_le, Z.ltb_lt; lia).
  rewrite (proj2 (Z.eqb_eq _ _)) by zdm. do 2 f_equal. zdm.
Qed.

(** An entry for a table: present, not a large page, with the table's address. *)
Lemma table_entry k : k = 4096 \/ k = 8192 \/ k = 12288 ->
  present (Z.lor (q + k) 3) = true /\ Z.testbit (Z.lor (q + k) 3) 7 = false /\ Z.land (Z.lor (q + k) 3) PTE_ADDR_MASK = q + k.
Proof.
  intros Hk. destruct q_page as ([c Q0] & Q1 & Q2). assert (4096 | q + k) as Hd by (destruct Hk as [->|[->| ->]]; [exists (c + 1) | exists (c + 2) | exists (c + 3)]; lia).
  split; [by apply present_or|]. split; [rewrite Z.lor_spec, aligned_bit by (done || lia); reflexivity|].
  rewrite Z.land_lor_distr_l. change (Z.land 3 PTE_ADDR_MASK) with 0. rewrite Z.lor_0_r. apply land_mask. split; [lia | done].
Qed.
Lemma page_entry i : 0 <= i < 512 ->
  present (Z.lor (Z.shiftl i 21) 0x83) = true /\ Z.testbit (Z.lor (Z.shiftl i 21) 0x83) 7 = true /\
  Z.land (Z.lor (Z.shiftl i 21) 0x83) PTE_ADDR_MASK = i * 2 ^ 21.
Proof.
  intros Hi. split; [by apply present_or|]. split; [rewrite Z.lor_spec; apply orb_true_r|].
  rewrite Z.land_lor_distr_l. change (Z.land 0x83 PTE_ADDR_MASK) with 0. rewrite Z.lor_0_r, Z.shiftl_mul_pow2 by lia.
  apply land_mask. split; [lia | exists (i * 512); lia].
Qed.
Lemma no_entry : present 0 = false.
Proof. reflexivity. Qed.

(** Below the page directory. *)
Lemma through_pd a : 0 <= a ->
  (let e := entry64 (setup_paging y m) (q + 12288 + 8 * pd_i a) in
   if negb (present e) then None
   else if Z.testbit e 7 then Some (Z.land e PTE_ADDR_MASK / 2 ^ 21 * 2 ^ 21 + a mod 2 ^ 21)
   else let e := entry64 (setup_paging y m) (Z.land e PTE_ADDR_MASK + 8 * pt_i a) in
        if negb (present e) then None else Some (Z.land e PTE_ADDR_MASK + a mod 4096)) = Some (a mod 2 ^ 30).
Proof.
  intros Ha. cbv zeta. pose proof (index_range 21 a) as Hi. fold (pd_i a) in Hi. rewrite entry_pd by done. destruct (page_entry _ Hi) as (-> & -> & ->). cbn [negb].
  f_equal. unfold pd_i. rewrite index_eq by lia. zdm.
Qed.
End tables.

(** The tables of [setup_paging], as the processor reads them, map the first gigabyte at 0 and at
    the kernel base, and nothing else: what [Hal.boot_mapped] says. *)
Theorem setup_paging_maps y m a : room y m -> 0 <= a < 2 ^ 64 ->
  translate (setup_paging y m) (at_ (pml4 y)) a = if Hal.boot_mapped a then Some (a mod 2 ^ 30) else None.
Proof.
  intros R Ha. destruct (q_page y m R) as (_ & Q1 & Q2). unfold translate, at_. rewrite u32_small by lia.
  unfold Hal.boot_mapped, canonical, KERNEL_VIRT_BASE.
  destruct ((a <? 2 ^ 47) || (2 ^ 64 - 2 ^ 47 <=? a)) eqn:Ec; cbn [negb].
  2: { apply orb_false_iff in Ec as [E1 E2]. b2p. rewrite (proj2 (orb_false_iff _ _)); [done|]. rewrite !andb_false_iff, !Z.leb_gt, !Z.ltb_ge. lia. }
  apply orb_true_iff in Ec. rewrite Z.ltb_lt, Z.leb_le in Ec.
  assert (pml4_i a = a / 2 ^ 39 mod 512 /\ pdpt_i a = a / 2 ^ 30 mod 512) as [E4 E3] by (unfold pml4_i, pdpt_i; by rewrite !index_eq by lia).
  pose proof (index_range 39 a) as H4. pose proof (index_range 30 a) as H3. fold (pml4_i a) in H4. fold (pdpt_i a) in H3.
  rewrite (entry_pml4 y m R) by done. destruct (Z.eqb_spec (pml4_i a) 0) as [Z4|N4]; [|destruct (Z.eqb_spec (pml4_i a) 511) as [Z4|N4']].
  - destruct (table_entry y m R 4096) as (-> & _ & ->); [auto|]. cbn [negb]. rewrite (entry_pdpt_lo y m R) by done.
    destruct (Z.eqb_spec (pdpt_i a) 0) as [Z3|N3].
    + destruct (table_entry y m R 12288) as (-> & -> & ->); [auto|]. cbn [negb]. rewrite (through_pd y m R) by lia.
      rewrite (proj2 (orb_true_iff _ _)); [done|]. left. apply andb_true_iff. rewrite Z.leb_le, Z.ltb_lt. rewrite E4 in Z4. rewrite E3 in Z3. zdm.
    + rewrite no_entry. cbn [negb]. rewrite (proj2 (orb_false_iff _ _)); [done|]. rewrite !andb_false_iff, !Z.leb_gt, !Z.ltb_ge. rewrite E4 in Z4. rewrite E3 in N3. zdm.
  - destruct (table_entry y m R 8192) as (-> & _ & ->); [auto|]. cbn [negb]. rewrite (entry_pdpt_hi y m R) by done.
    destruct (Z.eqb_spec (pdpt_i a) 510) as [Z3|N3].
    + destruct (table_entry y m R 12288) as (-> & -> & ->); [auto|]. cbn [negb]. rewrite (through_pd y m R) by lia.
      rewrite (proj2 (orb_true_iff _ _)); [done|]. right. apply andb_true_iff. rewrite Z.leb_le, Z.ltb_lt. rewrite E4 in Z4. rewrite E3 in Z3. zdm.
    + rewrite no_entry. cbn [negb]. rewrite (proj2 (orb_false_iff _ _)); [done|]. rewrite !andb_false_iff, !Z.leb_gt, !Z.ltb_ge. rewrite E4 in Z4. rewrite E3 in N3. zdm.
  - rewrite no_entry. cbn [negb]. rewrite (proj2 (orb_false_iff _ _)); [done|]. rewrite !andb_false_iff, !Z.leb_gt, !Z.ltb_ge. rewrite E4 in N4, N4'. zdm.
Qed.

(** Tables linked at 1 MB, and memory that holds nothing. *)
Lemma room_ex : room (mk_symbols 0x101000 0x105000 0x105100 0x105200) ∅.
Proof. split; [vm_compute; split; discriminate | by exists 257 | intros a _; reflexivity]. Qed.

(** ** The start *)

(** With the value it compares with in EAX, [_start32] goes on in long mode with those tables;
    it jumps to the address of the entry point less 1 MB, which the tables map to itself, while
    nekros.ld links the start code at its physical addresses. *)
Theorem start32_arrives y s : eax s = MB2_MAGIC -> room y (movl (mem s) (at_ (mb2_info_phys y)) (ebx s)) ->
  KERNEL_PHYS_BASE <= long_mode_entry y < 2 ^ 30 ->
  exists s', start32 y s = LongMode s' (long_mode_entry y - KERNEL_PHYS_BASE) /\
    Z.testbit (cr0 s') 31 = true /\ Z.testbit (cr4 s') 5 = true /\ Z.testbit (efer s') 8 = true /\
    (forall a, 0 <= a < 2 ^ 64 -> translate (mem s') (cr3 s') a = if Hal.boot_mapped a then Some (a mod 2 ^ 30) else None) /\
    translate (mem s') (cr3 s') (long_mode_entry y - KERNEL_PHYS_BASE) = Some (long_mode_entry y - KERNEL_PHYS_BASE).
Proof.
  intros Ea R He. unfold start32. rewrite Ea, Z.eqb_refl. cbn [negb].
  assert (at_ (long_mode_entry y) = long_mode_entry y - KERNEL_PHYS_BASE) as -> by (unfold at_, KERNEL_PHYS_BASE in *; apply u32_small; lia).
  eexists. split; [reflexivity|]. cbn [cr0 cr4 efer cr3 mem]. rewrite !Z.lor_spec. split; [apply orb_true_r|]. split; [apply orb_true_r|]. split; [apply orb_true_r|].
  split; [intros a Ha; by apply setup_paging_maps|]. unfold KERNEL_PHYS_BASE in He. rewrite setup_paging_maps by (done || unfold KERNEL_PHYS_BASE; lia). unfold Hal.boot_mapped, KERNEL_PHYS_BASE.
  rewrite (proj2 (orb_true_iff _ _)) by (left; apply andb_true_iff; rewrite Z.leb_le, Z.ltb_lt; lia). f_equal. apply Z.mod_small. lia.
Qed.

(** A Multiboot2 loader leaves 0x36d76289 in EAX, as the comment at the top of entry.S says; the
    code compares with the magic number of the header and halts, with "NO 2" on the screen. *)
Theorem loader_refused y s : eax s = 0x36d76289 -> exists s', start32 y s = Halted s' /\
  mread (mem s') 0xB8000 = 0x4F4F4F4E /\ mread (mem s') 0xB8004 = 0x4F324F20.
Proof. intros Ea. unfold start32. rewrite Ea. eexists. split; [reflexivity|]. cbn [mem]. unfold movl. rewrite !mread_mwrite. done. Qed.

(** nekros.ld loads what it links at a high address [v] here. *)
Definition section_load (v : Z) : Z := v - KERNEL_VIRT_BASE + KERNEL_PHYS_BASE.
(** The tables map it to 1 MB below. *)
Theorem high_half_displaced y m v : room y m -> KERNEL_VIRT_BASE <= v < KERNEL_VIRT_BASE + 2 ^ 30 ->
  translate (setup_paging y m) (at_ (pml4 y)) v = Some (section_load v - KERNEL_PHYS_BASE).
Proof.
  intros R Hv. rewrite setup_paging_maps by (done || unfold KERNEL_VIRT_BASE in Hv; lia). unfold Hal.boot_mapped.
  rewrite (proj2 (orb_true_iff _ _)) by (right; apply andb_true_iff; rewrite Z.leb_le, Z.ltb_lt; lia).
  f_equal. unfold section_load, KERNEL_VIRT_BASE in *. zdm.
Qed.

End StartAsm.
