(* ===== verification/Trace.v ===== *)
(** * kernel/trace.c: per-process trace rings

    Rings of 1024 signed entries.  [trace_write] is modelled both as the function and
    as its three steps (claim a slot, copy the entry, publish it), so that the
    reader can interleave with them. *)

From Stdlib Require Import Ascii String.
From S2P Require Import Prelude Bytes Vmm VmmMap Hal Sha256 Sha256Proof.
Import Bytes Vmm VmmMap Sha256 Sha256Proof.

Module Trace.

Definition TREV_SYSCALL_ENTER : Z := 0x01.
Definition TREV_SYSCALL_EXIT : Z := 0x02.
Definition TREV_NERI_ADMIT : Z := 0x06.
Definition TREV_ANOMALY : Z := 0x08.
Definition TRACE_RING_SLOTS : Z := 1024.
Definition MAX_TRACE_RINGS : Z := 1024.
(** [sizeof(trace_ring_t)]: 61 bytes of header, aligned to 64, and the slots. *)
Definition TRACE_RING_SIZE : Z := 64 + TRACE_RING_SLOTS * 64.

Record trace_entry := mk_entry {
  timestamp_ns : Z; pid : Z; type : Z; flags : Z; arg0 : Z; arg1 : Z; arg2 : Z; retval : Z; hmac : list Z
}.
Definition zero_entry : trace_entry := mk_entry 0 0 0 0 0 0 0 0 (replicate 16 0).

Record trace_ring := mk_ring {
  write_pos : Z; write_committed : Z; read_pos : Z;    (* [u64] patterns of the atomic counters *)
  owner_pid : Z;
  enabled : bool;
  hmac_key : list Z;
  slots : list trace_entry
}.
(** [g_rings]: a NULL pointer is [None]; a ring is only reached through its entry.  The
    heap is the one [kzalloc] takes the rings from. *)
Record trace := mk_trace {
  g_rings : list (option trace_ring);
  g_trace_master_key : list Z;
  g_trace_boot_tsc : Z;
  heap : vmm
}.
Definition with_rings (s : trace) (r : list (option trace_ring)) : trace := mk_trace r (g_trace_master_key s) (g_trace_boot_tsc s) (heap s).
Definition with_ring (s : trace) (i : nat) (r : trace_ring) : trace := with_rings s (<[i := Some r]> (g_rings s)).
Definition set_enabled (r : trace_ring) (b : bool) : trace_ring :=
  mk_ring (write_pos r) (write_committed r) (read_pos r) (owner_pid r) b (hmac_key r) (slots r).

Definition trace_now_ns (h : Hal.hal) (tsc : Z) (s : trace) : outcome Z := Hal.nekros_tsc_to_ns h (u64 (tsc - g_trace_boot_tsc s)).

Definition trace_init (u : sha256_ctx) (tsc : Z) (s : trace) (machine_fp : list Z) : trace :=
  mk_trace (replicate (Z.to_nat MAX_TRACE_RINGS) None) (hkdf_sha256 u machine_fp None (bytes_of_string "nekros-trace-v1") 32) tsc (heap s).

(** The loop of [trace_enable]: a NULL entry ends it, a ring of the same process is
    resumed. *)
Inductive scan := Free (i : nat) | Resume (i : nat) (r : trace_ring) | Full.
Fixpoint scan_rings (l : list (option trace_ring)) (p : Z) (i : nat) : scan :=
  match l with
  | [] => Full
  | None :: _ => Free i
  | Some r :: l' => if owner_pid r =? p then Resume i r else scan_rings l' p (S i)
  end.

Definition new_ring (u : sha256_ctx) (s : trace) (p : Z) : trace_ring :=
  mk_ring 0 0 0 p true (hmac_sha256 u (g_trace_master_key s) (le_bytes 4 p)) (replicate (Z.to_nat TRACE_RING_SLOTS) zero_entry).

Definition trace_enable (u : sha256_ctx) (s : trace) (p : Z) : outcome (trace * Z) :=
  match scan_rings (g_rings s) p 0 with
  | Resume i r => Done (with_ring s i (set_enabled r true), 0)
  | Full => Done (s, - ENOMEM)
  | Free i =>
      r ← kzalloc (heap s) TRACE_RING_SIZE;
      let s := mk_trace (g_rings s) (g_trace_master_key s) (g_trace_boot_tsc s) r.1 in
      if r.2 =? 0 then Done (s, - ENOMEM) else Done (with_ring s i (new_ring u s p), 0)
  end.

(** Index of the process's ring. *)
Fixpoint find_ring_from (l : list (option trace_ring)) (p : Z) (i : nat) : option (nat * trace_ring) :=
  match l with
  | [] => None
  | None :: l' => find_ring_from l' p (S i)
  | Some r :: l' => if (owner_pid r =? p) && enabled r then Some (i, r) else find_ring_from l' p (S i)
  end.
Definition find_ring (s : trace) (p : Z) : option (nat * trace_ring) := find_ring_from (g_rings s) p 0.

(** The signed bytes of an entry, timestamp through return value. *)
Definition entry_bytes (e : trace_entry) : list Z :=
  le_bytes 8 (timestamp_ns e) ++ le_bytes 4 (pid e) ++ le_bytes 2 (type e) ++ le_bytes 2 (flags e) ++
  le_bytes 8 (arg0 e) ++ le_bytes 8 (arg1 e) ++ le_bytes 8 (arg2 e) ++ le_bytes 8 (retval e).
Definition sign (u : sha256_ctx) (key : list Z) (e : trace_entry) : trace_entry :=
  mk_entry (timestamp_ns e) (pid e) (type e) (flags e) (arg0 e) (arg1 e) (arg2 e) (retval e) (take 16 (hmac_sha256 u key (entry_bytes e))).

Definition slot_of (pos : Z) : nat := Z.to_nat (Z.land pos (TRACE_RING_SLOTS - 1)).

(** The three steps of [trace_write]: the claim returns the position. *)
Definition claim (r : trace_ring) : trace_ring * Z :=
  (mk_ring (u64 (write_pos r + 1)) (write_committed r) (read_pos r) (owner_pid r) (enabled r) (hmac_key r) (slots r), write_pos r).
Definition fill (r : trace_ring) (pos : Z) (e : trace_entry) : trace_ring :=
  mk_ring (write_pos r) (write_committed r) (read_pos r) (owner_pid r) (enabled r) (hmac_key r) (<[slot_of pos := e]> (slots r)).
Definition publish (r : trace_ring) : trace_ring :=
  mk_ring (write_pos r) (u64 (write_committed r + 1)) (read_pos r) (owner_pid r) (enabled r) (hmac_key r) (slots r).
Definition trace_write (u : sha256_ctx) (r : trace_ring) (e : trace_entry) : trace_ring :=
  let e := sign u (hmac_key r) e in
  let (r, pos) := claim r in
  publish (fill r pos e).

(** The common body of the four producers. *)
Definition trace_event (u : sha256_ctx) (h : Hal.hal) (tsc : Z) (s : trace) (p ty a0 a1 a2 ret : Z) : outcome trace :=
  match find_ring s p with
  | None => Done s
  | Some (i, r) =>
      now ← trace_now_ns h tsc s;
      Done (with_ring s i (trace_write u r (mk_entry now (u32 p) ty 0 a0 a1 a2 ret (replicate 16 0))))
  end.
Definition trace_syscall_enter (u : sha256_ctx) (h : Hal.hal) (tsc : Z) (s : trace) (p nr a0 a1 a2 : Z) : outcome trace :=
  trace_event u h tsc s p TREV_SYSCALL_ENTER nr a0 a1 a2.
Definition trace_syscall_exit (u : sha256_ctx) (h : Hal.hal) (tsc : Z) (s : trace) (p nr ret : Z) : outcome trace :=
  trace_event u h tsc s p TREV_SYSCALL_EXIT nr 0 0 ret.
Definition trace_anomaly (u : sha256_ctx) (h : Hal.hal) (tsc : Z) (s : trace) (p score level : Z) : outcome trace :=
  trace_event u h tsc s p TREV_ANOMALY score level 0 0.
Definition trace_neri_admit (u : sha256_ctx) (h : Hal.hal) (tsc : Z) (s : trace) (p cpu_ns ram_pages : Z) : outcome trace :=
  trace_event u h tsc s p TREV_NERI_ADMIT cpu_ns ram_pages 0 0.

(** The reader: it loads the two positions, copies entry by entry, and stores the new
    position. *)
Definition load (r : trace_ring) (max_entries : Z) : Z * nat :=
  (read_pos r, Z.to_nat (u32 (MIN (u64 (write_committed r - read_pos r)) max_entries))).
Definition copy (r : trace_ring) (rpos : Z) (i : nat) : trace_entry := nth (slot_of (u64 (rpos + Z.of_nat i))) (slots r) zero_entry.
Definition finish (r : trace_ring) (rpos : Z) (avail : nat) : trace_ring :=
  mk_ring (write_pos r) (write_committed r) (u64 (rpos + Z.of_nat avail)) (owner_pid r) (enabled r) (hmac_key r) (slots r).
Definition ring_read (r : trace_ring) (max_entries : Z) : trace_ring * list trace_entry :=
  let (rpos, avail) := load r max_entries in
  (finish r rpos avail, map (copy r rpos) (List.seq 0 avail)).
Definition trace_read (s : trace) (p max_entries : Z) : trace * list trace_entry :=
  match find_ring s p with
  | None => (s, [])
  | Some (i, r) => let (r, out) := ring_read r max_entries in (with_ring s i r, out)
  end.

Definition trace_disable (s : trace) (p : Z) : trace :=
  match find_ring s p with None => s | Some (i, r) => with_ring s i (set_enabled r false) end.

(** ** Producer and consumer interleaved

    The producer is at one of three places; between the claim and the end of the copy
    its slot may hold anything (the copy is not atomic).  The consumer has loaded
    the positions and copied some entries, or is idle.  [committed] and [got] are
    histories. *)
Inductive producer := Idle | Claimed (pos : Z) (e : trace_entry) | Filled (pos : Z) (e : trace_entry).
Inductive consumer := Waiting | Copying (rpos : Z) (avail : nat) (out : list trace_entry).
Record spsc := mk_spsc { sring : trace_ring; prod : producer; cons_ : consumer; committed : list trace_entry; got : list trace_entry }.

(** The reader has not fallen 1024 entries behind. *)
Definition room (r : trace_ring) : Prop := write_pos r < read_pos r + TRACE_RING_SLOTS /\ write_pos r + 1 < 2 ^ 64.

Section spsc.
Context (u : sha256_ctx).

Inductive step : spsc -> spsc -> Prop :=
| s_claim r c l g e : room r ->
    step (mk_spsc r Idle c l g) (mk_spsc (claim r).1 (Claimed (claim r).2 (sign u (hmac_key r) e)) c l g)
| s_tear r pos e c l g junk : step (mk_spsc r (Claimed pos e) c l g) (mk_spsc (fill r pos junk) (Claimed pos e) c l g)
| s_fill r pos e c l g : step (mk_spsc r (Claimed pos e) c l g) (mk_spsc (fill r pos e) (Filled pos e) c l g)
| s_publish r pos e c l g : step (mk_spsc r (Filled pos e) c l g) (mk_spsc (publish r) Idle c (l ++ [e]) g)
| s_load r p l g max : 0 <= max < 2 ^ 32 ->
    step (mk_spsc r p Waiting l g) (mk_spsc r p (Copying (load r max).1 (load r max).2 []) l g)
| s_copy r p rpos n out l g : (length out < n)%nat ->
    step (mk_spsc r p (Copying rpos n out) l g) (mk_spsc r p (Copying rpos n (out ++ [copy r rpos (length out)])) l g)
| s_finish r p rpos n out l g : length out = n ->
    step (mk_spsc r p (Copying rpos n out) l g) (mk_spsc (finish r rpos n) p Waiting l (g ++ out)).

Definition start (p : Z) (key : list Z) : spsc :=
  mk_spsc (mk_ring 0 0 0 p true key (replicate (Z.to_nat TRACE_RING_SLOTS) zero_entry)) Idle Waiting [] [].

Definition prod_ok (r : trace_ring) (p : producer) : Prop :=
  match p with
  | Idle => write_pos r = write_committed r
  | Claimed pos e => pos = write_committed r /\ write_pos r = pos + 1 /\ e = sign u (hmac_key r) e
  | Filled pos e => pos = write_committed r /\ write_pos r = pos + 1 /\ e = sign u (hmac_key r) e /\ slots r !! slot_of pos = Some e
  end.
Definition cons_ok (r : trace_ring) (c : consumer) (l : list trace_entry) : Prop :=
  match c with
  | Waiting => True
  | Copying rpos n out => rpos = read_pos r /\ rpos + Z.of_nat n <= write_committed r /\ (length out <= n)%nat /\
                          out = take (length out) (drop (Z.to_nat rpos) l)
  end.
Record consistent (key : list Z) (st : spsc) : Prop := {
  co_key : hmac_key (sring st) = key;
  co_len : length (slots (sring st)) = Z.to_nat TRACE_RING_SLOTS;
  co_read : 0 <= read_pos (sring st) <= write_committed (sring st);
  co_count : write_committed (sring st) = Z.of_nat (length (committed st));
  co_bound : write_pos (sring st) <= read_pos (sring st) + TRACE_RING_SLOTS /\ write_pos (sring st) < 2 ^ 64;
  co_prod : prod_ok (sring st) (prod st);
  co_slots : forall k, read_pos (sring st) <= k < write_committed (sring st) -> slots (sring st) !! slot_of k = committed st !! Z.to_nat k;
  co_cons : cons_ok (sring st) (cons_ st) (committed st);
  co_got : got st = take (Z.to_nat (read_pos (sring st))) (committed st);
  co_signed : Forall (fun e => e = sign u key e) (committed st)
}.

Lemma slot_of_mod k : 0 <= k -> slot_of k = Z.to_nat (k mod 1024).
Proof. intros. unfold slot_of, TRACE_RING_SLOTS. change (1024 - 1) with (2 ^ 10 - 1). by rewrite land_ones_mod. Qed.
Lemma slot_of_lt k : 0 <= k -> (slot_of k < 1024)%nat.
Proof. intros. rewrite slot_of_mod by done. pose proof (Z.mod_pos_bound k 1024). lia. Qed.
Lemma slot_of_inj k p : 0 <= k -> k < p -> p < k + 1024 -> slot_of k <> slot_of p.
Proof. intros. rewrite !slot_of_mod by lia. intros E. apply Z2Nat.inj in E; [zdm | zdm | zdm]. Qed.
Lemma sign_sign key e : sign u key e = sign u key (sign u key e).
Proof. done. Qed.

(** Whatever the producer writes into the slot it claimed leaves the invariant. *)
Lemma fill_consistent key r p c l g pos junk p' : consistent key (mk_spsc r p c l g) -> pos = write_committed r -> write_pos r = pos + 1 ->
  prod_ok (fill r pos junk) p' -> consistent key (mk_spsc (fill r pos junk) p' c l g).
Proof.
  intros [H1 H2 H3 H4 H5 H6 H7 H8 H9 H10] Hp Hw Hp'. cbn in *. split; cbn; try done.
  - by rewrite length_insert.
  - intros k Hk. rewrite list_lookup_insert_ne; [by apply H7|]. apply not_eq_sym, slot_of_inj; unfold TRACE_RING_SLOTS in *; lia.
Qed.

Lemma step_consistent key st st' : step st st' -> consistent key st -> consistent key st'.
Proof.
  intros Hst. destruct Hst as [r c l g e Hroom|r pos e c l g junk|r pos e c l g|r pos e c l g|r p l g max Hmax|r p rpos n out l g Hlt|r p rpos n out l g Hn]; intros H.
  - destruct H as [H1 H2 H3 H4 H5 H6 H7 H8 H9 H10]. cbn in *. destruct Hroom. unfold TRACE_RING_SLOTS in *.
    split; cbn; unfold TRACE_RING_SLOTS; rewrite ?u64_small by lia; try done. lia.
  - pose proof (co_prod _ _ H) as (E1 & E2 & E3). cbn in E1, E2, E3. eapply fill_consistent; try done.
  - pose proof (co_prod _ _ H) as (E1 & E2 & E3). pose proof (co_len _ _ H) as HL. pose proof (co_read _ _ H). cbn in *. eapply fill_consistent; try done.
    cbn. split; [done|]. split; [done|]. split; [done|]. apply list_lookup_insert_eq. rewrite HL. pose proof (slot_of_lt pos). unfold TRACE_RING_SLOTS. lia.
  - destruct H as [H1 H2 H3 H4 H5 (E1 & E2 & E3 & E4) H7 H8 H9 H10]. cbn in *. unfold TRACE_RING_SLOTS in *.
    split; cbn; unfold TRACE_RING_SLOTS; rewrite ?u64_small by lia; try done; try lia.
    + rewrite length_app. simpl. lia.
    + intros k Hk. destruct (decide (k = pos)) as [->|Hne].
      * rewrite E4, lookup_app_r by lia. replace (Z.to_nat pos - length l)%nat with 0%nat by lia. done.
      * rewrite H7, lookup_app_l by lia. done.
    + destruct c as [|rpos n out]; [done|]. destruct H8 as (F1 & F2 & F3 & F4). cbn. split; [done|]. rewrite u64_small by lia. split; [lia|]. split; [done|].
      rewrite drop_app_le, take_app_le by (rewrite ?length_drop; lia). done.
    + rewrite H9, take_app_le by lia. done.
    + apply Forall_app. split; [done|]. constructor; [congruence | done].
  - destruct H as [H1 H2 H3 H4 H5 H6 H7 H8 H9 H10]. cbn in *. split; cbn; try done. split; [done|]. split; [|split; [lia | done]].
    unfold MIN. assert (write_committed r <= write_pos r) by (destruct p as [|? ?|? ?]; cbn in H6; lia).
    rewrite (u64_small (write_committed r - read_pos r)) by lia. destruct (Z.ltb_spec (write_committed r - read_pos r) max); rewrite u32_small by lia; lia.
  - destruct H as [H1 H2 H3 H4 H5 H6 H7 (F1 & F2 & F3 & F4) H9 H10]. cbn in *. split; cbn; try done. split; [done|]. split; [done|].
    rewrite length_app. cbn [length]. split; [lia|]. rewrite Nat.add_1_r. unfold copy.
    assert (write_committed r <= write_pos r) by (destruct p as [|? ?|? ?]; cbn in H6; lia).
    rewrite u64_small by lia. rewrite nth_lookup, H7 by lia. rewrite F4 at 1.
    assert (Z.to_nat (rpos + Z.of_nat (length out)) < length l)%nat as Hl by lia. apply lookup_lt_is_Some in Hl as [x Hx]. rewrite Hx. cbn [default].
    symmetry. apply take_S_r. rewrite lookup_drop. etrans; [|exact Hx]. f_equal. lia.
  - destruct H as [H1 H2 H3 H4 H5 H6 H7 (F1 & F2 & F3 & F4) H9 H10]. cbn in *. unfold TRACE_RING_SLOTS in *.
    assert (write_committed r <= write_pos r) by (destruct p as [|? ?|? ?]; cbn in H6; lia).
    split; cbn; unfold TRACE_RING_SLOTS; rewrite ?u64_small by lia; try done; try lia.
    + intros k Hk. apply H7. lia.
    + rewrite H9, F4, Hn. rewrite <- F1. rewrite take_take_drop. f_equal. lia.
Qed.

End spsc.

(** ** Theorems *)

(** (C22) The ring passes entries from the system-call path to the reader: in every
    interleaving of the two, torn copies included, in which the reader is never
    1024 entries behind when the next slot is claimed, what the reader has got is
    a prefix of what was published, in order, every entry complete and with the
    tag of its contents under the ring's key. *)
Theorem trace_ring_spsc u p key st : length (buf u) = 64%nat -> rtc (step u) (start p key) st ->
  got st `prefix_of` committed st /\
  Forall (fun e => hmac e = take 16 (hmac_spec key (entry_bytes e))) (got st).
Proof.
  intros Hu Hr. assert (consistent u key (start p key)) as H0.
  { split; cbn; try done. intros k Hk. lia. }
  assert (consistent u key st) as [_ _ _ _ _ _ _ _ Hg Hsg].
  { clear Hu. remember (start p key) as s0. clear Heqs0. induction Hr as [|s1 s2 s3 H12 _ IH]; [done|]. apply IH. by eapply step_consistent. }
  rewrite Hg. split; [apply prefix_take|]. apply Forall_take. eapply Forall_impl; [exact Hsg|].
  intros e He. rewrite He at 1. cbn [sign hmac]. by rewrite hmac_ok.
Qed.

(** The functions are runs of the steps: a write and a read between two of them. *)
Lemma write_steps u r e c l g : room r ->
  rtc (step u) (mk_spsc r Idle c l g) (mk_spsc (trace_write u r e) Idle c (l ++ [sign u (hmac_key r) e]) g).
Proof.
  intros Hr. eapply rtc_l; [by apply (s_claim u r c l g e)|]. eapply rtc_l; [apply s_fill|]. eapply rtc_l; [apply s_publish|]. done.
Qed.
Lemma read_steps u r p l g max : 0 <= max < 2 ^ 32 ->
  rtc (step u) (mk_spsc r p Waiting l g) (mk_spsc (ring_read r max).1 p Waiting l (g ++ (ring_read r max).2)).
Proof.
  intros Hm. eapply rtc_l; [by apply (s_load u r p l g max)|]. unfold ring_read. destruct (load r max) as [rpos n]. cbn [fst snd].
  assert (forall k, (k <= n)%nat -> rtc (step u) (mk_spsc r p (Copying rpos n []) l g) (mk_spsc r p (Copying rpos n (map (copy r rpos) (List.seq 0 k))) l g)) as Hk.
  { induction k as [|k IH]; intros Hk; [done|]. eapply rtc_r; [apply IH; lia|]. rewrite seq_S, map_app.
    pose proof (s_copy u r p rpos n (map (copy r rpos) (List.seq 0 k)) l g) as H. rewrite length_map, length_seq in H. apply H. lia. }
  eapply rtc_r; [apply (Hk n); lia|]. apply s_finish. by rewrite length_map, length_seq.
Qed.

Definition entry_ex : trace_entry := mk_entry 5 7 1 0 20 0 0 0 (replicate 16 0).
Lemma trace_ring_spsc_witness : exists st, rtc (step zero_ctx) (start 7 [1; 2]) st /\ length (got st) = 1%nat /\ got st `prefix_of` committed st.
Proof.
  set (s1 := mk_spsc (trace_write zero_ctx (sring (start 7 [1; 2])) entry_ex) Idle Waiting ([] ++ [sign zero_ctx [1; 2] entry_ex]) []).
  exists (mk_spsc (ring_read (sring s1) 8).1 Idle Waiting (committed s1) ([] ++ (ring_read (sring s1) 8).2)).
  assert (rtc (step zero_ctx) (start 7 [1; 2]) (mk_spsc (ring_read (sring s1) 8).1 Idle Waiting (committed s1) ([] ++ (ring_read (sring s1) 8).2))) as Hr.
  { etrans; [apply (write_steps zero_ctx _ entry_ex); split; [reflexivity | reflexivity]|]. apply read_steps. lia. }
  split; [exact Hr|]. split; [reflexivity|]. exact (proj1 (trace_ring_spsc zero_ctx 7 [1; 2] _ eq_refl Hr)).
Defined.

(** When the ring is full the next entry takes the place of the oldest one unread,
    and is delivered as if it were that one. *)
Theorem trace_overrun u r e max : length (slots r) = Z.to_nat TRACE_RING_SLOTS -> 0 <= read_pos r -> write_committed r = write_pos r ->
  write_pos r = read_pos r + TRACE_RING_SLOTS -> write_pos r + 1 < 2 ^ 64 -> 1 <= max < 2 ^ 32 ->
  head (ring_read (trace_write u r e) max).2 = Some (sign u (hmac_key r) e).
Proof.
  intros Hl Hr Hc Hw Hlim Hm. unfold TRACE_RING_SLOTS in *. unfold trace_write, ring_read, load. cbn [claim fill publish read_pos write_committed].
  rewrite Hc, (u64_small (write_pos r + 1)), u64_small by lia. unfold MIN.
  assert (exists n, Z.to_nat (u32 (if write_pos r + 1 - read_pos r <? max then write_pos r + 1 - read_pos r else max)) = S n) as [n ->].
  { destruct (Z.ltb_spec (write_pos r + 1 - read_pos r) max); rewrite u32_small by lia.
    - exists (Z.to_nat (write_pos r - read_pos r)). lia.
    - exists (Z.to_nat (max - 1)). lia. }
  cbn [List.seq map head snd]. unfold copy. cbn [slots fill publish claim]. rewrite u64_small by lia. f_equal. rewrite nth_lookup.
  replace (slot_of (read_pos r + Z.of_nat 0)) with (slot_of (write_pos r)) by (rewrite !slot_of_mod by lia; f_equal; zdm).
  rewrite list_lookup_insert_eq; [done|]. rewrite Hl. pose proof (slot_of_lt (write_pos r)). lia.
Qed.

(** A process is never traced: the 65600 bytes of a ring come from vmalloc, whose
    memory cannot be used. *)
Theorem trace_enable_never_new u s p : in_vmalloc (heap s) -> map obj_size (slabs (heap s)) = slab_sz ->
  (forall i r, g_rings s !! i = Some (Some r) -> owner_pid r <> p) ->
  trace_enable u s p = Fault \/ exists s', trace_enable u s p = Done (s', - ENOMEM) /\ g_rings s' = g_rings s.
Proof.
  intros Hv Hs Hno. unfold trace_enable.
  assert (forall l i, (forall j r, l !! j = Some (Some r) -> owner_pid r <> p) -> forall k r, scan_rings l p i <> Resume k r) as Hscan.
  { induction l as [|[r0|] l IH]; intros i Hl k r; cbn [scan_rings]; [done| |done].
    rewrite (proj2 (Z.eqb_neq _ _)) by (apply (Hl 0%nat); done). apply IH. intros j r1 Hj. by apply (Hl (S j)). }
  destruct (scan_rings (g_rings s) p 0) as [i|i r|] eqn:E; [|by destruct (Hscan _ 0%nat Hno i r)|right; by exists s].
  unfold kzalloc. destruct (kmalloc_fails_large (heap s) TRACE_RING_SIZE Hv Hs ltac:(unfold TRACE_RING_SIZE, TRACE_RING_SLOTS; lia)) as [->|(h & -> & _)]; [by left|].
  right. cbn [mbind outcome_bind]. eexists. split; [reflexivity|]. done.
Qed.

End Trace.
