(* ===== verification/Float.v ===== *)
(** * The C type [float]

    The resource manager's security module computes in [float].  The values and the
    operations are those of SpecFloat, the executable specification of IEEE 754.  C lets a
    compiler evaluate in a wider format than the type's, and the Makefile's [-mno-sse]
    makes this one do so: [fpu] has the SSE unit, the x87 unit that rounds to [float] at
    casts and assignments, and the x87 unit that keeps the excess precision there too.

    The lemmas bound the magnitude of a result by that of the operands: the bound grows by
    one bit with each rounding.  That is what is needed to see that a conversion to an
    integer is defined. *)

From Stdlib Require Import SpecFloat.
From S2P Require Import Prelude.

Module Float.

Inductive fpu := Sse | X87 (narrows : bool).

(** The format operations are evaluated in. *)
Definition prec (f : fpu) : Z := match f with Sse => 24 | X87 _ => 64 end.
Definition emax (f : fpu) : Z := match f with Sse => 128 | X87 _ => 16384 end.

(** Rounding to a format, and what a cast or an assignment to [float] does.  The result is
    a number of the evaluation format again, where comparisons need it. *)
Definition round_to (p e : Z) (x : spec_float) : spec_float :=
  match x with S754_finite s m ex => binary_round p e s m ex | _ => x end.
Definition to_float (f : fpu) (x : spec_float) : spec_float :=
  match f with X87 true => round_to (prec f) (emax f) (round_to 24 128 x) | _ => x end.

(** A constant, and an integer converted as an operand or by a cast. *)
Definition fconst (f : fpu) (x : Z) : spec_float := binary_normalize (prec f) (emax f) x 0 false.
Definition half (f : fpu) : spec_float := binary_normalize (prec f) (emax f) 1 (-1) false.
Definition fcast (f : fpu) (x : Z) : spec_float := to_float f (fconst f x).

Definition fadd (f : fpu) : spec_float -> spec_float -> spec_float := SFadd (prec f) (emax f).
Definition fmul (f : fpu) : spec_float -> spec_float -> spec_float := SFmul (prec f) (emax f).
Definition fdiv (f : fpu) : spec_float -> spec_float -> spec_float := SFdiv (prec f) (emax f).
(** [MIN(a, b)]. *)
Definition fmin (a b : spec_float) : spec_float := if SFltb a b then a else b.

(** The integer part; [None] for infinities and NaN. *)
Definition trunc (x : spec_float) : option Z :=
  match x with
  | S754_zero _ => Some 0
  | S754_finite s m e => Some (cond_Zopp s (if 0 <=? e then Zpos m * 2 ^ e else Zpos m / 2 ^ (- e)))
  | _ => None
  end.
(** [(s32)x] is defined when the integer part is an [s32]; otherwise both units store the
    integer indefinite. *)
Definition s32_defined (x : spec_float) : bool :=
  match trunc x with Some v => (- 2 ^ 31 <=? v) && (v <? 2 ^ 31) | None => false end.
Definition to_s32 (x : spec_float) : Z :=
  if s32_defined x then default 0 (trunc x) else - 2 ^ 31.

(** ** Magnitudes *)

(** A number between 0 and 2^k. *)
Definition upto (k : Z) (x : spec_float) : Prop :=
  match x with
  | S754_zero s => s = false
  | S754_finite s m e => s = false /\ e <= k /\ Zpos m <= 2 ^ (k - e)
  | _ => False
  end.

Lemma upto_mono k l x : k <= l -> upto k x -> upto l x.
Proof.
  intros Hkl. destruct x as [| | |s m e]; simpl; [done..|]. intros (-> & He & Hm). split; [done|]. split; [lia|].
  etrans; [done|]. apply Z.pow_le_mono_r; lia.
Qed.

Lemma trunc_upto k x : 0 <= k -> upto k x -> exists v, trunc x = Some v /\ 0 <= v <= 2 ^ k.
Proof.
  intros Hk. destruct x as [s| | |s m e]; simpl; [|done..|].
  - intros _. exists 0. pose proof (pow2_pos k Hk). split; [done | lia].
  - intros (-> & He & Hm). eexists. split; [done|]. simpl. destruct (Z.leb_spec 0 e).
    + pose proof (pow2_pos e). split; [lia|]. replace k with (k - e + e) by lia. rewrite Z.pow_add_r by lia. nia.
    + pose proof (pow2_pos (- e)). split; [apply Z.div_pos; lia|]. apply Z.div_le_upper_bound; [lia|].
      rewrite <- Z.pow_add_r by lia. replace (- e + k) with (k - e) by lia. done.
Qed.

Lemma upto_defined k x : 0 <= k <= 30 -> upto k x -> s32_defined x = true.
Proof.
  intros Hk Hx. destruct (trunc_upto k x) as (v & E & Hv); [lia | done|]. unfold s32_defined. rewrite E.
  pose proof (Z.pow_le_mono_r 2 k 30 ltac:(lia) ltac:(lia)). apply andb_true_iff. rewrite Z.leb_le, Z.ltb_lt. lia.
Qed.

(** ** Shifts of SpecFloat *)

Lemma shr_1_half r : 0 <= shr_m r -> shr_m (shr_1 r) = shr_m r / 2.
Proof.
  destruct r as [[|[p|p|]|p] rr s]; cbn [shr_1 shr_m]; intros H; try done.
  - replace (Zpos p~1) with (2 * Zpos p + 1) by lia. zdm.
  - replace (Zpos p~0) with (2 * Zpos p) by lia. zdm.
Qed.

Lemma iter_shr p r : 0 <= shr_m r -> shr_m (SpecFloat.iter_pos shr_1 p r) = shr_m r / 2 ^ Zpos p.
Proof.
  revert r. induction p as [p IH|p IH|]; intros r Hr; simpl SpecFloat.iter_pos.
  - assert (0 <= shr_m (shr_1 r)) as H1 by (rewrite shr_1_half by done; zdm).
    assert (0 <= shr_m (SpecFloat.iter_pos shr_1 p (shr_1 r))) as H2 by (rewrite IH by done; apply Z.div_pos; lia).
    rewrite IH, IH, shr_1_half by done. pose proof (pow2_pos (Zpos p)). rewrite !Z.div_div by lia. f_equal.
    replace (Zpos p~1) with (1 + Zpos p + Zpos p) by lia. rewrite !Z.pow_add_r by lia. lia.
  - assert (0 <= shr_m (SpecFloat.iter_pos shr_1 p r)) as H2 by (rewrite IH by done; apply Z.div_pos; lia).
    rewrite IH, IH by done. pose proof (pow2_pos (Zpos p)). rewrite Z.div_div by lia. f_equal.
    replace (Zpos p~0) with (Zpos p + Zpos p) by lia. rewrite !Z.pow_add_r by lia. lia.
  - by rewrite shr_1_half.
Qed.

Lemma digits_lower p : 2 ^ (Zpos (digits2_pos p) - 1) <= Zpos p.
Proof.
  induction p as [p IH|p IH|]; simpl digits2_pos; [| |done];
    rewrite Pos2Z.inj_succ; replace (Z.succ (Zpos (digits2_pos p)) - 1) with (1 + (Zpos (digits2_pos p) - 1)) by lia;
    rewrite Z.pow_add_r by lia; lia.
Qed.
Lemma digits_upper p : Zpos p < 2 ^ Zpos (digits2_pos p).
Proof.
  induction p as [p IH|p IH|]; simpl digits2_pos; [| |done];
    rewrite Pos2Z.inj_succ, Z.pow_succ_r by lia; lia.
Qed.

Lemma digits_le m j : 0 <= j -> 0 <= m <= 2 ^ j -> Zdigits2 m <= j + 1.
Proof.
  intros Hj Hm. destruct m as [|p|p]; simpl; [lia | | lia].
  destruct (Z.le_gt_cases (Zpos (digits2_pos p)) (j + 1)); [done|]. pose proof (digits_lower p).
  pose proof (Z.pow_lt_mono_r 2 j (Zpos (digits2_pos p) - 1)). lia.
Qed.

Lemma div_pow2_le m a n : 0 <= n <= a -> m <= 2 ^ a -> m / 2 ^ n <= 2 ^ (a - n).
Proof.
  intros Hn Hm. pose proof (pow2_pos n). apply Z.div_le_upper_bound; [lia|].
  rewrite <- Z.pow_add_r by lia. replace (n + (a - n)) with a by lia. done.
Qed.

Section Format.
Context (p e : Z) (Hp : 1 <= p <= 64) (He : 128 <= e).

(** Shifting to the format's exponent keeps the bound and ends at an exponent below it. *)
Lemma shr_fexp_upto m ex l k : -64 <= k -> ex <= k -> 0 <= m <= 2 ^ (k - ex) ->
  let '(r, ex') := shr_fexp p e m ex l in ex' <= k /\ 0 <= shr_m r <= 2 ^ (k - ex').
Proof.
  intros Hk Hex Hm. unfold shr_fexp. set (n := fexp p e (Zdigits2 m + ex) - ex).
  assert (n <= k - ex) as Hn.
  { pose proof (digits_le m (k - ex) ltac:(lia) Hm). unfold n, fexp, emin. lia. }
  assert (shr_m (shr_record_of_loc m l) = m) as E by (destruct l as [|[]]; done).
  unfold shr. destruct n as [|q|q] eqn:En; [rewrite E; split; [lia | done]| |rewrite E; split; [lia | done]].
  rewrite iter_shr by (rewrite E; lia). rewrite E. split; [lia|]. pose proof (pow2_pos (Zpos q)).
  split; [apply Z.div_pos; lia|]. replace (k - (ex + Zpos q)) with (k - ex - Zpos q) by lia. apply div_pow2_le; lia.
Qed.

Lemma round_nearest_le m l : 0 <= m -> 0 <= round_nearest_even m l <= m + 1.
Proof. intros. destruct l as [|[]]; simpl; [lia | | lia..]. destruct (Z.even m); lia. Qed.

Lemma round_aux_upto m ex l k : -64 <= k <= 60 -> ex <= k -> 0 <= m <= 2 ^ (k - ex) ->
  upto (k + 1) (binary_round_aux p e false m ex l).
Proof.
  intros Hk Hex Hm. unfold binary_round_aux. pose proof (shr_fexp_upto m ex l k ltac:(lia) Hex Hm) as H1.
  destruct (shr_fexp p e m ex l) as [r1 e1]. destruct H1 as [He1 Hr1].
  set (m2 := round_nearest_even _ _). assert (0 <= m2 <= 2 ^ (k + 1 - e1)) as Hm2.
  { pose proof (round_nearest_le (shr_m r1) (loc_of_shr_record r1) ltac:(lia)) as H. fold m2 in H.
    replace (k + 1 - e1) with (1 + (k - e1)) by lia. rewrite Z.pow_add_r by lia. pose proof (pow2_pos (k - e1)). lia. }
  pose proof (shr_fexp_upto m2 e1 loc_Exact (k + 1) ltac:(lia) ltac:(lia) Hm2) as H2.
  destruct (shr_fexp p e m2 e1 loc_Exact) as [r2 e2]. destruct H2 as [He2 Hr2].
  destruct (shr_m r2) as [|q|q]; [done | | lia]. rewrite (proj2 (Z.leb_le _ _)) by lia. simpl. split; [done|]. split; [lia|]. lia.
Qed.

Lemma iter_xO m d : Zpos (Pos.iter xO m d) = Zpos m * 2 ^ Zpos d.
Proof.
  induction d as [|d IH] using Pos.peano_ind; [simpl; lia|]. rewrite Pos.iter_succ, Pos2Z.inj_succ, Z.pow_succ_r by lia. lia.
Qed.

Lemma binary_round_upto m ex k : -64 <= k <= 60 -> ex <= k -> Zpos m <= 2 ^ (k - ex) ->
  upto (k + 1) (binary_round p e false m ex).
Proof.
  intros Hk Hex Hm. unfold binary_round, shl_align. set (t := fexp _ _ _). destruct (t - ex) as [|d|d] eqn:Ed; [apply round_aux_upto; lia..|].
  apply round_aux_upto; [done | lia|]. rewrite iter_xO. split; [lia|].
  replace (k - t) with (k - ex + Zpos d) by lia. rewrite Z.pow_add_r by lia. pose proof (pow2_pos (Zpos d)). nia.
Qed.

Lemma round_to_upto x k : -64 <= k <= 60 -> upto k x -> upto (k + 1) (round_to p e x).
Proof.
  intros Hk. destruct x as [s| | |s m ex]; [done..|]. simpl. intros (-> & ? & ?). by apply binary_round_upto.
Qed.

Lemma SFmul_upto x y k l : upto k x -> upto l y -> -64 <= k + l <= 60 -> upto (k + l + 1) (SFmul p e x y).
Proof.
  intros Hx Hy Hk. destruct x as [s| | |s m ex], y as [t| | |t n ey]; simpl in Hx, Hy; try done.
  - simpl. subst. done.
  - destruct Hy as (-> & _). subst. done.
  - destruct Hx as (-> & _). subst. done.
  - destruct Hx as (-> & ? & ?), Hy as (-> & ? & ?). apply round_aux_upto; [done | lia|].
    replace (k + l - (ex + ey)) with (k - ex + (l - ey)) by lia. rewrite Z.pow_add_r, Pos2Z.inj_mul by lia. nia.
Qed.

(** Division by a number of at least 2^j. *)
Lemma SFdiv_upto x n ey k j : upto k x -> ey <= j -> 2 ^ (j - ey) <= Zpos n -> -64 <= k - j <= 60 ->
  upto (k - j + 1) (SFdiv p e x (S754_finite false n ey)).
Proof.
  intros Hx Hey Hn Hk. destruct x as [s| | |s m ex]; simpl in Hx; [by subst | done..|]. destruct Hx as (-> & Hex & Hm).
  unfold SFdiv, SFdiv_core_binary. set (d := Zdigits2 (Zpos m) + ex - (Zdigits2 (Zpos n) + ey)).
  set (e' := Z.min (fexp p e d) (ex - ey)). assert (e' <= k - j) as He'.
  { pose proof (digits_le (Zpos m) (k - ex) ltac:(lia) ltac:(lia)). pose proof (digits_upper n).
    assert (j - ey < Zpos (digits2_pos n)) by (apply (Z.pow_lt_mono_r_iff 2); lia).
    unfold e', fexp, emin, d. simpl Zdigits2 in *. lia. }
  set (s := ex - ey - e'). assert (0 <= s) as Hs by lia.
  assert ((match s with Zpos _ => Z.shiftl (Zpos m) s | Z0 => Zpos m | Zneg _ => 0 end) = Zpos m * 2 ^ s) as ->.
  { rewrite <- Z.shiftl_mul_pow2 by done. destruct s; [done.. | lia]. }
  destruct (Z.div_eucl (Zpos m * 2 ^ s) (Zpos n)) as [q r] eqn:Eq.
  assert (q = Zpos m * 2 ^ s / Zpos n) as -> by (unfold Z.div; by rewrite Eq).
  pose proof (pow2_pos s Hs). apply round_aux_upto; [done | done|]. split; [apply Z.div_pos; lia|].
  apply Z.div_le_upper_bound; [lia|]. transitivity (2 ^ (j - ey) * 2 ^ (k - j - e')).
  - rewrite <- Z.pow_add_r by lia. replace (j - ey + (k - j - e')) with (k - ex + s) by lia. rewrite Z.pow_add_r by lia. nia.
  - apply Z.mul_le_mono_nonneg_r; [apply Z.pow_nonneg; lia | done].
Qed.
End Format.

(** ** The units *)

Lemma prec_bounds f : 1 <= prec f <= 64 /\ 128 <= emax f.
Proof. destruct f; simpl; lia. Qed.

Lemma fconst_upto f x k : 0 <= k <= 60 -> 0 <= x <= 2 ^ k -> upto (k + 1) (fconst f x).
Proof.
  intros Hk Hx. destruct (prec_bounds f). unfold fconst. destruct x as [|m|m]; [done | | lia].
  apply binary_round_upto; [done | done | lia | lia|]. rewrite Z.sub_0_r. lia.
Qed.

Lemma half_upto f : upto 0 (half f).
Proof. destruct f; vm_compute; (split; [reflexivity | split; discriminate]). Qed.

Lemma to_float_upto f x k : -64 <= k <= 58 -> upto k x -> upto (k + 2) (to_float f x).
Proof.
  intros Hk Hx. destruct (prec_bounds f). destruct f as [|[]]; simpl; [by apply (upto_mono k); [lia|] | | by apply (upto_mono k); [lia|]].
  replace (k + 2) with (k + 1 + 1) by lia. apply round_to_upto; [lia | lia | lia|]. apply round_to_upto; [lia | lia | lia | done].
Qed.

Lemma fmul_upto f x y k l : upto k x -> upto l y -> -64 <= k + l <= 60 -> upto (k + l + 1) (fmul f x y).
Proof. destruct (prec_bounds f). by apply SFmul_upto. Qed.

(** What [fconst] makes of a constant of at least 2^j. *)
Definition at_least (j : Z) (x : spec_float) : bool :=
  match x with S754_finite false n ey => (ey <=? j) && (2 ^ (j - ey) <=? Zpos n) | _ => false end.
Lemma fdiv_upto f x y k j : at_least j y = true -> upto k x -> -64 <= k - j <= 60 -> upto (k - j + 1) (fdiv f x y).
Proof.
  destruct (prec_bounds f). destruct y as [| | |[] n ey]; try done. simpl. rewrite andb_true_iff, !Z.leb_le. intros [? ?] ? ?.
  by apply SFdiv_upto.
Qed.

Lemma fadd_zero_l f x k : upto k x -> fadd f (S754_zero false) x = x.
Proof. destruct x as [s| | |s m e]; simpl; [by intros -> | done..]. Qed.

(** A quotient of zero is zero, whatever the unit. *)
Lemma zero_ratio f c j : at_least j c = true -> fdiv f (fcast f 0) c = S754_zero false.
Proof. destruct c as [| | |[] n ey]; try done. intros _. by destruct f as [|[]]. Qed.

End Float.
