(* ===== verification/Neri.v ===== *)
(** * drivers/neri: the resource manager

    One group of definitions per source file: the pool (core/neri_pool.c), the telemetry bus
    (core/neri_utb.c), the cost engine (core/neri_nzra.c), the EMA optimiser
    (neki/neki_loop.c), the dispatcher (core/neri_ado.c) and the security module
    (core/neri_sec.c).  Hardware reads (MSRs, the time stamp counter) and the
    conversion of the counter to nanoseconds are arguments, and so is the
    floating-point unit the security module's features are computed on.  A division by zero is
    a fault, [None]. *)

From Stdlib Require Import SpecFloat.
From S2P Require Import Prelude Bytes Sha256 AesGcm ListHead Float.
Import Bytes ListHead Float.

Module Neri.

(** ** drivers/neri/include/neri.h *)

Record neri_proc := mk_proc {
  p_pid : Z; p_priority : Z;
  cpu_demand_ns : Z; ram_demand_pages : Z; gpu_demand_slots : Z;
  cpu_granted_ns : Z; ram_granted_pages : Z; gpu_granted_slots : Z;
  epoch_admitted : Z; last_cpu : Z
}.

Record neri_pool := mk_pool {
  cpu_total_ns : Z; cpu_alloc_ns : Z;
  ram_total_pages : Z; ram_alloc_pages : Z;
  gpu_total_slots : Z; gpu_alloc_slots : Z;
  epoch : Z; epoch_start_tsc : Z
}.

(** [Q16(n)] on a 64-bit operand, [Q16_TO_INT]. *)
Definition Q16 (n : Z) : Z := shl64 n 16.
Definition Q16_TO_INT (x : Z) : Z := Z.shiftr x 16.

(** C division: a zero divisor traps. *)
Definition div_ (a b : Z) : option Z := if b =? 0 then None else Some (a / b).

(** ** core/neri_pool.c *)

Definition NERI_EPOCH_NS : Z := 10000000.

Definition sat_sub (a b : Z) : Z := if b <=? a then a - b else 0.

(** The admitted list: its head, and the [node] of each process record. *)
Inductive pnode := AdmittedHead | ProcNode (p : Z).
#[export] Instance pnode_eq : EqDecision pnode.
Proof. solve_decision. Defined.
#[export] Instance pnode_countable : Countable pnode.
Proof.
  refine (inj_countable' (fun n => match n with AdmittedHead => inl () | ProcNode p => inr p end)
    (fun s => match s with inl _ => AdmittedHead | inr p => ProcNode p end) _). by intros [].
Defined.
Abbreviation plinks := (gmap pnode (list_head pnode)).

Record pool_state := mk_ps { pool : neri_pool; admitted : plinks; neri_admitted_count : Z; g_neri_ready : bool }.

Definition neri_pool_init (links : plinks) (count total_ram_pages ncpus gpu_slots tsc : Z) : pool_state :=
  mk_ps (mk_pool (u64 (ncpus * NERI_EPOCH_NS)) 0 total_ram_pages 0 gpu_slots 0 1 tsc)
    (list_init links AdmittedHead) count true.

(** [pa] is the address of [proc]; [block_admits] what [neri_sec_get_anomaly] reports. *)
Definition neri_sched_admit (s : pool_state) (block_admits : bool) (pa : Z) (proc : neri_proc)
    : option (pool_state * neri_proc * Z) :=
  if block_admits then Some (s, proc, - EPERM)
  else
    let p := pool s in
    let cpu_head := u64 (cpu_total_ns p * 2) in
    let ram_head := u64 (ram_total_pages p * 3) / 2 in
    if (cpu_head <? u64 (cpu_alloc_ns p + cpu_demand_ns proc)) ||
       (ram_head <? u64 (ram_alloc_pages p + ram_demand_pages proc))
    then Some (s, proc, - EBUSY)
    else
      let proc' := mk_proc (p_pid proc) (p_priority proc)
        (cpu_demand_ns proc) (ram_demand_pages proc) (gpu_demand_slots proc)
        (cpu_demand_ns proc) (ram_demand_pages proc) (gpu_demand_slots proc)
        (u64 (epoch p)) (last_cpu proc) in
      let p' := mk_pool (cpu_total_ns p) (u64 (cpu_alloc_ns p + cpu_granted_ns proc'))
        (ram_total_pages p) (u64 (ram_alloc_pages p + ram_granted_pages proc'))
        (gpu_total_slots p) (u64 (gpu_alloc_slots p + gpu_granted_slots proc'))
        (epoch p) (epoch_start_tsc p) in
      l ← list_add_tail (admitted s) (ProcNode pa) AdmittedHead;
      Some (mk_ps p' l (u32 (neri_admitted_count s + 1)) (g_neri_ready s), proc', 0).

Definition neri_sched_release (s : pool_state) (pa : Z) (proc : neri_proc) : option pool_state :=
  let p := pool s in
  let p' := mk_pool (cpu_total_ns p) (sat_sub (cpu_alloc_ns p) (cpu_granted_ns proc))
    (ram_total_pages p) (sat_sub (ram_alloc_pages p) (ram_granted_pages proc))
    (gpu_total_slots p) (sat_sub (gpu_alloc_slots p) (gpu_granted_slots proc))
    (epoch p) (epoch_start_tsc p) in
  nx ← get_next (admitted s) (Some (ProcNode pa));
  l ← match nx with Some _ => list_del (admitted s) (ProcNode pa) | None => Some (admitted s) end;
  Some (mk_ps p' l (if 0 <? neri_admitted_count s then neri_admitted_count s - 1 else neri_admitted_count s)
          (g_neri_ready s)).

(** [neri_sched_tick] up to the calls of the other parts: the new pool and the epoch
    number when an epoch ended. *)
Definition tick_pool (p : neri_pool) (tsc_to_ns : Z -> Z) (now total_p free_p : Z) : neri_pool * option Z :=
  let delta := tsc_to_ns (u64 (now - epoch_start_tsc p)) in
  if delta <? NERI_EPOCH_NS then (p, None)
  else
    let ep := s64 (epoch p + 1) in
    (mk_pool (cpu_total_ns p) (cpu_alloc_ns p) total_p (if free_p <? total_p then total_p - free_p else 0)
       (gpu_total_slots p) (gpu_alloc_slots p) ep now, Some (u64 ep)).

(** ** core/neri_utb.c *)

Definition NERI_IPC_CLASS_COMPUTE : Z := 0.
Definition NERI_IPC_CLASS_MEMORY : Z := 1.
Definition NERI_IPC_CLASS_MIXED : Z := 2.
Definition NERI_IPC_CLASS_IDLE : Z := 3.
Definition UTB_MIN_RAPL_UNIT_MW : Z := 100.
Definition UTB_MAX_RAPL_UNIT_MW : Z := 100000.
Definition UTB_MAX_PKG_POWER_MW : Z := 300000.
Definition UTB_MAX_DRAM_POWER_MW : Z := 50000.
Definition UTB_MAX_PP0_POWER_MW : Z := 280000.

Record snapshot := mk_snap {
  pkg_power_mw : Z; pp0_power_mw : Z; dram_power_mw : Z;
  ipc_class : list Z; aperf : list Z; mperf : list Z;
  tsc_snapshot : Z; sample_epoch : Z
}.

Record utb := mk_utb {
  g_utb_snapshot : snapshot; g_utb_ready : bool;
  g_rapl_unit_mw : Z; g_last_pkg_raw : Z; g_last_dram_raw : Z; g_last_tsc : Z
}.

Definition MSR_RAPL_POWER_UNIT : Z := 0x606.
Definition MSR_PKG_ENERGY_STATUS : Z := 0x611.
Definition MSR_DRAM_ENERGY_STATUS : Z := 0x619.
Definition MSR_PKG_POWER_LIMIT : Z := 0x610.
Definition MSR_IA32_MPERF : Z := 0xE7.
Definition MSR_IA32_APERF : Z := 0xE8.

Definition read_rapl_energy_mj (msr : Z -> Z) (r : Z) : Z := Z.land (msr r) 0xFFFFFFFF.

Definition rapl_delta_to_mw (u : utb) (raw_delta elapsed_ns : Z) : Z :=
  if elapsed_ns =? 0 then 0
  else
    let energy_mj := u64 (raw_delta * g_rapl_unit_mw u) / 1000 in
    u64 (energy_mj * 1000000) / elapsed_ns.

Definition classify_cpu_ipc (s : snapshot) (cpu : Z) : Z :=
  if NCPUS_MAX <=? cpu then NERI_IPC_CLASS_IDLE
  else
    let ap := at_ (aperf s) (Z.to_nat cpu) in
    let mp := at_ (mperf s) (Z.to_nat cpu) in
    if mp =? 0 then NERI_IPC_CLASS_IDLE
    else
      let ratio := u64 (ap * 100) / mp in
      if 85 <? ratio then NERI_IPC_CLASS_COMPUTE
      else if ratio <? 40 then NERI_IPC_CLASS_MEMORY
      else NERI_IPC_CLASS_MIXED.

Definition zero_snapshot : snapshot := mk_snap 0 0 0 (replicate 256 0) (replicate 256 0) (replicate 256 0) 0 0.

Definition rapl_unit (pu : Z) : Z :=
  let energy_unit_exp := Z.land (Z.shiftr pu 8) 0x1F in
  let u := 1000 / shl64 1 energy_unit_exp in
  let u := if u <? UTB_MIN_RAPL_UNIT_MW then UTB_MIN_RAPL_UNIT_MW else u in
  if UTB_MAX_RAPL_UNIT_MW <? u then UTB_MAX_RAPL_UNIT_MW else u.

Definition neri_utb_init (msr : Z -> Z) (tsc : Z) : utb :=
  let s := zero_snapshot in
  mk_utb (mk_snap 0 0 0 (ipc_class s) (<[0%nat := msr MSR_IA32_APERF]> (aperf s))
            (<[0%nat := msr MSR_IA32_MPERF]> (mperf s)) 0 0)
    true (rapl_unit (msr MSR_RAPL_POWER_UNIT))
    (read_rapl_energy_mj msr MSR_PKG_ENERGY_STATUS) (read_rapl_energy_mj msr MSR_DRAM_ENERGY_STATUS) tsc.

(** The APERF/MPERF loop at CPU [i]: the new class and APERF. *)
Definition sanitize_perf (cls ap mp : Z) : Z * Z :=
  if mp =? 0 then (NERI_IPC_CLASS_IDLE, 0)
  else if mp <? ap then (cls, mp) else (cls, ap).
Definition sanitize_class (cls : Z) : Z :=
  if negb (cls =? NERI_IPC_CLASS_IDLE) && negb (cls =? NERI_IPC_CLASS_COMPUTE)
     && negb (cls =? NERI_IPC_CLASS_MEMORY) && negb (cls =? NERI_IPC_CLASS_MIXED)
  then NERI_IPC_CLASS_IDLE else cls.

Definition utb_sanitize_snapshot (s : snapshot) : snapshot :=
  let pkg := if UTB_MAX_PKG_POWER_MW <? pkg_power_mw s then UTB_MAX_PKG_POWER_MW else pkg_power_mw s in
  let dram := if UTB_MAX_DRAM_POWER_MW <? dram_power_mw s then UTB_MAX_DRAM_POWER_MW else dram_power_mw s in
  let pp0 := if UTB_MAX_PP0_POWER_MW <? pp0_power_mw s then UTB_MAX_PP0_POWER_MW else pp0_power_mw s in
  let pp0 := if pkg <? pp0 then pkg else pp0 in
  let idx := seq 0 (Z.to_nat NCPUS_MAX) in
  let perf := map (fun i => sanitize_perf (at_ (ipc_class s) i) (at_ (aperf s) i) (at_ (mperf s) i)) idx in
  mk_snap pkg pp0 dram (map (fun c => sanitize_class c.1) perf) (map snd perf) (mperf s)
    (tsc_snapshot s) (sample_epoch s).

(** The HFI loop: [hfi] is the table when the CPU has one and its MSR is set. *)
Definition hfi_class (perf : Z) : Z :=
  if 200 <=? perf then NERI_IPC_CLASS_COMPUTE
  else if 100 <=? perf then NERI_IPC_CLASS_MIXED else NERI_IPC_CLASS_MEMORY.
Definition hfi_fill (classes : list Z) (hfi : option (Z -> Z)) (g_ncpus : Z) : list Z :=
  match hfi with
  | None => classes
  | Some t => foldl (fun l i => <[i := hfi_class (t (Z.of_nat i * 2))]> l) classes
                (seq 0 (Z.to_nat (MIN g_ncpus NCPUS_MAX)))
  end.

(** The 32-bit energy counter's advance, across a wrap. *)
Definition rapl_delta (raw last : Z) : Z :=
  if last <=? raw then raw - last else u64 (0x100000000 - last + raw).

Definition neri_utb_sample (u : utb) (msr : Z -> Z) (hfi : option (Z -> Z)) (tsc_to_ns : Z -> Z)
    (g_ncpus now_tsc ep : Z) : utb :=
  if negb (g_utb_ready u) then u
  else
    let s := g_utb_snapshot u in
    let elapsed_ns := tsc_to_ns (u64 (now_tsc - g_last_tsc u)) in
    let pkg_raw := read_rapl_energy_mj msr MSR_PKG_ENERGY_STATUS in
    let dram_raw := read_rapl_energy_mj msr MSR_DRAM_ENERGY_STATUS in
    let pkg_mw := rapl_delta_to_mw u (rapl_delta pkg_raw (g_last_pkg_raw u)) elapsed_ns in
    let dram_mw := rapl_delta_to_mw u (rapl_delta dram_raw (g_last_dram_raw u)) elapsed_ns in
    let pp0_mw := if dram_mw <? pkg_mw then pkg_mw - dram_mw else 0 in
    let ap := <[0%nat := msr MSR_IA32_APERF]> (aperf s) in
    let mp := <[0%nat := msr MSR_IA32_MPERF]> (mperf s) in
    let s1 := mk_snap pkg_mw pp0_mw dram_mw (ipc_class s) ap mp (tsc_snapshot s) (sample_epoch s) in
    let cls := <[0%nat := classify_cpu_ipc s1 0]> (ipc_class s) in
    let cls := hfi_fill cls hfi g_ncpus in
    let s2 := mk_snap pkg_mw pp0_mw dram_mw cls ap mp now_tsc ep in
    mk_utb (utb_sanitize_snapshot s2) true (g_rapl_unit_mw u) pkg_raw dram_raw now_tsc.

(** ** core/neri_nzra.c *)

Record nzra := mk_nzra { g_alpha : Z; g_beta : Z; g_gamma : Z }.
Definition neri_nzra_init : nzra := mk_nzra (Q16 1) (Q16 1) (Q16 1).
Definition neri_nzra_update_weights (alpha beta gamma : Z) : nzra := mk_nzra alpha beta gamma.

Record decision := mk_dec {
  prefer_pcore : bool; prefer_numa_node : Z; cpu_timeslice_ns : Z; ram_tier : Z; assign_gpu : bool; cost : Z
}.
Definition NERI_MEM_TIER_DRAM : Z := 0.
Definition NERI_MEM_TIER_CXL : Z := 1.

Definition energy_penalty (u : utb) (p : neri_proc) (pcore : bool) : Z :=
  if negb (g_utb_ready u) then Q16 1
  else
    let pkg_mw := pkg_power_mw (g_utb_snapshot u) in
    let pkg_mw := if pkg_mw =? 0 then 15000 else pkg_mw in
    let e_mj := u64 (pkg_mw * (cpu_demand_ns p / 1000000)) / 1000000 in
    let e_mj := if e_mj =? 0 then 1 else e_mj in
    let e_mj := if pcore then u64 (e_mj * 2) else e_mj in
    Q16 e_mj / 100.

Definition resource_gap (g : neri_pool) (p : neri_proc) : option Z :=
  let cpu_cap := cpu_total_ns g in
  let ram_cap := ram_total_pages g in
  let cpu_free := if cpu_alloc_ns g <? cpu_cap then cpu_cap - cpu_alloc_ns g else 0 in
  let ram_free := if ram_alloc_pages g <? ram_cap then ram_cap - ram_alloc_pages g else 0 in
  if (cpu_cap =? 0) || (ram_cap =? 0) then Some (Q16 1)
  else
    let cpu_gap := if cpu_free <? cpu_demand_ns p then cpu_demand_ns p - cpu_free else 0 in
    let ram_gap := if ram_free <? ram_demand_pages p then ram_demand_pages p - ram_free else 0 in
    cpu_gap_q ← (if truthy cpu_gap then div_ (Q16 cpu_gap) (cpu_cap / 64) else Some 0);
    ram_gap_q ← (if truthy ram_gap then div_ (Q16 ram_gap) (ram_cap / 64) else Some 0);
    Some (u64 (cpu_gap_q + ram_gap_q) / 2).

Definition coherency_latency (g_ncpus : Z) (p : neri_proc) (target_cpu : Z) : Z :=
  if g_ncpus <=? 4 then 0
  else
    let half := g_ncpus / 2 in
    let node_a := if last_cpu p <? half then 0 else 1 in
    let node_b := if target_cpu <? half then 0 else 1 in
    if node_a =? node_b then 0 else Q16 2.

Definition weighted (w : nzra) (ep arg lc : Z) : Z :=
  u64 (Q16_TO_INT (u64 (g_alpha w * Q16_TO_INT ep)) + Q16_TO_INT (u64 (g_beta w * Q16_TO_INT arg))
       + Q16_TO_INT (u64 (g_gamma w * Q16_TO_INT lc))).

Definition neri_nzra_decide (w : nzra) (u : utb) (g : neri_pool) (g_ncpus : Z) (p : neri_proc)
    : option decision :=
  let ep_p := energy_penalty u p true in
  let ep_e := energy_penalty u p false in
  arg ← resource_gap g p;
  let lc_p := coherency_latency g_ncpus p 0 in
  let lc_e := if 1 <? g_ncpus then coherency_latency g_ncpus p (g_ncpus - 1) else 0 in
  let cost_pcore := weighted w ep_p arg lc_p in
  let cost_ecore := weighted w ep_e arg lc_e in
  let pcore := cost_pcore <=? cost_ecore in
  let ts := cpu_demand_ns p / 4 in
  let ts := if ts <? 1000000 then 1000000 else ts in
  let ts := if 20000000 <? ts then 20000000 else ts in
  Some (mk_dec pcore 0 ts
          (if (256 <? ram_demand_pages p) && (4096 <? ram_total_pages g) then NERI_MEM_TIER_CXL else NERI_MEM_TIER_DRAM)
          ((0 <? gpu_demand_slots p) && (gpu_alloc_slots g <? gpu_total_slots g))
          (if pcore then cost_pcore else cost_ecore)).

(** ** neki/neki_loop.c *)

Definition NEKI_WINDOW : Z := 64.

Record sample := mk_sample {
  s_cpu_demand : Z; s_cpu_granted : Z; s_ram_demand : Z; s_ram_granted : Z; s_gpu_demand : Z; s_gpu_granted : Z;
  s_epoch : Z
}.
Definition zero_sample : sample := mk_sample 0 0 0 0 0 0 0.

Record neki := mk_neki {
  g_window : list sample; g_window_idx : Z; g_window_filled : Z;
  g_w_alpha : Z; g_w_beta : Z; g_w_gamma : Z;
  g_cpu_bias_pct : Z; g_gpu_burst : Z; g_ram_prefetch : Z; g_reclaim_aggr : Z
}.

Definition ema_step (old_val signal : Z) : Z :=
  let diff := if old_val <? signal then signal - old_val else old_val - signal in
  let delta := u64 (diff * 3) / 64 in
  if old_val <? signal then u64 (old_val + delta)
  else if delta <? old_val then old_val - delta else u64 (Q16 0 + 1).

(** Sums over the window: demand and waste of one dimension. *)
Definition waste (demand granted : Z) : Z := if granted <? demand then demand - granted else 0.
Definition sums (f g : sample -> Z) (l : list sample) : Z * Z :=
  foldl (fun '(d, w) s => (u64 (d + f s), u64 (w + waste (f s) (g s)))) (0, 0) l.

(** [demand ? MIN(Q16(2), Q16(waste) / (demand / 64)) : Q16(1)]. *)
Definition signal_of (demand wst : Z) : option Z :=
  if truthy demand then q ← div_ (Q16 wst) (demand / 64); Some (MIN (Q16 2) q) else Some (Q16 1).

Definition clamp_weight (w : Z) : Z := MAX (Q16 0 + Q16 1 / 4) (MIN (Q16 4) w).

(** Returns the optimiser and the weights pushed to NZRA. *)
Definition neki_analyse (k : neki) (w : nzra) : option (neki * nzra) :=
  let n := if g_window_filled k <? NEKI_WINDOW then g_window_filled k else NEKI_WINDOW in
  if n =? 0 then Some (k, w)
  else
    let l := take (Z.to_nat n) (g_window k) in
    let '(cpu_demand, cpu_waste) := sums s_cpu_demand s_cpu_granted l in
    let '(ram_demand, ram_waste) := sums s_ram_demand s_ram_granted l in
    let '(gpu_demand, gpu_waste) := sums s_gpu_demand s_gpu_granted l in
    cpu_signal ← signal_of cpu_demand cpu_waste;
    ram_signal ← signal_of ram_demand ram_waste;
    gpu_signal ← signal_of gpu_demand gpu_waste;
    let a := ema_step (g_w_alpha k)
               (if Q16 1 <? cpu_signal then u64 (Q16 1 - (cpu_signal - Q16 1)) else Q16 1) in
    let b := ema_step (g_w_beta k) ram_signal in
    let c := ema_step (g_w_gamma k) gpu_signal in
    let a := clamp_weight a in let b := clamp_weight b in let c := clamp_weight c in
    let bias := u32 (50 + Q16_TO_INT a * 10) in
    Some (mk_neki (g_window k) (g_window_idx k) (g_window_filled k) a b c
            (MIN 90 (MAX 10 bias)) (if truthy gpu_demand then u32 (gpu_demand / n) else 0)
            (u32 (4 + Q16_TO_INT b)) (u8 (MIN 255 (u32 (64 + u32 (Q16_TO_INT b * 16))))),
          neri_nzra_update_weights a b c).

Definition neki_tick (k : neki) (w : nzra) (p : neri_pool) (ep : Z) : option (neki * nzra) :=
  let s := mk_sample (cpu_alloc_ns p) (cpu_alloc_ns p) (ram_alloc_pages p) (ram_alloc_pages p)
             (gpu_alloc_slots p) (gpu_alloc_slots p) ep in
  let k := mk_neki (<[Z.to_nat (g_window_idx k mod NEKI_WINDOW) := s]> (g_window k))
             (u32 (g_window_idx k + 1)) (MIN (u32 (g_window_filled k + 1)) NEKI_WINDOW)
             (g_w_alpha k) (g_w_beta k) (g_w_gamma k)
             (g_cpu_bias_pct k) (g_gpu_burst k) (g_ram_prefetch k) (g_reclaim_aggr k) in
  if 8 <=? g_window_filled k then neki_analyse k w else Some (k, w).

Definition neki_calib_init (k : neki) : neki :=
  mk_neki (replicate 64 zero_sample) 0 0 (Q16 1) (Q16 1) (Q16 1)
    (g_cpu_bias_pct k) (g_gpu_burst k) (g_ram_prefetch k) (g_reclaim_aggr k).

(** The static initialisers. *)
Definition neki_start : neki := mk_neki (replicate 64 zero_sample) 0 0 (Q16 1) (Q16 1) (Q16 1) 50 0 4 64.

Definition neki_get_policy (k : neki) : Z * Z * Z * Z :=
  (g_cpu_bias_pct k, g_gpu_burst k, g_ram_prefetch k, g_reclaim_aggr k).

(** ** core/neri_ado.c *)

Definition ADO_RING_SIZE : Z := 256.

(** A packet; [pid] is whatever the slot held, no store sets it. *)
Record packet := mk_pkt { pk_epoch : Z; pk_decision : decision; pk_pid : Z }.
Definition zero_decision : decision := mk_dec false 0 0 0 false 0.
Definition zero_packet : packet := mk_pkt 0 zero_decision 0.

Record ado := mk_ado { g_ado_ring : list packet; g_ado_head : Z; g_ado_tail : Z }.

Definition ring_at (a : ado) (i : Z) : packet := nth (Z.to_nat i) (g_ado_ring a) zero_packet.

Definition neri_ado_init : ado := mk_ado (replicate 256 zero_packet) 0 0.

Definition neri_ado_dispatch (a : ado) (dec : option decision) (ep : Z) : ado * Z :=
  match dec with
  | None => (a, - EINVAL)
  | Some d =>
      let head := g_ado_head a in
      let nxt := Z.rem (head + 1) ADO_RING_SIZE in
      if nxt =? g_ado_tail a then (a, - ENOBUFS)
      else
        let pkt := mk_pkt ep d (pk_pid (ring_at a head)) in
        (mk_ado (<[Z.to_nat head := pkt]> (g_ado_ring a)) nxt (g_ado_tail a), 0)
  end.

(** The fields of a task the ADO writes. *)
Record hints := mk_hints { cpu_affinity : Z; timeslice_ns : Z; priority : Z }.

Definition ado_apply (u : utb) (g_ncpus : Z) (d : decision) (t : hints) : hints :=
  let aff := if prefer_pcore d then 0 else if 1 <? g_ncpus then g_ncpus - 1 else 0 in
  let ts := cpu_timeslice_ns d in
  let ts := if ts <? 1000000 then 1000000 else ts in
  let ts := if 20000000 <? ts then 20000000 else ts in
  let prio :=
    if g_utb_ready u then
      let cls := at_ (ipc_class (g_utb_snapshot u)) (Z.to_nat (aff mod NCPUS_MAX)) in
      if (cls =? NERI_IPC_CLASS_COMPUTE) && (priority t <? 12) then MIN 15 (u32 (priority t + 1))
      else if (cls =? NERI_IPC_CLASS_MEMORY) && (2 <? priority t) then MAX 1 (u32 (priority t - 1))
      else priority t
    else priority t in
  mk_hints aff ts prio.

(** Packets taken by one run of the worker, oldest first, and the new tail;
    at most 16 per run. *)
Fixpoint ado_take (a : ado) (tail head : Z) (fuel : nat) : list packet * Z :=
  match fuel with
  | O => ([], tail)
  | S f =>
      if tail =? head then ([], tail)
      else
        let (l, t) := ado_take a (Z.rem (tail + 1) ADO_RING_SIZE) head f in
        (ring_at a tail :: l, t)
  end.
(** [tasks] is the table [task_find_by_pid] searches. *)
Definition apply_packet (u : utb) (g_ncpus : Z) (tasks : gmap Z hints) (k : packet) : gmap Z hints :=
  match tasks !! pk_pid k with
  | Some t => <[pk_pid k := ado_apply u g_ncpus (pk_decision k) t]> tasks
  | None => tasks
  end.
Definition neri_ado_work (a : ado) (u : utb) (g_ncpus : Z) (tasks : gmap Z hints) : ado * gmap Z hints :=
  let (l, tail) := ado_take a (g_ado_tail a) (g_ado_head a) 16 in
  (mk_ado (g_ado_ring a) (g_ado_head a) tail, foldl (apply_packet u g_ncpus) tasks l).

(** The value [neri_thermal_hint] writes to MSR_PKG_POWER_LIMIT. *)
Definition thermal_limit (plimit intensity : Z) : Z :=
  let pl1_mw := u32 (Z.land plimit 0x7FFF * 125) in
  let extra_mw := u32 (3000 * u32 (intensity + 1)) in
  let new_pl1 := u32 (pl1_mw + extra_mw) in
  let new_units := new_pl1 / 125 in
  let new_limit := Z.lor (Z.land plimit (not64 0x7FFF)) (Z.land new_units 0x7FFF) in
  Z.lor new_limit (shl64 1 15).

(** ** core/neri_sec.c *)

Definition W1 : list (list Z) :=
 [[82; -45; 67; 23; -88; 54; -12; 99; -34; 15; 76; -55];
  [-23; 91; -44; 67; 38; -71; 83; -19; 45; -88; 22; 61];
  [55; -33; 89; -67; 12; 44; -78; 33; 91; -22; 48; -79];
  [-67; 44; -28; 81; -9; 73; -41; 58; -83; 36; -5; 92];
  [34; 78; -56; -8; 95; -42; 17; -9; 63; -77; 29; 41];
  [-88; 19; 72; -39; 56; -24; 88; -63; 11; 47; -91; 25];
  [12; -66; 38; 91; -47; 82; -29; 14; -58; 73; -8; 55];
  [71; -8; -81; 27; 64; -93; 39; 76; -23; -4; 85; -47]].
Definition B1 : list Z := [12; -8; 25; -16; 9; -31; 14; -7].
Definition W2 : list Z := [134; -98; 77; -113; 88; -62; 144; -105].
Definition B2 : Z := 18.

(** The recursive call is on a non-negative argument. *)
Definition tanh_pos (x : Z) : Z :=
  if 384 <? x then 255
  else if x <? 128 then x
  else if x <? 256 then 128 + (x - 128) / 2
  else 192 + (x - 256) / 4.
Definition tanh_q8 (x : Z) : Z :=
  if 384 <? x then 255
  else if x <? -384 then -255
  else if x <? 0 then - tanh_pos (- x)
  else tanh_pos x.

Definition sigmoid_q8 (x : Z) : Z :=
  if 512 <? x then 255
  else if x <? -512 then 0
  else
    let v := 128 + Z.quot x 2 in
    let v := if v <? 0 then 0 else v in
    let v := if 255 <? v then 255 else v in
    v.

(** A feature in Q8: [s32 q = (s32)(features[i] * 256.0f)], clamped. *)
Definition clamp_q8 (q : Z) : Z :=
  let q := if q <? 0 then 0 else q in if 255 <? q then 255 else q.
(** [acc = b * 256; for (i...) acc += w[i] * x[i]; acc >> 8]. *)
Definition neuron (w : list Z) (b : Z) (x : list Z) : Z :=
  Z.shiftr (foldl (fun acc '(wi, xi) => s32 (acc + wi * xi)) (b * 256) (zip w x)) 8.
Definition to_q8 (u : fpu) (feature : spec_float) : Z := clamp_q8 (to_s32 (fmul u feature (fconst u 256))).
Definition mlp_anomaly (u : fpu) (features : list spec_float) : Z :=
  let x := map (to_q8 u) features in
  let h := zip_with (fun w b => tanh_q8 (neuron w b x)) W1 B1 in
  sigmoid_q8 (neuron W2 B2 h).

Definition NERI_SEC_LEVEL_NORMAL : Z := 0.
Definition NERI_SEC_LEVEL_MEDIUM : Z := 1.
Definition NERI_SEC_LEVEL_HIGH : Z := 2.
Definition NERI_SEC_LEVEL_CRITICAL : Z := 3.

Record anomaly := mk_anomaly { score_byte : Z; level : Z; block_admits : bool; score_epoch : Z }.
Record nsm_feature_acc_t := mk_feat {
  read_ops : Z; write_ops : Z; unique_pids : Z; total_bytes : Z; failed_decrypts : Z; key_unwraps : Z;
  entropy_delta_acc : Z; new_binaries : Z; priv_escalations : Z; window_ticks : Z; last_unlock_tick : Z
}.
Definition zero_feat : nsm_feature_acc_t := mk_feat 0 0 0 0 0 0 0 0 0 0 0.
Record sec := mk_sec {
  g_nsm_key : list Z; g_nsm_ready : bool; g_anomaly : anomaly; g_feat : nsm_feature_acc_t
}.

(** The pool, [proc_count] and [new_admits] are not used.  Every element is assigned to a
    [float]; the last two assignments read what the first ones stored. *)
Definition build_features (u : fpu) (g : nsm_feature_acc_t) (snap : option snapshot) : list spec_float :=
  let store := to_float u in
  let ticks := if window_ticks g >? 1 then window_ticks g else 1 in
  let ratio x c := fdiv u (fcast u x) (fconst u c) in
  let f0 := store (ratio (read_ops g / ticks) 1000) in
  let f2 := store (fmin (ratio (unique_pids g) 256) (fconst u 1)) in
  let f3 := store (fmin (ratio (total_bytes g / ticks) 1048576) (fconst u 1)) in
  let f4 := store (if write_ops g >? 0 then fdiv u (fcast u (write_ops g)) (fcast u (u64 (read_ops g + 1)))
                   else S754_zero false) in
  let f5 := store (fmin (ratio (failed_decrypts g) 100) (fconst u 1)) in
  let f6 := store (fmin (ratio (key_unwraps g) 50) (fconst u 1)) in
  let f7 := store (fmin (ratio (entropy_delta_acc g / ticks) 1000000) (fconst u 1)) in
  let f8 := store (fmin (ratio (new_binaries g) 20) (fconst u 1)) in
  let f10 := store (if last_unlock_tick g >? 0
                    then fmin (ratio (u64 (window_ticks g - last_unlock_tick g)) 10000) (fconst u 1)
                    else fconst u 1) in
  let f11 := store (fmin (ratio (priv_escalations g) 10) (fconst u 1)) in
  let '(f0, f3) := match snap with
    | None => (f0, f3)
    | Some sn =>
        (store (fmul u (fadd u f0 (fdiv u (fconst u (pkg_power_mw sn)) (fconst u 100000))) (half u)),
         store (fmul u (fadd u f3 (fdiv u (fconst u (dram_power_mw sn)) (fconst u 50000))) (half u)))
    end in
  [f0; S754_zero false; f2; f3; f4; f5; f6; f7; f8; S754_zero false; f10; f11].

Definition level_of (score : Z) : Z :=
  if score <? 102 then NERI_SEC_LEVEL_NORMAL
  else if score <? 179 then NERI_SEC_LEVEL_MEDIUM
  else if score <? 230 then NERI_SEC_LEVEL_HIGH
  else NERI_SEC_LEVEL_CRITICAL.

Definition neri_sec_tick (u : fpu) (s : sec) (p : neri_pool) (snap : option snapshot) : sec :=
  if negb (g_nsm_ready s) then s
  else
    let g := g_feat s in
    let score := mlp_anomaly u (build_features u g snap) in
    let lv := level_of score in
    mk_sec (g_nsm_key s) true
      (mk_anomaly score lv (NERI_SEC_LEVEL_CRITICAL <=? lv) (u64 (epoch p)))
      (mk_feat (read_ops g) (write_ops g) (unique_pids g) (total_bytes g) (failed_decrypts g) (key_unwraps g)
         (entropy_delta_acc g) (new_binaries g) (priv_escalations g) (u64 (window_ticks g + 1)) (last_unlock_tick g)).
(** The pool is [g_neri_pool], which is not NULL. *)
Definition neri_sec_rescore (u : fpu) (s : sec) (p : neri_pool) (g_utb_snapshot : snapshot) : sec :=
  neri_sec_tick u s p (Some g_utb_snapshot).

Definition neri_sec_admit_allowed (s : sec) : bool :=
  if negb (g_nsm_ready s) then true else negb (block_admits (g_anomaly s)).
Definition neri_sec_get_anomaly (s : sec) : anomaly := g_anomaly s.
Definition neri_sec_record_admit_failure (s : sec) : sec :=
  let g := g_feat s in
  mk_sec (g_nsm_key s) (g_nsm_ready s) (g_anomaly s)
    (mk_feat (read_ops g) (write_ops g) (unique_pids g) (total_bytes g) (u64 (failed_decrypts g + 1)) (key_unwraps g)
       (entropy_delta_acc g) (new_binaries g) (priv_escalations g) (window_ticks g) (last_unlock_tick g)).

(** "nekros-neri-nsm-v1". *)
Definition nsm_info : list Z :=
  [110;101;107;114;111;115;45;110;101;114;105;45;110;115;109;45;118;49].
Definition neri_sec_init (u : Sha256.sha256_ctx) (machine_fp : list Z) : sec :=
  mk_sec (Sha256.hkdf_sha256 u machine_fp None nsm_info 32) true (mk_anomaly 0 0 false 0) zero_feat.
Definition neri_sec_exit (s : sec) : sec :=
  mk_sec (replicate 32 0) false (g_anomaly s) (g_feat s).

(** [struct neri_sealed_snap]; the bytes of a snapshot are its memory image. *)
Record sealed_snap := mk_sealed { sl_epoch : Z; sl_snapshot : list Z; sl_tag : list Z }.

(** The eight bytes of a [u64] in memory. *)
Definition le64 (x : Z) : list Z := map (fun i => u8 (Z.shiftr x (8 * Z.of_nat i))) (seq 0 8).
Definition snap_iv (ep : Z) : list Z := le64 ep ++ [0; 0; 0; 0].

(** Writes [out->snapshot] and [out->tag]. *)
Definition neri_sec_seal_snapshot (s : sec) (snap : list Z) (ep : Z) (out : sealed_snap) : sealed_snap * Z :=
  if negb (g_nsm_ready s) then (out, - EINVAL)
  else
    let (ct, tag) := AesGcm.aes256_gcm_encrypt (g_nsm_key s) (snap_iv ep) (le64 ep) snap in
    (mk_sealed (sl_epoch out) ct tag, 0).

Definition neri_sec_open_snapshot (s : sec) (sealed : sealed_snap) : Z + list Z :=
  if negb (g_nsm_ready s) then inl (- EINVAL)
  else AesGcm.aes256_gcm_decrypt (g_nsm_key s) (snap_iv (sl_epoch sealed)) (le64 (sl_epoch sealed))
         (sl_snapshot sealed) (sl_tag sealed).

(** ** One call of [neri_sched_tick] with everything it calls *)

Record neri := mk_neri { n_ps : pool_state; n_utb : utb; n_nzra : nzra; n_neki : neki; n_sec : sec }.

Definition neri_sched_tick (s : neri) (tsc_to_ns msr : Z -> Z) (hfi : option (Z -> Z))
    (g_ncpus now now2 total_p free_p : Z) (fp : fpu) : option neri :=
  let (p, ended) := tick_pool (pool (n_ps s)) tsc_to_ns now total_p free_p in
  let ps := mk_ps p (admitted (n_ps s)) (neri_admitted_count (n_ps s)) (g_neri_ready (n_ps s)) in
  match ended with
  | None => Some (mk_neri ps (n_utb s) (n_nzra s) (n_neki s) (n_sec s))
  | Some ep =>
      let u := neri_utb_sample (n_utb s) msr hfi tsc_to_ns g_ncpus now2 ep in
      kw ← (if Z.land ep 63 =? 0 then neki_tick (n_neki s) (n_nzra s) p ep else Some (n_neki s, n_nzra s));
      let sc := if Z.land ep 31 =? 0 then neri_sec_rescore fp (n_sec s) p (g_utb_snapshot u) else n_sec s in
      Some (mk_neri ps u kw.2 kw.1 sc)
  end.

End Neri.
