(* ===== verification/NeriProof.v ===== *)
(** * Properties of the resource manager

    Accounting of the pool, bounds of everything the optimiser and the telemetry
    bus produce, the dispatcher's ring as a bounded queue, and the snapshots the
    security module seals. *)

From Stdlib Require Import SpecFloat.
From S2P Require Import Prelude Bytes Sha256 AesGcm AesProof ListHead Float Neri.
Import Bytes ListHead Float Neri.

Module NeriProof.

(** ** The pool *)

Definition total (f : neri_proc -> Z) (l : list (Z * neri_proc)) : Z :=
  Z.of_nat (sum_list_with (fun x => Z.to_nat (f x.2)) l).

(** The counters are the sums of what the admitted processes were granted, and the
    admitted list links exactly their records. *)
Record accounted (s : pool_state) (l : list (Z * neri_proc)) : Prop := {
  ac_cpu : cpu_alloc_ns (pool s) = total cpu_granted_ns l;
  ac_ram : ram_alloc_pages (pool s) = total ram_granted_pages l;
  ac_gpu : gpu_alloc_slots (pool s) = total gpu_granted_slots l;
  ac_ring : ring (admitted s) AdmittedHead ((fun x => ProcNode x.1) <$> l);
  ac_count : neri_admitted_count s = Z.of_nat (length l)
}.

Definition demands_ok (p : neri_proc) : Prop :=
  0 <= cpu_demand_ns p /\ 0 <= ram_demand_pages p /\ 0 <= gpu_demand_slots p.

(** No counter would pass 2^64 (nor the number of processes 2^32). *)
Definition fits (s : pool_state) (p : neri_proc) (l : list (Z * neri_proc)) : Prop :=
  cpu_alloc_ns (pool s) + cpu_demand_ns p < 2 ^ 64 /\ ram_alloc_pages (pool s) + ram_demand_pages p < 2 ^ 64 /\
  gpu_alloc_slots (pool s) + gpu_demand_slots p < 2 ^ 64 /\ Z.of_nat (length l) + 1 < 2 ^ 32.

Lemma total_app f l1 l2 : total f (l1 ++ l2) = total f l1 + total f l2.
Proof. unfold total. rewrite sum_list_with_app. lia. Qed.
Lemma total_cons f x l : 0 <= f x.2 -> total f (x :: l) = f x.2 + total f l.
Proof. intros. unfold total. simpl. lia. Qed.
Lemma total_nonneg f l : 0 <= total f l.
Proof. unfold total. lia. Qed.

Lemma admit_ok s l blk pa proc :
  accounted s l -> demands_ok proc -> fits s proc l ->
  is_Some (admitted s !! ProcNode pa) -> pa ∉ l.*1 ->
  exists s' proc' r, neri_sched_admit s blk pa proc = Some (s', proc', r) /\
    ((r = - EPERM /\ blk = true \/ r = - EBUSY) /\ s' = s /\ proc' = proc \/
     r = 0 /\ blk = false /\ accounted s' (l ++ [(pa, proc')]) /\
     cpu_granted_ns proc' = cpu_demand_ns proc /\ ram_granted_pages proc' = ram_demand_pages proc /\
     cpu_alloc_ns (pool s') <= u64 (cpu_total_ns (pool s) * 2) /\
     ram_alloc_pages (pool s') <= u64 (ram_total_pages (pool s) * 3) / 2).
Proof.
  intros [A1 A2 A3 A4 A5] (D1 & D2 & D3) (F1 & F2 & F3 & F4) Hpa Hni. unfold neri_sched_admit.
  destruct blk; [eauto 10|].
  pose proof (total_nonneg cpu_granted_ns l). pose proof (total_nonneg ram_granted_pages l).
  pose proof (total_nonneg gpu_granted_slots l).
  destruct ((_ <? _) || (_ <? _)) eqn:E; [eauto 10|]. b2p.
  destruct (list_add_tail_ring (admitted s) (ProcNode pa) AdmittedHead _ A4 Hpa) as (m' & -> & R & _).
  { intros [|(x & E & Hx)%list_elem_of_fmap]%elem_of_cons; [done|]. injection E as ->. apply Hni.
    apply list_elem_of_fmap. eauto. }
  cbn [mbind option_bind]. eexists _, _, _. split; [reflexivity|]. right. split; [done|]. split; [done|].
  cbn [pool cpu_alloc_ns ram_alloc_pages cpu_granted_ns ram_granted_pages].
  split; [|split; [done|split; [done|split; lia]]].
  split; cbn [pool cpu_alloc_ns ram_alloc_pages gpu_alloc_slots admitted neri_admitted_count cpu_granted_ns ram_granted_pages gpu_granted_slots].
  - rewrite total_app, total_cons by done. simpl. rewrite u64_small by lia. unfold total at 2. simpl. lia.
  - rewrite total_app, total_cons by done. simpl. rewrite u64_small by lia. unfold total at 2. simpl. lia.
  - rewrite total_app, total_cons by done. simpl. rewrite u64_small by lia. unfold total at 2. simpl. lia.
  - rewrite fmap_app. exact R.
  - rewrite length_app, A5, u32_small by lia. simpl. lia.
Qed.

Lemma release_ok s l1 l2 pa proc :
  accounted s (l1 ++ (pa, proc) :: l2) ->
  0 <= cpu_granted_ns proc -> 0 <= ram_granted_pages proc -> 0 <= gpu_granted_slots proc ->
  exists s', neri_sched_release s pa proc = Some s' /\ accounted s' (l1 ++ l2).
Proof.
  intros [A1 A2 A3 A4 A5] G1 G2 G3. unfold neri_sched_release.
  rewrite fmap_app, fmap_cons in A4. simpl in A4.
  destruct (ring_split _ _ _ _ _ A4) as (p & q & Hn & _). unfold nxt in Hn. unfold get_next. simpl. rewrite Hn. simpl.
  destruct (list_del_ring _ _ _ _ _ A4) as (m' & -> & R & _). cbn [mbind option_bind].
  eexists. split; [reflexivity|].
  rewrite total_app, total_cons in A1, A2, A3 by done. simpl in A1, A2, A3.
  assert (forall f, 0 <= total f l1 + total f l2) as Hp.
  { intros f. pose proof (total_nonneg f l1). pose proof (total_nonneg f l2). lia. }
  assert (forall f a, 0 <= f proc -> a = total f l1 + (f proc + total f l2) -> sat_sub a (f proc) = total f (l1 ++ l2)) as Hs.
  { intros f a Hf ->. rewrite total_app. unfold sat_sub. specialize (Hp f). rewrite (proj2 (Z.leb_le _ _)) by lia. lia. }
  split; cbn [pool cpu_alloc_ns ram_alloc_pages gpu_alloc_slots admitted neri_admitted_count]; auto.
  - rewrite fmap_app. exact R.
  - rewrite A5, !length_app. simpl. rewrite (proj2 (Z.ltb_lt _ _)) by lia. lia.
Qed.


Definition proc_ex : neri_proc := mk_proc 7 8 1000000 4 1 0 0 0 0 0.
Definition pool_ex : pool_state := neri_pool_init (list_init ∅ (ProcNode 7)) 0 32768 4 2 0.


(** ** Neki *)

Definition weight_ok (w : Z) : Prop := 2 ^ 14 <= w <= 2 ^ 18.

Record neki_ok (k : neki) : Prop := {
  no_window : length (g_window k) = 64%nat;
  no_filled : 0 <= g_window_filled k <= 64;
  no_alpha : weight_ok (g_w_alpha k);
  no_beta : weight_ok (g_w_beta k);
  no_gamma : weight_ok (g_w_gamma k);
  no_bias : 10 <= g_cpu_bias_pct k <= 90;
  no_prefetch : 4 <= g_ram_prefetch k <= 8;
  no_reclaim : 64 <= g_reclaim_aggr k <= 128
}.
Definition nzra_ok (w : nzra) : Prop := weight_ok (g_alpha w) /\ weight_ok (g_beta w) /\ weight_ok (g_gamma w).

Lemma clamp_ok w : weight_ok (clamp_weight w).
Proof.
  unfold clamp_weight, weight_ok, MAX, MIN. change (Q16 0 + Q16 1 / 4) with (2 ^ 14). change (Q16 4) with (2 ^ 18).
  destruct (Z.ltb_spec (2 ^ 18) w); repeat casei; b2p; lia.
Qed.

Lemma weight_int w : weight_ok w -> 0 <= Q16_TO_INT w <= 4.
Proof. unfold weight_ok, Q16_TO_INT. rewrite Z.shiftr_div_pow2 by lia. intros. zdm. Qed.

(** A dimension whose total demand over the window makes the divisor zero. *)
Definition traps (d : Z) : bool := (0 <? d) && (d <? 64).

Lemma sums_range f g l : 0 <= (sums f g l).1.
Proof.
  unfold sums. assert (forall d w, 0 <= d -> 0 <= (foldl (fun '(d, w) s => (u64 (d + f s), u64 (w + waste (f s) (g s)))) (d, w) l).1) as H.
  { induction l as [|x l IH]; intros d w Hd; simpl; [done|]. apply IH. apply u64_range. }
  apply H. lia.
Qed.

Lemma signal_none d w : 0 <= d -> signal_of d w = None <-> traps d = true.
Proof.
  intros Hd. unfold signal_of, div_, traps, truthy.
  destruct (Z.eqb_spec d 0) as [->|]; simpl; [done|]. destruct (Z.eqb_spec (d / 64) 0); simpl.
  - rewrite (proj2 (Z.ltb_lt _ _)), (proj2 (Z.ltb_lt _ _)) by zdm. done.
  - rewrite (proj2 (Z.ltb_ge d 64)) by zdm. rewrite andb_false_r. done.
Qed.

(** What the analysis leaves, when it does not trap. *)
Lemma analyse_ok k w k' w' : neki_ok k -> nzra_ok w -> neki_analyse k w = Some (k', w') -> neki_ok k' /\ nzra_ok w'.
Proof.
  intros [? ? ? ? ? ? ? ?] Hw. unfold neki_analyse. casei; [by intros [= <- <-]|].
  destruct (sums _ _ _) as [d1 w1], (sums _ _ _) as [d2 w2], (sums _ _ _) as [d3 w3].
  destruct (signal_of d1 w1) as [s1|]; simpl; [|done]. destruct (signal_of d2 w2) as [s2|]; simpl; [|done].
  destruct (signal_of d3 w3) as [s3|]; simpl; [|done]. intros [= <- <-].
  set (a := clamp_weight _). set (b := clamp_weight (ema_step (g_w_beta k) _)). set (c := clamp_weight (ema_step (g_w_gamma k) _)).
  assert (weight_ok a) by apply clamp_ok. assert (weight_ok b) by apply clamp_ok. assert (weight_ok c) by apply clamp_ok.
  pose proof (weight_int a ltac:(done)). pose proof (weight_int b ltac:(done)).
  split; [|by split_and!]. split; cbn; try done.
  - rewrite (u32_small (50 + _)) by lia. unfold MIN, MAX. repeat casei; b2p; lia.
  - rewrite u32_small by lia. lia.
  - rewrite (u32_small (_ * 16)), u32_small by lia. unfold MIN. casei; b2p; rewrite u8_small; lia.
Qed.

(** The window after recording a sample. *)
Definition recorded (k : neki) (p : neri_pool) (ep : Z) : neki :=
  mk_neki (<[Z.to_nat (g_window_idx k mod NEKI_WINDOW) :=
             mk_sample (cpu_alloc_ns p) (cpu_alloc_ns p) (ram_alloc_pages p) (ram_alloc_pages p)
               (gpu_alloc_slots p) (gpu_alloc_slots p) ep]> (g_window k))
    (u32 (g_window_idx k + 1)) (MIN (u32 (g_window_filled k + 1)) NEKI_WINDOW)
    (g_w_alpha k) (g_w_beta k) (g_w_gamma k)
    (g_cpu_bias_pct k) (g_gpu_burst k) (g_ram_prefetch k) (g_reclaim_aggr k).

Lemma recorded_ok k p ep : neki_ok k -> neki_ok (recorded k p ep).
Proof.
  intros [? ? ? ? ? ? ? ?]. split; try done.
  - simpl. by rewrite length_insert.
  - simpl. rewrite u32_small by lia. unfold MIN, NEKI_WINDOW. casei; b2p; lia.
Qed.

Definition window_sums (k : neki) : list Z :=
  let l := take (Z.to_nat (g_window_filled k)) (g_window k) in
  [(sums s_cpu_demand s_cpu_granted l).1; (sums s_ram_demand s_ram_granted l).1; (sums s_gpu_demand s_gpu_granted l).1].

Lemma analyse_traps k w : neki_ok k -> 8 <= g_window_filled k ->
  neki_analyse k w = None <-> existsb traps (window_sums k) = true.
Proof.
  intros [? Hf ? ? ? ? ? ?] H8. unfold neki_analyse, window_sums.
  assert ((if g_window_filled k <? NEKI_WINDOW then g_window_filled k else NEKI_WINDOW) = g_window_filled k) as ->.
  { unfold NEKI_WINDOW. casei; b2p; lia. }
  rewrite (proj2 (Z.eqb_neq _ _)) by lia. set (l := take _ _).
  pose proof (sums_range s_cpu_demand s_cpu_granted l). pose proof (sums_range s_ram_demand s_ram_granted l).
  pose proof (sums_range s_gpu_demand s_gpu_granted l).
  destruct (sums s_cpu_demand _ l) as [d1 w1], (sums s_ram_demand _ l) as [d2 w2], (sums s_gpu_demand _ l) as [d3 w3].
  simpl in *. pose proof (signal_none d1 w1 ltac:(done)) as E1. pose proof (signal_none d2 w2 ltac:(done)) as E2.
  pose proof (signal_none d3 w3 ltac:(done)) as E3.
  destruct (signal_of d1 w1), (traps d1); simpl; try (by destruct E1; intuition done).
  destruct (signal_of d2 w2), (traps d2); simpl; try (by destruct E2; intuition done).
  destruct (signal_of d3 w3), (traps d3); simpl; try (by destruct E3; intuition done).
Qed.



(** One GPU slot in use for eight ticks is enough. *)
Fixpoint neki_run (k : neki) (w : nzra) (p : neri_pool) (n : nat) : option (neki * nzra) :=
  match n with
  | O => Some (k, w)
  | S n' => kw ← neki_tick k w p 0; neki_run kw.1 kw.2 p n'
  end.

(** "No division by zero possible" does not hold: with one GPU slot allocated
    (and CPU and RAM well used) the eighth tick of a fresh optimiser divides by
    zero, while seven are fine. *)
Theorem neki_divides_by_zero :
  let p := mk_pool 40000000 1000000 32768 1000 2 1 1 0 in
  neki_run neki_start neri_nzra_init p 8 = None /\ neki_run neki_start neri_nzra_init p 7 <> None.
Proof. split; [vm_compute; reflexivity | vm_compute; discriminate]. Qed.

(** ** The dispatch ring *)

Record ado_ok (a : ado) : Prop := {
  ao_len : length (g_ado_ring a) = 256%nat;
  ao_head : 0 <= g_ado_head a < 256;
  ao_tail : 0 <= g_ado_tail a < 256
}.

Definition ado_count (a : ado) : nat := Z.to_nat ((g_ado_head a - g_ado_tail a) mod 256).
(** The slots from [t] on, [n] of them, around the ring. *)
Definition slots (a : ado) (t : Z) (n : nat) : list packet :=
  map (fun i => ring_at a ((t + Z.of_nat i) mod 256)) (seq 0 n).
(** The queue the ring stands for, oldest packet first. *)
Definition queue (a : ado) : list packet := slots a (g_ado_tail a) (ado_count a).

Lemma slots_S a t n : 0 <= t < 256 -> slots a t (S n) = ring_at a t :: slots a ((t + 1) mod 256) n.
Proof.
  intros Ht. unfold slots. rewrite <- cons_seq, map_cons, <- seq_shift, map_map. f_equal.
  - f_equal. rewrite Z.mod_small; lia.
  - apply map_ext_in. intros i _. f_equal. rewrite Zplus_mod_idemp_l. f_equal. lia.
Qed.

Lemma slots_snoc a t n : slots a t (S n) = slots a t n ++ [ring_at a ((t + Z.of_nat n) mod 256)].
Proof. unfold slots. by rewrite seq_S, map_app. Qed.

Lemma rem_mod i : 0 <= i < 256 -> Z.rem (i + 1) ADO_RING_SIZE = (i + 1) mod 256.
Proof. intros. apply Z.rem_mod_nonneg; unfold ADO_RING_SIZE; lia. Qed.

Lemma slots_insert a t n h x : 0 <= h < 256 -> (forall i, (i < n)%nat -> (t + Z.of_nat i) mod 256 <> h) ->
  slots (mk_ado (<[Z.to_nat h := x]> (g_ado_ring a)) (g_ado_head a) (g_ado_tail a)) t n = slots a t n.
Proof.
  intros Hh H. unfold slots. apply map_ext_in. intros i [_ Hi]%in_seq. unfold ring_at; simpl.
  rewrite !nth_lookup. rewrite list_lookup_insert_ne; [done|].
  intros E. apply (H i); [lia|]. pose proof (Z.mod_pos_bound (t + Z.of_nat i) 256 eq_refl). lia.
Qed.

Lemma ado_take_slots a fuel : forall t n, 0 <= t < 256 -> (n < 256)%nat ->
  ado_take a t ((t + Z.of_nat n) mod 256) fuel
  = (slots a t (Nat.min fuel n), (t + Z.of_nat (Nat.min fuel n)) mod 256).
Proof.
  induction fuel as [|f IH]; intros t n Ht Hn; simpl ado_take; simpl Nat.min.
  - unfold slots. simpl. rewrite Z.add_0_r, Z.mod_small by lia. done.
  - destruct n as [|n].
    + rewrite Z.add_0_r, Z.mod_small, Z.eqb_refl by lia. done.
    + destruct (Z.eqb_spec t ((t + Z.of_nat (S n)) mod 256)) as [E|_]; [zdm|].
      rewrite rem_mod by done. replace (t + Z.of_nat (S n)) with ((t + 1) + Z.of_nat n) by lia.
      rewrite <- (Zplus_mod_idemp_l (t + 1) (Z.of_nat n)), (IH ((t + 1) mod 256) n) by (zdm || lia). rewrite slots_S by done. f_equal.
      rewrite Zplus_mod_idemp_l. f_equal. lia.
Qed.

Lemma ado_count_lt a : (ado_count a < 256)%nat.
Proof. unfold ado_count. zdm. Qed.
Lemma ado_head_eq a : ado_ok a -> g_ado_head a = (g_ado_tail a + Z.of_nat (ado_count a)) mod 256.
Proof. intros []. unfold ado_count. zdm. Qed.

Lemma dispatch_fifo a d ep : ado_ok a ->
  let slot := mk_pkt ep d (pk_pid (ring_at a (g_ado_head a))) in
  if (length (queue a) =? 255)%nat then neri_ado_dispatch a (Some d) ep = (a, - ENOBUFS)
  else exists a', neri_ado_dispatch a (Some d) ep = (a', 0) /\ ado_ok a' /\ queue a' = queue a ++ [slot].
Proof.
  intros Ha slot. pose proof (ado_head_eq a Ha) as Eh. pose proof (ado_count_lt a) as Hc. destruct Ha as [Hl Hh Ht].
  unfold queue at 1, slots. rewrite length_map, length_seq. unfold neri_ado_dispatch. rewrite rem_mod by done.
  destruct (Nat.eqb_spec (ado_count a) 255) as [E|E].
  - rewrite (proj2 (Z.eqb_eq _ _)); [done|]. rewrite Eh, E. zdm.
  - rewrite (proj2 (Z.eqb_neq _ _)) by zdm. fold slot. clearbody slot. eexists. split; [done|]. split.
    + split; simpl; [by rewrite length_insert | zdm | done].
    + unfold queue. assert (ado_count (mk_ado (<[Z.to_nat (g_ado_head a) := slot]> (g_ado_ring a))
        ((g_ado_head a + 1) mod 256) (g_ado_tail a)) = S (ado_count a)) as -> by (unfold ado_count in *; simpl; zdm).
      simpl g_ado_tail. rewrite slots_snoc. f_equal.
      * apply (slots_insert a); [done|]. intros i Hi. zdm.
      * f_equal. unfold ring_at at 1. simpl. rewrite <- Eh, nth_lookup, list_lookup_insert_eq; [done|lia].
Qed.

Lemma work_fifo a u n tasks : ado_ok a ->
  let (a', tasks') := neri_ado_work a u n tasks in
  ado_ok a' /\ queue a' = drop 16 (queue a) /\ tasks' = foldl (apply_packet u n) tasks (take 16 (queue a)).
Proof.
  intros Ha. pose proof (ado_head_eq a Ha) as Eh. pose proof (ado_count_lt a) as Hc. destruct Ha as [Hl Hh Ht].
  unfold neri_ado_work.
  assert (ado_take a (g_ado_tail a) (g_ado_head a) 16 = (slots a (g_ado_tail a) (Nat.min 16 (ado_count a)),
    (g_ado_tail a + Z.of_nat (Nat.min 16 (ado_count a))) mod 256)) as -> by (rewrite Eh at 1; by apply ado_take_slots).
  set (m := Nat.min 16 (ado_count a)).
  assert (m <= ado_count a)%nat by (unfold m; lia).
  split; [split; simpl; [done | done | zdm]|]. unfold queue, slots. simpl g_ado_tail. split.
  - rewrite skipn_map. rewrite skipn_seq.
    assert (ado_count (mk_ado (g_ado_ring a) (g_ado_head a) ((g_ado_tail a + Z.of_nat m) mod 256)) = ado_count a - m)%nat
      as -> by (unfold ado_count in *; simpl; zdm).
    destruct (decide (ado_count a <= 16)%nat).
    + replace (ado_count a - 16)%nat with 0%nat by lia. by replace (ado_count a - m)%nat with 0%nat by (unfold m; lia).
    + assert (m = 16%nat) as -> by (unfold m; lia). rewrite <- (fmap_add_seq 16 0). 
      rewrite <- list_fmap_compose. apply map_ext. intros i. unfold compose, ring_at. simpl. do 2 f_equal. zdm.
  - f_equal. rewrite firstn_map, take_seq. f_equal.
Qed.

Lemma ado_apply_bounds u n d t : 1 <= n -> 1 <= priority t <= 15 ->
  let t' := ado_apply u n d t in
  1 <= priority t' <= 15 /\ Z.abs (priority t' - priority t) <= 1
  /\ 1000000 <= timeslice_ns t' <= 20000000 /\ 0 <= cpu_affinity t' < n.
Proof.
  intros Hn Hp. unfold ado_apply. cbn [priority timeslice_ns cpu_affinity]. split_and!;
    repeat match goal with |- context [u32 ?x] => rewrite (u32_small x) by lia end;
    unfold MIN, MAX; repeat casei; b2p; lia.
Qed.

(** (C37) The dispatch ring is a bounded queue: a dispatch appends its decision at the
    end, or answers -ENOBUFS and changes nothing when 255 decisions wait; one run of
    the worker takes the (at most) sixteen oldest, in order, applies exactly those
    to the tasks, and leaves the others; and what is applied keeps a task's
    priority between 1 and 15, moves it by at most one, keeps its time slice between
    1 and 20 ms and its affinity on a CPU that exists. *)
Theorem ado_ring_is_fifo a d ep u n tasks : ado_ok a ->
  (if (length (queue a) =? 255)%nat then neri_ado_dispatch a (Some d) ep = (a, - ENOBUFS)
   else exists a', neri_ado_dispatch a (Some d) ep = (a', 0) /\ ado_ok a' /\
          queue a' = queue a ++ [mk_pkt ep d (pk_pid (ring_at a (g_ado_head a)))]) /\
  (let (a', tasks') := neri_ado_work a u n tasks in
   ado_ok a' /\ queue a' = drop 16 (queue a) /\ tasks' = foldl (apply_packet u n) tasks (take 16 (queue a))) /\
  (forall t, 1 <= n -> 1 <= priority t <= 15 ->
   let t' := ado_apply u n d t in
   1 <= priority t' <= 15 /\ Z.abs (priority t' - priority t) <= 1
   /\ 1000000 <= timeslice_ns t' <= 20000000 /\ 0 <= cpu_affinity t' < n) /\
  ado_ok neri_ado_init /\ queue neri_ado_init = [].
Proof.
  intros Ha. split; [by apply dispatch_fifo|]. split; [by apply work_fifo|].
  split; [intros; by apply ado_apply_bounds|]. split; [|done]. by split.
Qed.

Lemma ado_ring_is_fifo_witness :
  exists a', neri_ado_dispatch neri_ado_init (Some zero_decision) 3 = (a', 0) /\ queue a' = [mk_pkt 3 zero_decision 0].
Proof.
  destruct (ado_ring_is_fifo neri_ado_init zero_decision 3 (neri_utb_init (fun _ => 0) 0) 1 ∅) as (H & _); [by split|].
  destruct H as (a' & E & _ & Q). exists a'. split; [exact E | exact Q].
Defined.

(** ** The telemetry snapshot *)

Definition perf_sane (cls ap mp : Z) : Prop := ap <= mp /\ 0 <= cls <= 3 /\ (mp = 0 -> cls = NERI_IPC_CLASS_IDLE).

Record snap_sane (s : snapshot) : Prop := {
  ss_pkg : pkg_power_mw s <= UTB_MAX_PKG_POWER_MW;
  ss_dram : dram_power_mw s <= UTB_MAX_DRAM_POWER_MW;
  ss_pp0 : pp0_power_mw s <= UTB_MAX_PP0_POWER_MW /\ pp0_power_mw s <= pkg_power_mw s;
  ss_len : length (ipc_class s) = 256%nat /\ length (aperf s) = 256%nat;
  ss_perf : forall i, (i < 256)%nat -> perf_sane (at_ (ipc_class s) i) (at_ (aperf s) i) (at_ (mperf s) i)
}.

Lemma sanitize_class_range c : 0 <= sanitize_class c <= 3 /\ (0 <= c <= 3 -> sanitize_class c = c).
Proof.
  unfold sanitize_class, NERI_IPC_CLASS_IDLE, NERI_IPC_CLASS_COMPUTE, NERI_IPC_CLASS_MEMORY, NERI_IPC_CLASS_MIXED.
  destruct (Z.eqb_spec c 3), (Z.eqb_spec c 0), (Z.eqb_spec c 1), (Z.eqb_spec c 2); simpl; lia.
Qed.

Lemma sanitize_one c ap mp : 0 <= mp -> let r := sanitize_perf c ap mp in perf_sane (sanitize_class r.1) r.2 mp.
Proof.
  intros Hm. unfold sanitize_perf. pose proof (sanitize_class_range c) as [? _].
  destruct (Z.eqb_spec mp 0) as [->|]; [by repeat split|]. unfold perf_sane.
  destruct (Z.ltb_spec mp ap); simpl; (split_and!; [lia | lia | lia | done]).
Qed.

Lemma sane_one c ap mp : 0 <= ap -> perf_sane c ap mp -> let r := sanitize_perf c ap mp in sanitize_class r.1 = c /\ r.2 = ap.
Proof.
  intros ? (? & Hc & H0). unfold sanitize_perf. destruct (Z.eqb_spec mp 0) as [->|].
  - rewrite H0 by done. simpl. split; [done | lia].
  - rewrite (proj2 (Z.ltb_ge mp ap)) by done. simpl. split; [|done]. by apply sanitize_class_range.
Qed.

Lemma at_map_seq {A} (f : nat -> A) (g : A -> Z) n i : (i < n)%nat -> at_ (map g (map f (seq 0 n))) i = g (f i).
Proof.
  intros. unfold at_. rewrite map_map, nth_lookup. rewrite list_lookup_fmap, lookup_seq_lt by done. done.
Qed.

Lemma sanitize_sane s : (forall i, 0 <= at_ (mperf s) i) -> snap_sane (utb_sanitize_snapshot s).
Proof.
  intros Hm. unfold utb_sanitize_snapshot. split; cbn [pkg_power_mw dram_power_mw pp0_power_mw ipc_class aperf mperf].
  - casei; b2p; lia.
  - casei; b2p; lia.
  - unfold UTB_MAX_PKG_POWER_MW, UTB_MAX_PP0_POWER_MW.
    destruct (Z.ltb_spec 300000 (pkg_power_mw s)), (Z.ltb_spec 280000 (pp0_power_mw s)); casei; b2p; lia.
  - rewrite !length_map, length_seq. done.
  - intros i Hi. change (Z.to_nat NCPUS_MAX) with 256%nat.
    rewrite (at_map_seq _ (fun c => sanitize_class c.1)) by done. rewrite (at_map_seq _ snd) by done.
    by apply sanitize_one.
Qed.

Lemma map_seq_at (l : list Z) (f : nat -> Z) : length l = 256%nat -> (forall i, (i < 256)%nat -> f i = at_ l i) -> map f (seq 0 256) = l.
Proof.
  intros Hl H. apply list_eq. intros i. rewrite list_lookup_fmap. destruct (decide (i < 256)%nat) as [Hi|Hi].
  - rewrite lookup_seq_lt by done. simpl. rewrite H by done. unfold at_. rewrite nth_lookup.
    destruct (lookup_lt_is_Some_2 l i ltac:(lia)) as [x ->]. done.
  - rewrite (lookup_ge_None_2 (seq 0 256)) by (rewrite length_seq; lia). rewrite lookup_ge_None_2 by lia. done.
Qed.

Lemma sanitize_fixed s : snap_sane s -> (forall i, 0 <= at_ (aperf s) i) -> utb_sanitize_snapshot s = s.
Proof.
  intros [Hp Hd [Hq Hq'] [Hc Ha] Hperf] Hnn. destruct s as [pkg pp0 dram cls ap mp ts ep]. unfold utb_sanitize_snapshot.
  cbn [pkg_power_mw dram_power_mw pp0_power_mw ipc_class aperf mperf tsc_snapshot sample_epoch] in *.
  rewrite (proj2 (Z.ltb_ge _ pkg)), (proj2 (Z.ltb_ge _ dram)), (proj2 (Z.ltb_ge _ pp0)), (proj2 (Z.ltb_ge pkg pp0)) by lia.
  change (Z.to_nat NCPUS_MAX) with 256%nat. rewrite !map_map. f_equal.
  - apply map_seq_at; [done|]. intros i Hi. by apply (sane_one _ _ _ (Hnn i) (Hperf i Hi)).
  - apply map_seq_at; [done|]. intros i Hi. by apply (sane_one _ _ _ (Hnn i) (Hperf i Hi)).
Qed.

Lemma at_insert_nonneg l x i : 0 <= x -> (forall i, 0 <= at_ l i) -> 0 <= at_ (<[0%nat := x]> l) i.
Proof. intros Hx H. destruct l as [|y l]; [apply H|]. destruct i as [|i]; [done|]. apply (H (S i)). Qed.

Lemma at_zeros n i : 0 <= at_ (replicate n 0) i.
Proof. revert i. induction n as [|n IH]; intros [|i]; simpl; (done || apply IH). Qed.

(** Whatever the MSRs, the HFI table and the counters hold, the snapshot a sample
    leaves for the rest of the driver is sane: package, DRAM and core power within
    the fixed maxima, core power at most package power, and for each of the 256
    CPUs an APERF not above its MPERF and one of the four classes, idle when MPERF
    is zero; the sanitiser leaves a sane snapshot as it is; and an energy counter
    that wrapped at 2^32 still yields the true advance. *)
Theorem utb_snapshot_sane u msr hfi tsc_to_ns n now ep :
  g_utb_ready u = true -> (forall i, 0 <= at_ (mperf (g_utb_snapshot u)) i) -> 0 <= msr MSR_IA32_MPERF ->
  snap_sane (g_utb_snapshot (neri_utb_sample u msr hfi tsc_to_ns n now ep)) /\
  (forall s, snap_sane s -> (forall i, 0 <= at_ (aperf s) i) -> utb_sanitize_snapshot s = s) /\
  (forall raw last, 0 <= raw < 2 ^ 32 -> 0 <= last < 2 ^ 32 -> rapl_delta raw last = (raw - last) mod 2 ^ 32).
Proof.
  intros Hr Hm Hmsr. split; [|split].
  - unfold neri_utb_sample. rewrite Hr. cbn [negb g_utb_snapshot]. apply sanitize_sane. cbn [mperf]. intros i.
    apply at_insert_nonneg; [apply Hmsr | apply Hm].
  - apply sanitize_fixed.
  - intros raw last ? ?. unfold rapl_delta. casei; b2p; [zdm|]. rewrite u64_small by lia. zdm.
Qed.

Lemma utb_snapshot_sane_witness :
  snap_sane (g_utb_snapshot (neri_utb_sample (neri_utb_init (fun _ => 7) 0) (fun r => r) None (fun t => t) 4 10 1)).
Proof.
  apply utb_snapshot_sane.
  - reflexivity.
  - intros i. apply at_insert_nonneg; [discriminate|]. intros j. apply at_zeros.
  - vm_compute. discriminate.
Defined.

(** ** The cost engine *)

Definition gap (total alloc demand : Z) : Z :=
  let free := if alloc <? total then total - alloc else 0 in if free <? demand then demand - free else 0.

Lemma gap_nonneg t a d : 0 <= gap t a d.
Proof. unfold gap. repeat casei; b2p; lia. Qed.

Lemma gap_div g c : 0 <= g -> 0 < c ->
  (if truthy g then div_ (Q16 g) (c / 64) else Some 0) = None <-> 0 < g /\ c < 64.
Proof.
  intros Hg Hc. unfold truthy, div_. destruct (Z.eqb_spec g 0) as [->|]; simpl; [split; [done | lia]|].
  destruct (Z.eqb_spec (c / 64) 0) as [E|E]; [split; [intros _; zdm | done] | split; [done | zdm]].
Qed.

Lemma resource_gap_none g p : 0 <= cpu_total_ns g -> 0 <= ram_total_pages g ->
  resource_gap g p = None <->
  cpu_total_ns g <> 0 /\ ram_total_pages g <> 0 /\
  ((cpu_total_ns g < 64 /\ 0 < gap (cpu_total_ns g) (cpu_alloc_ns g) (cpu_demand_ns p)) \/
   (ram_total_pages g < 64 /\ 0 < gap (ram_total_pages g) (ram_alloc_pages g) (ram_demand_pages p))).
Proof.
  intros Hc Hr. unfold resource_gap.
  destruct (Z.eqb_spec (cpu_total_ns g) 0) as [->|]; simpl; [split; [done | tauto]|].
  destruct (Z.eqb_spec (ram_total_pages g) 0) as [->|]; simpl; [split; [done | tauto]|].
  fold (gap (cpu_total_ns g) (cpu_alloc_ns g) (cpu_demand_ns p)).
  fold (gap (ram_total_pages g) (ram_alloc_pages g) (ram_demand_pages p)).
  pose proof (gap_div (gap (cpu_total_ns g) (cpu_alloc_ns g) (cpu_demand_ns p)) (cpu_total_ns g)
    (gap_nonneg _ _ _) ltac:(lia)) as H1.
  pose proof (gap_div (gap (ram_total_pages g) (ram_alloc_pages g) (ram_demand_pages p)) (ram_total_pages g)
    (gap_nonneg _ _ _) ltac:(lia)) as H2.
  destruct (if truthy (gap (cpu_total_ns g) _ _) then _ else _) as [q1|]; simpl; [|split; [intros _; tauto | done]].
  destruct (if truthy (gap (ram_total_pages g) _ _) then _ else _) as [q2|]; simpl; [|split; [intros _; tauto | done]].
  split; [done|]. intros (_ & _ & H). assert (Some q1 = None \/ Some q2 = None) as [?|?] by tauto; done.
Qed.

(** A placement decision: the engine traps exactly when a resource whose capacity
    is between 1 and 63 units is short for the request; otherwise the P-core is
    chosen exactly when its weighted cost is not above the E-core's, the cost
    reported is the smaller of the two, the time slice is a quarter of the demand
    kept between 1 and 20 ms, and a GPU is assigned only to a request that asked
    for one while a slot is free. *)
Theorem nzra_decision w u g n p : 0 <= cpu_total_ns g -> 0 <= ram_total_pages g ->
  (neri_nzra_decide w u g n p = None <->
    cpu_total_ns g <> 0 /\ ram_total_pages g <> 0 /\
    ((cpu_total_ns g < 64 /\ 0 < gap (cpu_total_ns g) (cpu_alloc_ns g) (cpu_demand_ns p)) \/
     (ram_total_pages g < 64 /\ 0 < gap (ram_total_pages g) (ram_alloc_pages g) (ram_demand_pages p)))) /\
  (forall d, neri_nzra_decide w u g n p = Some d -> exists arg,
    resource_gap g p = Some arg /\
    let cp := weighted w (energy_penalty u p true) arg (coherency_latency n p 0) in
    let ce := weighted w (energy_penalty u p false) arg (if 1 <? n then coherency_latency n p (n - 1) else 0) in
    cost d = Z.min cp ce /\ (prefer_pcore d = true <-> cp <= ce) /\
    cpu_timeslice_ns d = Z.max 1000000 (Z.min 20000000 (cpu_demand_ns p / 4)) /\
    (assign_gpu d = true <-> 0 < gpu_demand_slots p /\ gpu_alloc_slots g < gpu_total_slots g)).
Proof.
  intros Hc Hr. unfold neri_nzra_decide. split.
  - rewrite <- (resource_gap_none g p Hc Hr). destruct (resource_gap g p); done.
  - intros d. destruct (resource_gap g p) as [arg|]; [|done]. intros [= <-]. exists arg. split; [done|].
    cbn [cost prefer_pcore cpu_timeslice_ns assign_gpu].
    generalize (weighted w (energy_penalty u p true) arg (coherency_latency n p 0)).
    generalize (weighted w (energy_penalty u p false) arg (if 1 <? n then coherency_latency n p (n - 1) else 0)).
    intros ce cp. split_and!.
    + casei; b2p; lia.
    + apply Z.leb_le.
    + destruct (Z.ltb_spec (cpu_demand_ns p / 4) 1000000); casei; b2p; lia.
    + rewrite andb_true_iff, !Z.ltb_lt. done.
Qed.

Lemma nzra_decision_witness :
  neri_nzra_decide neri_nzra_init (neri_utb_init (fun _ => 0) 0) (mk_pool 40000000 0 63 60 0 0 1 0) 4
    (mk_proc 1 4 1000000 10 0 0 0 0 0 0) = None.
Proof.
  apply (nzra_decision neri_nzra_init (neri_utb_init (fun _ => 0) 0) (mk_pool 40000000 0 63 60 0 0 1 0) 4
    (mk_proc 1 4 1000000 10 0 0 0 0 0 0)); vm_compute; try discriminate.
  split; [discriminate|]. split; [discriminate|]. right. split; reflexivity.
Defined.

(** ** The anomaly score *)

Definition dot (w x : list Z) : Z := foldl (fun acc '(wi, xi) => acc + wi * xi) 0 (zip w x).

Lemma dot_wide ps : forall acc B, Forall (fun p => Z.abs (p.1 * p.2) <= 36720) ps -> Z.abs acc <= B ->
  B + 36720 * Z.of_nat (length ps) < 2 ^ 31 ->
  foldl (fun acc '(wi, xi) => s32 (acc + wi * xi)) acc ps = acc + foldl (fun acc '(wi, xi) => acc + wi * xi) 0 ps.
Proof.
  assert (forall ps a, foldl (fun acc '(wi, xi) => acc + wi * xi) a ps
    = a + foldl (fun acc '(wi, xi) => acc + wi * xi) 0 ps) as Hadd.
  { induction ps0 as [|[w x] ps0 IH]; intros a; cbn [foldl]; [lia|]. rewrite (IH (a + w * x)), (IH (0 + w * x)). lia. }
  induction ps as [|[w x] ps IH]; intros acc B HF Ha HB; cbn [foldl]; [lia|].
  apply Forall_cons in HF as [Hp HF]. simpl in Hp, HB. rewrite s32_small by lia.
  rewrite (IH _ (B + 36720)) by (done || lia). rewrite (Hadd ps (0 + w * x)). lia.
Qed.


Lemma neuron_exact w b x : (length w <= 12)%nat -> Z.abs b <= 128 ->
  Forall (fun v => Z.abs v <= 144) w -> Forall (fun v => Z.abs v <= 255) x ->
  neuron w b x = (b * 256 + dot w x) / 256.
Proof.
  intros Hl Hb Hw Hx. unfold neuron. rewrite Z.shiftr_div_pow2 by lia. change (2 ^ 8) with 256. f_equal.
  apply (dot_wide _ _ (128 * 256)); [|lia|].
  - revert x Hx. induction Hw as [|a w Ha _ IH]; intros x Hx; [by constructor|].
    destruct Hx as [|v x Hv Hx]; [by constructor|]. simpl. constructor; [|apply IH; [simpl in Hl; lia | done]]. simpl. nia.
  - rewrite length_zip_with. lia.
Qed.

Lemma clamp_q8_range q : 0 <= clamp_q8 q <= 255.
Proof. unfold clamp_q8. destruct (Z.ltb_spec q 0); casei; b2p; lia. Qed.

Lemma tanh_pos_range x : 0 <= x -> 0 <= tanh_pos x <= 255.
Proof. intros. unfold tanh_pos. repeat casei; b2p; zdm. Qed.
Lemma tanh_pos_mono x y : x <= y -> tanh_pos x <= tanh_pos y.
Proof.
  intros. unfold tanh_pos.
  destruct (Z.ltb_spec 384 x), (Z.ltb_spec 384 y), (Z.ltb_spec x 128), (Z.ltb_spec y 128), (Z.ltb_spec x 256),
    (Z.ltb_spec y 256); zdm.
Qed.
(** The saturation tests of [tanh_q8] itself change nothing. *)
Lemma tanh_sign x : tanh_q8 x = if x <? 0 then - tanh_pos (- x) else tanh_pos x.
Proof.
  unfold tanh_q8. destruct (Z.ltb_spec 384 x), (Z.ltb_spec x (-384)), (Z.ltb_spec x 0); try lia; unfold tanh_pos.
  - by rewrite (proj2 (Z.ltb_lt _ _)) by lia.
  - by rewrite (proj2 (Z.ltb_lt _ _)) by lia.
Qed.
Lemma tanh_range x : -255 <= tanh_q8 x <= 255.
Proof.
  rewrite tanh_sign. destruct (Z.ltb_spec x 0); [pose proof (tanh_pos_range (- x)) | pose proof (tanh_pos_range x)]; lia.
Qed.
Lemma tanh_odd x : tanh_q8 (- x) = - tanh_q8 x.
Proof.
  rewrite !tanh_sign, Z.opp_involutive. destruct (Z.ltb_spec x 0), (Z.ltb_spec (- x) 0); try lia.
  replace x with 0 by lia. done.
Qed.
Lemma tanh_mono x y : x <= y -> tanh_q8 x <= tanh_q8 y.
Proof.
  intros. rewrite !tanh_sign. destruct (Z.ltb_spec x 0), (Z.ltb_spec y 0); try lia.
  - pose proof (tanh_pos_mono (- y) (- x)). lia.
  - pose proof (tanh_pos_range (- x)). pose proof (tanh_pos_range y). lia.
  - by apply tanh_pos_mono.
Qed.
Lemma sigmoid_range x : 0 <= sigmoid_q8 x <= 255.
Proof.
  unfold sigmoid_q8. destruct (Z.ltb_spec 512 x), (Z.ltb_spec x (-512)); try lia.
  destruct (Z.ltb_spec (128 + Z.quot x 2) 0); casei; b2p; lia.
Qed.
Lemma sigmoid_mono x y : x <= y -> sigmoid_q8 x <= sigmoid_q8 y.
Proof.
  intros. pose proof (sigmoid_range x). pose proof (sigmoid_range y). pose proof (Z.quot_le_mono x y 2 ltac:(lia) H).
  unfold sigmoid_q8 in *.
  destruct (Z.ltb_spec 512 x), (Z.ltb_spec x (-512)), (Z.ltb_spec 512 y), (Z.ltb_spec y (-512)); try lia.
  destruct (Z.ltb_spec (128 + Z.quot x 2) 0), (Z.ltb_spec (128 + Z.quot y 2) 0); repeat casei; b2p; lia.
Qed.

(** The network over unbounded integers. *)
Definition mlp_exact (features : list Z) : Z :=
  let x := map (fun q => Z.max 0 (Z.min 255 q)) features in
  let h := zip_with (fun w b => tanh_q8 ((b * 256 + dot w x) / 256)) W1 B1 in
  sigmoid_q8 ((B2 * 256 + dot W2 h) / 256).

(** A feature in Q8 before the clamp. *)
Definition q8 (u : fpu) (x : spec_float) : Z := to_s32 (fmul u x (fconst u 256)).

Lemma mlp_is_exact u f : mlp_anomaly u f = mlp_exact (map (q8 u) f).
Proof.
  unfold mlp_anomaly, mlp_exact. rewrite map_map.
  assert (map (to_q8 u) f = map (fun x => Z.max 0 (Z.min 255 (q8 u x))) f) as ->.
  { apply map_ext. intros x. unfold to_q8, clamp_q8. fold (q8 u x). destruct (Z.ltb_spec (q8 u x) 0); casei; b2p; lia. }
  set (x := map _ f). assert (Forall (fun v => Z.abs v <= 255) x) as Hx.
  { apply Forall_map, Forall_true. intros q. simpl. lia. }
  clearbody x. assert (forall w b, (w, b) ∈ zip W1 B1 -> neuron w b x = (b * 256 + dot w x) / 256) as HW.
  { intros w b Hin. pose proof (proj1 (Forall_forall (fun p => (length p.1 <= 12)%nat /\ Z.abs p.2 <= 128 /\
      Forall (fun v => Z.abs v <= 144) p.1) (zip W1 B1))) as HF.
    destruct (HF ltac:(vm_compute; repeat constructor; discriminate) (w, b) Hin) as (? & ? & ?). by apply neuron_exact. }
  assert (zip_with (fun w b => tanh_q8 (neuron w b x)) W1 B1
    = zip_with (fun w b => tanh_q8 ((b * 256 + dot w x) / 256)) W1 B1) as ->.
  { revert HW. generalize W1 B1. clear.
    intros l1. induction l1 as [|w W IH]; intros [|b B] H; simpl; [done..|].
    rewrite (H w b) by (simpl; set_solver). f_equal. apply IH. intros. apply H. simpl. set_solver. }
  rewrite neuron_exact; [done | vm_compute; repeat constructor | vm_compute; discriminate | |].
  - vm_compute. repeat constructor; discriminate.
  - apply Forall_forall. intros v Hv. apply elem_of_lookup_zip_with in Hv as (i & w & b & -> & _).
    pose proof (tanh_range ((b * 256 + dot w x) / 256)). lia.
Qed.


Lemma level_critical sc : (NERI_SEC_LEVEL_CRITICAL <=? level_of sc) = (230 <=? sc).
Proof. unfold level_of. destruct (Z.leb_spec 230 sc); repeat casei; b2p; done || lia. Qed.

(** The anomaly monitor: the fixed-point network never overflows its 32-bit
    accumulators (it computes what unbounded integers would), its score is a byte;
    its activations are bounded and monotone, tanh is odd; and a tick of an
    initialised monitor closes admission exactly when the score reaches 230, which
    makes [neri_sched_admit] answer -EPERM and change nothing. *)
Theorem anomaly_gates_admission u s p sn ps pa proc : g_nsm_ready s = true ->
  let s' := neri_sec_tick u s p sn in
  let sc := score_byte (g_anomaly s') in
  sc = mlp_exact (map (q8 u) (build_features u (g_feat s) sn)) /\ 0 <= sc <= 255 /\
  (neri_sec_admit_allowed s' = false <-> 230 <= sc) /\
  (230 <= sc -> neri_sched_admit ps (block_admits (neri_sec_get_anomaly s')) pa proc = Some (ps, proc, - EPERM)) /\
  (forall x y, x <= y -> tanh_q8 x <= tanh_q8 y /\ sigmoid_q8 x <= sigmoid_q8 y) /\
  (forall x, tanh_q8 (- x) = - tanh_q8 x /\ -255 <= tanh_q8 x <= 255).
Proof.
  intros Hr s' sc. unfold sc, s', neri_sec_admit_allowed, neri_sec_get_anomaly, neri_sec_tick. rewrite Hr.
  cbn [negb g_anomaly score_byte block_admits g_nsm_ready]. rewrite level_critical, mlp_is_exact. split; [done|].
  split; [apply sigmoid_range|]. split; [rewrite negb_false_iff; apply Z.leb_le|].
  split; [intros H; by rewrite (proj2 (Z.leb_le _ _) H)|].
  split; intros; split; [by apply tanh_mono | by apply sigmoid_mono | apply tanh_odd | apply tanh_range].
Qed.

Definition sec_ex : sec := mk_sec (replicate 32 7) true (mk_anomaly 0 0 false 0) zero_feat.

(** ** Sealed snapshots *)

Lemma snap_iv_length ep : length (snap_iv ep) = 12%nat.
Proof. done. Qed.

(** Sealing then opening gives the snapshot back when the sealed record carries
    the epoch it was sealed under; without the key loaded both answer -EINVAL. *)
Theorem sealed_snapshot_round_trip s snap ep out : g_nsm_ready s = true -> sl_epoch out = ep ->
  (exists sl, neri_sec_seal_snapshot s snap ep out = (sl, 0) /\ neri_sec_open_snapshot s sl = inr snap) /\
  neri_sec_seal_snapshot (neri_sec_exit s) snap ep out = (out, - EINVAL) /\
  (forall sl, neri_sec_open_snapshot (neri_sec_exit s) sl = inl (- EINVAL)).
Proof.
  intros Hr <-. split; [|done]. unfold neri_sec_seal_snapshot, neri_sec_open_snapshot. rewrite Hr. cbn [negb].
  destruct (AesGcm.aes256_gcm_encrypt _ _ _ _) as [ct tag] eqn:E. exists (mk_sealed (sl_epoch out) ct tag).
  split; [reflexivity|]. cbn [sl_epoch sl_snapshot sl_tag].
  exact (AesProof.gcm_open_seal _ _ _ _ _ _ (snap_iv_length _) E).
Qed.

Lemma sealed_snapshot_round_trip_witness :
  exists sl, neri_sec_seal_snapshot sec_ex [1; 2; 3] 5 (mk_sealed 5 [] []) = (sl, 0)
    /\ neri_sec_open_snapshot sec_ex sl = inr [1; 2; 3].
Proof. apply (sealed_snapshot_round_trip sec_ex [1; 2; 3] 5 (mk_sealed 5 [] []) eq_refl eq_refl). Defined.

(** Sealing does not record the epoch: a record that was zeroed before sealing
    under epoch 5 cannot be opened again. *)
Theorem sealed_epoch_not_recorded :
  let out := (neri_sec_seal_snapshot sec_ex [1; 2; 3] 5 (mk_sealed 0 [] [])).1 in
  sl_epoch out = 0 /\ neri_sec_open_snapshot sec_ex out = inl (- EBADMSG).
Proof. split; vm_compute; reflexivity. Qed.

(** The thermal hint writes a valid power-limit field and sets its enable bit,
    leaving the bits above untouched; but the sum is reduced to fifteen bits, so at
    the top of the range asking for more power programs the smallest limit. *)
Theorem thermal_hint_wraps plimit intensity : 0 <= plimit < 2 ^ 64 -> 0 <= intensity < 2 ^ 16 ->
  Z.land (thermal_limit plimit intensity) 0x7FFF =
    (Z.land plimit 0x7FFF + 24 * (intensity + 1)) mod 2 ^ 15 /\
  Z.testbit (thermal_limit plimit intensity) 15 = true /\
  Z.shiftr (thermal_limit plimit intensity) 16 = Z.shiftr plimit 16 /\
  Z.land (thermal_limit 0x7FFF 0) 0x7FFF = 23.
Proof.
  intros Hp Hi. assert (0 <= Z.land plimit 0x7FFF < 2 ^ 15) as Hl.
  { change 0x7FFF with (Z.ones 15). rewrite Z.land_ones by lia. apply Z.mod_pos_bound. lia. }
  unfold thermal_limit. set (l := Z.land plimit 0x7FFF) in *.
  assert (u32 (u32 (l * 125) + u32 (3000 * u32 (intensity + 1))) / 125 = l + 24 * (intensity + 1)) as ->.
  { rewrite (u32_small (intensity + 1)), (u32_small (3000 * _)), (u32_small (l * 125)), u32_small by lia.
    replace (l * 125 + 3000 * (intensity + 1)) with ((l + 24 * (intensity + 1)) * 125) by lia. by rewrite Z.div_mul. }
  set (n := l + 24 * (intensity + 1)). change (shl64 1 15) with (2 ^ 15). change 0x7FFF with (Z.ones 15).
  assert (not64 (Z.ones 15) = Z.ldiff (Z.ones 64) (Z.ones 15)) as -> by reflexivity.
  set (t := Z.lor (Z.lor _ _) _).
  assert (forall k, 0 <= k -> Z.testbit t k =
    (Z.testbit plimit k && (15 <=? k)) || (Z.testbit n k && (k <? 15)) || (15 =? k)) as Ht.
  { intros k Hk. unfold t. rewrite !Z.lor_spec, !Z.land_spec, Z.ldiff_spec, !Z.testbit_ones_nonneg, Z.pow2_bits_eqb by lia.
    f_equal. f_equal. rewrite (Z.leb_antisym k 15). destruct (Z.ltb_spec k 64); simpl; [done|].
    rewrite (testbit_high plimit 64) by lia. done. }
  clearbody t. split_and!; [| | |reflexivity].
  - rewrite <- Z.land_ones by lia. apply Z.bits_inj'. intros k Hk. rewrite !Z.land_spec, Z.testbit_ones_nonneg, Ht by lia.
    destruct (Z.ltb_spec k 15); [|by rewrite !andb_false_r].
    rewrite (proj2 (Z.leb_gt _ _)), (proj2 (Z.eqb_neq 15 k)), andb_false_r, !andb_true_r, orb_false_r by lia. done.
  - rewrite Ht by lia. by rewrite orb_true_r.
  - apply Z.bits_inj'. intros k Hk. rewrite !Z.shiftr_spec, Ht by lia.
    rewrite (proj2 (Z.leb_le _ _)), (proj2 (Z.ltb_ge _ _)), (proj2 (Z.eqb_neq _ _)), andb_true_r, andb_false_r, !orb_false_r by lia.
    done.
Qed.


Lemma thermal_hint_wraps_witness : Z.land (thermal_limit 0x8078 1) 0x7FFF = 0x78 + 48.
Proof. rewrite (proj1 (thermal_hint_wraps 0x8078 1 ltac:(lia) ltac:(lia))). reflexivity. Defined.

End NeriProof.
