(* ===== verification/Sched.v ===== *)
(** * kernel/sched.c: the scheduler

    Tasks are records in a heap keyed by address; run queues and the all-tasks list
    are intrusive lists ([ListHead]) whose nodes are named by what contains them.
    Every call the scheduler makes is the modelled one: the slab allocator and the
    page allocator ([Vmm]), and the resource manager ([Neri]).  What the hardware
    supplies during a call (counters, MSRs, the number of CPUs) is a record [hw].
    The body of each function runs under its spin lock and is one step. *)

From S2P Require Import Prelude Pmm Vmm Bytes Sha256 AesGcm ListHead Float Neri.
Import Pmm Vmm ListHead Neri.

Module Sched.

Definition TASK_RUNNING : Z := 0.
Definition TASK_READY : Z := 1.
Definition TASK_ZOMBIE : Z := 3.
Definition KERNEL_STACK_PAGES : Z := 4.
Definition TASK_NAME_LEN : Z := 32.
Definition MAX_TASKS : Z := 1024.
(** [sizeof(struct task)] under the x86-64 ABI. *)
Definition sizeof_task : Z := 368.

(** [struct task] without the list nodes, which are in [links]; [kstack_pa] is 0 when
    there is no stack. *)
Record task := mk_task {
  pid : Z; ppid : Z; name : list Z;
  state : Z; priority : Z; vruntime : Z; weight : Z; timeslice_ns : Z; cpu_time_ns : Z;
  cpu_affinity : Z; on_cpu : Z;
  kstack_top : Z; kstack_pa : Z;
  ctx_rsp : Z; ctx_rip : Z; ctx_rflags : Z;
  neri : neri_proc;
  sig_pending : Z; sig_blocked : Z
}.

(** A task record fresh from [kzalloc]. *)
Definition zero_proc : neri_proc := mk_proc 0 0 0 0 0 0 0 0 0 0.
Definition zero_task : task := mk_task 0 0 [] 0 0 0 0 0 0 0 0 0 0 0 0 0 zero_proc 0 0.

Definition set_state (t : task) (v : Z) : task :=
  mk_task (pid t) (ppid t) (name t) v (priority t) (vruntime t) (weight t) (timeslice_ns t) (cpu_time_ns t)
    (cpu_affinity t) (on_cpu t) (kstack_top t) (kstack_pa t) (ctx_rsp t) (ctx_rip t) (ctx_rflags t) (neri t)
    (sig_pending t) (sig_blocked t).
Definition set_vruntime (t : task) (v : Z) : task :=
  mk_task (pid t) (ppid t) (name t) (state t) (priority t) v (weight t) (timeslice_ns t) (cpu_time_ns t)
    (cpu_affinity t) (on_cpu t) (kstack_top t) (kstack_pa t) (ctx_rsp t) (ctx_rip t) (ctx_rflags t) (neri t)
    (sig_pending t) (sig_blocked t).
Definition set_timeslice (t : task) (v : Z) : task :=
  mk_task (pid t) (ppid t) (name t) (state t) (priority t) (vruntime t) (weight t) v (cpu_time_ns t)
    (cpu_affinity t) (on_cpu t) (kstack_top t) (kstack_pa t) (ctx_rsp t) (ctx_rip t) (ctx_rflags t) (neri t)
    (sig_pending t) (sig_blocked t).
Definition set_affinity (t : task) (v : Z) : task :=
  mk_task (pid t) (ppid t) (name t) (state t) (priority t) (vruntime t) (weight t) (timeslice_ns t) (cpu_time_ns t)
    v (on_cpu t) (kstack_top t) (kstack_pa t) (ctx_rsp t) (ctx_rip t) (ctx_rflags t) (neri t)
    (sig_pending t) (sig_blocked t).
Definition set_neri (t : task) (v : neri_proc) : task :=
  mk_task (pid t) (ppid t) (name t) (state t) (priority t) (vruntime t) (weight t) (timeslice_ns t) (cpu_time_ns t)
    (cpu_affinity t) (on_cpu t) (kstack_top t) (kstack_pa t) (ctx_rsp t) (ctx_rip t) (ctx_rflags t) v
    (sig_pending t) (sig_blocked t).
(** [next->state = TASK_RUNNING; next->on_cpu = cpu; next->timeslice_ns = 4000000]. *)
Definition dispatched (t : task) (cpu : Z) : task :=
  mk_task (pid t) (ppid t) (name t) TASK_RUNNING (priority t) (vruntime t) (weight t) 4000000 (cpu_time_ns t)
    (cpu_affinity t) cpu (kstack_top t) (kstack_pa t) (ctx_rsp t) (ctx_rip t) (ctx_rflags t) (neri t)
    (sig_pending t) (sig_blocked t).

(** List nodes: the sixteen run queues, [all_tasks_list], and the [rq_node] and
    [all_tasks] of the task at an address. *)
Inductive snode := RQ (band : nat) | AllHead | RqNode (t : Z) | AllNode (t : Z).
#[export] Instance snode_eq : EqDecision snode.
Proof. solve_decision. Defined.
#[export] Instance snode_countable : Countable snode.
Proof.
  refine (inj_countable'
    (fun n => match n with RQ b => inl (inl b) | AllHead => inl (inr ()) | RqNode t => inr (inl t) | AllNode t => inr (inr t) end)
    (fun s => match s with inl (inl b) => RQ b | inl (inr _) => AllHead | inr (inl t) => RqNode t | inr (inr t) => AllNode t end) _).
  by intros [].
Defined.
Abbreviation slinks := (gmap snode (list_head snode)).

Record sys := mk_sys {
  vm : vmm;
  heap : gmap Z task;
  tasks : list (option Z);
  task_count : Z;
  next_pid : Z;
  links : slinks;
  rq_min_vruntime : list Z;
  current_task : list (option Z);
  nr : Neri.neri;
  ado_ : ado
}.

Definition with_vm (s : sys) (v : vmm) : sys :=
  mk_sys v (heap s) (tasks s) (task_count s) (next_pid s) (links s) (rq_min_vruntime s) (current_task s) (nr s) (ado_ s).
Definition with_heap (s : sys) (h : gmap Z task) : sys :=
  mk_sys (vm s) h (tasks s) (task_count s) (next_pid s) (links s) (rq_min_vruntime s) (current_task s) (nr s) (ado_ s).
Definition with_links (s : sys) (l : slinks) : sys :=
  mk_sys (vm s) (heap s) (tasks s) (task_count s) (next_pid s) l (rq_min_vruntime s) (current_task s) (nr s) (ado_ s).
Definition with_current (s : sys) (c : list (option Z)) : sys :=
  mk_sys (vm s) (heap s) (tasks s) (task_count s) (next_pid s) (links s) (rq_min_vruntime s) c (nr s) (ado_ s).
Definition with_nr (s : sys) (n : Neri.neri) : sys :=
  mk_sys (vm s) (heap s) (tasks s) (task_count s) (next_pid s) (links s) (rq_min_vruntime s) (current_task s) n (ado_ s).
Definition with_ado (s : sys) (a : ado) : sys :=
  mk_sys (vm s) (heap s) (tasks s) (task_count s) (next_pid s) (links s) (rq_min_vruntime s) (current_task s) (nr s) a.
Definition with_table (s : sys) (t : list (option Z)) (n : Z) : sys :=
  mk_sys (vm s) (heap s) t n (next_pid s) (links s) (rq_min_vruntime s) (current_task s) (nr s) (ado_ s).
Definition with_next_pid (s : sys) (p : Z) : sys :=
  mk_sys (vm s) (heap s) (tasks s) (task_count s) p (links s) (rq_min_vruntime s) (current_task s) (nr s) (ado_ s).
Definition put (s : sys) (ta : Z) (t : task) : sys := with_heap s (<[ta := t]> (heap s)).

(** What the hardware and the other arguments of [neri_sched_tick] supply. *)
Record hw := mk_hw {
  hw_tsc_to_ns : Z -> Z; hw_msr : Z -> Z; hw_hfi : option (Z -> Z); g_ncpus : Z;
  hw_now : Z; hw_now2 : Z; hw_fpu : Float.fpu
}.

Definition sched_weight : list Z :=
  [88761; 71755; 56483; 46273; 36291; 29154; 23254; 18705; 14949; 11916; 9548; 7620; 6100; 4904; 3906; 3121].

Definition calc_vruntime_delta (t : task) (real_ns : Z) : Z :=
  u64 (real_ns * 56483) / (if truthy (weight t) then weight t else 56483).

Definition current (s : sys) (cpu : Z) : option Z := nth (Z.to_nat cpu) (current_task s) None.
Definition neri_ready (s : sys) : bool := g_neri_ready (n_ps (nr s)).

(** A dereference of a task pointer. *)
Definition deref (s : sys) (ta : Z) : outcome task := faulting (heap s !! ta).

(** ** Run queues *)

Definition band_of (t : task) : nat := Z.to_nat (MIN (priority t) 15).

Definition enqueue (s : sys) (ta : Z) : outcome sys :=
  t ← deref s ta;
  let band := band_of t in
  let t := if vruntime t =? 0 then set_vruntime t (nth band (rq_min_vruntime s) 0) else t in
  let s := put s ta t in
  l ← faulting (list_add_tail (links s) (RqNode ta) (RQ band));
  Done (with_links s l).

Definition dequeue (s : sys) (ta : Z) : outcome sys :=
  l ← faulting (list_del (links s) (RqNode ta)); Done (with_links s l).

(** [list_entry(pos, struct task, rq_node)]: only a [RqNode] is inside a task. *)
Definition entry (n : snode) : option Z := match n with RqNode t => Some t | _ => None end.

(** The body of the inner loop of [pick_next], over the nodes in list order. *)
Fixpoint scan (s : sys) (nodes : list snode) (best : option (Z * task)) : outcome (option (Z * task)) :=
  match nodes with
  | [] => Done best
  | n :: rest =>
      ta ← faulting (entry n);
      t ← deref s ta;
      if negb (state t =? TASK_READY) then scan s rest best
      else match best with
           | None => scan s rest (Some (ta, t))
           | Some (_, b) => if vruntime t <? vruntime b then scan s rest (Some (ta, t)) else scan s rest best
           end
  end.

(** The bands from [n - 1] down to 0; a list is at most as long as there are nodes. *)
Fixpoint pick_from (s : sys) (n : nat) : outcome (option (Z * task)) :=
  match n with
  | O => Done None
  | S band =>
      e ← faulting (list_empty (links s) (RQ band));
      if (e : bool) then pick_from s band
      else
        nx ← faulting (get_next (links s) (Some (RQ band)));
        nodes ← faulting (for_each (links s) (RQ band) nx (S (size (links s))));
        best ← scan s nodes None;
        match best with Some b => Done (Some b) | None => pick_from s band end
  end.
Definition pick_next (s : sys) : outcome (option (Z * task)) := pick_from s 16.

(** ** [schedule] *)

Definition tick_neri (s : sys) (w : hw) : outcome sys :=
  if negb (neri_ready s) then Done s
  else
    let (total_p, free_p) := pmm_stats (pm (vm s)) in
    n ← faulting (Neri.neri_sched_tick (nr s) (hw_tsc_to_ns w) (hw_msr w) (hw_hfi w) (g_ncpus w)
                    (hw_now w) (hw_now2 w) total_p free_p (hw_fpu w));
    Done (with_nr s n).

(** [if (prev && prev->state == TASK_RUNNING) { ... enqueue(prev); }]. *)
Definition requeue (s : sys) (prev : option Z) : outcome sys :=
  match prev with
  | None => Done s
  | Some pa =>
      p ← deref s pa;
      if state p =? TASK_RUNNING then enqueue (put s pa (set_state p TASK_READY)) pa else Done s
  end.

(** The canary of the outgoing task. *)
Definition check_canary (s : sys) (prev : option Z) : outcome sys :=
  match prev with
  | None => Done s
  | Some pa =>
      p ← deref s pa;
      if kstack_pa p =? 0 then Done s
      else
        '(v, ok) ← kstack_canary_check (vm s) (phys_to_virt (kstack_pa p));
        if (ok : bool) then Done (with_vm s v) else Panic
  end.

(** The state, and the switch performed ([__switch_to(prev, next)]), if any. *)
Definition schedule (s : sys) (w : hw) (cpu : Z) : outcome (sys * option (option Z * Z)) :=
  let cpu := if NCPUS_MAX <=? cpu then 0 else cpu in
  let prev := current s cpu in
  s ← requeue s prev;
  nxt ← pick_next s;
  match nxt with
  | None =>
      match prev with
      | None => Done (s, None)
      | Some pa =>
          p ← deref s pa;
          let s := put s pa (set_state p TASK_RUNNING) in
          Done (with_current s (<[Z.to_nat cpu := Some pa]> (current_task s)), None)
      end
  | Some (na, _) =>
      s ← dequeue s na;
      n ← deref s na;
      let s := put s na (dispatched n cpu) in
      let s := with_current s (<[Z.to_nat cpu := Some na]> (current_task s)) in
      s ← tick_neri s w;
      s ← check_canary s prev;
      Done (s, if bool_decide (prev = Some na) then None else Some (prev, na))
  end.

(** ** The timer *)

Definition TICK_NS : Z := 1000000.

Definition charge (t : task) : task :=
  let p := neri t in
  mk_task (pid t) (ppid t) (name t) (state t) (priority t) (u64 (vruntime t + calc_vruntime_delta t TICK_NS)) (weight t)
    (timeslice_ns t) (u64 (cpu_time_ns t + TICK_NS))
    (cpu_affinity t) (on_cpu t) (kstack_top t) (kstack_pa t) (ctx_rsp t) (ctx_rip t) (ctx_rflags t)
    (mk_proc (p_pid p) (p_priority p) (cpu_demand_ns p) (ram_demand_pages p) (gpu_demand_slots p)
       (u64 (cpu_granted_ns p + TICK_NS)) (ram_granted_pages p) (gpu_granted_slots p) (epoch_admitted p) (last_cpu p))
    (sig_pending t) (sig_blocked t).

Definition sched_tick (s : sys) (w : hw) (cpu : Z) : outcome (sys * option (option Z * Z)) :=
  match current s cpu with
  | None => schedule s w cpu
  | Some ta =>
      t ← deref s ta;
      let t := charge t in
      if TICK_NS <? timeslice_ns t
      then Done (put s ta (set_timeslice t (timeslice_ns t - TICK_NS)), None)
      else schedule (put s ta (set_timeslice t 0)) w cpu
  end.

(** ** Creation and exit *)

(** [for (i...) if (!tasks[i]) { tasks[i] = t; break; }]. *)
Fixpoint first_free (l : list (option Z)) (ta : Z) : list (option Z) :=
  match l with
  | [] => []
  | None :: r => Some ta :: r
  | Some x :: r => Some x :: first_free r ta
  end.

(** [strlcpy(dst, src, n)] on the characters before the terminator. *)
Definition strlcpy (src : list Z) (n : Z) : list Z := take (Z.to_nat (n - 1)) src.
(** "kthread". *)
Definition kthread_name : list Z := [107; 116; 104; 114; 101; 97; 100].

(** The placement step after admission. *)
Definition place (s : sys) (w : hw) (ta : Z) : outcome sys :=
  if negb (neri_ready s) then Done s
  else
    t ← deref s ta;
    dec ← faulting (neri_nzra_decide (n_nzra (nr s)) (n_utb (nr s)) (pool (n_ps (nr s))) (g_ncpus w) (neri t));
    let s := put s ta (set_affinity t (if prefer_pcore dec then 0 else if 1 <? g_ncpus w then 1 else 0)) in
    let (a, _) := neri_ado_dispatch (ado_ s) (Some dec) (u64 (epoch (pool (n_ps (nr s))))) in
    Done (with_ado s a).

(** [neri_sched_admit(&g_neri_pool, &t->neri)], its result ignored. *)
Definition admit_neri (s : sys) (ta : Z) : outcome sys :=
  if negb (neri_ready s) then Done s
  else
    t ← deref s ta;
    let n := nr s in
    '(ps, proc, _) ← faulting (neri_sched_admit (n_ps n) (block_admits (neri_sec_get_anomaly (n_sec n))) ta (neri t));
    Done (put (with_nr s (mk_neri ps (n_utb n) (n_nzra n) (n_neki n) (n_sec n))) ta (set_neri t proc)).

(** The record built before the task becomes visible. *)
Definition fresh_task (pid_ ppid_ : Z) (nm : option (list Z)) (entry_ prio demand_ns demand_pages kpa : Z) : task :=
  let prio := MIN prio 15 in
  let top := u64 (phys_to_virt kpa + KERNEL_STACK_PAGES * PAGE_SIZE) in
  mk_task pid_ ppid_ (strlcpy (default kthread_name nm) TASK_NAME_LEN) TASK_READY prio 0
    (nth (Z.to_nat prio) sched_weight 0) 0 0 0 0 top kpa (u64 (top - 16)) entry_ 0x200
    (mk_proc pid_ (u8 prio) (if truthy demand_ns then demand_ns else 1000000)
       (if truthy demand_pages then demand_pages else 4) 0 0 0 0 0 0) 0 0.

(** The pool's list nodes share the task's address. *)
Definition init_nodes (s : sys) (ta : Z) : sys :=
  let n := nr s in let ps := n_ps n in
  let ps := mk_ps (pool ps) (list_init (admitted ps) (ProcNode ta)) (neri_admitted_count ps) (g_neri_ready ps) in
  let s := with_nr s (mk_neri ps (n_utb n) (n_nzra n) (n_neki n) (n_sec n)) in
  with_links s (list_init (list_init (links s) (RqNode ta)) (AllNode ta)).

(** Registering the finished record and making it runnable. *)
Definition publish (s : sys) (w : hw) (ta : Z) : outcome sys :=
  s ← admit_neri s ta;
  let s := with_table s (first_free (tasks s) ta) (task_count s) in
  l ← faulting (list_add_tail (links s) (AllNode ta) AllHead);
  s ← enqueue (with_links s l) ta;
  place (with_table s (tasks s) (s32 (task_count s + 1))) w ta.

(** The address of the task, or an error number in a pointer. *)
Definition task_create (s : sys) (w : hw) (cpu : Z) (nm : option (list Z)) (entry_ arg prio demand_ns demand_pages : Z)
    : outcome (sys * Z) :=
  if neri_ready s && negb (neri_sec_admit_allowed (n_sec (nr s))) then Done (s, ERR_PTR (- EPERM))
  else
    '(v, ta) ← kzalloc (vm s) sizeof_task;
    let s := with_vm s v in
    if ta =? 0 then Done (s, ERR_PTR (- ENOMEM))
    else
      let pid_ := next_pid s in
      let s := with_next_pid s (s32 (next_pid s + 1)) in
      ppid_ ← match current s cpu with None => Done 0 | Some c => t ← deref s c; Done (pid t) end;
      let (p, kpa) := pmm_alloc_pages (pm (vm s)) 2 in
      let s := with_vm s (with_pm (vm s) p) in
      if kpa =? 0 then
        v ← kfree (vm s) ta;
        Done (with_vm s v, ERR_PTR (- ENOMEM))
      else
        v ← kstack_canary_write (vm s) (phys_to_virt kpa);
        let top := u64 (phys_to_virt kpa + KERNEL_STACK_PAGES * PAGE_SIZE) in
        v ← store v (u64 (top - 8)) arg;
        v ← store v (u64 (top - 16)) 0;
        let s := init_nodes (with_vm s v) ta in
        let s := put s ta (fresh_task pid_ ppid_ nm entry_ prio demand_ns demand_pages kpa) in
        s ← publish s w ta;
        Done (s, ta).

(** [neri_sched_release(&g_neri_pool, &t->neri)]. *)
Definition release_neri (s : sys) (ta : Z) : outcome sys :=
  if negb (neri_ready s) then Done s
  else
    t ← deref s ta;
    let n := nr s in
    ps ← faulting (neri_sched_release (n_ps n) ta (neri t));
    Done (with_nr s (mk_neri ps (n_utb n) (n_nzra n) (n_neki n) (n_sec n))).

Definition task_exit (s : sys) (w : hw) (cpu : Z) (ta : option Z) (code : Z) : outcome (sys * option (option Z * Z)) :=
  match ta with
  | None => Done (s, None)
  | Some ta =>
      t ← deref s ta;
      let s := put s ta (set_state t TASK_ZOMBIE) in
      s ← release_neri s ta;
      s ← dequeue s ta;
      nx ← faulting (get_next (links s) (Some (AllNode ta)));
      l ← match nx with Some _ => faulting (list_del (links s) (AllNode ta)) | None => Done (links s) end;
      let s := with_links s l in
      let s := if kstack_pa t =? 0 then s
               else with_vm s (with_pm (vm s) (pmm_free_pages (pm (vm s)) (kstack_pa t) (KERNEL_STACK_PAGES / 2))) in
      schedule s w cpu
  end.

Fixpoint init_queues (l : slinks) (n : nat) : slinks :=
  match n with
  | O => l
  | S b => list_init (init_queues l b) (RQ b)
  end.
Definition sched_init (s : sys) : sys :=
  mk_sys (vm s) (heap s) (tasks s) (task_count s) (next_pid s) (init_queues (links s) 16) (replicate 16 0)
    (replicate 256 None) (nr s) (ado_ s).

End Sched.
