(* ===== verification/SchedProof.v ===== *)
(** * Properties of the scheduler

    The run queues stand for sixteen lists of tasks; every queued task is READY,
    every current task is RUNNING and queued nowhere, and no task is current on two
    CPUs.  [schedule] keeps this and dispatches the task the policy names. *)

From S2P Require Import Prelude Pmm Vmm ListHead Float Neri Sched.
Import Pmm Vmm ListHead Neri Sched.

Module SchedProof.

Abbreviation queues := (nat -> list Z).
Definition updQ (Q : queues) (b : nat) (l : list Z) : queues := fun b' => if decide (b' = b) then l else Q b'.
Lemma updQ_eq Q b l : updQ Q b l b = l.
Proof. unfold updQ. by rewrite decide_True. Qed.
Lemma updQ_ne Q b l b' : b' <> b -> updQ Q b l b' = Q b'.
Proof. intros. unfold updQ. by rewrite decide_False. Qed.

Definition nowhere (Q : queues) (t : Z) : Prop := forall b, (b < 16)%nat -> t ∉ Q b.

Record rings_ok (m : slinks) (Q : queues) : Prop := {
  ro_ring : forall b, (b < 16)%nat -> ring m (RQ b) (RqNode <$> Q b);
  ro_disj : forall b b' t, (b < 16)%nat -> (b' < 16)%nat -> t ∈ Q b -> t ∈ Q b' -> b = b'
}.

Record sched_ok (s : sys) (Q : queues) : Prop := {
  so_rings : rings_ok (links s) Q;
  so_ready : forall b t, (b < 16)%nat -> t ∈ Q b -> exists k, heap s !! t = Some k /\ state k = TASK_READY;
  so_cpus : length (current_task s) = 256%nat;
  so_running : forall c t, current_task s !! c = Some (Some t) ->
    (exists k, heap s !! t = Some k /\ state k = TASK_RUNNING) /\ is_Some (links s !! RqNode t) /\ nowhere Q t;
  so_once : forall c c' t, current_task s !! c = Some (Some t) -> current_task s !! c' = Some (Some t) -> c = c'
}.

(** ** Rings *)

Lemma rq_node_in t (l : list Z) : RqNode t ∈ RqNode <$> l <-> t ∈ l.
Proof. rewrite list_elem_of_fmap. split; [intros (x & [= ->] & Hx); done | eauto]. Qed.

Lemma band_lt t : (band_of t < 16)%nat.
Proof. unfold band_of, MIN. casei; b2p; lia. Qed.

(** The node sets of two queues are disjoint. *)
Lemma other_ring m Q b b' u : rings_ok m Q -> (b < 16)%nat -> (b' < 16)%nat -> b <> b' ->
  u ∈ RQ b :: (RqNode <$> Q b) -> u ∉ RQ b' :: (RqNode <$> Q b').
Proof.
  intros [_ Hd] Hb Hb' Hne Hu Hu'. apply elem_of_cons in Hu, Hu'.
  destruct Hu as [->|Hu], Hu' as [E|Hu'].
  - by injection E.
  - apply list_elem_of_fmap in Hu' as (x & ? & _). done.
  - subst. apply list_elem_of_fmap in Hu as (x & ? & _). done.
  - apply list_elem_of_fmap in Hu as (x & -> & Hx). apply rq_node_in in Hu'. by apply Hne, (Hd b b' x).
Qed.

Lemma rings_add m Q b t : rings_ok m Q -> (b < 16)%nat -> is_Some (m !! RqNode t) -> nowhere Q t ->
  exists m', list_add_tail m (RqNode t) (RQ b) = Some m' /\ rings_ok m' (updQ Q b (Q b ++ [t])) /\
    (forall u, is_Some (m !! u) -> is_Some (m' !! u)) /\
    (forall u, u <> RqNode t -> u ∉ RQ b :: (RqNode <$> Q b) -> m' !! u = m !! u).
Proof.
  intros HR Hb Ht Hn. assert (forall b', (b' < 16)%nat -> RqNode t ∉ RQ b' :: (RqNode <$> Q b')) as Hni.
  { intros b' Hb' [?|Hx]%elem_of_cons; [done|]. apply rq_node_in in Hx. by apply (Hn b'). }
  destruct (list_add_tail_ring m (RqNode t) (RQ b) (RqNode <$> Q b) (ro_ring _ _ HR b Hb) Ht (Hni b Hb)) as (m' & E & R & F).
  exists m'. split; [done|]. assert (RqNode <$> (Q b ++ [t]) = (RqNode <$> Q b) ++ [RqNode t]) as Eq by by rewrite fmap_app.
  split; [split|split; [|exact F]].
  - intros b' Hb'. unfold updQ. case_decide as D; [subst; by rewrite Eq|].
    eapply ring_frame; [by apply HR|]. intros u Hu. apply F.
    + intros ->. by apply (Hni b').
    + by apply (other_ring m Q b' b u HR).
  - intros b1 b2 x H1 H2. unfold updQ. repeat case_decide; subst; try done.
    + intros [Hx|Hx]%elem_of_app Hx2; [by apply (ro_disj _ _ HR b b2 x)|].
      apply list_elem_of_singleton in Hx as ->. by destruct (Hn b2 H2).
    + intros Hx2 [Hx|Hx]%elem_of_app; [by apply (ro_disj _ _ HR b1 b x)|].
      apply list_elem_of_singleton in Hx as ->. by destruct (Hn b1 H1).
    + by apply HR.
  - intros u Hu. destruct (decide (u ∈ RQ b :: (RqNode <$> Q b) ++ [RqNode t])) as [Hin|Hout].
    + by eapply ring_members.
    + rewrite F; [done | intros ->; apply Hout; set_solver | set_solver].
Qed.

Lemma rings_del m Q b t l1 l2 : rings_ok m Q -> (b < 16)%nat -> Q b = l1 ++ t :: l2 ->
  exists m', list_del m (RqNode t) = Some m' /\ rings_ok m' (updQ Q b (l1 ++ l2)) /\
    (forall u, is_Some (m !! u) -> is_Some (m' !! u)) /\ nowhere (updQ Q b (l1 ++ l2)) t /\
    m' !! RqNode t = Some (mk_lh None None) /\
    (forall u, u ∉ RQ b :: (RqNode <$> Q b) -> m' !! u = m !! u).
Proof.
  intros HR Hb HQ. pose proof (ro_ring _ _ HR b Hb) as R. rewrite HQ, fmap_app, fmap_cons in R.
  destruct (list_del_ring m (RQ b) (RqNode <$> l1) (RqNode t) (RqNode <$> l2) R) as (m' & E & R' & En & F).
  rewrite <- fmap_app in R'. exists m'. split; [done|].
  assert (t ∉ l1 ++ l2) as Hni.
  { destruct R as [Hnd _]. apply NoDup_cons in Hnd as [_ Hnd]. rewrite <- fmap_cons, <- fmap_app in Hnd.
    apply NoDup_fmap_1, NoDup_app in Hnd as (_ & Hd & [Hn _]%NoDup_cons).
    intros [Hx|Hx]%elem_of_app; [by apply (Hd t Hx), list_elem_of_here | done]. }
  split; [split|split; [|split; [|split; [done | rewrite HQ, fmap_app, fmap_cons; exact F]]]].
  - intros b' Hb'. unfold updQ. case_decide as D; [by subst|]. eapply ring_frame; [by apply HR|]. intros u Hu. apply F.
    pose proof (other_ring m Q b' b u HR Hb' Hb D Hu) as Ho. rewrite HQ in Ho.
    intros Hx. apply Ho. apply elem_of_cons in Hx as [->|Hx]; [apply list_elem_of_here|].
    apply list_elem_of_further. by rewrite fmap_app, fmap_cons.
  - assert (forall x, x ∈ l1 ++ l2 -> x ∈ Q b) as Hsub.
    { intros x. rewrite HQ, !elem_of_app, elem_of_cons. tauto. }
    intros b1 b2 x H1 H2. unfold updQ. repeat case_decide; subst; try done; intros Hx1 Hx2.
    + apply (ro_disj _ _ HR b b2 x); auto.
    + apply (ro_disj _ _ HR b1 b x); auto.
    + by apply (ro_disj _ _ HR b1 b2 x).
  - intros u Hu. destruct (decide (u = RqNode t)) as [->|]; [by rewrite En|].
    destruct (decide (u ∈ RQ b :: (RqNode <$> l1 ++ l2))) as [Hin|Hout]; [by eapply ring_members|].
    rewrite F; [done|]. intros Hx. apply Hout. rewrite fmap_app. apply elem_of_cons in Hx as [->|Hx]; [apply list_elem_of_here|].
    apply list_elem_of_further. rewrite elem_of_app in *. rewrite elem_of_cons in Hx. tauto.
  - intros b' Hb'. unfold updQ. case_decide as D; [done|]. intros Hx. apply D.
    apply (ro_disj _ _ HR b' b t); auto. rewrite HQ. apply elem_of_app. right. apply list_elem_of_here.
Qed.

(** ** The choice *)

Definition vr (s : sys) (t : Z) : Z := from_option vruntime 0 (heap s !! t).

(** [t] is the first task of least virtual runtime in [l]. *)
Definition first_min (s : sys) (l : list Z) (t : Z) : Prop :=
  exists l1 l2, l = l1 ++ t :: l2 /\ (forall x, x ∈ l1 -> vr s t < vr s x) /\ (forall x, x ∈ l2 -> vr s t <= vr s x).

Lemma scan_spec s l : forall pre best,
  (forall t, t ∈ l -> exists k, heap s !! t = Some k /\ state k = TASK_READY) ->
  match best with None => pre = [] | Some (b, kb) => heap s !! b = Some kb /\ first_min s pre b end ->
  exists r, scan s (RqNode <$> l) best = Done r /\
    match r with None => pre ++ l = [] | Some (b, kb) => heap s !! b = Some kb /\ first_min s (pre ++ l) b end.
Proof.
  induction l as [|t l IH]; intros pre best Hl Hb; simpl.
  { exists best. rewrite app_nil_r. split; [done|]. by destruct best as [[? ?]|]. }
  destruct (Hl t) as (k & Ek & Sk); [apply list_elem_of_here|]. unfold deref. rewrite Ek. simpl. rewrite Sk. simpl.
  assert (forall x, x ∈ l -> exists k, heap s !! x = Some k /\ state k = TASK_READY) as Hl'.
  { intros x Hx. apply Hl. by apply list_elem_of_further. }
  assert (vr s t = vruntime k) as Vt by (unfold vr; by rewrite Ek).
  change (t :: l) with ([t] ++ l). rewrite (assoc_L (++)).
  destruct best as [[b kb]|].
  - destruct Hb as [Eb (l1 & l2 & -> & H1 & H2)]. assert (vr s b = vruntime kb) as Vb by (unfold vr; by rewrite Eb).
    destruct (Z.ltb_spec (vruntime k) (vruntime kb)) as [Hlt|Hge]; apply IH; try done; split; try done.
    + exists (l1 ++ b :: l2), []. split; [done|]. split; [|intros x Hx; by apply elem_of_nil in Hx].
      intros x [Hx|[->|Hx]%elem_of_cons]%elem_of_app; [specialize (H1 x Hx); lia | lia | specialize (H2 x Hx); lia].
    + exists l1, (l2 ++ [t]). split; [by rewrite <- (assoc_L (++))|]. split; [done|].
      intros x [Hx|Hx]%elem_of_app; [by apply H2|]. apply list_elem_of_singleton in Hx as ->. lia.
  - subst pre. apply IH; [done|]. split; [done|]. exists [], []. split; [done|]. split; intros x Hx; by apply elem_of_nil in Hx.
Qed.

(** What [pick_next] is to choose among the bands below [n]. *)
Definition picks (s : sys) (Q : queues) (n : nat) (r : option (Z * task)) : Prop :=
  match r with
  | None => forall b, (b < n)%nat -> Q b = []
  | Some (t, k) => heap s !! t = Some k /\ exists b, (b < n)%nat /\ first_min s (Q b) t /\
      forall b', (b < b' < n)%nat -> Q b' = []
  end.

Lemma pick_from_spec s Q n : rings_ok (links s) Q -> (n <= 16)%nat ->
  (forall b t, (b < 16)%nat -> t ∈ Q b -> exists k, heap s !! t = Some k /\ state k = TASK_READY) ->
  exists r, pick_from s n = Done r /\ picks s Q n r.
Proof.
  intros HR Hn Hrd. induction n as [|b IH]; cbn [pick_from].
  { exists None. split; [done|]. intros b Hb. lia. }
  destruct IH as (r & Er & Pr); [lia|].
  assert (Q b = [] -> picks s Q (S b) r) as Hskip.
  { intros E. destruct r as [[t k]|].
    - destruct Pr as (Et & b0 & H0 & Hm & Hup). split; [done|]. exists b0. split; [lia|]. split; [done|].
      intros b' Hb'. destruct (decide (b' = b)) as [->|]; [done | apply Hup; lia].
    - intros b' Hb'. destruct (decide (b' = b)) as [->|]; [done | apply Pr; lia]. }
  pose proof (ro_ring _ _ HR b ltac:(lia)) as R. rewrite (list_empty_ring _ _ _ R). cbn [faulting mbind outcome_bind].
  case_bool_decide as D.
  - exists r. split; [done|]. apply Hskip. by apply fmap_nil_inv in D.
  - pose proof (for_each_ring (links s) (RQ b) _ _ R (ring_bounded _ _ _ R)) as Ef.
    destruct (get_next (links s) (Some (RQ b))) as [nx|]; [|done]. cbn [faulting mbind outcome_bind option_bind] in *.
    rewrite Ef. cbn [faulting mbind outcome_bind].
    destruct (scan_spec s (Q b) [] None) as (r' & Es & Ps); [intros t Ht; apply (Hrd b t); (done || lia) | done |].
    rewrite Es. cbn [mbind outcome_bind]. simpl in Ps. destruct r' as [[t k]|].
    + exists (Some (t, k)). split; [done|]. destruct Ps as [Et Hm]. split; [done|]. exists b. split; [lia|].
      split; [done|]. intros b' Hb'. lia.
    + rewrite Ps in D. done.
Qed.

(** ** Putting the outgoing task back *)

(** The queues once the current task is runnable again. *)
Definition requeued (s : sys) (Q : queues) (prev : option Z) : queues :=
  match prev with
  | None => Q
  | Some pa =>
      match heap s !! pa with
      | Some p => updQ Q (band_of p) (Q (band_of p) ++ [pa])
      | None => Q
      end
  end.

Lemma requeued_in s Q prev b t : t ∈ requeued s Q prev b -> t ∈ Q b \/ prev = Some t.
Proof.
  unfold requeued. destruct prev as [pa|]; [|by left]. destruct (heap s !! pa) as [p|]; [|by left].
  unfold updQ. case_decide as D; [|by left]. subst. intros [?|Hx]%elem_of_app; [by left|].
  apply list_elem_of_singleton in Hx as ->. by right.
Qed.

Lemma current_lookup s c t : current s c = Some t -> current_task s !! Z.to_nat c = Some (Some t).
Proof.
  unfold current. rewrite nth_lookup. destruct (current_task s !! Z.to_nat c) as [o|]; simpl; [by intros -> | done].
Qed.

Record requeue_post (s : sys) (Q : queues) (prev : option Z) (h : gmap Z task) (l : slinks) : Prop := {
  rp_rings : rings_ok l (requeued s Q prev);
  rp_ready : forall b t, (b < 16)%nat -> t ∈ requeued s Q prev b -> exists k, h !! t = Some k /\ state k = TASK_READY;
  rp_dom : forall u, is_Some (links s !! u) -> is_Some (l !! u);
  rp_others : forall t, prev <> Some t -> h !! t = heap s !! t;
  rp_stack : forall pa p, prev = Some pa -> heap s !! pa = Some p -> exists p', h !! pa = Some p' /\ kstack_pa p' = kstack_pa p;
  rp_task : forall t k', h !! t = Some k' -> exists k, heap s !! t = Some k /\ kstack_pa k' = kstack_pa k /\
    (k' = k \/ prev = Some t /\ state k = TASK_RUNNING /\ state k' = TASK_READY);
  rp_frame : forall u, (forall b, u <> RQ b) -> (forall t, u = RqNode t -> nowhere (requeued s Q prev) t) -> l !! u = links s !! u;
  rp_idle : prev = None -> h = heap s /\ l = links s
}.

Lemma requeue_ok s Q cpu : sched_ok s Q ->
  exists h l, requeue s (current s cpu) = Done (with_links (with_heap s h) l) /\ requeue_post s Q (current s cpu) h l.
Proof.
  intros H. destruct (current s cpu) as [pa|] eqn:Ec.
  - apply current_lookup in Ec. destruct (so_running _ _ H _ _ Ec) as ((p & Ep & Sp) & Hl & Hn).
    unfold requeue, enqueue, deref. simpl. rewrite Ep. simpl. rewrite Sp. simpl. rewrite lookup_insert_eq. simpl.
    change (band_of (set_state p TASK_READY)) with (band_of p).
    destruct (rings_add (links s) Q (band_of p) pa (so_rings _ _ H) (band_lt p) Hl Hn) as (m & Em & HR & Hd & Hf).
    set (k := if vruntime p =? 0 then _ else _). rewrite Em. simpl.
    exists (<[pa := k]> (<[pa := set_state p TASK_READY]> (heap s))), m. split; [done|].
    assert (state k = TASK_READY /\ kstack_pa k = kstack_pa p) as [Sk Kk] by (unfold k; by destruct (vruntime p =? 0)).
    split.
    + unfold requeued. by rewrite Ep.
    + intros b t Hb Ht. destruct (decide (t = pa)) as [->|Hne]; [exists k; by rewrite lookup_insert_eq|].
      rewrite !lookup_insert_ne by done. apply requeued_in in Ht as [Ht|[= ->]]; [by apply (so_ready _ _ H b) | done].
    + done.
    + intros t Ht. rewrite !lookup_insert_ne by congruence. done.
    + intros pa' p' [= <-] Ep'. rewrite Ep in Ep'. injection Ep' as <-. exists k. by rewrite lookup_insert_eq.
    + intros t k'. destruct (decide (t = pa)) as [->|Hne].
      * rewrite lookup_insert_eq. intros [= <-]. exists p. auto 10.
      * rewrite !lookup_insert_ne by done. eauto.
    + intros u Hu Hq. unfold requeued in Hq. rewrite Ep in Hq.
      assert (forall x, u = RqNode x -> x ∉ Q (band_of p) ++ [pa]) as Hx.
      { intros x Ex. specialize (Hq x Ex (band_of p) (band_lt p)). by rewrite updQ_eq in Hq. }
      apply Hf; [intros ->; apply (Hx pa eq_refl); set_solver|].
      intros [->|(x & -> & Hin)%list_elem_of_fmap]%elem_of_cons; [by apply (Hu (band_of p))|]. apply (Hx x eq_refl). set_solver.
    + done.
  - exists (heap s), (links s). split; [by destruct s|]. split; try done.
    + apply (so_rings _ _ H).
    + apply (so_ready _ _ H).
    + eauto.
Qed.

(** ** [schedule] *)

(** The resource manager's tick does not divide by zero, and the stack of the
    outgoing task is intact. *)
Definition tick_works (s : sys) (w : hw) : Prop := tick_neri s w <> Fault.
Definition stack_intact (s : sys) (prev : option Z) : Prop :=
  forall pa p, prev = Some pa -> heap s !! pa = Some p -> kstack_pa p <> 0 ->
    exists v, kstack_canary_check (vm s) (phys_to_virt (kstack_pa p)) = Done (v, true).

Lemma tick_frame s w s1 : tick_works s w -> nr s1 = nr s -> vm s1 = vm s -> exists n, tick_neri s1 w = Done (with_nr s1 n).
Proof.
  unfold tick_works, tick_neri, neri_ready. intros H -> ->. destruct (negb _).
  - exists (nr s1). by destruct s1.
  - destruct (pmm_stats _) as [tp fp]. destruct (Neri.neri_sched_tick _ _ _ _ _ _ _ _ _ _) as [n|]; simpl in *; [eauto | done].
Qed.

Lemma tick_faults s w s1 : ~ tick_works s w -> nr s1 = nr s -> vm s1 = vm s -> tick_neri s1 w = Fault.
Proof.
  unfold tick_works, tick_neri, neri_ready. intros H -> ->. destruct (negb _); [by destruct H|].
  destruct (pmm_stats _) as [tp fp]. destruct (Neri.neri_sched_tick _ _ _ _ _ _ _ _ _ _) as [n|]; simpl in *; [by destruct H | done].
Qed.

Lemma tick_same s w s1 n : nr s1 = nr s -> vm s1 = vm s -> tick_neri s1 w = Done (with_nr s1 n) -> tick_neri s w = Done (with_nr s n).
Proof.
  assert (forall x y, Done x = Done y -> nr x = nr y) as Inj by (intros x y [= ->]; done).
  unfold tick_neri, neri_ready. intros En -> E. rewrite En in E. revert E. destruct (negb _).
  - intros E%Inj. cbn in E. rewrite <- E, En. by destruct s.
  - destruct (pmm_stats _). destruct (Neri.neri_sched_tick _ _ _ _ _ _ _ _ _ _); [|done]. cbn. intros E%Inj. cbn in E. by rewrite E.
Qed.

Lemma tick_decided s w : tick_works s w \/ ~ tick_works s w.
Proof. unfold tick_works. destruct (tick_neri s w); [left | left | right]; congruence. Qed.

Lemma first_min_in s l t : first_min s l t -> t ∈ l.
Proof. intros (l1 & l2 & -> & _). apply elem_of_app. right. apply list_elem_of_here. Qed.

(** The state [schedule] leaves when it dispatches [na] on [cpu]. *)
Lemma dispatched_ok s Q cpu h l na n b l1 l2 m :
  sched_ok s Q -> 0 <= cpu < 256 -> requeue_post s Q (current s cpu) h l -> (b < 16)%nat ->
  requeued s Q (current s cpu) b = l1 ++ na :: l2 -> h !! na = Some n ->
  rings_ok m (updQ (requeued s Q (current s cpu)) b (l1 ++ l2)) -> (forall u, is_Some (l !! u) -> is_Some (m !! u)) ->
  nowhere (updQ (requeued s Q (current s cpu)) b (l1 ++ l2)) na ->
  forall s', heap s' = <[na := dispatched n cpu]> h -> links s' = m ->
    current_task s' = <[Z.to_nat cpu := Some na]> (current_task s) ->
  sched_ok s' (updQ (requeued s Q (current s cpu)) b (l1 ++ l2)).
Proof.
  intros H Hc RP Hb HQ Hna HR Hd Hnw s' Eh El Ec. set (Q1 := requeued s Q (current s cpu)) in *.
  pose proof (so_cpus _ _ H) as Hlen.
  assert (forall b' t, t ∈ updQ Q1 b (l1 ++ l2) b' -> t ∈ Q1 b') as Hsub.
  { intros b' t. unfold updQ. case_decide as D; [subst; rewrite HQ|done]. rewrite !elem_of_app, elem_of_cons. tauto. }
  assert (na ∈ Q1 b) as Hin by (rewrite HQ; apply elem_of_app; right; apply list_elem_of_here).
  assert (forall c t, current_task s !! c = Some (Some t) -> c <> Z.to_nat cpu ->
    current s cpu <> Some t /\ nowhere Q1 t /\ t <> na) as Hother.
  { intros c t Ht Hne. assert (current s cpu <> Some t) as Hp.
    { intros E. apply current_lookup in E. by apply Hne, (so_once _ _ H c _ t). }
    assert (nowhere Q1 t) as Hn.
    { intros b' Hb' Hx. apply requeued_in in Hx as [Hx|Hx]; [|done]. by apply (so_running _ _ H c t Ht) in Hx. }
    split; [done|]. split; [done|]. intros ->. by apply (Hn b Hb). }
  split.
  - by rewrite El.
  - intros b' t Hb' Ht. rewrite Eh. destruct (decide (t = na)) as [->|Hne]; [by destruct (Hnw b' Hb' Ht)|].
    rewrite lookup_insert_ne by done. apply (rp_ready _ _ _ _ _ RP b'); auto.
  - by rewrite Ec, length_insert.
  - intros c t. rewrite Ec, Eh, El. destruct (decide (c = Z.to_nat cpu)) as [->|Hne].
    + rewrite list_lookup_insert_eq by lia. intros [= <-]. split; [|split; [|done]].
      * exists (dispatched n cpu). by rewrite lookup_insert_eq.
      * apply Hd. eapply ring_members; [apply (ro_ring _ _ (rp_rings _ _ _ _ _ RP) b Hb)|].
        apply list_elem_of_further. by apply rq_node_in.
    + rewrite list_lookup_insert_ne by done. intros Ht. destruct (Hother c t Ht Hne) as (Hp & Hn & Hna').
      destruct (so_running _ _ H c t Ht) as (Hk & Hl & _). rewrite lookup_insert_ne by done.
      rewrite (rp_others _ _ _ _ _ RP t Hp). split; [done|]. split; [apply Hd, (rp_dom _ _ _ _ _ RP), Hl|].
      intros b' Hb' Hx. apply (Hn b' Hb'). by apply Hsub.
  - intros c c' t. rewrite Ec. destruct (decide (c = Z.to_nat cpu)) as [->|H1], (decide (c' = Z.to_nat cpu)) as [->|H2]; [done|..].
    + rewrite list_lookup_insert_eq by lia. rewrite list_lookup_insert_ne by done. intros [= <-] Ht.
      by destruct (Hother c' na Ht H2) as (_ & _ & ?).
    + rewrite (list_lookup_insert_eq (current_task s)) by lia. rewrite list_lookup_insert_ne by done. intros Ht [= <-].
      by destruct (Hother c na Ht H1) as (_ & _ & ?).
    + rewrite !list_lookup_insert_ne by done. apply (so_once _ _ H).
Qed.

(** How the state after a dispatch comes about: the current task put back, [na] taken out of
    its queue and made current, the tick of the resource manager. *)
Record dispatch_of (s : sys) (Q : queues) (w : hw) (cpu : Z) (na : Z) (b : nat) (l1 l2 : list Z) (s' : sys) (h : gmap Z task) (l m : slinks)
    (n : task) : Prop := {
  di_requeue : requeue_post s Q (current s cpu) h l;
  di_queue : (b < 16)%nat /\ requeued s Q (current s cpu) b = l1 ++ na :: l2 /\
    (forall b', (b < b' < 16)%nat -> requeued s Q (current s cpu) b' = []) /\
    first_min (with_heap s h) (requeued s Q (current s cpu) b) na;
  di_task : h !! na = Some n;
  di_null : m !! RqNode na = Some (mk_lh None None);
  di_frame : forall u, u ∉ RQ b :: (RqNode <$> requeued s Q (current s cpu) b) -> m !! u = l !! u;
  di_dom : forall u, is_Some (l !! u) -> is_Some (m !! u);
  di_state : exists n' v, tick_neri s w = Done (with_nr s n') /\
    s' = with_vm (with_nr (with_current (put (with_links (with_heap s h) m) na (dispatched n cpu))
           (<[Z.to_nat cpu := Some na]> (current_task s))) n') v /\
    (v = vm s \/ exists pa p, current s cpu = Some pa /\ heap s !! pa = Some p /\
       kstack_canary_check (vm s) (phys_to_virt (kstack_pa p)) = Done (v, true));
  di_ok : sched_ok s' (updQ (requeued s Q (current s cpu)) b (l1 ++ l2))
}.
(** What [schedule] does: nothing, a dispatch, or the fault of the resource manager. *)
Lemma schedule_cases s Q w cpu : sched_ok s Q -> 0 <= cpu < 256 -> stack_intact s (current s cpu) ->
  let Q1 := requeued s Q (current s cpu) in
  ((forall b, (b < 16)%nat -> Q1 b = []) /\ current s cpu = None /\ schedule s w cpu = Done (s, None)) \/
  (~ tick_works s w /\ schedule s w cpu = Fault) \/
  exists s' b na l1 l2 h l m n, dispatch_of s Q w cpu na b l1 l2 s' h l m n /\
    schedule s w cpu = Done (s', if bool_decide (current s cpu = Some na) then None else Some (current s cpu, na)).
Proof.
  intros H Hc Hst Q1. unfold schedule. rewrite (proj2 (Z.leb_gt NCPUS_MAX cpu)) by (unfold NCPUS_MAX; lia).
  destruct (requeue_ok s Q cpu H) as (h & l & -> & RP). cbn [mbind outcome_bind].
  destruct (pick_from_spec (with_links (with_heap s h) l) Q1 16 (rp_rings _ _ _ _ _ RP) (le_n _) (rp_ready _ _ _ _ _ RP))
    as (r & Er & Pr). unfold pick_next. rewrite Er. cbn [mbind outcome_bind].
  destruct r as [[na n]|].
  - right. destruct Pr as (Hn & b & Hb & Hm & Hup). pose proof Hm as (l1 & l2 & HQ & _).
    destruct (rings_del l Q1 b na l1 l2 (rp_rings _ _ _ _ _ RP) Hb HQ) as (m & Em & HR & Hd & Hnw & Hnull & Hfr).
    unfold dequeue. cbn [links with_links]. rewrite Em. cbn [faulting mbind outcome_bind]. unfold deref. cbn [heap with_links with_heap] in *.
    rewrite Hn. cbn [faulting mbind outcome_bind].
    set (s2 := with_current _ _). destruct (tick_decided s w) as [Hw|Hw]; [|left; by rewrite (tick_faults s w s2 Hw eq_refl eq_refl)].
    right. destruct (tick_frame s w s2 Hw eq_refl eq_refl) as (n' & E2).
    pose proof (tick_same s w s2 n' eq_refl eq_refl E2) as Et.
    rewrite E2. cbn [mbind outcome_bind].
    assert (exists v, check_canary (with_nr s2 n') (current s cpu) = Done (with_vm (with_nr s2 n') v) /\
      (v = vm s \/ exists pa p, current s cpu = Some pa /\ heap s !! pa = Some p /\
       kstack_canary_check (vm s) (phys_to_virt (kstack_pa p)) = Done (v, true))) as (v & -> & Hv).
    { unfold check_canary. destruct (current s cpu) as [pa|] eqn:Ecur; [|exists (vm s); split; [done | by left]].
      destruct (so_running _ _ H _ _ (current_lookup _ _ _ Ecur)) as ((p & Ep & _) & _).
      assert (exists q, heap (with_nr s2 n') !! pa = Some q /\ kstack_pa q = kstack_pa p) as (q & Eq & Kq).
      { cbn. destruct (rp_stack _ _ _ _ _ RP pa p eq_refl Ep) as (p' & Ep' & Kp).
        destruct (decide (pa = na)) as [->|].
        - rewrite lookup_insert_eq. exists (dispatched n cpu). split; [done|]. rewrite Hn in Ep'. injection Ep' as ->. done.
        - rewrite lookup_insert_ne by done. eauto. }
      unfold deref. rewrite Eq. cbn [faulting mbind outcome_bind]. rewrite Kq. destruct (Z.eqb_spec (kstack_pa p) 0).
      - exists (vm s). split; [done | by left].
      - destruct (Hst pa p eq_refl Ep) as (v & Ev); [done|]. change (vm (with_nr s2 n')) with (vm s). rewrite Ev. exists v. split; [done | eauto 10]. }
    cbn [mbind outcome_bind]. exists (with_vm (with_nr s2 n') v), b, na, l1, l2, h, l, m, n. split; [|done].
    split; try done; [by exists n', v|]. by apply (dispatched_ok s Q cpu h l na n b l1 l2 m).
  - left. assert (current s cpu = None) as Ec.
    { destruct (current s cpu) as [pa|] eqn:Ec; [|done]. exfalso.
      destruct (so_running _ _ H _ _ (current_lookup _ _ _ Ec)) as ((p & Ep & _) & _).
      specialize (Pr (band_of p) (band_lt p)). unfold Q1, requeued in Pr. rewrite Ep, updQ_eq in Pr. by destruct (Q (band_of p)). }
    split; [exact Pr|]. split; [done|]. rewrite Ec.
    destruct (rp_idle _ _ _ _ _ RP Ec) as [-> ->]. by destruct s.
Qed.

Lemma schedule_ok s Q w cpu : sched_ok s Q -> 0 <= cpu < 256 ->
  tick_works s w -> stack_intact s (current s cpu) ->
  let Q1 := requeued s Q (current s cpu) in
  ((forall b, (b < 16)%nat -> Q1 b = []) /\ current s cpu = None /\ schedule s w cpu = Done (s, None)) \/
  exists s' b na l1 l2 h,
    (b < 16)%nat /\ Q1 b = l1 ++ na :: l2 /\ (forall b', (b < b' < 16)%nat -> Q1 b' = []) /\
    first_min (with_heap s h) (Q1 b) na /\ (forall t, current s cpu <> Some t -> h !! t = heap s !! t) /\
    schedule s w cpu = Done (s', if bool_decide (current s cpu = Some na) then None else Some (current s cpu, na)) /\
    current_task s' = <[Z.to_nat cpu := Some na]> (current_task s) /\
    links s' !! RqNode na = Some (mk_lh None None) /\ sched_ok s' (updQ Q1 b (l1 ++ l2)).
Proof.
  intros H Hc Hw Hst Q1. destruct (schedule_cases s Q w cpu H Hc Hst) as [?|[[? _]|(s' & b & na & l1 & l2 & h & l & m & n & D & E)]]; [by left | done|].
  right. exists s', b, na, l1, l2, h. destruct (di_queue _ _ _ _ _ _ _ _ _ _ _ _ _ D) as (Hb & HQ & Hup & Hm).
  pose proof (di_state _ _ _ _ _ _ _ _ _ _ _ _ _ D) as (n' & v & _ & Es & _).
  do 4 (split; [done|]). split; [apply (di_requeue _ _ _ _ _ _ _ _ _ _ _ _ _ D)|]. split; [done|]. rewrite Es at 1 2.
  split; [done|]. split; [apply (di_null _ _ _ _ _ _ _ _ _ _ _ _ _ D) | apply (di_ok _ _ _ _ _ _ _ _ _ _ _ _ _ D)].
Qed.


Definition sys_ex (h : gmap Z task) (l : slinks) (c : list (option Z)) : sys :=
  mk_sys (mk_vmm pmm_bss 0 0 [] ∅) h [] 0 1 l (replicate 16 0) c
    (mk_neri (mk_ps (mk_pool 0 0 0 0 0 0 0 0) ∅ 0 false) (neri_utb_init (fun _ => 0) 0) neri_nzra_init neki_start
       (mk_sec [] false (mk_anomaly 0 0 false 0) zero_feat)) neri_ado_init.
Definition hw_ex : hw := mk_hw (fun x => x) (fun _ => 0) None 1 0 0 Float.Sse.

Lemma init_queues_rings m n b : (b < n)%nat -> ring (init_queues m n) (RQ b) [].
Proof.
  induction n as [|n IH]; intros Hb; [lia|]. simpl. destruct (decide (b = n)) as [->|]; [apply list_init_ring|].
  eapply ring_frame; [apply IH; lia|]. intros u Hu. apply list_elem_of_singleton in Hu as ->.
  unfold list_init. rewrite lookup_insert_ne; [done|]. intros [=]. lia.
Qed.

(** Initialisation establishes the invariant. *)
Lemma sched_init_ok s : sched_ok (sched_init s) (fun _ => []).
Proof.
  split; unfold sched_init; cbn [links heap current_task].
  - split; [intros b Hb; by apply (init_queues_rings (links s) 16) | intros ? ? ? ? ? Hx; by apply elem_of_nil in Hx].
  - intros b t _ Hx. by apply elem_of_nil in Hx.
  - apply length_replicate.
  - intros c t Hx. by apply lookup_replicate in Hx as [? _].
  - intros c c' t Hx. by apply lookup_replicate in Hx as [? _].
Qed.

(** ** Making a task runnable *)

(** [s'] differs from [s] in the heap at [ta] and in the links only. *)
Record only_queued (s s' : sys) (ta : Z) : Prop := {
  oq_vm : vm s' = vm s; oq_nr : nr s' = nr s; oq_cur : current_task s' = current_task s;
  oq_tasks : tasks s' = tasks s /\ task_count s' = task_count s /\ next_pid s' = next_pid s;
  oq_heap : forall t, t <> ta -> heap s' !! t = heap s !! t;
  oq_links : forall u, is_Some (links s !! u) -> is_Some (links s' !! u)
}.

Lemma enqueue_ok s Q ta t : sched_ok s Q -> heap s !! ta = Some t -> state t = TASK_READY ->
  is_Some (links s !! RqNode ta) -> nowhere Q ta -> (forall c, current_task s !! c <> Some (Some ta)) ->
  exists s' t', enqueue s ta = Done s' /\ sched_ok s' (updQ Q (band_of t) (Q (band_of t) ++ [ta])) /\
    only_queued s s' ta /\ heap s' !! ta = Some t' /\
    t' = (if vruntime t =? 0 then set_vruntime t (nth (band_of t) (rq_min_vruntime s) 0) else t).
Proof.
  intros H Ht St Hl Hn Hc. unfold enqueue, deref. rewrite Ht. cbn [faulting mbind outcome_bind].
  set (t' := if vruntime t =? 0 then _ else t). assert (state t' = TASK_READY) as St' by (unfold t'; by destruct (vruntime t =? 0)).
  destruct (rings_add (links s) Q (band_of t) ta (so_rings _ _ H) (band_lt t) Hl Hn) as (m & Em & HR & Hd & _).
  cbn [links put with_heap]. rewrite Em. cbn [faulting mbind outcome_bind].
  exists (with_links (put s ta t') m), t'. split; [done|]. split; [|split; [|by split; [apply lookup_insert_eq|]]].
  - split; cbn.
    + done.
    + intros b x Hb Hx. destruct (decide (x = ta)) as [->|Hne]; [exists t'; by rewrite lookup_insert_eq|].
      rewrite lookup_insert_ne by done. unfold updQ in Hx. case_decide as D; [subst b|by apply (so_ready _ _ H b)].
      apply elem_of_app in Hx as [Hx|Hx]; [by apply (so_ready _ _ H (band_of t))|]. by apply list_elem_of_singleton in Hx.
    + apply H.
    + intros c x Hx. assert (x <> ta) as Hne by (intros ->; by apply (Hc c)).
      destruct (so_running _ _ H c x Hx) as (Hk & Hlx & Hnx). rewrite lookup_insert_ne by done.
      split; [done|]. split; [by apply Hd|]. intros b Hb. unfold updQ. case_decide as D; [subst b|by apply Hnx].
      intros [Hx'|Hx']%elem_of_app; [by apply (Hnx (band_of t))|]. by apply list_elem_of_singleton in Hx'.
    + apply (so_once _ _ H).
  - split; try done. intros x Hx. cbn. by rewrite lookup_insert_ne.
Qed.

Lemma current_init s c t : current_task (sched_init s) !! c <> Some (Some t).
Proof.
  unfold sched_init. cbn [current_task]. intros Hx. by apply lookup_replicate in Hx as [? _].
Qed.

(** Nothing about the runnable tasks changes when an unused node appears. *)
Lemma sched_ok_node s Q u : sched_ok s Q -> links s !! u = None -> forall h, (forall t k, heap s !! t = Some k -> h !! t = Some k) ->
  sched_ok (with_links (with_heap s h) (list_init (links s) u)) Q.
Proof.
  intros H Hu h Hh. assert (forall v, is_Some (links s !! v) -> list_init (links s) u !! v = links s !! v) as Hf.
  { intros v [x Hv]. unfold list_init. rewrite lookup_insert_ne; [done|]. intros ->. congruence. }
  split; cbn; try apply H.
  - split; [|apply (so_rings _ _ H)]. intros b Hb. pose proof (ro_ring _ _ (so_rings _ _ H) b Hb) as R.
    eapply ring_frame; [exact R|]. intros v Hv. apply Hf. by eapply ring_members.
  - intros b t Hb Ht. destruct (so_ready _ _ H b t Hb Ht) as (k & Hk & Sk). exists k. auto.
  - intros c t Ht. destruct (so_running _ _ H c t Ht) as ((k & Hk & Sk) & Hl & Hn).
    split; [exists k; auto|]. split; [by rewrite Hf | done].
Qed.

Definition task_ex : task := set_state zero_task TASK_READY.
(** A booted scheduler with the record of one task that is not yet runnable. *)
Definition one_task : sys :=
  let s := sched_init (sys_ex ∅ ∅ []) in
  with_links (with_heap s {[0x1000 := task_ex]}) (list_init (links s) (RqNode 0x1000)).

Lemma one_task_ok : sched_ok one_task (fun _ => []).
Proof.
  apply (sched_ok_node (sched_init (sys_ex ∅ ∅ []))); [apply sched_init_ok | by vm_compute |].
  intros t k. unfold sched_init, sys_ex. cbn [heap]. by rewrite lookup_empty.
Qed.

Lemma one_task_queued : exists s, enqueue one_task 0x1000 = Done s /\ sched_ok s (updQ (fun _ => []) 0 [0x1000]) /\
  only_queued one_task s 0x1000.
Proof.
  destruct (enqueue_ok one_task (fun _ => []) 0x1000 task_ex one_task_ok) as (s & t' & E & H & O & _).
  - apply lookup_insert_eq.
  - done.
  - apply (ring_members _ (RqNode 0x1000) []); [apply list_init_ring | apply list_elem_of_here].
  - intros b _ Hx. by apply elem_of_nil in Hx.
  - intros c. apply current_init.
  - exists s. split; [done|]. split; [exact H | done].
Qed.


(** ** Exit *)

(** A task whose queue links are NULL cannot be dequeued. *)
Lemma exit_faults s w cpu ta code : links s !! RqNode ta = Some (mk_lh None None) -> task_exit s w cpu (Some ta) code = Fault.
Proof.
  intros Hl. unfold task_exit, deref. destruct (heap s !! ta) as [t|] eqn:E; [|done]. cbn [faulting mbind outcome_bind].
  set (s1 := put s ta _). assert (links s1 !! RqNode ta = Some (mk_lh None None)) as Hl1 by done. clearbody s1.
  assert (forall s2, links s2 = links s1 -> dequeue s2 ta = Fault) as Hd.
  { intros s2 E2. unfold dequeue. rewrite E2. by rewrite (list_del_null _ _ Hl1). }
  unfold release_neri. destruct (negb (neri_ready s1)); cbn [mbind outcome_bind]; [by rewrite Hd|].
  unfold deref. destruct (heap s1 !! ta) as [t1|]; [|done]. cbn [faulting mbind outcome_bind].
  destruct (neri_sched_release _ _ _) as [ps|]; [|done]. cbn [faulting mbind outcome_bind]. by rewrite Hd.
Qed.

(** Exit of the running task: [schedule] unlinks the task it dispatches, and
    [task_exit] unlinks its argument unconditionally, so a task that calls exit
    while it runs makes the kernel follow the NULL links of its own [rq_node]. *)
Theorem exit_of_running_task_faults s Q w cpu s' prev t code : sched_ok s Q -> 0 <= cpu < 256 ->
  tick_works s w -> stack_intact s (current s cpu) ->
  schedule s w cpu = Done (s', Some (prev, t)) -> task_exit s' w cpu (Some t) code = Fault.
Proof.
  intros H Hc Hw Hst E. destruct (schedule_ok s Q w cpu H Hc Hw Hst) as [(_ & _ & E')|(s2 & b & na & l1 & l2 & h & _ & _ & _ & _ & _ & E' & _ & Hl & _)].
  - congruence.
  - rewrite E in E'. injection E' as -> E'. case_bool_decide; [done|]. injection E' as _ ->. by apply exit_faults.
Qed.

Lemma exit_of_running_task_faults_witness : exists s s', enqueue one_task 0x1000 = Done s /\
  schedule s hw_ex 3 = Done (s', Some (None, 0x1000)) /\ task_exit s' hw_ex 3 (Some 0x1000) 0 = Fault.
Proof.
  destruct one_task_queued as (s & E & H & O).
  assert (current s 3 = None) as Ec.
  { destruct (current s 3) as [t|] eqn:Ec; [|done]. apply current_lookup in Ec. rewrite (oq_cur _ _ _ O) in Ec.
    by apply current_init in Ec. }
  assert (tick_works s hw_ex) as Hw by (unfold tick_works, tick_neri, neri_ready; rewrite (oq_nr _ _ _ O); discriminate).
  assert (stack_intact s (current s 3)) as Hst by (intros pa p Ex; congruence).
  destruct (schedule_ok s _ hw_ex 3 H ltac:(lia) Hw Hst) as [(E0 & _)|(s' & b & na & l1 & l2 & h & Hb & EQ & _ & _ & _ & Es & _)].
  - rewrite Ec in E0. specialize (E0 0%nat ltac:(lia)). simpl in E0. discriminate E0.
  - rewrite Ec in EQ. simpl in EQ. unfold updQ in EQ. case_decide; [|by destruct l1].
    assert (na = 0x1000) as -> by (destruct l1 as [|x [|y l1]]; [by injection EQ | discriminate EQ | discriminate EQ]).
    rewrite Ec in Es. exists s, s'. split; [exact E|]. split; [exact Es|].
    exact (exit_of_running_task_faults s _ hw_ex 3 s' None 0x1000 0 H ltac:(lia) Hw Hst Es).
Defined.

(** ** The timer *)

Fixpoint ticks (s : sys) (w : hw) (cpu : Z) (n : nat) : outcome (sys * option (option Z * Z)) :=
  match n with
  | O => Done (s, None)
  | S n' => '(s1, sw) ← sched_tick s w cpu; match sw with None => ticks s1 w cpu n' | Some x => Done (s1, Some x) end
  end.

Fixpoint charged (t : task) (n : nat) : task :=
  match n with O => t | S n' => charged (set_timeslice (charge t) (timeslice_ns t - TICK_NS)) n' end.

Lemma current_put s ta t c : current (put s ta t) c = current s c.
Proof. done. Qed.

Lemma put_put s ta t t' : put (put s ta t) ta t' = put s ta t'.
Proof. unfold put, with_heap. simpl. by rewrite insert_insert_eq. Qed.

Lemma ticks_charge s w cpu ta n : forall t, current s cpu = Some ta -> Z.of_nat n * TICK_NS < timeslice_ns t ->
  ticks (put s ta t) w cpu n = Done (put s ta (charged t n), None).
Proof.
  induction n as [|n IH]; intros t Hc Ht; [done|]. cbn [ticks charged]. unfold sched_tick. rewrite current_put, Hc.
  unfold deref. cbn [heap put with_heap]. rewrite lookup_insert_eq. cbn [faulting mbind outcome_bind].
  assert (timeslice_ns (charge t) = timeslice_ns t) as -> by done. unfold TICK_NS in *.
  rewrite (proj2 (Z.ltb_lt _ _)) by lia. cbn [mbind outcome_bind]. fold (put s ta t). rewrite put_put.
  apply IH; [done|]. cbn. unfold TICK_NS. lia.
Qed.

(** Time slices: a task dispatched with its 4 ms slice runs for four ticks of 1 ms:
    the first three only charge it, the fourth calls [schedule]; each tick adds
    1 ms to its CPU time and to its grant. *)
Theorem timeslice_is_four_ticks s w cpu ta t : current s cpu = Some ta -> heap s !! ta = Some (dispatched t cpu) ->
  0 <= cpu_time_ns t -> cpu_time_ns t + 4 * TICK_NS < 2 ^ 64 ->
  exists t3 t4, ticks s w cpu 3 = Done (put s ta t3, None) /\ cpu_time_ns t3 = cpu_time_ns t + 3 * TICK_NS /\
    timeslice_ns t3 = TICK_NS /\
    sched_tick (put s ta t3) w cpu = schedule (put s ta t4) w cpu /\
    cpu_time_ns t4 = cpu_time_ns t + 4 * TICK_NS /\ timeslice_ns t4 = 0.
Proof.
  intros Hc Ht H0 Hb. set (t0 := dispatched t cpu) in *. exists (charged t0 3), (set_timeslice (charge (charged t0 3)) 0).
  assert (put s ta t0 = s) as Ep by (unfold put, with_heap; rewrite insert_id by done; by destruct s).
  split; [rewrite <- Ep at 1; by apply ticks_charge|].
  assert (cpu_time_ns (charged t0 3) = cpu_time_ns t + 3 * TICK_NS) as E3.
  { cbn. unfold TICK_NS in *. rewrite (u64_small (cpu_time_ns t + 1000000)) by lia.
    rewrite (u64_small (cpu_time_ns t + 1000000 + 1000000)) by lia. rewrite u64_small; lia. }
  split; [done|]. split; [done|]. split; [|split; [|done]].
  - unfold sched_tick. rewrite current_put, Hc. unfold deref. cbn [heap put with_heap]. rewrite lookup_insert_eq.
    cbn [faulting mbind outcome_bind]. change (timeslice_ns (charge (charged t0 3))) with TICK_NS.
    rewrite (proj2 (Z.ltb_ge _ _)) by lia. fold (put s ta (charged t0 3)). by rewrite put_put.
  - cbn [cpu_time_ns set_timeslice charge]. rewrite E3. unfold TICK_NS in *. rewrite u64_small by lia. lia.
Qed.

Lemma timeslice_is_four_ticks_witness :
  let s := sys_ex {[0x1000 := dispatched task_ex 0]} ∅ [Some 0x1000] in
  exists t3, ticks s hw_ex 0 3 = Done (put s 0x1000 t3, None).
Proof.
  destruct (timeslice_is_four_ticks (sys_ex {[0x1000 := dispatched task_ex 0]} ∅ [Some 0x1000]) hw_ex 0 0x1000 task_ex)
    as (t3 & _ & E & _).
  - reflexivity.
  - apply lookup_insert_eq.
  - discriminate.
  - reflexivity.
  - exists t3. exact E.
Defined.

(** A higher priority is charged more virtual runtime for the same time, not less. *)
Theorem weights_inverted p q t t' : 0 <= p < q -> q <= 15 ->
  weight t = nth (Z.to_nat p) sched_weight 0 -> weight t' = nth (Z.to_nat q) sched_weight 0 ->
  calc_vruntime_delta t TICK_NS < calc_vruntime_delta t' TICK_NS.
Proof.
  intros Hp Hq E E'. unfold calc_vruntime_delta. rewrite E, E'.
  assert (forall i j, (i < j <= 15)%nat ->
    (let d k := u64 (TICK_NS * 56483) / (if truthy (nth k sched_weight 0) then nth k sched_weight 0 else 56483) in d i <? d j) = true) as G.
  { intros i j Hij. do 16 (destruct j as [|j]; [do 16 (destruct i as [|i]; [try lia; vm_compute; reflexivity|]); lia|]). lia. }
  apply Z.ltb_lt. apply (G (Z.to_nat p) (Z.to_nat q)). lia.
Qed.

End SchedProof.
