(* ===== verification/KStack.v ===== *)
(** * Kernel stacks beside the heap

    A task is a slab object and a stack of four pages.  [stack_owns] is the page allocator
    as the heap sees it while the stacks of [S] are held too, with the contents of the
    stacks fixed: it is an instance of [PageAlloc], so everything proved of the heap leaves
    the stacks alone.  [mem_ok] is the state of memory the scheduler relies on; the lemmas
    are what it gets from [kzalloc], [kfree], [pmm_alloc_pages] and its own stores. *)

From S2P Require Import Prelude Buddy Pmm PmmLists PmmInv PmmSpec PageAlloc Vmm VmmSlab.
Import Buddy Pmm PmmLists PmmInv PmmSpec PageAlloc Vmm VmmSlab.

Module KStack.

(** The words of the stack at physical address [k]. *)
Definition in_stack (k a : Z) : Prop := va k <= a < va k + bsize 2.

(** ** Blocks in use *)

Section blocks.
Context (s : pmm) (F : lists) (A : gset block) (H : Inv s F A).

Lemma stack_block_ok b : b ∈ A -> ok_pa b.1.
Proof. intros Hb. by apply (wfb_ok_pa _ _ _ _ H b), (Al_wfb _ _ _ _ H). Qed.

Lemma block_managed b a : b ∈ A -> va b.1 <= a < va b.1 + bsize b.2 -> managed s a.
Proof.
  intros Hb Ha. pose proof (stack_block_ok b Hb) as Hok. destruct (Al_wfb _ _ _ _ H b Hb) as (_ & _ & r & Hr & H1 & H2).
  apply elem_ranges in Hr as (i & Hi & ->). rewrite (va_ok _ Hok) in Ha. simpl in *. exists i. split; [done | lia].
Qed.

Lemma blocks_apart b b' a : b ∈ A -> b' ∈ A -> va b.1 <= a < va b.1 + bsize b.2 -> va b'.1 <= a < va b'.1 + bsize b'.2 -> b = b'.
Proof.
  intros Hb Hb'. rewrite (va_ok _ (stack_block_ok b Hb)), (va_ok _ (stack_block_ok b' Hb')). intros ? ?.
  apply (core_disj _ _ _ _ _ (st_core _ _ _ _ H)); [by right | by right|]. unfold overlap. lia.
Qed.
End blocks.

(** ** The page allocator with stacks held *)

Definition stack_owns (S : gset Z) (M : Z -> Z) (s : pmm) (P : gset Z) : Prop :=
  exists F A, Inv s F A /\ (forall pa, pa ∈ P -> (pa, 0%nat) ∈ A) /\ (forall k, k ∈ S -> (k, 2%nat) ∈ A) /\
    (forall k a, k ∈ S -> in_stack k a -> mread (mem s) a = M a).

Lemma stack_buddy S M s P : stack_owns S M s P -> buddy_owns s P.
Proof. intros (F & A & H & HP & _). by exists F, A. Qed.

(** A word of a page the heap holds is in no stack. *)
Lemma page_not_stack s F A pa k a : Inv s F A -> (pa, 0%nat) ∈ A -> (k, 2%nat) ∈ A -> in_page pa a -> ~ in_stack k a.
Proof. intros H Hp Hk Ha Hs. by pose proof (blocks_apart s F A H (pa, 0%nat) (k, 2%nat) a Hp Hk Ha Hs). Qed.

#[export] Instance stack_page_alloc S M : PageAlloc (stack_owns S M).
Proof.
  split.
  - intros s P pa H. apply (owns_page s P pa (stack_buddy _ _ _ _ H)).
  - intros s P pa a H. apply (owns_managed s P pa a (stack_buddy _ _ _ _ H)).
  - intros s P Q (F & A & H & HP & HR) HQ. exists F, A. split; [done|]. split; [set_solver | done].
  - intros s P s' pa (F & A & H & HP & HS & HM) E. unfold pmm_alloc_page in E.
    destruct (alloc_pages_ok s F A 0 H ltac:(done)) as [[E' _]|(F' & H' & Hs & _ & Hn & K)]; rewrite E in *; simpl in *.
    + injection E' as -> ->. by left.
    + right. assert (ok_pa pa) as [Hpa _] by (apply (stack_block_ok s' F' _ H' (pa, 0%nat)); set_solver).
      split; [lia|]. split; [intros Hx; by apply (Hn 0%nat), HP|]. split; [|by eapply keeps_agree].
      exists F', (A ∪ {[(pa, 0%nat)]}). split; [done|]. split; [set_solver|]. split; [set_solver|].
      intros k a Hk Ha. rewrite (K a); [by apply (HM k)|]. left. exists (k, 2%nat). split; [by apply HS | exact Ha].
  - intros s P pa (F & A & H & HP & HS & HM) Hpa. unfold pmm_free_page.
    destruct (free_pages_ok s F A pa 0 H ltac:(done) (HP pa Hpa)) as (F' & H' & Hs & K).
    assert (forall q, q ∈ P ∖ {[pa]} -> (q, 0%nat) ∈ A ∖ {[(pa, Z.to_nat 0)]}) as HP' by set_solver.
    assert (forall k, k ∈ S -> (k, 2%nat) ∈ A ∖ {[(pa, Z.to_nat 0)]}) as HS' by (intros k Hk; specialize (HS k Hk); set_solver).
    split; [|by eapply keeps_agree]. exists F', (A ∖ {[(pa, Z.to_nat 0)]}). do 3 (split; [done|]).
    intros k a Hk Ha. rewrite (K a); [by apply (HM k)|]. left. exists (k, 2%nat). split; [by apply HS' | exact Ha].
  - intros s P pa a v (F & A & H & HP & HS & HM) Hpa Ha. exists F, A. split; [|do 2 (split; [done|])].
    + apply Inv_write; [done|]. left. exists (pa, 0%nat). split; [by apply HP | exact Ha].
    + intros k b Hk Hb. simpl. rewrite mread_mwrite_ne; [by apply (HM k)|]. intros <-.
      by apply (page_not_stack s F A pa k a H (HP pa Hpa) (HS k Hk)).
  - intros s P a v (F & A & H & HP & HS & HM) Ha. exists F, A. split; [apply Inv_write; [done | by right]|].
    do 2 (split; [done|]). intros k b Hk Hb. simpl. rewrite mread_mwrite_ne; [by apply (HM k)|]. intros <-.
    apply Ha. by apply (block_managed s F A H (k, 2%nat)); [apply HS|].
Qed.

(** ** The heap over a changed page allocator *)

Lemma heap_frame owns owns' `{!PageAlloc owns} s P K L U p' : heap owns s P K L U -> owns' p' P -> agree P (pm s) p' ->
  heap owns' (with_pm s p') P K L U /\ same_objects U s (with_pm s p').
Proof.
  intros H Ho Ha. assert (forall j h a, is_chunk K j h -> h <= a < h + chunk j -> mread (mem p') a = mread (mem (pm s)) a) as Hm.
  { intros j h a Hc Hr. destruct (chunk_page owns s P K L U H j h Hc) as (q & Hq & _ & _ & _ & _ & ? & ?).
    apply (ag_pages _ _ _ Ha q); [done | unfold in_page; lia]. }
  assert (forall j h, is_chunk K j h -> mread (mem p') h = mread (mem (pm s)) h) as Hm0.
  { intros j h Hc. apply (Hm j h h Hc). destruct (chunk_addr owns s P K L U H j h Hc) as (_ & _ & Hj).
    destruct (chunk_range j Hj). lia. }
  split; [split; try (by apply H)|].
  - done.
  - intros j Hj. eapply chain_frame; [|by apply (h_chain _ _ _ _ _ _ H)]. intros x Hx. simpl. apply (Hm0 j).
    by apply (h_free _ _ _ _ _ _ H).
  - intros x j Hx. destruct (h_live _ _ _ _ _ _ H x j Hx) as [Hc E]. split; [done|]. simpl. by rewrite (Hm0 j).
  - intros h j x Hh Hx. apply (Hm j h); [by apply (h_live _ _ _ _ _ _ H) | done].
Qed.

(** Writing the payload of an object in use disturbs no other. *)
Lemma heap_payload owns `{!PageAlloc owns} s P K L U h i a v : heap owns s P K L U -> U !! h = Some i -> h + 8 <= a < h + chunk i ->
  heap owns (wr s a v) P K L U /\ same_objects (delete h U) s (wr s a v).
Proof.
  intros H Hu Ha. destruct (h_live _ _ _ _ _ _ H h i Hu) as [Hc Hr].
  destruct (chunk_addr owns s P K L U H i h Hc) as (_ & _ & Hi).
  assert (h ∉ L i) as Hl by (intros Hx; destruct (h_free _ _ _ _ _ _ H i h Hi Hx); congruence).
  destruct (heap_scratch owns s P K L _ (drop_live owns s P K L U h H) i h a v Hc Hl) as [[Ow Sz Pg Ch Nd Fr Lv] Sm];
    [apply lookup_delete_eq | lia|].
  split; [|done]. split; try done.
  - intros j x Hj Hx. split; [by apply Fr | by apply (h_free _ _ _ _ _ _ H j)].
  - intros x j Hx. destruct (decide (x = h)) as [->|Hne]; [|apply Lv; by rewrite lookup_delete_ne].
    assert (j = i) as -> by congruence. split; [done|]. simpl. rewrite mread_mwrite_ne by lia. done.
Qed.
(** ** Memory as the scheduler relies on it *)

(** [S] are the stacks held, [U] the heap objects in use. *)
Definition mem_ok (v : vmm) (S : gset Z) (U : gmap Z nat) : Prop :=
  exists P K L, heap (stack_owns S (mread (mem (pm v)))) v P K L U.
Definition stacks_same (S : gset Z) (v v' : vmm) : Prop := forall k a, k ∈ S -> in_stack k a -> rd v' a = rd v a.

Lemma stacks_same_trans S v1 v2 v3 : stacks_same S v1 v2 -> stacks_same S v2 v3 -> stacks_same S v1 v3.
Proof. intros H1 H2 k a Hk Ha. rewrite (H2 k a Hk Ha). by apply (H1 k). Qed.

Lemma agree_refl P p : agree P p p.
Proof. by split. Qed.

(** What was proved with the contents of the stacks fixed. *)
Lemma heap_mem_ok S v v' P K L U : heap (stack_owns S (mread (mem (pm v)))) v' P K L U -> mem_ok v' S U /\ stacks_same S v v'.
Proof.
  intros H. destruct (h_owns _ _ _ _ _ _ H) as (F & A & Hi & HP & HS & HM). split.
  - exists P, K, L. destruct (heap_frame _ (stack_owns S (mread (mem (pm v')))) v' P K L U (pm v') H) as [H' _].
    + by exists F, A.
    + apply agree_refl.
    + by destruct v'.
  - intros k a Hk Ha. by apply (HM k).
Qed.

Lemma zeros_ok S M P K L U h i n : forall v a, heap (stack_owns S M) v P K L U -> U !! h = Some i -> h + 8 <= a ->
  a + 8 * Z.of_nat n <= h + chunk i ->
  exists v', store_zeros v a n = Done v' /\ heap (stack_owns S M) v' P K L U /\ same_objects (delete h U) v v' /\
    (forall b, b < a -> rd v' b = rd v b) /\ (forall j, 0 <= j < Z.of_nat n -> rd v' (a + 8 * j) = 0).
Proof.
  induction n as [|n IH]; intros v a H Hu Hlo Hhi; cbn [store_zeros].
  { exists v. split; [done|]. split; [done|]. split; [by intros ? ? ? ? ?|]. split; [done|]. intros j Hj. lia. }
  destruct (chunk_addr _ v P K L U H i h) as (Hc1 & Hc2 & Hi); [by apply (h_live _ _ _ _ _ _ H)|].
  rewrite store_direct by lia. cbn [mbind outcome_bind].
  destruct (heap_payload _ v P K L U h i a 0 H Hu ltac:(lia)) as [H1 S1].
  assert (rd (wr v a 0) a = 0) as Ea by apply mread_mwrite_eq.
  assert (forall b, b < a -> rd (wr v a 0) b = rd v b) as Eb by (intros b Hb; apply mread_mwrite_ne; lia).
  destruct (decide (n = 0%nat)) as [->|].
  { exists (wr v a 0). split; [done|]. split; [done|]. split; [done|]. split; [done|]. intros j Hj.
    replace (a + 8 * j) with a by lia. done. }
  rewrite u64_small by (unfold KERNEL_VIRT_BASE in *; lia).
  destruct (IH _ (a + 8) H1 Hu ltac:(lia) ltac:(lia)) as (v' & E & H2 & S2 & B2 & Z2).
  exists v'. split; [done|]. split; [done|]. split; [by eapply same_objects_trans|]. split.
  - intros b Hb. rewrite B2 by lia. by apply Eb.
  - intros j Hj. destruct (decide (j = 0)) as [->|]; [rewrite B2 by lia; by rewrite Z.mul_0_r, Z.add_0_r|].
    replace (a + 8 * j) with (a + 8 + 8 * (j - 1)) by lia. apply Z2. lia.
Qed.

(** [kzalloc] of a small object of whole words. *)
Lemma kzalloc_ok v S U words : mem_ok v S U -> 0 < words <= 256 ->
  kzalloc v (8 * words) = Done (v, 0) \/
  exists v' h i, kzalloc v (8 * words) = Done (v', h + 8) /\ mem_ok v' S (<[h := i]> U) /\ U !! h = None /\
    KERNEL_VIRT_BASE < h /\ h + 8 + 8 * words <= 2 ^ 64 /\ stacks_same S v v' /\ same_objects U v v' /\
    (forall j, 0 <= j < words -> rd v' (h + 8 + 8 * j) = 0).
Proof.
  intros (P & K & L & H) Hw. unfold kzalloc, kmalloc.
  destruct (find_slab_ok _ v P K L U (8 * words) H ltac:(lia)) as (i & -> & Hi & Hf & _).
  destruct (slab_alloc_ok _ v P K L U i H Hi) as [->|(v1 & h & P' & K' & L' & -> & H1 & Hc & Hu & _ & S1 & Hlo & Hhi)]; [by left|].
  right. cbn [mbind outcome_bind]. rewrite (proj2 (Z.eqb_neq _ _)) by lia. unfold memset0.
  replace (8 * words / 8) with words by zdm. replace ((8 * words) mod 8) with 0 by zdm. cbn [Z.eqb].
  destruct (chunk_addr _ v1 P' K' L' _ H1 i h Hc) as (Hb & _).
  destruct (zeros_ok S _ P' K' L' _ h i (Z.to_nat words) v1 (h + 8) H1) as (v' & -> & H2 & S2 & _ & Z2);
    [apply lookup_insert_eq | lia | lia|].
  cbn [mbind outcome_bind]. destruct (heap_mem_ok S v v' P' K' L' _ H2) as [Hm Hs].
  exists v', h, i. split; [done|]. split; [done|]. split; [done|]. split; [done|]. split; [lia|]. split; [done|].
  split; [|intros j Hj; apply Z2; lia].
  eapply same_objects_trans; [exact S1|]. by rewrite delete_insert_id in S2.
Qed.

Lemma kfree_ok v S U h i : mem_ok v S (<[h := i]> U) -> U !! h = None ->
  exists v', kfree v (h + 8) = Done v' /\ mem_ok v' S U /\ stacks_same S v v' /\ same_objects U v v'.
Proof.
  intros (P & K & L & H) Hu. destruct (kfree_small _ v P K L _ h i H (lookup_insert_eq _ _ _)) as (v' & E & H' & So).
  rewrite delete_insert_id in H', So by done. destruct (heap_mem_ok S v v' _ _ _ _ H') as [Hm Hs]. by exists v'.
Qed.

(** A new stack. *)
Lemma stack_alloc v S U : mem_ok v S U ->
  (exists p, pmm_alloc_pages (pm v) 2 = (p, 0) /\ p = pm v) \/
  exists p k, pmm_alloc_pages (pm v) 2 = (p, k) /\ ok_pa k /\ k <= 2 ^ 31 - bsize 2 /\ k ∉ S /\
    mem_ok (with_pm v p) ({[k]} ∪ S) U /\ stacks_same S v (with_pm v p) /\ same_objects U v (with_pm v p).
Proof.
  intros (P & K & L & H). destruct (h_owns _ _ _ _ _ _ H) as (F & A & Hi & HP & HS & HM).
  destruct (alloc_pages_ok (pm v) F A 2 Hi ltac:(done)) as [[E _]|(F' & H' & Hs & _ & Hn & Kp)].
  { left. exists (pm v). by rewrite E. }
  right. destruct (pmm_alloc_pages (pm v) 2) as [p k]. simpl in *. exists p, k. split; [done|].
  assert ((k, 2%nat) ∈ A ∪ {[(k, 2%nat)]}) as Hk by set_solver.
  split; [apply (stack_block_ok p F' _ H' _ Hk)|]. split.
  { pose proof (Al_wfb _ _ _ _ H' _ Hk) as (_ & _ & r & Hr & _ & H2). pose proof (st_ok _ _ _ _ H') as Hok.
    rewrite Forall_forall in Hok. destruct (Hok r Hr) as (_ & _ & _ & ?). simpl in H2. lia. }
  split; [intros Hx; by apply (Hn 2%nat), HS|].
  destruct (heap_frame _ (stack_owns ({[k]} ∪ S) (mread (mem p))) v P K L U p H) as [H2 S2].
  - exists F', (A ∪ {[(k, 2%nat)]}). split; [done|]. split; [set_solver|]. split; [set_solver | done].
  - by eapply keeps_agree.
  - split; [by exists P, K, L|]. split; [|done]. intros x a Hx Ha. apply Kp. left. exists (x, 2%nat).
    split; [by apply HS | exact Ha].
Qed.

(** A store into a stack that is held. *)
(** The heap as [vmm_init] leaves it over a well-formed page allocator. *)
Lemma fresh_mem_ok v F A pml4 : Inv (pm v) F A -> mem_ok (vmm_init v pml4) ∅ ∅.
Proof.
  intros H. exists ∅, ∅, (fun _ => []). split.
  - exists F, A. split; [exact H|]. split; [set_solver|]. split; set_solver.
  - reflexivity.
  - done.
  - intros i Hi. do 8 (destruct i as [|i]; [done|]). lia.
  - intros. apply NoDup_nil_2.
  - intros i h _ Hh. by apply elem_of_nil in Hh.
  - intros h i. by rewrite lookup_empty.
Qed.

(** Giving a stack back. *)
Lemma stack_free v S U k : mem_ok v S U -> k ∈ S ->
  let v' := with_pm v (pmm_free_pages (pm v) k 2) in
  mem_ok v' (S ∖ {[k]}) U /\ stacks_same (S ∖ {[k]}) v v' /\ same_objects U v v'.
Proof.
  intros (P & K & L & H) Hk v'. destruct (h_owns _ _ _ _ _ _ H) as (F & A & Hi & HP & HS & HM).
  destruct (free_pages_ok (pm v) F A k 2 Hi ltac:(done) (HS k Hk)) as (F' & H' & Hs & Kp).
  change (Z.to_nat 2) with 2%nat in *. set (p := pmm_free_pages (pm v) k 2) in *.
  assert (forall q, q ∈ P -> (q, 0%nat) ∈ A ∖ {[(k, 2%nat)]}) as HP' by (intros q Hq; specialize (HP q Hq); set_solver).
  assert (forall x, x ∈ S ∖ {[k]} -> (x, 2%nat) ∈ A ∖ {[(k, 2%nat)]}) as HS'.
  { intros x [Hx Hne]%elem_of_difference. specialize (HS x Hx). set_solver. }
  destruct (heap_frame _ (stack_owns (S ∖ {[k]}) (mread (mem p))) v P K L U p H) as [H2 S2].
  - exists F', (A ∖ {[(k, 2%nat)]}). done.
  - by eapply keeps_agree.
  - split; [by exists P, K, L|]. split; [|done]. intros x a Hx Ha. apply Kp. left. exists (x, 2%nat). split; [by apply HS' | exact Ha].
Qed.

Lemma stack_store v S U k a x : mem_ok v S U -> k ∈ S -> in_stack k a ->
  store v a x = Done (wr v a x) /\ mem_ok (wr v a x) S U /\ stacks_same (S ∖ {[k]}) v (wr v a x) /\ same_objects U v (wr v a x).
Proof.
  intros (P & K & L & H) Hk Ha. destruct (h_owns _ _ _ _ _ _ H) as (F & A & Hi & HP & HS & HM).
  pose proof (stack_block_ok _ F A Hi _ (HS k Hk)) as Hok. simpl in Hok. pose proof Ha as Hr. unfold in_stack in Hr. rewrite va_ok in Hr by done.
  split; [apply store_direct; destruct Hok; lia|].
  destruct (heap_frame _ (stack_owns S (mread (mem (pm (wr v a x))))) v P K L U (pm (wr v a x)) H) as [H2 S2].
  - exists F, A. split; [|done]. apply Inv_write; [done|]. left. exists (k, 2%nat). split; [by apply HS | exact Ha].
  - split; [| |done].
    + intros pa b Hpa Hb. apply mread_mwrite_ne. intros <-. by apply (page_not_stack _ F A pa k a Hi (HP pa Hpa) (HS k Hk)).
    + intros b Hb. apply mread_mwrite_ne. intros <-. apply Hb. by apply (block_managed _ F A Hi (k, 2%nat)); [apply HS|].
  - split; [by exists P, K, L|]. split; [|done]. intros j b [Hj Hne]%elem_of_difference Hb. apply mread_mwrite_ne. intros <-.
    pose proof (blocks_apart _ F A Hi (k, 2%nat) (j, 2%nat) a (HS k Hk) (HS j Hj) Ha Hb) as [= ->]. set_solver.
Qed.

Lemma stacks_sub S S' v v' : S' ⊆ S -> stacks_same S v v' -> stacks_same S' v v'.
Proof. intros Hs H k a Hk. apply (H k). set_solver. Qed.

(** The canary and the frame [task_create] puts on a new stack. *)
Lemma stack_setup v S U k arg : mem_ok v S U -> k ∈ S -> ok_pa k -> k <= 2 ^ 31 - bsize 2 ->
  let top := u64 (va k + 4 * PAGE_SIZE) in
  exists v1 v2 v3, kstack_canary_write v (va k) = Done v1 /\ store v1 (u64 (top - 8)) arg = Done v2 /\
    store v2 (u64 (top - 16)) 0 = Done v3 /\ mem_ok v3 S U /\ stacks_same (S ∖ {[k]}) v v3 /\ same_objects U v v3 /\
    rd v3 (va k) = NEKROS_STACK_CANARY /\ rd v3 (u64 (top - 8)) = arg /\ rd v3 (u64 (top - 16)) = 0.
Proof.
  intros H Hk Hok Hhi top. pose proof (va_ok k Hok) as Ev. destruct Hok as [Hr _]. change (bsize 2) with 16384 in *.
  assert (forall d, 0 < d <= 16384 -> u64 (top - d) = va k + 16384 - d) as Et.
  { intros d Hd. unfold top, u64, PAGE_SIZE. rewrite Zminus_mod_idemp_l, Ev. unfold KERNEL_VIRT_BASE. rewrite Z.mod_small; lia. }
  rewrite !Et by lia. unfold kstack_canary_write. rewrite (proj2 (Z.eqb_neq _ _)) by (rewrite Ev; unfold KERNEL_VIRT_BASE; lia).
  assert (forall d, 0 <= d < 16384 -> in_stack k (va k + d)) as Hin by (intros d Hd; unfold in_stack; change (bsize 2) with 16384; lia).
  destruct (stack_store v S U k (va k) NEKROS_STACK_CANARY H Hk) as (E1 & H1 & S1 & O1); [unfold in_stack; change (bsize 2) with 16384; lia|].
  destruct (stack_store _ S U k (va k + 16384 - 8) arg H1 Hk) as (E2 & H2 & S2 & O2); [rewrite <- Z.add_sub_assoc; apply Hin; lia|].
  destruct (stack_store _ S U k (va k + 16384 - 16) 0 H2 Hk) as (E3 & H3 & S3 & O3); [rewrite <- Z.add_sub_assoc; apply Hin; lia|].
  eexists _, _, _. split; [exact E1|]. split; [exact E2|]. split; [exact E3|]. split; [done|].
  split; [eapply stacks_same_trans; [exact S1|]; eapply stacks_same_trans; [exact S2 | exact S3]|].
  split; [eapply same_objects_trans; [exact O1|]; eapply same_objects_trans; [exact O2 | exact O3]|].
  unfold rd, wr. cbn [pm with_pm mem with_mem]. split; [|split; [|apply mread_mwrite_eq]].
  - rewrite !mread_mwrite_ne by lia. apply mread_mwrite_eq.
  - rewrite mread_mwrite_ne by lia. apply mread_mwrite_eq.
Qed.

End KStack.
