(* ===== verification/SchedCreate.v ===== *)
(** * Creating a task

    [task_create] over the heap, the page allocator, the run queues and the resource
    manager together.  [tasks_ok] ties them: every task is a heap object in use and, until it
    exits, has a stack of its own with an intact canary; the all-tasks list and the pool's
    list link tasks. *)

From S2P Require Import Prelude Buddy Pmm PmmLists PmmInv PageAlloc Vmm VmmSlab KStack ListHead Float Neri Sched SchedProof.
Import Buddy Pmm PageAlloc Vmm KStack ListHead Neri Sched SchedProof.

Module SchedCreate.

Record tasks_ok (s : sys) (Q : queues) (T G : list Z) (S : gset Z) (U : gmap Z nat) : Prop := {
  to_sched : sched_ok s Q;
  to_mem : mem_ok (vm s) S U;
  to_live : forall ta, is_Some (heap s !! ta) -> is_Some (U !! (ta - 8));
  to_nodes : forall ta, is_Some (links s !! RqNode ta) \/ is_Some (links s !! AllNode ta) -> is_Some (heap s !! ta);
  to_all : ring (links s) AllHead (AllNode <$> T);
  to_pool : ring (admitted (n_ps (nr s))) AdmittedHead (ProcNode <$> G);
  to_admitted : forall ta, ta ∈ G -> is_Some (heap s !! ta);
  to_stacks : forall ta t, heap s !! ta = Some t -> state t <> TASK_ZOMBIE ->
    kstack_pa t ∈ S /\ rd (vm s) (phys_to_virt (kstack_pa t)) = NEKROS_STACK_CANARY;
  to_own : forall ta ta' t t', heap s !! ta = Some t -> heap s !! ta' = Some t' ->
    state t <> TASK_ZOMBIE -> state t' <> TASK_ZOMBIE -> kstack_pa t = kstack_pa t' -> ta = ta'
}.

(** ** What the invariant of the queues looks at *)

Lemma sched_ok_ext s s' Q : sched_ok s Q -> links s' = links s -> heap s' = heap s -> current_task s' = current_task s -> sched_ok s' Q.
Proof. intros [? ? ? ? ?] El Eh Ec. split; rewrite ?El, ?Eh, ?Ec; done. Qed.

Lemma sched_ok_put s Q ta t t' : sched_ok s Q -> heap s !! ta = Some t -> state t' = state t -> sched_ok (put s ta t') Q.
Proof.
  intros H Ht Es. assert (forall x k v, heap s !! x = Some k -> state k = v -> exists k', heap (put s ta t') !! x = Some k' /\ state k' = v) as Hp.
  { intros x k v Hx Hv. cbn. destruct (decide (x = ta)) as [->|]; [|rewrite lookup_insert_ne by done; eauto].
    rewrite lookup_insert_eq. exists t'. split; [done|]. rewrite Es. congruence. }
  split; cbn [links put with_heap current_task]; try apply H.
  - intros b x Hb Hx. destruct (so_ready _ _ H b x Hb Hx) as (k & ? & ?). eauto.
  - intros c x Hx. destruct (so_running _ _ H c x Hx) as ((k & ? & ?) & ? & ?). split; [eauto | done].
Qed.

(** Links that change only where no run queue looks. *)
Lemma sched_ok_links s Q l : sched_ok s Q -> (forall b, l !! RQ b = links s !! RQ b) ->
  (forall t, l !! RqNode t = links s !! RqNode t) -> sched_ok (with_links s l) Q.
Proof.
  intros H H1 H2. split; cbn; try apply H.
  - split; [|apply (so_rings _ _ H)]. intros b Hb. eapply ring_frame; [apply (ro_ring _ _ (so_rings _ _ H) b Hb)|].
    intros u [->|Hu]%elem_of_cons; [done|]. apply list_elem_of_fmap in Hu as (t & -> & _). done.
  - intros c t Ht. rewrite H2. by apply (so_running _ _ H c).
Qed.

(** [enqueue] changes the links of its queue only. *)
Lemma enqueue_frame s Q ta t s' : sched_ok s Q -> heap s !! ta = Some t -> is_Some (links s !! RqNode ta) -> nowhere Q ta ->
  enqueue s ta = Done s' -> forall u, u ∉ RQ (band_of t) :: (RqNode <$> Q (band_of t) ++ [ta]) -> links s' !! u = links s !! u.
Proof.
  intros H Ht Hl Hn E u Hu. unfold enqueue, deref in E. rewrite Ht in E. cbn [faulting mbind outcome_bind links put with_heap] in E.
  destruct (list_add_tail_ring (links s) (RqNode ta) (RQ (band_of t)) (RqNode <$> Q (band_of t))
    (ro_ring _ _ (so_rings _ _ H) _ (band_lt t)) Hl) as (m & Em & _ & F).
  { intros [?|Hx]%elem_of_cons; [done|]. apply rq_node_in in Hx. by apply (Hn _ (band_lt t)). }
  rewrite Em in E. cbn [faulting mbind outcome_bind] in E. injection E as <-. cbn. rewrite fmap_app in Hu. simpl in Hu. apply F; set_solver.
Qed.

(** ** The resource manager *)

(** [pa] is admitted, or its node is left as it was; no node of another process that is not
    admitted changes. *)
Record joined (ps ps' : pool_state) (G G' : list Z) (pa : Z) : Prop := {
  jo_list : G' = G ++ [pa] \/ G' = G /\ admitted ps' !! ProcNode pa = admitted ps !! ProcNode pa;
  jo_others : forall x, x <> pa -> x ∉ G -> admitted ps' !! ProcNode x = admitted ps !! ProcNode x
}.
Lemma joined_in ps ps' G G' pa : joined ps ps' G G' pa -> forall x, x ∈ G' -> x = pa \/ x ∈ G.
Proof. intros [[->|[-> _]] _] x Hx; [|by right]. apply elem_of_app in Hx as [?|?%list_elem_of_singleton]; auto. Qed.

Lemma admit_ring ps blk pa proc G : ring (admitted ps) AdmittedHead (ProcNode <$> G) -> is_Some (admitted ps !! ProcNode pa) -> pa ∉ G ->
  exists ps' proc' r G', neri_sched_admit ps blk pa proc = Some (ps', proc', r) /\
    ring (admitted ps') AdmittedHead (ProcNode <$> G') /\ joined ps ps' G G' pa /\ g_neri_ready ps' = g_neri_ready ps /\
    cpu_total_ns (pool ps') = cpu_total_ns (pool ps) /\ ram_total_pages (pool ps') = ram_total_pages (pool ps).
Proof.
  intros R Hn Hni. unfold neri_sched_admit. assert (joined ps ps G G pa) as J by (split; auto).
  destruct blk; [exists ps, proc, (- EPERM), G; auto 10|].
  destruct ((_ <? _) || (_ <? _)); [exists ps, proc, (- EBUSY), G; auto 10|].
  destruct (list_add_tail_ring (admitted ps) (ProcNode pa) AdmittedHead _ R Hn) as (m' & -> & R' & F).
  { intros [|(x & E & Hx)%list_elem_of_fmap]%elem_of_cons; [done|]. by injection E as ->. }
  cbn [mbind option_bind]. eexists _, _, _, (G ++ [pa]). split; [reflexivity|]. rewrite fmap_app. cbn [admitted]. split; [done|]. split; [|done].
  split; [by left|]. intros x Hx HG. apply F; [congruence|]. intros [?|(y & [= <-] & Hy)%list_elem_of_fmap]%elem_of_cons; done.
Qed.

(** Both capacities are large enough to divide by their 64th part. *)
Definition roomy (g : neri_pool) : Prop := 64 <= cpu_total_ns g /\ 64 <= ram_total_pages g.

Lemma div_some a b : b <> 0 -> exists q, div_ a b = Some q.
Proof. intros. unfold div_. rewrite (proj2 (Z.eqb_neq _ _)) by done. eauto. Qed.

Lemma roomy_decides w u g n p : roomy g -> exists d, neri_nzra_decide w u g n p = Some d.
Proof.
  intros [Hc Hr]. unfold neri_nzra_decide. assert (exists a, resource_gap g p = Some a) as (a & ->); [|eexists; reflexivity].
  unfold resource_gap. rewrite !(proj2 (Z.eqb_neq _ _)) by lia. cbn [orb].
  assert (cpu_total_ns g / 64 <> 0) as H1 by zdm. assert (ram_total_pages g / 64 <> 0) as H2 by zdm.
  assert (forall x b, b <> 0 -> exists q, (if truthy x then div_ (Q16 x) b else Some 0) = Some q) as Hd.
  { intros x b Hb. destruct (truthy x); [by apply div_some | eauto]. }
  match goal with |- context [if truthy ?x then div_ _ (cpu_total_ns g / 64) else _] => destruct (Hd x _ H1) as (q1 & ->) end. cbn [mbind option_bind].
  match goal with |- context [if truthy ?x then div_ _ (ram_total_pages g / 64) else _] => destruct (Hd x _ H2) as (q2 & ->) end. cbn [mbind option_bind]. eauto.
Qed.
(** ** Publishing *)

(** What publishing leaves of the record: everything but the grants, the start of the
    virtual runtime and the placement. *)
Record published (t t' : task) : Prop := {
  pb_id : pid t' = pid t /\ ppid t' = ppid t /\ name t' = name t;
  pb_state : state t' = state t;
  pb_prio : priority t' = priority t /\ weight t' = weight t;
  pb_stack : kstack_pa t' = kstack_pa t /\ kstack_top t' = kstack_top t;
  pb_ctx : ctx_rsp t' = ctx_rsp t /\ ctx_rip t' = ctx_rip t /\ ctx_rflags t' = ctx_rflags t
}.
#[export] Instance published_preorder : PreOrder published.
Proof.
  split; [by split|]. intros x y z [A1 A2 A3 A4 A5] [B1 B2 B3 B4 B5]. destruct_and!. split; split_and?; congruence.
Qed.

(** [s'] is [s] but for the record at [ta] and the pool. *)
Lemma admit_step s ta t G : heap s !! ta = Some t -> ring (admitted (n_ps (nr s))) AdmittedHead (ProcNode <$> G) ->
  is_Some (admitted (n_ps (nr s)) !! ProcNode ta) -> ta ∉ G ->
  exists n' t' G', admit_neri s ta = Done (put (with_nr s n') ta t') /\ published t t' /\
    ring (admitted (n_ps n')) AdmittedHead (ProcNode <$> G') /\ joined (n_ps (nr s)) (n_ps n') G G' ta /\
    g_neri_ready (n_ps n') = neri_ready s /\ (roomy (pool (n_ps (nr s))) -> roomy (pool (n_ps n'))).
Proof.
  intros Ht R Hn Hni. unfold admit_neri. destruct (neri_ready s) eqn:Er; cbn [negb].
  - unfold deref. rewrite Ht. cbn [faulting mbind outcome_bind].
    destruct (admit_ring (n_ps (nr s)) (block_admits (neri_sec_get_anomaly (n_sec (nr s)))) ta (neri t) G R Hn Hni)
      as (ps' & proc' & r & G' & -> & R' & HG & Hr & Hc & Hm).
    cbn [faulting mbind outcome_bind]. eexists _, _, G'. split; [reflexivity|]. cbn [n_ps].
    split; [by split|]. split; [done|]. split; [done|]. split; [by rewrite Hr|]. unfold roomy. by rewrite Hc, Hm.
  - exists (nr s), t, G. split; [|split; [reflexivity | split; [done | split; [split; auto | done]]]]. do 2 f_equal. unfold put, with_heap, with_nr. cbn.
    rewrite insert_id by done. by destruct s.
Qed.

Lemma place_step s w ta t : heap s !! ta = Some t -> (neri_ready s = true -> roomy (pool (n_ps (nr s)))) ->
  exists t' a, place s w ta = Done (with_ado (put s ta t') a) /\ published t t'.
Proof.
  intros Ht Hr. unfold place. destruct (neri_ready s) eqn:Er; cbn [negb].
  - unfold deref. rewrite Ht. cbn [faulting mbind outcome_bind].
    destruct (roomy_decides (n_nzra (nr s)) (n_utb (nr s)) (pool (n_ps (nr s))) (g_ncpus w) (neri t) (Hr eq_refl)) as (d & ->).
    cbn [faulting mbind outcome_bind]. destruct (neri_ado_dispatch _ _ _) as [a r]. eexists _, a. split; [reflexivity | by split].
  - exists t, (ado_ s). split; [|reflexivity]. f_equal. unfold put, with_heap, with_ado. cbn. rewrite insert_id by done. by destruct s.
Qed.

(** Linking an unlinked task into the all-tasks list. *)
Lemma link_all s Q T ta : sched_ok s Q -> ring (links s) AllHead (AllNode <$> T) -> is_Some (links s !! AllNode ta) -> ta ∉ T ->
  exists l, list_add_tail (links s) (AllNode ta) AllHead = Some l /\ sched_ok (with_links s l) Q /\
    ring l AllHead (AllNode <$> T ++ [ta]) /\ (forall u, is_Some (l !! u) <-> is_Some (links s !! u)) /\
    (forall x, l !! RqNode x = links s !! RqNode x).
Proof.
  intros H R Hn Hni. assert (forall x, AllNode x ∈ AllNode <$> T -> x ∈ T) as Hin.
  { intros x (y & [= ->] & Hy)%list_elem_of_fmap. done. }
  destruct (list_add_tail_ring (links s) (AllNode ta) AllHead _ R Hn) as (l & E & R' & F).
  { intros [?|Hx]%elem_of_cons; [done|]. by apply Hni, Hin. }
  assert (forall u, (forall x, u <> AllNode x) -> u <> AllHead -> l !! u = links s !! u) as F'.
  { intros u H1 H2. apply F; [done|]. intros [->|Hx]%elem_of_cons; [done|]. apply list_elem_of_fmap in Hx as (x & -> & _). by apply (H1 x). }
  exists l. split; [done|]. split; [apply sched_ok_links; [done | intros b; by apply F' | intros t; by apply F']|].
  split; [by rewrite fmap_app|]. split; [|intros x; by apply F'].
  intros u. destruct (decide (u ∈ AllHead :: (AllNode <$> T) ++ [AllNode ta])) as [Hu|Hu].
  - split; intros _; [|by eapply ring_members]. apply elem_of_cons in Hu. rewrite elem_of_app, list_elem_of_singleton in Hu.
    destruct Hu as [->|[Hu| ->]]; [| |done]; eapply ring_members; [exact R|set_solver|exact R|set_solver].
  - by rewrite F by set_solver.
Qed.

(** A task that is built and linked nowhere, ready to be published. *)
Record unpublished (s : sys) (Q : queues) (T G : list Z) (ta : Z) (t : task) : Prop := {
  up_sched : sched_ok s Q;
  up_all : ring (links s) AllHead (AllNode <$> T);
  up_pool : ring (admitted (n_ps (nr s))) AdmittedHead (ProcNode <$> G);
  up_task : heap s !! ta = Some t /\ state t = TASK_READY;
  up_nodes : is_Some (links s !! RqNode ta) /\ is_Some (links s !! AllNode ta) /\ is_Some (admitted (n_ps (nr s)) !! ProcNode ta);
  up_new : nowhere Q ta /\ ta ∉ T /\ ta ∉ G /\ forall c, current_task s !! c <> Some (Some ta);
  up_room : neri_ready s = true -> roomy (pool (n_ps (nr s)))
}.

Lemma publish_ok s Q T G w ta t : unpublished s Q T G ta t ->
  exists s' t' G', publish s w ta = Done s' /\ published t t' /\ heap s' = <[ta := t']> (heap s) /\
    sched_ok s' (updQ Q (band_of t) (Q (band_of t) ++ [ta])) /\
    ring (links s') AllHead (AllNode <$> T ++ [ta]) /\
    ring (admitted (n_ps (nr s'))) AdmittedHead (ProcNode <$> G') /\ joined (n_ps (nr s)) (n_ps (nr s')) G G' ta /\
    (forall u, is_Some (links s' !! u) -> is_Some (links s !! u)) /\
    (forall x, x <> ta -> nowhere Q x -> links s' !! RqNode x = links s !! RqNode x) /\
    vm s' = vm s /\ current_task s' = current_task s /\ next_pid s' = next_pid s /\
    tasks s' = first_free (tasks s) ta /\ task_count s' = s32 (task_count s + 1).
Proof.
  intros [H R Rp [Ht St] (N1 & N2 & N3) (Hn & HT & HG & Hc) Hroom]. unfold publish.
  destruct (admit_step s ta t G Ht Rp N3 HG) as (n1 & t1 & G' & -> & P1 & Rp1 & HG' & Er & Hr1). cbn [mbind outcome_bind].
  set (s1 := with_table (put (with_nr s n1) ta t1) (first_free (tasks (put (with_nr s n1) ta t1)) ta) (task_count (put (with_nr s n1) ta t1))).
  assert (sched_ok s1 Q) as H1 by (apply (sched_ok_ext (put s ta t1)); [by eapply sched_ok_put, pb_state | done..]).
  destruct (link_all s1 Q T ta H1 R N2 HT) as (l & -> & H2 & R2 & D2 & F2). cbn [faulting mbind outcome_bind].
  set (s2 := with_links s1 l) in *.
  assert (heap s2 !! ta = Some t1) as Ht2 by apply lookup_insert_eq.
  assert (is_Some (links s2 !! RqNode ta)) as N1' by (cbn; rewrite F2; exact N1).
  destruct (enqueue_ok s2 Q ta t1 H2 Ht2) as (s3 & t3 & E3 & H3 & O3 & Ht3 & Et3); [by rewrite (pb_state _ _ P1) | done | done | done|].
  pose proof (enqueue_frame s2 Q ta t1 s3 H2 Ht2 N1' Hn E3) as F3. rewrite E3. cbn [mbind outcome_bind]. destruct O3 as [Ov On Oc (Ot & Ok & Op) Oh Ol].
  assert (published t1 t3) as P3 by (rewrite Et3; destruct (vruntime t1 =? 0); by split).
  set (s4 := with_table s3 (tasks s3) (s32 (task_count s3 + 1))).
  destruct (place_step s4 w ta t3 Ht3) as (t4 & a & -> & P4).
  { unfold neri_ready. change (nr s4) with (nr s3). rewrite On. intros Hr. apply Hr1, Hroom. by rewrite <- Er. }
  assert (band_of t1 = band_of t) as Eb by (unfold band_of; by rewrite (proj1 (pb_prio _ _ P1))). rewrite Eb in *.
  exists (with_ado (put s4 ta t4) a), t4, G'. split; [done|]. split; [by etrans; [exact P1|]; etrans|].
  split. { apply map_eq. intros x. cbn. destruct (decide (x = ta)) as [->|Hne]; [by rewrite !lookup_insert_eq|].
    rewrite !lookup_insert_ne by done. rewrite (Oh x Hne). cbn. by rewrite lookup_insert_ne. }
  split; [apply (sched_ok_ext (put s3 ta t4)); [eapply sched_ok_put; [exact H3 | exact Ht3 | apply P4] | done..]|].
  split. { cbn. eapply ring_frame; [exact R2|]. intros u Hu. apply F3. set_solver. }
  split; [cbn; by rewrite On|]. split; [cbn; by rewrite On|].
  split; [|split; [|cbn; rewrite ?Ov, ?Oc, ?Ot, ?Ok, ?Op; done]]; cycle 1.
  { intros x Hx Hnx. cbn. rewrite F3; [apply F2|]. specialize (Hnx _ (band_lt t)).
    intros [?|(y & [= <-] & [Hy|Hy%list_elem_of_singleton]%elem_of_app)%list_elem_of_fmap]%elem_of_cons; done. }
  intros u Hu. cbn in Hu. apply (proj1 (D2 u)).
  destruct (decide (u ∈ RQ (band_of t) :: (RqNode <$> Q (band_of t) ++ [ta]))) as [Hin|Hout]; [|by rewrite F3 in Hu].
  rewrite fmap_app, elem_of_cons, elem_of_app in Hin. simpl in Hin. rewrite list_elem_of_singleton in Hin.
  destruct Hin as [->|[Hin| ->]]; [| |done];
    (eapply ring_members; [apply (ro_ring _ _ (so_rings _ _ H2) _ (band_lt t))|]; set_solver).
Qed.

(** ** The record before it is published *)

Section create.
Context (s : sys) (Q : queues) (T G : list Z) (S : gset Z) (U : gmap Z nat) (H : tasks_ok s Q T G S U).

(** Memory the heap did not have in use belongs to no task. *)
Lemma unused_unlinked ta : heap s !! ta = None ->
  links s !! RqNode ta = None /\ links s !! AllNode ta = None /\ nowhere Q ta /\ ta ∉ T /\ ta ∉ G /\
  forall c, current_task s !! c <> Some (Some ta).
Proof.
  intros Hn. assert (forall P : Prop, is_Some (heap s !! ta) -> P) as Hno by (rewrite Hn; intros P [? ?]; done).
  split; [apply eq_None_not_Some; intros Hx; by apply Hno, (to_nodes _ _ _ _ _ _ H); left|].
  split; [apply eq_None_not_Some; intros Hx; by apply Hno, (to_nodes _ _ _ _ _ _ H); right|].
  split. { intros b Hb Hx. destruct (so_ready _ _ (to_sched _ _ _ _ _ _ H) b ta Hb Hx) as (k & Hk & _). apply Hno. by rewrite Hk. }
  split. { intros Hx. apply Hno, (to_nodes _ _ _ _ _ _ H). right. eapply ring_members; [apply (to_all _ _ _ _ _ _ H)|].
    apply list_elem_of_further, list_elem_of_fmap. eauto. }
  split; [intros Hx; by apply Hno, (to_admitted _ _ _ _ _ _ H)|].
  intros c Hx. destruct (so_running _ _ (to_sched _ _ _ _ _ _ H) c ta Hx) as ((k & Hk & _) & _). apply Hno. by rewrite Hk.
Qed.

Lemma built_unpublished v p ta t : heap s !! ta = None -> state t = TASK_READY -> (neri_ready s = true -> roomy (pool (n_ps (nr s)))) ->
  unpublished (put (init_nodes (with_vm (with_next_pid s p) v) ta) ta t) Q T G ta t.
Proof.
  intros Hn St Hr. destruct (unused_unlinked ta Hn) as (L1 & L2 & Hq & HT & HG & Hc).
  assert (forall u, is_Some (links s !! u) -> u <> RqNode ta /\ u <> AllNode ta) as Hu.
  { intros u [x Hx]. split; intros ->; congruence. }
  split; cbn [init_nodes put with_links with_heap with_nr with_vm with_next_pid links heap nr n_ps admitted pool current_task neri_ready g_neri_ready].
  - pose proof (sched_ok_node s Q (RqNode ta) (to_sched _ _ _ _ _ _ H) L1 (heap s) ltac:(done)) as H1.
    assert (list_init (links s) (RqNode ta) !! AllNode ta = None) as L2' by (unfold list_init; by rewrite lookup_insert_ne).
    pose proof (sched_ok_node _ Q (AllNode ta) H1 L2' (<[ta := t]> (heap s))) as H2.
    eapply sched_ok_ext; [apply H2 | done..]. intros x k Hx. cbn in Hx. rewrite lookup_insert_ne; [done|]. intros ->. congruence.
  - eapply ring_frame; [apply (to_all _ _ _ _ _ _ H)|]. intros u Hin.
    destruct (Hu u) as [? ?]; [by eapply ring_members; [apply (to_all _ _ _ _ _ _ H)|]|]. unfold list_init. by rewrite !lookup_insert_ne.
  - eapply ring_frame; [apply (to_pool _ _ _ _ _ _ H)|]. intros u Hin. unfold list_init. rewrite lookup_insert_ne; [done|]. intros <-.
    apply elem_of_cons in Hin as [?|(x & [= ->] & Hx)%list_elem_of_fmap]; done.
  - split; [apply lookup_insert_eq | done].
  - unfold list_init. rewrite !lookup_insert_eq, lookup_insert_ne, lookup_insert_eq by done. eauto.
  - done.
  - exact Hr.
Qed.

(** Losing memory to a failed creation and getting it back. *)
Lemma tasks_ok_vm v p : mem_ok v S U -> stacks_same S (vm s) v -> tasks_ok (with_vm (with_next_pid s p) v) Q T G S U.
Proof.
  intros Hm Hs. destruct H. split; try done.
  - by eapply sched_ok_ext.
  - intros ta t Ht Hz. destruct (to_stacks0 ta t Ht Hz) as [Hk Hc]. split; [done|]. cbn. rewrite (Hs (kstack_pa t)); [done..|].
    unfold in_stack. pose proof (bsize_pos 2). lia.
Qed.
End create.

(** ** [task_create] *)

(** What the caller gets: a READY task of its own memory and stack, which starts at [entry_]
    with [arg] on its stack, last in the queue of its band and in the all-tasks list; no other
    task, stack or heap object changes. *)
Record created (s s' : sys) (S : gset Z) (U : gmap Z nat) (ta k : Z) (t : task) (nm : option (list Z)) (entry_ arg prio : Z) : Prop := {
  cr_new : heap s !! ta = None /\ k ∉ S;
  cr_heap : heap s' = <[ta := t]> (heap s);
  cr_id : pid t = next_pid s /\ next_pid s' = s32 (next_pid s + 1) /\ name t = take 31 (default kthread_name nm);
  cr_run : state t = TASK_READY /\ priority t = MIN prio 15 /\ weight t = nth (Z.to_nat (MIN prio 15)) sched_weight 0;
  cr_ctx : ctx_rip t = entry_ /\ ctx_rflags t = 0x200 /\ kstack_pa t = k /\ kstack_top t = u64 (phys_to_virt k + 16384) /\
    ctx_rsp t = u64 (kstack_top t - 16);
  cr_stack : rd (vm s') (phys_to_virt k) = NEKROS_STACK_CANARY /\ rd (vm s') (u64 (kstack_top t - 8)) = arg /\ rd (vm s') (ctx_rsp t) = 0;
  cr_frame : stacks_same S (vm s) (vm s') /\ VmmSlab.same_objects U (vm s) (vm s');
  cr_rest : current_task s' = current_task s /\ tasks s' = first_free (tasks s) ta /\ task_count s' = s32 (task_count s + 1)
}.

(** What becomes of the links: the nodes of the other tasks that are in no queue stay as they
    are, and the new task is admitted to the pool or its node there points to itself. *)
Record linked_in (s s' : sys) (Q : queues) (G G' : list Z) (ta : Z) : Prop := {
  ln_queue : forall x, x <> ta -> nowhere Q x -> links s' !! RqNode x = links s !! RqNode x;
  ln_pool : forall x, x <> ta -> x ∉ G -> admitted (n_ps (nr s')) !! ProcNode x = admitted (n_ps (nr s)) !! ProcNode x;
  ln_new : G' = G ++ [ta] \/ G' = G /\ admitted (n_ps (nr s')) !! ProcNode ta = Some (mk_lh (Some (ProcNode ta)) (Some (ProcNode ta)))
}.

Lemma links_from_build s s' Q G G' ta t v p : let s0 := put (init_nodes (with_vm (with_next_pid s p) v) ta) ta t in
  joined (n_ps (nr s0)) (n_ps (nr s')) G G' ta ->
  (forall x, x <> ta -> nowhere Q x -> links s' !! RqNode x = links s0 !! RqNode x) -> linked_in s s' Q G G' ta.
Proof.
  intros s0 [JL JO] HL. split.
  - intros x Hx Hn. rewrite HL by done. cbn. unfold list_init. by rewrite !lookup_insert_ne by congruence.
  - intros x Hx Hn. rewrite JO by done. cbn. unfold list_init. by rewrite lookup_insert_ne by congruence.
  - destruct JL as [?|[-> E]]; [by left|]. right. split; [done|]. rewrite E. cbn. unfold list_init. by rewrite lookup_insert_eq.
Qed.

(** Rewriting with this, where reduction would make the kernel compare whole states. *)
Lemma bind_done {A B} (x : A) (f : A -> outcome B) : (y ← Done x; f y) = f x.
Proof. reflexivity. Qed.
Lemma vm_settled s v v' v'' p : with_vm (with_vm (with_next_pid (with_vm s v) p) v') v'' = with_vm (with_next_pid s p) v''.
Proof. reflexivity. Qed.
Section success.
Context (s : sys) (Q : queues) (T G : list Z) (S : gset Z) (U : gmap Z nat) (H : tasks_ok s Q T G S U).
Context (v3 : vmm) (h : Z) (i : nat) (k : Z) (ppid_ : Z) (nm : option (list Z)) (entry_ arg prio d1 d2 : Z).
Context (Hu : U !! h = None) (Hm : mem_ok v3 ({[k]} ∪ S) (<[h := i]> U)) (Hk : k ∉ S).
Context (Hs : stacks_same S (vm s) v3) (Ho : VmmSlab.same_objects U (vm s) v3).
Let top := u64 (phys_to_virt k + KERNEL_STACK_PAGES * PAGE_SIZE).
Context (W1 : rd v3 (phys_to_virt k) = NEKROS_STACK_CANARY) (W2 : rd v3 (u64 (top - 8)) = arg) (W3 : rd v3 (u64 (top - 16)) = 0).
Context (Hr : neri_ready s = true -> roomy (pool (n_ps (nr s)))).
Let ft := fresh_task (next_pid s) ppid_ nm entry_ prio d1 d2 k.

Lemma object_unused : heap s !! (h + 8) = None.
Proof.
  apply eq_None_not_Some. intros Hx%(to_live _ _ _ _ _ _ H). replace (h + 8 - 8) with h in Hx by lia. rewrite Hu in Hx. by destruct Hx.
Qed.

Lemma create_success w :
  exists s' t G', publish (put (init_nodes (with_vm (with_next_pid s (s32 (next_pid s + 1))) v3) (h + 8)) (h + 8) ft) w (h + 8) = Done s' /\
    created s s' S U (h + 8) k t nm entry_ arg prio /\
    tasks_ok s' (updQ Q (Z.to_nat (MIN prio 15)) (Q (Z.to_nat (MIN prio 15)) ++ [h + 8])) (T ++ [h + 8]) G' ({[k]} ∪ S) (<[h := i]> U) /\
    linked_in s s' Q G G' (h + 8).
Proof.
  pose proof object_unused as Hn.
  pose proof (built_unpublished s Q T G S U H v3 (s32 (next_pid s + 1)) (h + 8) ft Hn eq_refl Hr) as Hup.
  destruct (publish_ok _ Q T G w (h + 8) ft Hup) as (s' & t & G' & E & P & Eh & Hq & Ra & Rp & HG & Hd & Hl & Ev & Ec & Ei & Et & En).
  assert (band_of ft = Z.to_nat (MIN prio 15)) as Eb by (unfold band_of, ft, fresh_task, MIN; cbn; repeat casei; b2p; lia).
  rewrite Eb in Hq. cbn [heap put with_heap init_nodes with_links with_nr with_vm with_next_pid] in Eh. rewrite insert_insert_eq in Eh.
  cbn [vm put with_heap init_nodes with_links with_nr with_vm with_next_pid] in Ev.
  destruct P as [(P1 & P2 & P3) P4 (P5 & P6) (P7 & P8) (P9 & P10 & P11)].
  assert (forall x y, heap s' !! x = Some y -> x = h + 8 /\ y = t \/ x <> h + 8 /\ heap s !! x = Some y) as Hcase.
  { intros x y. rewrite Eh, lookup_insert_Some. intros [[<- <-]|[? ?]]; auto. }
  exists s', t, G'. split; [done|]. split; [|split; [|by eapply links_from_build]].
  - split; rewrite ?Ev.
    + done.
    + done.
    + split; [by rewrite P1|]. split; [by rewrite Ei | by rewrite P3].
    + split; [by rewrite P4|]. split; [by rewrite P5 | by rewrite P6].
    + rewrite P10, P11, P7, P8, P9. done.
    + rewrite P8, P9. done.
    + done.
    + done.
  - split; rewrite ?Ev; try done.
    + intros x [y Hy]. destruct (Hcase x y Hy) as [[-> _]|[Hne Hx]].
      * replace (h + 8 - 8) with h by lia. rewrite lookup_insert_eq. eauto.
      * rewrite lookup_insert_ne by lia. by apply (to_live _ _ _ _ _ _ H).
    + intros x Hx. destruct (decide (x = h + 8)) as [->|Hne]; [rewrite Eh, lookup_insert_eq; eauto|].
      rewrite Eh, lookup_insert_ne by done. apply (to_nodes _ _ _ _ _ _ H).
      destruct Hx as [Hx|Hx]; [left | right]; apply Hd in Hx; revert Hx;
        cbn; unfold list_init; rewrite !lookup_insert_ne by congruence; done.
    + intros x Hx. rewrite Eh. destruct (decide (x = h + 8)) as [->|Hne]; [rewrite lookup_insert_eq; eauto|].
      rewrite lookup_insert_ne by done. apply (to_admitted _ _ _ _ _ _ H). by destruct (joined_in _ _ _ _ _ HG x Hx).
    + intros x y Hy Hz. destruct (Hcase x y Hy) as [[-> ->]|[Hne Hx]]; [rewrite P7; split; [set_solver | done]|].
      destruct (to_stacks _ _ _ _ _ _ H x y Hx Hz) as [Hin Hc]. split; [set_solver|]. rewrite (Hs (kstack_pa y)); [done..|].
      unfold in_stack. pose proof (bsize_pos 2). lia.
    + intros x x' y y' Hy Hy' Hz Hz' Ek. destruct (Hcase x y Hy) as [[-> ->]|[Hne Hx]], (Hcase x' y' Hy') as [[-> ->]|[Hne' Hx']].
      * done.
      * rewrite P7 in Ek. destruct (to_stacks _ _ _ _ _ _ H x' y' Hx' Hz') as [Hin _]. rewrite <- Ek in Hin. by destruct Hk.
      * rewrite P7 in Ek. destruct (to_stacks _ _ _ _ _ _ H x y Hx Hz) as [Hin _]. rewrite Ek in Hin. by destruct Hk.
      * by apply (to_own _ _ _ _ _ _ H x x' y y').
Qed.
End success.

Lemma task_create_outcomes s Q T G S U w cpu nm entry_ arg prio d1 d2 : tasks_ok s Q T G S U ->
  (neri_ready s = true -> roomy (pool (n_ps (nr s)))) ->
  let r := task_create s w cpu nm entry_ arg prio d1 d2 in
  let b := Z.to_nat (MIN prio 15) in
  (r = Done (s, ERR_PTR (- EPERM)) /\ neri_ready s = true /\ neri_sec_admit_allowed (n_sec (nr s)) = false) \/
  (exists v p, r = Done (with_vm (with_next_pid s p) v, ERR_PTR (- ENOMEM)) /\
     tasks_ok (with_vm (with_next_pid s p) v) Q T G S U /\ VmmSlab.same_objects U (vm s) v) \/
  (exists s' ta k t i G', r = Done (s', ta) /\ created s s' S U ta k t nm entry_ arg prio /\
     tasks_ok s' (updQ Q b (Q b ++ [ta])) (T ++ [ta]) G' ({[k]} ∪ S) (<[ta - 8 := i]> U) /\ linked_in s s' Q G G' ta).
Proof.
  intros H Hr r b. unfold r, task_create. destruct (neri_ready s && negb (neri_sec_admit_allowed (n_sec (nr s)))) eqn:Eg.
  { left. apply andb_true_iff in Eg as [? ?%negb_true_iff]. done. }
  right. assert (sizeof_task = 8 * 46) as -> by reflexivity.
  destruct (kzalloc_ok (vm s) S U 46 (to_mem _ _ _ _ _ _ H) ltac:(lia)) as [->|(v1 & h & i & -> & M1 & Hu & Hb & Ht & S1 & O1 & _)];
    cbn [mbind outcome_bind].
  { left. exists (vm s), (next_pid s). cbn [Z.eqb]. split; [by destruct s|]. split; [|by intros ? ? ? ? ?].
    apply (tasks_ok_vm s Q T G S U H); [apply (to_mem _ _ _ _ _ _ H) | by intros ? ? ? ?]. }
  unfold KERNEL_VIRT_BASE in Hb. rewrite (proj2 (Z.eqb_neq (h + 8) 0)) by lia.
  assert (exists pp, (match current (with_next_pid (with_vm s v1) (s32 (next_pid (with_vm s v1) + 1))) cpu with
    | None => Done 0
    | Some c => t ← deref (with_next_pid (with_vm s v1) (s32 (next_pid (with_vm s v1) + 1))) c; Done (pid t) end) = Done pp) as (pp & ->).
  { destruct (current _ cpu) as [c|] eqn:Ec; [|eauto]. apply current_lookup in Ec.
    destruct (so_running _ _ (to_sched _ _ _ _ _ _ H) _ c Ec) as ((t & Et & _) & _). unfold deref. cbn. rewrite Et. eauto. }
  cbn [mbind outcome_bind vm with_next_pid with_vm].
  destruct (stack_alloc v1 S (<[h := i]> U) M1) as [(p & -> & ->)|(p & k & -> & Hok & Hhi & Hk & M2 & S2 & O2)].
  - cbn [Z.eqb]. replace (with_pm v1 (pm v1)) with v1 by (by destruct v1).
    destruct (kfree_ok v1 S U h i M1 Hu) as (v2 & -> & M2 & S2 & O2). left. exists v2, (s32 (next_pid s + 1)).
    split; [done|]. split; [|by eapply VmmSlab.same_objects_trans].
    apply (tasks_ok_vm s Q T G S U H); [done | by eapply stacks_same_trans].
  - destruct Hok as [Hpa Hdiv]. rewrite (proj2 (Z.eqb_neq k 0)) by lia. right.
    destruct (stack_setup (with_pm v1 p) ({[k]} ∪ S) (<[h := i]> U) k arg M2 ltac:(set_solver) (conj Hpa Hdiv) Hhi)
      as (w1 & w2 & w3 & E1 & E2 & E3 & M3 & S3 & O3 & W1 & W2 & W3).
    rewrite E1. cbn [mbind outcome_bind]. assert (KERNEL_STACK_PAGES * PAGE_SIZE = 4 * PAGE_SIZE) as Ek by reflexivity. rewrite Ek, E2. cbn [mbind outcome_bind].
    rewrite E3, bind_done.
    assert (forall x, VmmSlab.same_objects (<[h := i]> U) x w3 -> VmmSlab.same_objects U x w3) as Hsub.
    { intros x Hx y j a Hy. apply (Hx y j). rewrite lookup_insert_ne; [done|]. intros ->. congruence. }
    destruct (create_success s Q T G S U H w3 h i k pp nm entry_ arg prio d1 d2 Hu M3 Hk) with (w := w)
      as (s' & t & G' & E & C & Ok & HG).
    + eapply stacks_same_trans; [exact S1|]. eapply stacks_same_trans; [exact S2|]. eapply stacks_sub; [|exact S3]. set_solver.
    + eapply VmmSlab.same_objects_trans; [exact O1|]. apply Hsub. by eapply VmmSlab.same_objects_trans.
    + done.
    + exact W2.
    + exact W3.
    + done.
    + exists s', (h + 8), k, t, i, G'. replace (h + 8 - 8) with h by lia. split; [|done].
      rewrite vm_settled. cbn [next_pid with_vm].
      rewrite E. reflexivity.
Qed.


(** ** The error pointers *)

(** The address of a task is a pointer [IS_ERR] accepts only in the last frame of the direct
    mapping, which the pages of the heap may include. *)
Lemma task_not_err s Q T G S U ta : tasks_ok s Q T G S U -> is_Some (heap s !! ta) -> IS_ERR ta = true ->
  PmmInv.managed (pm (vm s)) (2 ^ 64 - 4096).
Proof.
  intros H [i Hi]%(to_live _ _ _ _ _ _ H) He. destruct (to_mem _ _ _ _ _ _ H) as (P & K & L & Hh).
  destruct (VmmSlab.h_live _ _ _ _ _ _ Hh _ _ Hi) as [Hc _].
  destruct (VmmSlab.chunk_page _ _ _ _ _ _ Hh _ _ Hc) as (pg & Hpg & _ & [Hr [m Em]] & Hi8 & Ev & Hlo & Hhi).
  destruct (VmmSlab.chunk_range i Hi8) as [Hsz _]. apply Z.ltb_lt in He. change (u64 (- 4096)) with (2 ^ 64 - 4096) in He. unfold KERNEL_VIRT_BASE in *.
  apply (owns_managed _ _ _ _ (VmmSlab.h_owns _ _ _ _ _ _ Hh) Hpg). unfold in_page, bsize. simpl. lia.
Qed.

(** What a caller reads off the pointer, unless the allocator manages that frame: with
    [IS_ERR] nothing was created and [PTR_ERR] is the reason; otherwise the pointer is a task. *)
Theorem task_create_pointer s Q T G S U w cpu nm entry_ arg prio d1 d2 s' r : tasks_ok s Q T G S U ->
  (neri_ready s = true -> roomy (pool (n_ps (nr s)))) ->
  task_create s w cpu nm entry_ arg prio d1 d2 = Done (s', r) -> ~ PmmInv.managed (pm (vm s')) (2 ^ 64 - 4096) ->
  if IS_ERR r then (PTR_ERR r = - EPERM \/ PTR_ERR r = - ENOMEM) /\ heap s' = heap s
  else heap s !! r = None /\ is_Some (heap s' !! r).
Proof.
  intros H Hr E Hm.
  destruct (task_create_outcomes s Q T G S U w cpu nm entry_ arg prio d1 d2 H Hr) as [(E' & _)|[(v & p & E' & _)|(s1 & ta1 & k & t & i & G' & E' & C & Ok & _)]];
    rewrite E in E'; injection E' as -> ->.
  - split; [by left | done].
  - split; [by right | done].
  - assert (is_Some (heap s1 !! ta1)) as Hi by (rewrite (cr_heap _ _ _ _ _ _ _ _ _ _ _ C), lookup_insert_eq; eauto).
    destruct (IS_ERR ta1) eqn:Ee; [by destruct Hm; eapply task_not_err|]. split; [apply (cr_new _ _ _ _ _ _ _ _ _ _ _ C) | done].
Qed.

(** ** From boot to the first switch *)

Lemma init_queues_other l n u : (forall b, u <> RQ b) -> init_queues l n !! u = l !! u.
Proof. intros Hu. induction n as [|n IH]; simpl; [done|]. unfold list_init. by rewrite lookup_insert_ne. Qed.

(** [sched_init] with no task yet. *)
Lemma boot_tasks_ok s U : heap s = ∅ -> links s = list_init ∅ AllHead -> mem_ok (vm s) ∅ U ->
  ring (admitted (n_ps (nr s))) AdmittedHead [] -> tasks_ok (sched_init s) (fun _ => []) [] [] ∅ U.
Proof.
  intros Eh El Hm Hp. split; try done.
  - apply sched_init_ok.
  - cbn. rewrite Eh. intros ta [? ?]. done.
  - cbn -[init_queues]. intros ta Hx. rewrite !init_queues_other, El in Hx by done. unfold list_init in Hx.
    rewrite !lookup_insert_ne in Hx by done. by destruct Hx as [[? ?]|[? ?]].
  - cbn -[init_queues]. eapply ring_frame; [apply (list_init_ring ∅ AllHead)|]. intros u ->%list_elem_of_singleton.
    by rewrite init_queues_other, El.
  - intros ta Hx. by apply elem_of_nil in Hx.
  - cbn. rewrite Eh. intros ta t Hx. by rewrite lookup_empty in Hx.
  - cbn. rewrite Eh. intros ta ta' t t' Hx. by rewrite lookup_empty in Hx.
Qed.

(** The canary check of [schedule] passes. *)
(** The canary check of a live task passes and changes nothing. *)
Lemma canary_holds s Q T G S U ta t : tasks_ok s Q T G S U -> heap s !! ta = Some t -> state t <> TASK_ZOMBIE ->
  kstack_canary_check (vm s) (phys_to_virt (kstack_pa t)) = Done (vm s, true).
Proof.
  intros H Et Hz. destruct (to_stacks _ _ _ _ _ _ H ta t Et Hz) as [Hin Hc].
  destruct (to_mem _ _ _ _ _ _ H) as (P & K & L & Hh). destruct (VmmSlab.h_owns _ _ _ _ _ _ Hh) as (F & A & Hi & _ & HS & _).
  pose proof (stack_block_ok _ F A Hi _ (HS _ Hin)) as Hok. simpl in Hok. pose proof (PmmLists.va_ok _ Hok) as Ev. destruct Hok as [Hr _].
  unfold kstack_canary_check. rewrite (proj2 (Z.eqb_neq _ _)) by (rewrite Ev; unfold KERNEL_VIRT_BASE; lia).
  rewrite VmmSlab.load_direct by (rewrite Ev; lia). cbn [mbind outcome_bind]. by rewrite Hc, Z.eqb_refl.
Qed.

Lemma tasks_stack_intact s Q T G S U cpu : tasks_ok s Q T G S U -> stack_intact s (current s cpu).
Proof.
  intros H pa p Ec Ep _. destruct (so_running _ _ (to_sched _ _ _ _ _ _ H) _ _ (current_lookup _ _ _ Ec)) as ((p' & Ep' & Sp) & _).
  exists (vm s). apply (canary_holds s Q T G S U pa p H Ep). assert (p' = p) as -> by congruence. by rewrite Sp.
Qed.

(** On an idle CPU a task created above everything that is queued is the next to run. *)
Theorem created_task_runs s Q T G S U w w' cpu nm entry_ arg prio d1 d2 s' ta :
  tasks_ok s Q T G S U -> (neri_ready s = true -> roomy (pool (n_ps (nr s)))) -> 0 <= cpu < 256 -> current s cpu = None ->
  (forall b, (Z.to_nat (MIN prio 15) <= b < 16)%nat -> Q b = []) ->
  task_create s w cpu nm entry_ arg prio d1 d2 = Done (s', ta) -> IS_ERR ta = false -> tick_works s' w' ->
  exists s'', schedule s' w' cpu = Done (s'', Some (None, ta)) /\ current s'' cpu = Some ta.
Proof.
  intros H Hr Hcpu Hc Hq E He Hw. pose proof (so_cpus _ _ (to_sched _ _ _ _ _ _ H)) as Hlen.
  destruct (task_create_outcomes s Q T G S U w cpu nm entry_ arg prio d1 d2 H Hr) as [(E' & _)|[(v & p & E' & _)|(s1 & ta1 & k & t & i & G' & E' & C & Ok & _)]];
    rewrite E in E'; [injection E' as _ ->; discriminate He | injection E' as _ ->; discriminate He | injection E' as <- <-].
  set (b := Z.to_nat (MIN prio 15)) in *. assert (b < 16)%nat as Hb by (unfold b, MIN; casei; b2p; lia).
  assert (current s' cpu = None) as Hc' by (unfold current; rewrite (proj1 (cr_rest _ _ _ _ _ _ _ _ _ _ _ C)); exact Hc).
  destruct (schedule_ok s' _ w' cpu (to_sched _ _ _ _ _ _ Ok) Hcpu Hw (tasks_stack_intact _ _ _ _ _ _ cpu Ok))
    as [(Hall & _)|(s2 & b2 & na & l1 & l2 & h & Hb2 & HQ & Hup & _ & _ & Es & Ec2 & _)]; rewrite Hc' in *; cbn [requeued] in *.
  { specialize (Hall b Hb). rewrite updQ_eq in Hall. by destruct (Q b). }
  assert (b2 = b) as ->.
  { destruct (Nat.lt_trichotomy b2 b) as [Hlt|[?|Hgt]]; [|done|].
    - specialize (Hup b ltac:(lia)). rewrite updQ_eq in Hup. by destruct (Q b).
    - rewrite updQ_ne, Hq in HQ by lia. by destruct l1. }
  rewrite updQ_eq, Hq in HQ by lia. assert (na = ta) as -> by (destruct l1 as [|x [|y l1]]; simpl in HQ; congruence).
  exists s2. split; [exact Es|]. unfold current. rewrite Ec2, nth_lookup, list_lookup_insert_eq; [done|].
  rewrite (proj1 (cr_rest _ _ _ _ _ _ _ _ _ _ _ C)), Hlen. lia.
Qed.

(** ** A booted system *)

Definition first_sys : sys :=
  sched_init (mk_sys VmmSlab.vmm_ex ∅ (replicate 1024 None) 0 1 (list_init ∅ AllHead) (replicate 16 0) (replicate 256 None)
    (mk_neri (neri_pool_init ∅ 0 32768 4 2 0) (neri_utb_init (fun _ => 0) 0) neri_nzra_init neki_start
       (mk_sec (replicate 32 7) true (mk_anomaly 179 2 false 32) zero_feat)) neri_ado_init).

Lemma first_mem_ok : mem_ok VmmSlab.vmm_ex ∅ ∅.
Proof. destruct PmmSpec.PmmSpec.run_ex_inv as [F H]. exact (fresh_mem_ok (mk_vmm _ 0 0xFFFF000000000000 [] ∅) F ∅ 0x1000 H). Qed.

Lemma first_tasks_ok : tasks_ok first_sys (fun _ => []) [] [] ∅ ∅.
Proof. apply boot_tasks_ok; [done | done | apply first_mem_ok | apply list_init_ring]. Qed.

Lemma first_roomy : roomy (pool (n_ps (nr first_sys))).
Proof. vm_compute. split; discriminate. Qed.


End SchedCreate.
