(* ===== verification/SchedLife.v ===== *)
(** * The life of a task

    Creation, timer ticks, yields and exits in any order and on any processor.  [life_ok] adds
    to [SchedCreate.tasks_ok] where each task is: a READY task is in a run queue, a RUNNING one
    is current on a processor, and only READY tasks have links.  Every operation keeps it, so in
    no run is a task lost, dispatched twice or left without its stack. *)

From S2P Require Import Prelude Buddy Pmm PmmLists PmmInv PageAlloc Vmm VmmSlab KStack ListHead Float Neri Sched SchedProof SchedCreate.
Import Buddy Pmm PageAlloc Vmm KStack ListHead Neri Sched SchedProof SchedCreate.

Module SchedLife.

(** ** The invariant *)

Definition self_linked (ps : pool_state) (ta : Z) : Prop :=
  admitted ps !! ProcNode ta = Some (mk_lh (Some (ProcNode ta)) (Some (ProcNode ta))).

Record life_ok (s : sys) (Q : queues) (T G : list Z) (S : gset Z) (U : gmap Z nat) : Prop := {
  lf_tasks : tasks_ok s Q T G S U;
  lf_states : forall ta t, heap s !! ta = Some t -> state t = TASK_READY \/ state t = TASK_RUNNING \/ state t = TASK_ZOMBIE;
  lf_ready : forall ta t, heap s !! ta = Some t -> state t = TASK_READY -> exists b, (b < 16)%nat /\ ta ∈ Q b;
  lf_running : forall ta t, heap s !! ta = Some t -> state t = TASK_RUNNING -> exists c, current_task s !! c = Some (Some ta);
  lf_unlinked : forall ta t, heap s !! ta = Some t -> state t <> TASK_READY -> links s !! RqNode ta = Some (mk_lh None None);
  lf_listed : forall ta t, heap s !! ta = Some t -> state t <> TASK_ZOMBIE -> ta ∈ T /\ (ta ∈ G \/ self_linked (n_ps (nr s)) ta)
}.

(** A record that changes in neither its state nor its stack. *)
Lemma life_put s Q T G S U ta t t' : life_ok s Q T G S U -> heap s !! ta = Some t -> state t' = state t -> kstack_pa t' = kstack_pa t ->
  life_ok (put s ta t') Q T G S U.
Proof.
  intros [H Hs Hr Hc Hu Hl] Et Es Ek.
  assert (forall x k', heap (put s ta t') !! x = Some k' -> exists k, heap s !! x = Some k /\ state k' = state k /\ kstack_pa k' = kstack_pa k) as Hh.
  { intros x k'. cbn. destruct (decide (x = ta)) as [->|Hne]; [rewrite lookup_insert_eq; intros [= <-]; eauto|].
    rewrite lookup_insert_ne by done. eauto. }
  assert (forall x, is_Some (heap s !! x) -> is_Some (heap (put s ta t') !! x)) as Hd.
  { intros x Hx. cbn. destruct (decide (x = ta)) as [->|Hne]; [rewrite lookup_insert_eq; eauto | by rewrite lookup_insert_ne]. }
  split; [split; try (by apply H)| | | | |].
  - apply (sched_ok_put s Q ta t t' (to_sched _ _ _ _ _ _ H) Et Es).
  - intros x [k' (k & Hk & _)%Hh]. apply (to_live _ _ _ _ _ _ H). eauto.
  - intros x Hx. by apply Hd, (to_nodes _ _ _ _ _ _ H).
  - intros x Hx. by apply Hd, (to_admitted _ _ _ _ _ _ H).
  - intros x k' (k & Hk & E1 & E2)%Hh Hz. rewrite E2. apply (to_stacks _ _ _ _ _ _ H x k); [done | congruence].
  - intros x y k' j' (k & Hk & E1 & E2)%Hh (j & Hj & E3 & E4)%Hh Hz Hz' E. apply (to_own _ _ _ _ _ _ H x y k j); congruence.
  - intros x k' (k & Hk & -> & _)%Hh. by eapply Hs.
  - intros x k' (k & Hk & -> & _)%Hh. by eapply Hr.
  - intros x k' (k & Hk & -> & _)%Hh. by eapply Hc.
  - intros x k' (k & Hk & -> & _)%Hh. by eapply Hu.
  - intros x k' (k & Hk & -> & _)%Hh. by eapply Hl.
Qed.

(** ** [schedule] *)

Lemma tick_keeps_list s w n : tick_neri s w = Done (with_nr s n) -> admitted (n_ps n) = admitted (n_ps (nr s)).
Proof.
  assert (forall x y, Done x = Done y -> nr x = nr y) as Inj by (intros x y [= ->]; done).
  unfold tick_neri. destruct (negb _); [intros E%Inj; cbn in E; by rewrite <- E|].
  destruct (pmm_stats _) as [tp fp]. destruct (neri_sched_tick _ _ _ _ _ _ _ _ _ _) as [n1|] eqn:E1; [|done]. cbn. intros E%Inj. cbn in E. subst n1.
  unfold neri_sched_tick in E1. destruct (tick_pool _ _ _ _ _) as [p ended]. destruct ended as [ep|]; [|by injection E1 as <-].
  destruct (if Z.land ep 63 =? 0 then _ else _) as [kw|]; [|done]. cbn in E1. by injection E1 as <-.
Qed.

Section dispatch.
Context (s : sys) (Q : queues) (T G : list Z) (S : gset Z) (U : gmap Z nat) (L : life_ok s Q T G S U).
Context (w : hw) (cpu na : Z) (b : nat) (l1 l2 : list Z) (s' : sys) (h : gmap Z task) (l m : slinks) (n : task).
Context (D : dispatch_of s Q w cpu na b l1 l2 s' h l m n) (Hcpu : 0 <= cpu < 256).
#[local] Abbreviation Q1 := (requeued s Q (current s cpu)).

(** The parts of the state after the dispatch; the canary check leaves memory alone. *)
Lemma dispatch_parts : exists nr', heap s' = <[na := dispatched n cpu]> h /\ links s' = m /\
  current_task s' = <[Z.to_nat cpu := Some na]> (current_task s) /\ vm s' = vm s /\ nr s' = nr' /\
  admitted (n_ps nr') = admitted (n_ps (nr s)).
Proof.
  destruct (di_state _ _ _ _ _ _ _ _ _ _ _ _ _ D) as (n' & v & Et & -> & Hv). exists n'.
  assert (v = vm s) as ->.
  { destruct Hv as [->|(pa & p & Ec & Ep & E)]; [done|]. pose proof (lf_tasks _ _ _ _ _ _ L) as H.
    destruct (so_running _ _ (to_sched _ _ _ _ _ _ H) _ _ (current_lookup _ _ _ Ec)) as ((p' & Ep' & Sp) & _).
    assert (p' = p) as -> by congruence. rewrite (canary_holds s Q T G S U pa p H Ep) in E by (by rewrite Sp). by injection E. }
  do 5 (split; [done|]). by eapply tick_keeps_list.
Qed.

(** Nodes that are in no queue keep their links. *)
Lemma dispatch_frame u : (forall b', u <> RQ b') -> (forall x, u = RqNode x -> nowhere Q1 x) -> m !! u = links s !! u.
Proof.
  intros H1 H2. rewrite (di_frame _ _ _ _ _ _ _ _ _ _ _ _ _ D).
  - by apply (rp_frame _ _ _ _ _ (di_requeue _ _ _ _ _ _ _ _ _ _ _ _ _ D)).
  - destruct (di_queue _ _ _ _ _ _ _ _ _ _ _ _ _ D) as (Hb & _).
    intros [->|(x & -> & Hx)%list_elem_of_fmap]%elem_of_cons; [by apply (H1 b) | by apply (H2 x eq_refl b)].
Qed.

(** What becomes of each record. *)
Lemma dispatched_task x k' : heap s' !! x = Some k' -> exists k, heap s !! x = Some k /\ kstack_pa k' = kstack_pa k /\
  (x = na /\ state k' = TASK_RUNNING /\ state k <> TASK_ZOMBIE \/
   x <> na /\ (k' = k /\ (state k <> TASK_READY -> nowhere Q1 x) \/
               current s cpu = Some x /\ state k = TASK_RUNNING /\ state k' = TASK_READY)).
Proof.
  destruct dispatch_parts as (nr' & -> & _). pose proof (di_requeue _ _ _ _ _ _ _ _ _ _ _ _ _ D) as RP.
  destruct (di_queue _ _ _ _ _ _ _ _ _ _ _ _ _ D) as (Hb & HQ & _).
  destruct (decide (x = na)) as [->|Hne].
  - rewrite lookup_insert_eq. intros [= <-]. destruct (rp_task _ _ _ _ _ RP na n (di_task _ _ _ _ _ _ _ _ _ _ _ _ _ D)) as (k & Hk & Es & Hst).
    exists k. split; [done|]. split; [exact Es|]. left. split; [done|]. split; [done|].
    destruct (rp_ready _ _ _ _ _ RP b na Hb) as (r & Hr & Sr); [rewrite HQ; set_solver|].
    assert (r = n) as -> by (rewrite (di_task _ _ _ _ _ _ _ _ _ _ _ _ _ D) in Hr; congruence).
    destruct Hst as [->|(_ & -> & _)]; [by rewrite Sr | done].
  - rewrite lookup_insert_ne by done. intros Hx. destruct (rp_task _ _ _ _ _ RP x k' Hx) as (k & Hk & Es & Hst).
    exists k. split; [done|]. split; [done|]. right. split; [done|]. destruct Hst as [->|?]; [left | by right]. split; [done|].
    intros Hnr b' Hb' Hin. destruct (rp_ready _ _ _ _ _ RP b' x Hb' Hin) as (r & Hr & Sr). congruence.
Qed.

Lemma dispatch_dom x : is_Some (heap s !! x) <-> is_Some (heap s' !! x).
Proof.
  split; [|intros [k' (k & Hk & _)%dispatched_task]; eauto]. destruct dispatch_parts as (nr' & -> & _). intros [k Hk].
  pose proof (di_requeue _ _ _ _ _ _ _ _ _ _ _ _ _ D) as RP. destruct (decide (x = na)) as [->|Hne]; [rewrite lookup_insert_eq; eauto|].
  rewrite lookup_insert_ne by done. destruct (decide (current s cpu = Some x)) as [E|E].
  - destruct (rp_stack _ _ _ _ _ RP x k E Hk) as (p' & -> & _). eauto.
  - rewrite (rp_others _ _ _ _ _ RP x E). eauto.
Qed.

(** Whoever was queued or current still is. *)
Lemma dispatch_queued x bx : (bx < 16)%nat -> x <> na -> x ∈ Q bx \/ current s cpu = Some x /\ is_Some (heap s !! x) ->
  exists b', (b' < 16)%nat /\ x ∈ updQ Q1 b (l1 ++ l2) b'.
Proof.
  intros Hbx Hne Hx. destruct (di_queue _ _ _ _ _ _ _ _ _ _ _ _ _ D) as (Hb & HQ & _).
  assert (exists b', (b' < 16)%nat /\ x ∈ Q1 b') as (b' & Hb' & Hin).
  { unfold requeued. destruct (current s cpu) as [pa|]; [|destruct Hx as [?|[? _]]; [eauto | done]].
    destruct (heap s !! pa) as [p|] eqn:Ep; [|destruct Hx as [?|[[= ->] [? ?]]]; [eauto | congruence]].
    destruct Hx as [Hx|[[= ->] _]].
    - exists bx. split; [done|]. unfold updQ. case_decide; [subst; set_solver | done].
    - exists (band_of p). split; [apply band_lt|]. rewrite updQ_eq. set_solver. }
  exists b'. split; [done|]. unfold updQ. case_decide as Eb; [|done]. subst b'. rewrite HQ in Hin. set_solver.
Qed.

Lemma dispatch_tasks : tasks_ok s' (updQ Q1 b (l1 ++ l2)) T G S U.
Proof.
  destruct dispatch_parts as (nr' & Eh & El & Ec & Ev & En & Ea). pose proof (lf_tasks _ _ _ _ _ _ L) as H.
  assert (forall x k', heap s' !! x = Some k' -> exists k, heap s !! x = Some k /\ kstack_pa k' = kstack_pa k /\
    (state k' <> TASK_ZOMBIE -> state k <> TASK_ZOMBIE)) as Hh.
  { intros x k' (k & Hk & Es & C)%dispatched_task. exists k. split; [done|]. split; [done|].
    destruct C as [(_ & _ & Hz)|(_ & [[-> _]|(_ & Hr & _)])]; [done | done | by rewrite Hr]. }
  split; rewrite ?El, ?Ev, ?En, ?Ea; try apply H.
  - apply (di_ok _ _ _ _ _ _ _ _ _ _ _ _ _ D).
  - intros x Hx%dispatch_dom. by apply (to_live _ _ _ _ _ _ H).
  - intros x Hx. apply dispatch_dom. destruct Hx as [Hx|Hx].
    + destruct (heap s' !! x) as [k|] eqn:Ek; [apply dispatch_dom; eauto|]. apply (to_nodes _ _ _ _ _ _ H). left.
      rewrite dispatch_frame in Hx; [done | done|]. intros y [= <-] b' Hb' Hin.
      destruct (rp_ready _ _ _ _ _ (di_requeue _ _ _ _ _ _ _ _ _ _ _ _ _ D) b' x Hb' Hin) as (r & Hr & _).
      rewrite Eh in Ek. destruct (decide (x = na)) as [->|]; [by rewrite lookup_insert_eq in Ek|]. rewrite lookup_insert_ne in Ek by done. congruence.
    + rewrite dispatch_frame in Hx by done. apply (to_nodes _ _ _ _ _ _ H). by right.
  - eapply ring_frame; [apply (to_all _ _ _ _ _ _ H)|]. intros u Hu. apply dispatch_frame.
    + intros b' ->. by apply elem_of_cons in Hu as [?|(y & ? & _)%list_elem_of_fmap].
    + intros x ->. by apply elem_of_cons in Hu as [?|(y & ? & _)%list_elem_of_fmap].
  - intros x Hx. by apply dispatch_dom, (to_admitted _ _ _ _ _ _ H).
  - intros x k' (k & Hk & E & Hz)%Hh Hz'. rewrite E. apply (to_stacks _ _ _ _ _ _ H x k Hk). auto.
  - intros x y k' j' (k & Hk & E & Hz)%Hh (j & Hj & E2 & Hz2)%Hh H1 H2 E3. apply (to_own _ _ _ _ _ _ H x y k j); auto. congruence.
Qed.

Lemma dispatch_life : life_ok s' (updQ Q1 b (l1 ++ l2)) T G S U.
Proof.
  destruct dispatch_parts as (nr' & Eh & El & Ec & Ev & En & Ea). pose proof (lf_tasks _ _ _ _ _ _ L) as H.
  pose proof (so_cpus _ _ (to_sched _ _ _ _ _ _ H)) as Hlen.
  split; [apply dispatch_tasks|..].
  - intros x k' (k & Hk & _ & [(_ & ? & _)|(_ & [[-> _]|(_ & _ & ?)])])%dispatched_task; auto. by apply (lf_states _ _ _ _ _ _ L x).
  - intros x k' (k & Hk & _ & [(_ & E & _)|(Hne & [[-> _]|(E & _)])])%dispatched_task Hr; [by rewrite Hr in E| |].
    + destruct (lf_ready _ _ _ _ _ _ L x k Hk Hr) as (bx & Hbx & Hin). apply (dispatch_queued x bx Hbx Hne). by left.
    + apply (dispatch_queued x 0 ltac:(lia) Hne). right. eauto.
  - intros x k' (k & Hk & _ & [(-> & _)|(Hne & [[-> Hnw]|(_ & _ & E)])])%dispatched_task Hr; [| |by rewrite Hr in E]; rewrite Ec.
    + exists (Z.to_nat cpu). apply list_lookup_insert_eq. lia.
    + destruct (lf_running _ _ _ _ _ _ L x k Hk Hr) as (c & Hc). exists c. rewrite list_lookup_insert_ne; [done|]. intros <-.
      assert (current s cpu = Some x) as E by (unfold current; by rewrite nth_lookup, Hc).
      apply (Hnw ltac:(by rewrite Hr) (band_of k) (band_lt k)). unfold requeued. rewrite E, Hk, updQ_eq. set_solver.
  - intros x k' (k & Hk & _ & [(-> & _)|(Hne & [[-> Hnw]|(_ & _ & E)])])%dispatched_task Hr; [| |by destruct Hr]; rewrite El.
    + apply (di_null _ _ _ _ _ _ _ _ _ _ _ _ _ D).
    + rewrite dispatch_frame; [by apply (lf_unlinked _ _ _ _ _ _ L x k) | done|]. intros y [= <-]. auto.
  - intros x k' (k & Hk & _ & C)%dispatched_task Hz. unfold self_linked. rewrite En, Ea. apply (lf_listed _ _ _ _ _ _ L x k Hk).
    destruct C as [(_ & _ & ?)|(_ & [[-> _]|(_ & Hr & _)])]; [done | done | by rewrite Hr].
Qed.
End dispatch.

(** [schedule] keeps every task where it can be found; it faults only in the tick of the
    resource manager and never panics. *)
Lemma schedule_life s Q T G S U w cpu : life_ok s Q T G S U -> 0 <= cpu < 256 ->
  (exists s' sw Q', schedule s w cpu = Done (s', sw) /\ life_ok s' Q' T G S U) \/ (schedule s w cpu = Fault /\ ~ tick_works s w).
Proof.
  intros L Hc. pose proof (lf_tasks _ _ _ _ _ _ L) as H.
  destruct (schedule_cases s Q w cpu (to_sched _ _ _ _ _ _ H) Hc (tasks_stack_intact _ _ _ _ _ _ cpu H))
    as [(_ & _ & E)|[[Ht E]|(s' & b & na & l1 & l2 & h & l & m & n & D & E)]].
  - left. exists s, None, Q. done.
  - by right.
  - left. eexists _, _, _. split; [exact E|]. eapply dispatch_life; [exact L | exact D | done].
Qed.

(** ** The timer *)

Lemma tick_works_same s w s1 : nr s1 = nr s -> vm s1 = vm s -> tick_works s w -> tick_works s1 w.
Proof. intros En Ev Hw. unfold tick_works. destruct (tick_frame s w s1 Hw En Ev) as (n & ->). done. Qed.

Lemma tick_life s Q T G S U w cpu : life_ok s Q T G S U -> 0 <= cpu < 256 ->
  (exists s' sw Q', sched_tick s w cpu = Done (s', sw) /\ life_ok s' Q' T G S U) \/ (sched_tick s w cpu = Fault /\ ~ tick_works s w).
Proof.
  intros L Hc. unfold sched_tick. destruct (current s cpu) as [ta|] eqn:Ec; [|by apply (schedule_life s Q)].
  destruct (so_running _ _ (to_sched _ _ _ _ _ _ (lf_tasks _ _ _ _ _ _ L)) _ _ (current_lookup _ _ _ Ec)) as ((t & Et & _) & _).
  unfold deref. rewrite Et. cbn [faulting mbind outcome_bind].
  assert (forall z, life_ok (put s ta (set_timeslice (charge t) z)) Q T G S U) as Lp by (intros z; by apply (life_put s Q T G S U ta t)).
  destruct (TICK_NS <? timeslice_ns (charge t)); [left; eexists _, None, Q; split; [reflexivity | apply Lp]|].
  destruct (schedule_life _ Q T G S U w cpu (Lp 0) Hc) as [?|[E Hn]]; [by left|]. right. split; [exact E|].
  intros Hw. apply Hn. by apply (tick_works_same s).
Qed.

(** ** Creation *)

Lemma life_vm s Q T G S U v p : life_ok s Q T G S U -> tasks_ok (with_vm (with_next_pid s p) v) Q T G S U ->
  life_ok (with_vm (with_next_pid s p) v) Q T G S U.
Proof. intros [_ Hs Hr Hc Hu Hl] H. by split. Qed.

Lemma create_life s Q T G S U w cpu nm entry_ arg prio d1 d2 : life_ok s Q T G S U ->
  (neri_ready s = true -> roomy (pool (n_ps (nr s)))) ->
  exists s' r Q' T' G' S' U', task_create s w cpu nm entry_ arg prio d1 d2 = Done (s', r) /\ life_ok s' Q' T' G' S' U'.
Proof.
  intros L Hr. pose proof (lf_tasks _ _ _ _ _ _ L) as H.
  destruct (task_create_outcomes s Q T G S U w cpu nm entry_ arg prio d1 d2 H Hr)
    as [(-> & _)|[(v & p & -> & Ok & _)|(s' & ta & k & t & i & G' & -> & C & Ok & [LQ LP LN])]].
  - by eexists _, _, Q, T, G, S, U.
  - eexists _, _, Q, T, G, S, U. split; [reflexivity|]. by apply life_vm.
  - set (b := Z.to_nat (MIN prio 15)) in *. eexists _, _, _, _, _, _, _. split; [reflexivity|].
    pose proof (cr_heap _ _ _ _ _ _ _ _ _ _ _ C) as Eh. destruct (cr_run _ _ _ _ _ _ _ _ _ _ _ C) as (Est & _).
    destruct (cr_new _ _ _ _ _ _ _ _ _ _ _ C) as [Hnew _]. destruct (cr_rest _ _ _ _ _ _ _ _ _ _ _ C) as (Ecur & _).
    assert (b < 16)%nat as Hb by (unfold b, MIN; casei; b2p; lia).
    assert (forall x y, heap s' !! x = Some y -> x = ta /\ y = t \/ x <> ta /\ heap s !! x = Some y) as Hcase.
    { intros x y. rewrite Eh, lookup_insert_Some. intros [[<- <-]|[? ?]]; auto. }
    split; [exact Ok|..].
    + intros x y [[-> ->]|[Hne Hx]]%Hcase; [by left | by apply (lf_states _ _ _ _ _ _ L x)].
    + intros x y [[-> ->]|[Hne Hx]]%Hcase Hy.
      * exists b. split; [done|]. rewrite updQ_eq. set_solver.
      * destruct (lf_ready _ _ _ _ _ _ L x y Hx Hy) as (b' & Hb' & Hin). exists b'. split; [done|]. unfold updQ. case_decide; [subst; set_solver | done].
    + rewrite Ecur. intros x y [[-> ->]|[Hne Hx]]%Hcase Hy; [by rewrite Hy in Est | by apply (lf_running _ _ _ _ _ _ L x y)].
    + intros x y [[-> ->]|[Hne Hx]]%Hcase Hy; [by destruct Hy|]. rewrite LQ; [by apply (lf_unlinked _ _ _ _ _ _ L x y) | done|].
      intros b' Hb' Hin. destruct (so_ready _ _ (to_sched _ _ _ _ _ _ H) b' x Hb' Hin) as (k' & Hk' & Hs'). congruence.
    + intros x y [[-> ->]|[Hne Hx]]%Hcase Hz.
      * split; [set_solver|]. destruct LN as [->|[-> ?]]; [left; set_solver | by right].
      * destruct (lf_listed _ _ _ _ _ _ L x y Hx Hz) as [HT HG]. split; [set_solver|].
        destruct (decide (x ∈ G)) as [Hg|Hg]; [left; destruct LN as [->|[-> _]]; set_solver|].
        destruct HG as [?|HG]; [done|]. right. unfold self_linked. by rewrite LP.
Qed.

(** ** Exit *)

Lemma release_ring ps ta proc G : ring (admitted ps) AdmittedHead (ProcNode <$> G) -> ta ∈ G \/ self_linked ps ta ->
  exists ps' G', neri_sched_release ps ta proc = Some ps' /\ ring (admitted ps') AdmittedHead (ProcNode <$> G') /\
    (forall x, x ∈ G' -> x ∈ G) /\ (forall x, x ∈ G -> x <> ta -> x ∈ G') /\
    (forall x, x <> ta -> x ∉ G -> admitted ps' !! ProcNode x = admitted ps !! ProcNode x).
Proof.
  intros R Hta. unfold neri_sched_release. destruct (decide (ta ∈ G)) as [Hin|Hout].
  - apply list_elem_of_split in Hin as (g1 & g2 & ->). rewrite fmap_app, fmap_cons in R.
    destruct (ring_split _ _ _ _ _ R) as (p & q & Hn & _). unfold nxt in Hn. simpl. rewrite Hn. simpl.
    destruct (list_del_ring _ _ _ _ _ R) as (m & -> & R' & _ & F). simpl. eexists _, (g1 ++ g2). split; [reflexivity|]. cbn [admitted].
    rewrite fmap_app. split; [done|]. split; [set_solver|]. split; [set_solver|]. intros x Hx Hnot. apply F.
    intros [?|Hin]%elem_of_cons; [done|]. rewrite <- fmap_cons, <- fmap_app in Hin. by apply list_elem_of_fmap in Hin as (y & [= ->] & Hy).
  - destruct Hta as [?|Hs]; [done|]. unfold self_linked in Hs. simpl. rewrite Hs. simpl.
    destruct (list_del_self _ _ Hs) as (m & -> & _ & F). simpl. eexists _, G. split; [reflexivity|]. cbn [admitted].
    split; [eapply ring_frame; [exact R|]; intros u Hu; apply F; intros ->|].
    { apply elem_of_cons in Hu as [?|(y & [= ->] & Hy)%list_elem_of_fmap]; done. }
    split; [done|]. split; [done|]. intros x Hx _. apply F. congruence.
Qed.

Lemma release_step s ta t G : heap s !! ta = Some t -> ring (admitted (n_ps (nr s))) AdmittedHead (ProcNode <$> G) ->
  ta ∈ G \/ self_linked (n_ps (nr s)) ta ->
  exists n' G', release_neri s ta = Done (with_nr s n') /\ ring (admitted (n_ps n')) AdmittedHead (ProcNode <$> G') /\
    (forall x, x ∈ G' -> x ∈ G) /\ (forall x, x ∈ G -> x <> ta -> x ∈ G') /\
    (forall x, x <> ta -> x ∉ G -> admitted (n_ps n') !! ProcNode x = admitted (n_ps (nr s)) !! ProcNode x).
Proof.
  intros Et R Hta. unfold release_neri. destruct (negb (neri_ready s)); [exists (nr s), G; split; [by destruct s | done]|].
  unfold deref. rewrite Et. cbn [faulting mbind outcome_bind].
  destruct (release_ring (n_ps (nr s)) ta (neri t) G R Hta) as (ps' & G' & -> & H'). cbn [faulting mbind outcome_bind]. by eexists _, G'.
Qed.

Section exit.
Context (s : sys) (Q : queues) (T G : list Z) (S : gset Z) (U : gmap Z nat) (L : life_ok s Q T G S U).
Context (ta : Z) (t : task) (Et : heap s !! ta = Some t) (St : state t = TASK_READY).

(** Up to the last call: the task is a zombie on no list, its stack is free. *)
Lemma exit_steps : exists n' l b q1 q2 T' G',
  (b < 16)%nat /\ Q b = q1 ++ ta :: q2 /\ (forall x, x ∈ T -> x <> ta -> x ∈ T') /\
  (forall x, x ∈ G' -> x ∈ G) /\ (forall x, x ∈ G -> x <> ta -> x ∈ G') /\
  (forall x, x <> ta -> x ∉ G -> admitted (n_ps n') !! ProcNode x = admitted (n_ps (nr s)) !! ProcNode x) /\
  ring (admitted (n_ps n')) AdmittedHead (ProcNode <$> G') /\ ring l AllHead (AllNode <$> T') /\
  rings_ok l (updQ Q b (q1 ++ q2)) /\ nowhere (updQ Q b (q1 ++ q2)) ta /\ l !! RqNode ta = Some (mk_lh None None) /\
  (forall u, is_Some (l !! u) <-> is_Some (links s !! u)) /\
  (forall x, nowhere Q x -> l !! RqNode x = links s !! RqNode x) /\
  forall w cpu code, task_exit s w cpu (Some ta) code =
    schedule (with_vm (with_links (with_nr (put s ta (set_state t TASK_ZOMBIE)) n') l)
                (with_pm (vm s) (pmm_free_pages (pm (vm s)) (kstack_pa t) 2))) w cpu.
Proof.
  pose proof (lf_tasks _ _ _ _ _ _ L) as H. destruct (lf_listed _ _ _ _ _ _ L ta t Et) as [HT HG]; [by rewrite St|].
  destruct (lf_ready _ _ _ _ _ _ L ta t Et St) as (b & Hb & (q1 & q2 & HQ)%list_elem_of_split).
  set (s1 := put s ta (set_state t TASK_ZOMBIE)).
  destruct (release_step s1 ta (set_state t TASK_ZOMBIE) G (lookup_insert_eq _ _ _) (to_pool _ _ _ _ _ _ H) HG) as (n' & G' & Er & R' & G1 & G2 & G3).
  pose proof (so_rings _ _ (to_sched _ _ _ _ _ _ H)) as HR.
  destruct (rings_del (links s) Q b ta q1 q2 HR Hb HQ) as (m & Em & HR' & Hd & Hnw & Hnull & Hf).
  assert (forall u, (forall b', u <> RQ b') -> (forall x, u = RqNode x -> x ∉ Q b) -> m !! u = links s !! u) as Hf'.
  { intros u H1 H2. apply Hf. intros [->|(x & -> & Hx)%list_elem_of_fmap]%elem_of_cons; [by apply (H1 b) | by apply (H2 x)]. }
  apply list_elem_of_split in HT as (t1 & t2 & ->).
  assert (ring m AllHead ((AllNode <$> t1) ++ AllNode ta :: (AllNode <$> t2))) as RA.
  { rewrite <- fmap_cons, <- fmap_app. eapply ring_frame; [apply (to_all _ _ _ _ _ _ H)|]. intros u Hu. apply Hf'.
    - intros b' ->. by apply elem_of_cons in Hu as [?|(y & ? & _)%list_elem_of_fmap].
    - intros x ->. by apply elem_of_cons in Hu as [?|(y & ? & _)%list_elem_of_fmap]. }
  destruct (ring_split _ _ _ _ _ RA) as (p & q & Hn & _). unfold nxt in Hn.
  destruct (list_del_ring _ _ _ _ _ RA) as (l & El & RA' & Enull & Fl).
  assert (forall u, (forall x, u <> AllNode x) -> u <> AllHead -> l !! u = m !! u) as Fl'.
  { intros u H1 H2. apply Fl. rewrite <- fmap_cons, <- fmap_app. intros [?|(x & -> & _)%list_elem_of_fmap]%elem_of_cons; [done | by apply (H1 x)]. }
  exists n', l, b, q1, q2, (t1 ++ t2), G'. do 2 (split; [done|]). split; [set_solver|]. do 4 (split; [done|]).
  split; [by rewrite fmap_app|]. split.
  { split; [|apply HR']. intros b' Hb'. eapply ring_frame; [by apply HR'|].
    intros u [->|(x & -> & _)%list_elem_of_fmap]%elem_of_cons; by apply Fl'. }
  split; [done|]. split; [by rewrite Fl'|]. split.
  { intros u. transitivity (is_Some (m !! u)).
    - destruct (decide (u ∈ AllHead :: (AllNode <$> t1) ++ AllNode ta :: (AllNode <$> t2))) as [Hu|Hu]; [|by rewrite Fl].
      split; intros _; [by eapply ring_members|]. destruct (decide (u = AllNode ta)) as [->|Hne]; [by rewrite Enull|].
      eapply ring_members; [exact RA'|]. set_solver.
    - destruct (decide (u ∈ RQ b :: (RqNode <$> Q b))) as [Hu|Hu]; [|by rewrite Hf].
      split; intros _; [|apply Hd]; (eapply ring_members; [apply (ro_ring _ _ HR b Hb) | exact Hu]). }
  split. { intros x Hx. rewrite Fl' by done. apply Hf'; [done|]. intros y [= <-]. by apply Hx. }
  intros w cpu code. unfold task_exit, deref. rewrite Et. cbn [faulting mbind outcome_bind]. fold s1. rewrite Er. cbn [mbind outcome_bind].
  unfold dequeue. cbn [links with_nr]. change (links s1) with (links s). rewrite Em. cbn [faulting mbind outcome_bind links with_links].
  unfold get_next. cbn [mbind option_bind]. rewrite Hn. cbn [faulting mbind outcome_bind]. rewrite El. cbn [faulting mbind outcome_bind].
  rewrite (proj2 (Z.eqb_neq (kstack_pa t) 0)); [done|].
  destruct (to_stacks _ _ _ _ _ _ H ta t Et) as [Hk _]; [by rewrite St|]. destruct (to_mem _ _ _ _ _ _ H) as (P & K & Lx & Hh).
  destruct (VmmSlab.h_owns _ _ _ _ _ _ Hh) as (F & A & Hi & _ & HS & _). destruct (stack_block_ok _ F A Hi _ (HS _ Hk)) as [Hr _]. simpl in Hr. lia.
Qed.

(** The system without the task. *)
Lemma exit_tasks n' l b q1 q2 T' G' : (b < 16)%nat -> Q b = q1 ++ ta :: q2 -> (forall x, x ∈ G' -> x ∈ G) ->
  ring (admitted (n_ps n')) AdmittedHead (ProcNode <$> G') -> ring l AllHead (AllNode <$> T') ->
  rings_ok l (updQ Q b (q1 ++ q2)) -> (forall u, is_Some (l !! u) <-> is_Some (links s !! u)) ->
  (forall x, nowhere Q x -> l !! RqNode x = links s !! RqNode x) ->
  tasks_ok (with_vm (with_links (with_nr (put s ta (set_state t TASK_ZOMBIE)) n') l)
              (with_pm (vm s) (pmm_free_pages (pm (vm s)) (kstack_pa t) 2))) (updQ Q b (q1 ++ q2)) T' G' (S ∖ {[kstack_pa t]}) U.
Proof.
  intros Hb HQ HG RG RA HR Hdom Hkeep. pose proof (lf_tasks _ _ _ _ _ _ L) as H. pose proof (to_sched _ _ _ _ _ _ H) as Hs.
  destruct (to_stacks _ _ _ _ _ _ H ta t Et) as [Hk _]; [by rewrite St|].
  destruct (stack_free (vm s) S U (kstack_pa t) (to_mem _ _ _ _ _ _ H) Hk) as (Hm & Hsame & _).
  assert (forall x k, <[ta := set_state t TASK_ZOMBIE]> (heap s) !! x = Some k -> state k <> TASK_ZOMBIE -> x <> ta /\ heap s !! x = Some k) as Hlive.
  { intros x k. destruct (decide (x = ta)) as [->|Hne]; [rewrite lookup_insert_eq; by intros [= <-] []|]. rewrite lookup_insert_ne by done. done. }
  assert (forall x, is_Some (heap s !! x) <-> is_Some (<[ta := set_state t TASK_ZOMBIE]> (heap s) !! x)) as Hhd.
  { intros x. destruct (decide (x = ta)) as [->|Hne]; [rewrite lookup_insert_eq, Et; split; eauto | by rewrite lookup_insert_ne]. }
  assert (forall b' x, x ∈ updQ Q b (q1 ++ q2) b' -> x ∈ Q b') as Hsub.
  { intros b' x. unfold updQ. case_decide; [subst; rewrite HQ; set_solver | done]. }
  assert (forall c, current_task s !! c <> Some (Some ta)) as Hnc.
  { intros c Hc. destruct (so_running _ _ Hs c ta Hc) as ((k & Hk' & E) & _). rewrite Et in Hk'. injection Hk' as <-. by rewrite St in E. }
  split; cbn [vm heap links nr with_vm with_links with_nr put with_heap]; try done.
  - split; cbn [heap links current_task with_vm with_links with_nr put with_heap]; [done| |apply Hs| |apply Hs].
    + intros b' x Hb' Hx. destruct (so_ready _ _ Hs b' x Hb' (Hsub b' x Hx)) as (k & Hk' & E). exists k. split; [|done].
      rewrite lookup_insert_ne; [done|]. intros <-. assert (b' = b) as ->.
      { apply (ro_disj _ _ (so_rings _ _ Hs) b' b ta); [done | done | by apply Hsub | rewrite HQ; set_solver]. }
      rewrite updQ_eq in Hx. destruct (ro_ring _ _ (so_rings _ _ Hs) b Hb) as [[_ Hnd]%NoDup_cons _]. apply NoDup_fmap_1 in Hnd. rewrite HQ in Hnd.
      apply NoDup_app in Hnd as (_ & Hd & [Hn _]%NoDup_cons). apply elem_of_app in Hx as [Hx|Hx]; [by apply (Hd ta Hx), list_elem_of_here | done].
    + intros c x Hc. destruct (so_running _ _ Hs c x Hc) as ((k & Hk' & E) & Hl & Hn). assert (x <> ta) by (intros ->; by apply (Hnc c)).
      rewrite lookup_insert_ne by done. split; [eauto|]. split; [by apply Hdom|]. intros b' Hb' Hx. apply (Hn b' Hb'). by apply Hsub.
  - intros x Hx%Hhd. by apply (to_live _ _ _ _ _ _ H).
  - intros x Hx. apply Hhd, (to_nodes _ _ _ _ _ _ H). by rewrite <- !Hdom.
  - intros x Hx. apply Hhd, (to_admitted _ _ _ _ _ _ H). auto.
  - intros x k Hx Hz. destruct (Hlive x k Hx Hz) as [Hne Hx']. destruct (to_stacks _ _ _ _ _ _ H x k Hx' Hz) as [Hin Hc].
    assert (kstack_pa k ∈ S ∖ {[kstack_pa t]}) as Hin'.
    { apply elem_of_difference. split; [done|]. intros E%elem_of_singleton. apply Hne. apply (to_own _ _ _ _ _ _ H x ta k t); try done. by rewrite St. }
    split; [done|]. rewrite (Hsame (kstack_pa k)); [done..|]. unfold in_stack. pose proof (bsize_pos 2). lia.
  - intros x y k j Hx Hy Hz Hz' E. destruct (Hlive x k Hx Hz) as [_ Hx'], (Hlive y j Hy Hz') as [_ Hy']. by apply (to_own _ _ _ _ _ _ H x y k j).
Qed.

Lemma exit_life w cpu code : 0 <= cpu < 256 ->
  (exists s' sw Q' T' G' S', task_exit s w cpu (Some ta) code = Done (s', sw) /\ life_ok s' Q' T' G' S' U) \/
  (task_exit s w cpu (Some ta) code = Fault /\ exists n', ~ tick_works (with_vm (with_nr s n') (with_pm (vm s) (pmm_free_pages (pm (vm s)) (kstack_pa t) 2))) w).
Proof.
  intros Hc. destruct exit_steps as (n' & l & b & q1 & q2 & T' & G' & Hb & HQ & HT & HG & HG2 & HP & RG & RA & HR & Hnw & Hnull & Hdom & Hkeep & E).
  rewrite E. match goal with |- context [schedule ?x w cpu] => set (s5 := x) end.
  assert (life_ok s5 (updQ Q b (q1 ++ q2)) T' G' (S ∖ {[kstack_pa t]}) U) as L5.
  { split; [by apply exit_tasks|..]; cbn [s5 heap links nr current_task with_vm with_links with_nr put with_heap].
    all: intros x k; destruct (decide (x = ta)) as [->|Hne]; [rewrite lookup_insert_eq; intros [= <-] | rewrite lookup_insert_ne by done; intros Hx].
    - by right; right.
    - by apply (lf_states _ _ _ _ _ _ L x).
    - done.
    - intros Hr. destruct (lf_ready _ _ _ _ _ _ L x k Hx Hr) as (b' & Hb' & Hin). exists b'. split; [done|]. unfold updQ.
      case_decide; [subst; rewrite HQ in Hin; set_solver | done].
    - done.
    - intros Hr. by apply (lf_running _ _ _ _ _ _ L x k).
    - done.
    - intros Hr. rewrite Hkeep; [by apply (lf_unlinked _ _ _ _ _ _ L x k)|]. intros b' Hb' Hin.
      destruct (so_ready _ _ (to_sched _ _ _ _ _ _ (lf_tasks _ _ _ _ _ _ L)) b' x Hb' Hin) as (k' & Hk' & ?). congruence.
    - intros []. done.
    - intros Hz. destruct (lf_listed _ _ _ _ _ _ L x k Hx Hz) as [HxT HxG]. split; [auto|].
      destruct (decide (x ∈ G)); [auto|]. destruct HxG as [?|HxG]; [done|]. right. unfold self_linked. by rewrite HP. }
  destruct (schedule_life s5 _ _ _ _ _ w cpu L5 Hc) as [(s' & sw & Q' & E' & L')|[E' Ht]].
  - left. by eexists s', sw, Q', _, _, _.
  - right. split; [done|]. exists n'. intros Hw. apply Ht. revert Hw. by apply tick_works_same.
Qed.
End exit.

(** ** Runs *)

(** What happens on a processor: a system call that starts or ends a task, the timer, a yield. *)
Inductive action :=
| Create (nm : option (list Z)) (entry_ arg prio demand_ns demand_pages : Z)
| Tick
| Yield
| Exit (ta code : Z).
Definition act (s : sys) (w : hw) (cpu : Z) (a : action) : outcome sys :=
  match a with
  | Create nm entry_ arg prio d1 d2 => '(s, _) ← task_create s w cpu nm entry_ arg prio d1 d2; Done s
  | Tick => '(s, _) ← sched_tick s w cpu; Done s
  | Yield => '(s, _) ← schedule s w cpu; Done s
  | Exit ta code => '(s, _) ← task_exit s w cpu (Some ta) code; Done s
  end.

(** Tasks are created while the pool is large enough to be divided into its 64 parts. *)
Definition admissible (s : sys) (a : action) : Prop :=
  match a with Create _ _ _ _ _ _ => neri_ready s = true -> roomy (pool (n_ps (nr s))) | _ => True end.

(** Why an action may fault: the resource manager's tick divides by zero, or a task that is
    not in a queue is ended. *)
Definition excused (s : sys) (w : hw) (a : action) : Prop :=
  (exists n' p', ~ tick_works (with_vm (with_nr s n') (with_pm (vm s) p')) w) \/
  exists ta code, a = Exit ta code /\ forall t, heap s !! ta = Some t -> state t <> TASK_READY.

Lemma act_life s Q T G S U w cpu a : life_ok s Q T G S U -> 0 <= cpu < 256 -> admissible s a ->
  (exists s' Q' T' G' S' U', act s w cpu a = Done s' /\ life_ok s' Q' T' G' S' U') \/ (act s w cpu a = Fault /\ excused s w a).
Proof.
  intros L Hc Ha. assert (~ tick_works s w -> excused s w a) as Hex.
  { intros Ht. left. exists (nr s), (pm (vm s)). intros Hw. apply Ht. eapply tick_works_same; [| |exact Hw]; [done|]. cbn. by destruct (vm s). }
  destruct a as [nm en ar pr d1 d2| | |ta code]; cbn [act admissible] in *.
  - left. destruct (create_life s Q T G S U w cpu nm en ar pr d1 d2 L Ha) as (s' & r & Q' & T' & G' & S' & U' & -> & L'). cbn [mbind outcome_bind]. eauto 10.
  - destruct (tick_life s Q T G S U w cpu L Hc) as [(s' & sw & Q' & -> & L')|[-> Ht]]; cbn [mbind outcome_bind]; [left; eauto 10 | right; auto].
  - destruct (schedule_life s Q T G S U w cpu L Hc) as [(s' & sw & Q' & -> & L')|[-> Ht]]; cbn [mbind outcome_bind]; [left; eauto 10 | right; auto].
  - destruct (heap s !! ta) as [t|] eqn:Et.
    + destruct (decide (state t = TASK_READY)) as [St|St].
      * destruct (exit_life s Q T G S U L ta t Et St w cpu code Hc) as [(s' & sw & Q' & T' & G' & S' & -> & L')|[-> (n' & Ht)]]; cbn [mbind outcome_bind]; [left; eauto 10|].
        right. split; [done|]. left. eauto.
      * right. rewrite (exit_faults s w cpu ta code (lf_unlinked _ _ _ _ _ _ L ta t Et St)). split; [done|]. right. exists ta, code. split; [done|].
        intros t' Ht'. congruence.
    + right. unfold task_exit, deref. rewrite Et. split; [done|]. right. exists ta, code. split; [done|]. congruence.
Qed.

(** The states the scheduler gets into from [s0]. *)
Inductive reached (s0 : sys) : sys -> Prop :=
| reached_start : reached s0 s0
| reached_act s w cpu a s' : reached s0 s -> 0 <= cpu < 256 -> admissible s a -> act s w cpu a = Done s' -> reached s0 s'.

Lemma reached_life s0 s : (exists Q T G S U, life_ok s0 Q T G S U) -> reached s0 s -> exists Q T G S U, life_ok s Q T G S U.
Proof.
  intros H0. induction 1 as [|s w cpu a s' _ (Q & T & G & S & U & L) Hc Ha E]; [done|].
  destruct (act_life s Q T G S U w cpu a L Hc Ha) as [(s1 & Q' & T' & G' & S' & U' & E' & L')|[E' _]]; [|congruence].
  rewrite E in E'. injection E' as ->. eauto 10.
Qed.

(** The scheduler as [sched_init] leaves it, with a heap and no task. *)
Record taskless (s : sys) : Prop := {
  tl_heap : heap s = ∅;
  tl_links : links s = list_init ∅ AllHead;
  tl_mem : exists U, mem_ok (vm s) ∅ U;
  tl_pool : ring (admitted (n_ps (nr s))) AdmittedHead []
}.
Lemma booted_life s : taskless s -> exists Q T G S U, life_ok (sched_init s) Q T G S U.
Proof.
  intros [Eh El (U & Hm) Hp]. exists (fun _ => []), [], [], ∅, U.
  split; [by apply boot_tasks_ok|..]; cbn; rewrite Eh; intros ta t Ht; by rewrite lookup_empty in Ht.
Qed.

(** Two live tasks do not share a byte of stack. *)
Lemma stacks_apart s Q T G S U ta ta' t t' a : tasks_ok s Q T G S U -> heap s !! ta = Some t -> heap s !! ta' = Some t' ->
  state t <> TASK_ZOMBIE -> state t' <> TASK_ZOMBIE -> in_stack (kstack_pa t) a -> in_stack (kstack_pa t') a -> ta = ta'.
Proof.
  intros H Et Et' Hz Hz' Ha Ha'. destruct (to_stacks _ _ _ _ _ _ H ta t Et Hz) as [Hk _], (to_stacks _ _ _ _ _ _ H ta' t' Et' Hz') as [Hk' _].
  destruct (to_mem _ _ _ _ _ _ H) as (P & K & Lx & Hh). destruct (VmmSlab.h_owns _ _ _ _ _ _ Hh) as (F & A & Hi & _ & HS & _).
  pose proof (blocks_apart _ F A Hi (kstack_pa t, 2%nat) (kstack_pa t', 2%nat) a (HS _ Hk) (HS _ Hk') Ha Ha') as E.
  apply (to_own _ _ _ _ _ _ H ta ta' t t'); congruence.
Qed.


(** ** A run *)

Definition admissibleb (s : sys) (a : action) : bool :=
  match a with
  | Create _ _ _ _ _ _ => negb (neri_ready s) || (64 <=? cpu_total_ns (pool (n_ps (nr s)))) && (64 <=? ram_total_pages (pool (n_ps (nr s))))
  | _ => true
  end.
Fixpoint play (s : sys) (w : hw) (l : list (Z * action)) : option sys :=
  match l with
  | [] => Some s
  | (cpu, a) :: l =>
      if (0 <=? cpu) && (cpu <? 256) && admissibleb s a
      then match act s w cpu a with Done s => play s w l | _ => None end
      else None
  end.
Lemma play_reached s0 w l : forall s s', reached s0 s -> play s w l = Some s' -> reached s0 s'.
Proof.
  induction l as [|[cpu a] l IH]; intros s s' Hr; simpl; [by intros [= <-]|].
  destruct ((0 <=? cpu) && (cpu <? 256) && admissibleb s a) eqn:E; [|done].
  destruct (act s w cpu a) as [s1| |] eqn:Ea; [|done|done]. apply IH. apply andb_true_iff in E as [[E1 E2]%andb_true_iff E3].
  apply (reached_act s0 s w cpu a s1 Hr); [lia| |done]. destruct a; try done. cbn in *. intros Hn. rewrite Hn in E3. cbn in E3. unfold roomy. lia.
Qed.

(** Two tasks are created, the timer fires, and the one left waiting is ended from another processor. *)
Definition bare_sys : sys :=
  mk_sys VmmSlab.vmm_ex ∅ (replicate 1024 None) 0 1 (list_init ∅ AllHead) (replicate 16 0) (replicate 256 None)
    (mk_neri (neri_pool_init ∅ 0 32768 4 2 0) (neri_utb_init (fun _ => 0) 0) neri_nzra_init neki_start
       (mk_sec (replicate 32 7) true (mk_anomaly 179 2 false 32) zero_feat)) neri_ado_init.
Lemma bare_taskless : taskless bare_sys.
Proof. split; [done | done | exists ∅; apply first_mem_ok | apply list_init_ring]. Qed.
Definition story : list (Z * action) :=
  [(0, Create None 0x5000 7 8 0 0); (0, Create None 0x6000 0 8 0 0); (0, Tick); (1, Exit 0xFFFFFFFF81400A30 0)].


End SchedLife.
