(* ===== verification/Entry.v ===== *)
(** * The assembly against the C it works with

    sched_asm.S addresses [struct task] by constants.  The layout of the structure is computed
    here by the rules of the x86-64 ABI from the field list of kernel/sched.c, and shows which
    fields the constants name; then what the context switch does with a task that
    [task_create] made, and what a task finds when it is switched to again. *)

From Stdlib Require Import Ascii String.
From S2P Require Import Prelude Sched Asm.
Import Asm.

Module Entry.

(** ** Layout *)

(** Size and alignment. *)
Definition ctype : Type := Z * Z.
Definition c32 : ctype := (4, 4).
Definition c64 : ctype := (8, 8).
Definition list_head_t : ctype := (16, 8).
Definition field : Type := string * ctype.

Definition align_up (pos a : Z) : Z := (pos + a - 1) / a * a.
Fixpoint layout (pos : Z) (fs : list field) : list (string * Z) :=
  match fs with
  | [] => []
  | (f, (size, a)) :: fs => let pos := align_up pos a in (f, pos) :: layout (pos + size) fs
  end.
Fixpoint extent (pos : Z) (fs : list field) : Z :=
  match fs with [] => pos | (_, (size, a)) :: fs => extent (align_up pos a + size) fs end.
(** All structures here contain 64-bit fields, so they are aligned to 8. *)
Definition struct (fs : list field) : ctype := (align_up (extent 0 fs) 8, 8).
Definition offset_of (fs : list field) (f : string) : option Z := snd <$> List.find (fun x => String.eqb x.1 f) (layout 0 fs).
Definition field_at (fs : list field) (o : Z) : option string := fst <$> List.find (fun x => x.2 =? o) (layout 0 fs).

Open Scope string_scope.
Definition neri_proc_t : list field :=
  [("pid", c32); ("priority", (1, 1)); ("_pad", (3, 1)); ("cpu_demand_ns", c64); ("ram_demand_pages", c64); ("gpu_demand_slots", c64);
   ("cpu_granted_ns", c64); ("ram_granted_pages", c64); ("gpu_granted_slots", c64);
   ("cpu_used_ns", c64); ("ram_used_pages", c64); ("gpu_used_slots", c64);
   ("epoch_admitted", c64); ("last_cpu", c32); ("numa_node", c32); ("node", list_head_t)].
Definition task_fields : list field :=
  [("pid", c32); ("ppid", c32); ("uid", c32); ("gid", c32); ("name", (32, 1));
   ("state", c32); ("priority", c32); ("vruntime", c64); ("weight", c64); ("timeslice_ns", c64); ("cpu_time_ns", c64);
   ("cpu_affinity", c32); ("on_cpu", c32); ("pml4", c64); ("kstack_top", c64); ("kstack_pa", c64);
   ("ctx_rsp", c64); ("ctx_rbp", c64); ("ctx_rbx", c64); ("ctx_r12", c64); ("ctx_r13", c64); ("ctx_r14", c64); ("ctx_r15", c64);
   ("ctx_rip", c64); ("ctx_rflags", c64); ("neri", struct neri_proc_t); ("syscall_ret", c64); ("sig_pending", c64);
   ("sig_blocked", c64); ("fdt", c64); ("rq_node", list_head_t); ("all_tasks", list_head_t)].

(** The size the scheduler allocates, and the fields the constants of sched_asm.S name: each
    is 24 bytes before the one it is named after. *)
Theorem switch_slots :
  (struct task_fields).1 = Sched.sizeof_task /\
  map (field_at task_fields) [TASK_CTX_RSP; TASK_CTX_RBP; TASK_CTX_RBX; TASK_CTX_R12; TASK_CTX_R13; TASK_CTX_R14; TASK_CTX_R15; TASK_CTX_RIP; TASK_CTX_RFLAGS]
  = map Some ["pml4"; "kstack_top"; "kstack_pa"; "ctx_rsp"; "ctx_rbp"; "ctx_rbx"; "ctx_r12"; "ctx_r13"; "ctx_r14"] /\
  offset_of task_fields "ctx_rsp" = Some (TASK_CTX_RSP + 24) /\ offset_of task_fields "ctx_rip" = Some (TASK_CTX_RIP + 24).
Proof. vm_compute. repeat split. Qed.
Close Scope string_scope.

(** ** The switch *)

(** Two tasks whose saved words do not meet each other or the two stack words the switch
    itself writes and reads. *)
Record switchable (s : machine) (prev next : Z) : Prop := {
  sw_prev : regs s RDI = prev;
  sw_next : regs s RSI = next;
  sw_room : 0 <= prev < 2 ^ 64 - 168 /\ 0 <= next < 2 ^ 64 - 168 /\ 8 <= regs s RSP < 2 ^ 64 - 8;
  sw_stack : forall t, t = prev /\ prev <> 0 \/ t = next -> ~ ctx_words t (regs s RSP) /\ ~ ctx_words t (regs s RSP - 8);
  sw_apart : prev <> 0 -> prev + 168 <= next + 96 \/ next + 168 <= prev + 96
}.

(** The words a task's saved context is in. *)
Record context (m : memory) (t rsp rbp rbx r12 r13 r14 r15 rip rflags : Z) : Prop := {
  cx_rsp : mread m (t + 96) = rsp; cx_rbp : mread m (t + 104) = rbp; cx_rbx : mread m (t + 112) = rbx;
  cx_r12 : mread m (t + 120) = r12; cx_r13 : mread m (t + 128) = r13; cx_r14 : mread m (t + 136) = r14;
  cx_r15 : mread m (t + 144) = r15; cx_rip : mread m (t + 152) = rip; cx_rflags : mread m (t + 160) = rflags
}.
(** The registers as a context describes them. *)
Record loaded (s : machine) (rsp rbp rbx r12 r13 r14 r15 rflags : Z) : Prop := {
  ld_rsp : regs s RSP = rsp; ld_rbp : regs s RBP = rbp; ld_rbx : regs s RBX = rbx; ld_r12 : regs s R12 = r12;
  ld_r13 : regs s R13 = r13; ld_r14 : regs s R14 = r14; ld_r15 : regs s R15 = r15; ld_rflags : flags s = rflags
}.

Lemma context_of m t : context m t (mread m (t + 96)) (mread m (t + 104)) (mread m (t + 112)) (mread m (t + 120)) (mread m (t + 128))
  (mread m (t + 136)) (mread m (t + 144)) (mread m (t + 152)) (mread m (t + 160)).
Proof. by split. Qed.
Lemma context_frame m m' t a b c d e f g h i : (forall x, ctx_words t x -> mread m' x = mread m x) ->
  context m t a b c d e f g h i -> context m' t a b c d e f g h i.
Proof. intros Hf [? ? ? ? ? ? ? ? ?]. split; rewrite Hf; (done || unfold ctx_words; lia). Qed.

(** The switch saves the registers and the return address in the nine words of [prev], loads
    those of [next] and goes on at the address found there. *)
Lemma switch_to_spec s prev next a b c d e f g pc fl : switchable s prev next ->
  context (mem s) next a b c d e f g pc fl ->
  let r := switch_to s in
  r.2 = pc /\ loaded r.1 a b c d e f g fl /\
  (prev <> 0 -> context (mem r.1) prev (regs s RSP) (regs s RBP) (regs s RBX) (regs s R12) (regs s R13) (regs s R14) (regs s R15)
    (mread (mem s) (regs s RSP)) (flags s)) /\
  (forall x, x <> regs s RSP - 8 -> ~ (prev <> 0 /\ ctx_words prev x) -> mread (mem r.1) x = mread (mem s) x).
Proof.
  intros [Hd Hsi (Rp & Rn & Rs) Hst Hap] Cn. cbv zeta. unfold switch_to. rewrite Hd. cbn [fst snd].
  destruct (Hst next (or_intror eq_refl)) as [_ Nn]. destruct (Z.eqb_spec prev 0) as [->|Hz].
  - destruct (switch_restore_spec s next (regs s RSP) Hsi eq_refl Rn ltac:(lia) Nn) as (A1 & A2 & A3 & A4 & A5 & A6 & A7 & A8 & A9 & A10).
    cbv zeta in *. generalize dependent (exec s switch_restore). intros s' A1 A2 A3 A4 A5 A6 A7 A8 A9 A10. destruct Cn.
    split; [congruence|]. split; [split; congruence|]. split; [done|]. intros x Hx _. by apply A10.
  - destruct (Hst prev (or_introl (conj eq_refl Hz))) as [N1 N2].
    destruct (switch_save_spec s prev (regs s RSP) Hd eq_refl Rp Rs N2 N1) as (B1 & B2 & B3 & B4 & B5 & B6 & B7 & B8 & B9 & B10 & B11 & B12).
    cbv zeta in *. generalize dependent (exec s switch_save). intros s1 B1 B2 B3 B4 B5 B6 B7 B8 B9 B10 B11 B12.
    assert (context (mem s1) next a b c d e f g pc fl) as Cn1.
    { eapply context_frame; [|exact Cn]. intros x Hx. apply B12; [unfold ctx_words in *; destruct (Hap Hz); lia | intros ->; done]. }
    destruct (switch_restore_spec s1 next (regs s RSP) ltac:(congruence) B10 Rn ltac:(lia) Nn) as (A1 & A2 & A3 & A4 & A5 & A6 & A7 & A8 & A9 & A10).
    cbv zeta in *. generalize dependent (exec s1 switch_restore). intros s2 A1 A2 A3 A4 A5 A6 A7 A8 A9 A10. destruct Cn1.
    split; [congruence|]. split; [split; congruence|]. split.
    + intros _. apply (context_frame (mem s1)); [intros x Hx; apply A10; intros ->; done|]. by split.
    + intros x Hx Hp. rewrite A10 by done. apply B12; [intros Hc; by apply Hp | done].
Qed.

(** Switching away and back: the task goes on at the return address of its call of
    [__switch_to], with its callee-saved registers and flags as they were; its stack pointer
    is where it was inside the call, at the return address, which a return would have popped. *)
Theorem switch_back s prev next s2 prev2 a b c d e f g pc fl : switchable s prev next -> prev <> 0 ->
  context (mem s) next a b c d e f g pc fl ->
  (forall x, ctx_words prev x -> mread (mem s2) x = mread (mem (switch_to s).1) x) -> switchable s2 prev2 prev ->
  let r := switch_to s2 in
  r.2 = mread (mem s) (regs s RSP) /\
  loaded r.1 (regs s RSP) (regs s RBP) (regs s RBX) (regs s R12) (regs s R13) (regs s R14) (regs s R15) (flags s).
Proof.
  intros Hs Hz Cn Hm Hs2. destruct (switch_to_spec s prev next _ _ _ _ _ _ _ _ _ Hs Cn) as (_ & _ & Cp & _). cbv zeta in *.
  destruct (switch_to_spec s2 prev2 prev _ _ _ _ _ _ _ _ _ Hs2 (context_frame _ _ _ _ _ _ _ _ _ _ _ _ Hm (Cp Hz))) as (E & L & _). done.
Qed.

(** Where the constants land, for the proofs that follow. *)
Lemma slot_offsets :
  offset_of task_fields "pml4" = Some 96 /\ offset_of task_fields "ctx_r13" = Some 152 /\
  offset_of task_fields "ctx_r14" = Some 160 /\ offset_of task_fields "kstack_pa" = Some 112.
Proof. by vm_compute. Qed.

(** A task fresh from [task_create] has zeros in the words of [pml4], [ctx_r13] and [ctx_r14],
    which [kzalloc] cleared and nothing sets: the first switch to it loads 0 into the stack
    pointer and jumps to address 0. *)
Theorem new_task_jumps_to_zero s prev ta : switchable s prev ta ->
  (forall o, o ∈ [offset_of task_fields "pml4"; offset_of task_fields "ctx_r13"; offset_of task_fields "ctx_r14"]%string ->
     mread (mem s) (ta + default 0 o) = 0) ->
  (switch_to s).2 = 0 /\ regs (switch_to s).1 RSP = 0 /\ flags (switch_to s).1 = 0.
Proof.
  intros Hs Hz. destruct (switch_to_spec s prev ta _ _ _ _ _ _ _ _ _ Hs (context_of (mem s) ta)) as (E & L & _). rewrite E, (ld_rsp _ _ _ _ _ _ _ _ _ L), (ld_rflags _ _ _ _ _ _ _ _ _ L).
  destruct slot_offsets as (E1 & E2 & E3 & _). rewrite E1, E2, E3 in Hz. cbn [default] in Hz.
  assert (forall o, Some o ∈ [Some 96; Some 152; Some 160] -> mread (mem s) (ta + o) = 0) as Hz' by (intros o Ho; exact (Hz _ Ho)).
  split; [|split]; apply Hz'; clear; set_solver.
Qed.

(** Switching away from a task overwrites the address of its stack with RBX: the canary
    check when it is switched away from again looks elsewhere. *)
Theorem switch_overwrites_stack s prev next a b c d e f g pc fl : switchable s prev next -> prev <> 0 ->
  context (mem s) next a b c d e f g pc fl ->
  mread (mem (switch_to s).1) (prev + default 0 (offset_of task_fields "kstack_pa"%string)) = regs s RBX.
Proof.
  intros Hs Hz Cn. destruct (switch_to_spec s prev next _ _ _ _ _ _ _ _ _ Hs Cn) as (_ & _ & Cp & _).
  destruct slot_offsets as (_ & _ & _ & E4). rewrite E4. exact (cx_rbx _ _ _ _ _ _ _ _ _ _ _ (Cp Hz)).
Qed.

End Entry.
