(* ===== verification/Vfs.v ===== *)
(** * fs/vfs.c: the file system

    The inode table with its intrusive directory lists, path resolution, the ramfs and
    device operations, descriptor tables, reading and writing through them.  A
    pointer to an inode is its index in [g_inodes].  The buffers of ramfs files
    come from the modelled heap; their bytes are kept with the inode.  The
    descriptor table of the current task is an argument ([None] when there is no
    task or its [fdt] is NULL). *)

From Stdlib Require Import Ascii String.
From S2P Require Import Prelude Bytes Vmm ListHead Strings Neri Printk.
Import Bytes Vmm ListHead Strings.

Module Vfs.

(** ** Data *)

Inductive node := Children (i : nat) | Sibling (i : nat).
#[export] Instance node_eq_dec : EqDecision node.
Proof. solve_decision. Defined.
#[export] Instance node_countable : Countable node.
Proof.
  refine (inj_countable' (fun n => match n with Children i => inl i | Sibling i => inr i end)
    (fun x => match x with inl i => Children i | inr i => Sibling i end) _).
  by intros [i|i].
Defined.

Definition INODE_FILE : Z := 1.
Definition INODE_DIR : Z := 2.
Definition INODE_CHAR : Z := 3.

(** The tables of operations the file defines. *)
Inductive file_ops := RamfsOps | NeriDevOps | NullOps | ZeroOps | TtyOps | ProcNeriStatusOps | ProcCcMidOps.

Record inode := mk_inode {
  ino : Z; type : Z; mode : Z; size : Z;
  data : Z;                     (* address of the buffer, 0 for none *)
  bytes : list Z;               (* what the buffer holds *)
  data_len : Z; data_cap : Z;
  ops : option file_ops;
  parent : option nat;
  name : list Z
}.
Definition zero_inode : inode := mk_inode 0 0 0 0 0 [] 0 0 None None [].

Record file := mk_file { f_inode : option nat; offset : Z; flags : Z; open : bool }.
Definition FD_TABLE_SIZE : Z := 32.
Abbreviation fd_table := (list file).

Definition MAX_INODES : Z := 512.
Record vfs := mk_vfs {
  g_inodes : list inode;
  g_next_ino : Z;
  dirs : gmap node (list_head node);
  g_root : option nat;
  heap : vmm;
  tty : Printk.console;
  pool : Neri.neri_pool; neki : Neri.neki; nsec : Neri.sec;
  g_neri_ready : bool; g_cc_ready : bool
}.
Definition with_inodes (s : vfs) (l : list inode) : vfs :=
  mk_vfs l (g_next_ino s) (dirs s) (g_root s) (heap s) (tty s) (pool s) (neki s) (nsec s) (g_neri_ready s) (g_cc_ready s).
Definition with_dirs (s : vfs) (m : gmap node (list_head node)) : vfs :=
  mk_vfs (g_inodes s) (g_next_ino s) m (g_root s) (heap s) (tty s) (pool s) (neki s) (nsec s) (g_neri_ready s) (g_cc_ready s).
Definition with_root (s : vfs) (r : option nat) : vfs :=
  mk_vfs (g_inodes s) (g_next_ino s) (dirs s) r (heap s) (tty s) (pool s) (neki s) (nsec s) (g_neri_ready s) (g_cc_ready s).
Definition with_heap (s : vfs) (h : vmm) : vfs :=
  mk_vfs (g_inodes s) (g_next_ino s) (dirs s) (g_root s) h (tty s) (pool s) (neki s) (nsec s) (g_neri_ready s) (g_cc_ready s).
Definition with_tty (s : vfs) (c : Printk.console) : vfs :=
  mk_vfs (g_inodes s) (g_next_ino s) (dirs s) (g_root s) (heap s) c (pool s) (neki s) (nsec s) (g_neri_ready s) (g_cc_ready s).

Definition inode_at (s : vfs) (i : nat) : inode := nth i (g_inodes s) zero_inode.
Definition put_inode (s : vfs) (i : nat) (n : inode) : vfs := with_inodes s (<[i := n]> (g_inodes s)).

(** ** Inodes and directories *)

(** [name] is the argument up to its terminator. *)
Definition inode_alloc (s : vfs) (nm : list Z) (ty : Z) : vfs * option nat :=
  if MAX_INODES <=? g_next_ino s then (s, None)
  else
    let i := Z.to_nat (g_next_ino s) in
    let n := mk_inode (g_next_ino s) ty 420 0 0 [] 0 0 None None (take 63 nm) in
    let m := list_init (list_init (dirs s) (Children i)) (Sibling i) in
    (mk_vfs (<[i := n]> (g_inodes s)) (u32 (g_next_ino s + 1)) m (g_root s) (heap s) (tty s) (pool s) (neki s) (nsec s)
       (g_neri_ready s) (g_cc_ready s), Some i).

Definition set_parent (n : inode) (p : option nat) : inode :=
  mk_inode (ino n) (type n) (mode n) (size n) (data n) (bytes n) (data_len n) (data_cap n) (ops n) p (name n).
Definition set_ops (n : inode) (o : file_ops) : inode :=
  mk_inode (ino n) (type n) (mode n) (size n) (data n) (bytes n) (data_len n) (data_cap n) (Some o) (parent n) (name n).
Definition set_mode (n : inode) (m : Z) : inode :=
  mk_inode (ino n) (type n) m (size n) (data n) (bytes n) (data_len n) (data_cap n) (ops n) (parent n) (name n).
Definition set_type (n : inode) (t : Z) : inode :=
  mk_inode (ino n) t (mode n) (size n) (data n) (bytes n) (data_len n) (data_cap n) (ops n) (parent n) (name n).

Definition dir_add (s : vfs) (par child : nat) : outcome vfs :=
  let s := put_inode s child (set_parent (inode_at s child) (Some par)) in
  m ← faulting (list_add_tail (dirs s) (Sibling child) (Children par));
  Done (with_dirs s m).

Definition mkfile (s : vfs) (par : option nat) (nm : list Z) (o : file_ops) : outcome (vfs * option nat) :=
  let (s, i) := inode_alloc s nm INODE_FILE in
  match i with
  | None => Done (s, None)
  | Some i =>
      let s := put_inode s i (set_ops (inode_at s i) o) in
      s ← match par with Some p => dir_add s p i | None => Done s end;
      Done (s, Some i)
  end.
Definition mkdir_node (s : vfs) (par : option nat) (nm : list Z) : outcome (vfs * option nat) :=
  let (s, i) := inode_alloc s nm INODE_DIR in
  match i with
  | None => Done (s, None)
  | Some i =>
      let s := put_inode s i (set_mode (inode_at s i) 493) in
      s ← match par with Some p => dir_add s p i | None => Done s end;
      Done (s, Some i)
  end.

(** The first child of that name; both names are terminated. *)
Fixpoint find_child (s : vfs) (l : list node) (nm : list Z) : outcome (option nat) :=
  match l with
  | [] => Done None
  | Sibling c :: l' => r ← strcmp (name (inode_at s c) ++ [0]) (nm ++ [0]); if r =? 0 then Done (Some c) else find_child s l' nm
  | Children _ :: _ => Fault
  end.
Definition dir_lookup (s : vfs) (dir : option nat) (nm : list Z) : outcome (option nat) :=
  match dir with
  | None => Done None
  | Some d =>
      if negb (type (inode_at s d) =? INODE_DIR) then Done None
      else
        l ← faulting (nx ← get_next (dirs s) (Some (Children d)); for_each (dirs s) (Children d) nx (S (stdpp.base.size (dirs s))));
        find_child s l nm
  end.

(** The loop of [vfs_lookup]: [p] is the rest of the path. *)
Fixpoint lookup_loop (s : vfs) (p : list Z) (cur : option nat) (fuel : nat) : outcome (option nat) :=
  match fuel with
  | O => Fault
  | S f =>
      match p with
      | [] => Fault
      | c :: _ =>
          if (c =? 0) || bool_decide (cur = None) then Done cur
          else
            slash ← strchr p 47;
            len ← match slash with Some n => Done n | None => strlen p end;
            if (64 <=? len)%nat then Done None
            else
              cur ← dir_lookup s cur (take len p);
              let p := match slash with Some n => drop (n + 1) p | None => drop len p end in
              match p with
              | [] => Fault
              | c :: _ => if c =? 0 then Done cur else lookup_loop s p cur f
              end
      end
  end.
(** [None] is a NULL path. *)
Definition vfs_lookup (s : vfs) (path : option (list Z)) : outcome (option nat) :=
  match path with
  | None => Done None
  | Some path =>
      match path with
      | [] => Fault
      | c :: p =>
          if negb (c =? 47) then Done None
          else match p with
               | [] => Fault
               | c1 :: _ => if c1 =? 0 then Done (g_root s) else lookup_loop s p (g_root s) (S (length p))
               end
      end
  end.

(** ** ramfs *)

(** The bytes copied to the caller, and the file after. *)
Definition ramfs_read (s : vfs) (f : file) (len : Z) : outcome (file * list Z * Z) :=
  match f_inode f with
  | None => Fault
  | Some i =>
      let n := inode_at s i in
      if data n =? 0 then Done (f, [], 0)
      else if data_len n <=? offset f then Done (f, [], 0)
      else
        let nread := MIN len (data_len n - offset f) in
        b ← load_bytes (bytes n) (offset f) nread;
        Done (mk_file (f_inode f) (u64 (offset f + nread)) (flags f) (open f), b, nread)
  end.

(** The growth path, up to the copy; [junk] is what fresh memory holds.  [Some] is the
    error returned. *)
Definition ramfs_grow (s : vfs) (i : nat) (junk : list Z) (off len : Z) : outcome (vfs * option Z) :=
  let n := inode_at s i in
  if data_cap n <? u64 (off + len) then
    if (0x10000000 <? len) || (0x10000000 <? off) || (u64 (off + len) <? off) then Done (s, Some (- EFBIG))
    else
      let newcap := ALIGN (u64 (off + len)) 4096 in
      '(h, newbuf) ← kmalloc (heap s) newcap;
      let s := with_heap s h in
      if newbuf =? 0 then Done (s, Some (- ENOMEM))
      else
        let fresh := take (Z.to_nat newcap) (junk ++ replicate (Z.to_nat newcap) 0) in
        '(s, fresh) ← (if data n =? 0 then Done (s, fresh)
                       else h ← kfree (heap s) (data n);
                            Done (with_heap s h, splice fresh 0 (take (Z.to_nat (data_len n)) (bytes n))));
        Done (put_inode s i (mk_inode (ino n) (type n) (mode n) (size n) newbuf fresh (data_len n) newcap (ops n) (parent n) (name n)), None)
  else Done (s, None).
Definition ramfs_write (s : vfs) (junk : list Z) (f : file) (buf : list Z) : outcome (vfs * file * Z) :=
  match f_inode f with
  | None => Fault
  | Some i =>
      let len := Z.of_nat (length buf) in
      '(s, e) ← ramfs_grow s i junk (offset f) len;
      match e with
      | Some e => Done (s, f, e)
      | None =>
          let n := inode_at s i in
          b ← store_bytes (bytes n) (offset f) buf;
          let off := u64 (offset f + len) in
          let dl := if data_len n <? off then off else data_len n in
          Done (put_inode s i (mk_inode (ino n) (type n) (mode n) dl (data n) b dl (data_cap n) (ops n) (parent n) (name n)),
                mk_file (f_inode f) off (flags f) (open f), len)
      end
  end.

(** ** Devices and status files *)

(** The decimal digits the readers write by hand, the most significant first. *)
Definition decimal (v : Z) : list Z := if truthy v then rev (Printk.digits_of v 10 false 64) else [48].
Definition bstr (t : string) : list Z := bytes_of_string t.

Definition neri_dev_text (s : vfs) : list Z := bstr "neri epoch=" ++ decimal (u64 (Neri.epoch (pool s))) ++ [10].
(** Only the first [MIN(len, n)] bytes go to the caller. *)
Definition handout (text : list Z) (len : Z) : list Z * Z :=
  let copy := MIN len (Z.of_nat (length text)) in (take (Z.to_nat copy) text, copy).

Definition percent (part whole : Z) : Z := if truthy whole then u64 (part * 100) / whole else 0.
Definition level_names : list (list Z) := [bstr "NORMAL"; bstr "MEDIUM"; bstr "HIGH"; bstr "CRITICAL"].
Definition proc_neri_status_text (s : vfs) : list Z :=
  let p := pool s in
  let '(cpu_bias, _, _, _) := Neri.neki_get_policy (neki s) in
  let a := Neri.neri_sec_get_anomaly (nsec s) in
  let lv := if u32 (Neri.level a) <? 4 then u32 (Neri.level a) else 3 in
  bstr "Neri Resource Pool v0.5.0" ++ [10] ++
  bstr "epoch:           " ++ decimal (u64 (Neri.epoch p)) ++ [10] ++
  bstr "cpu_alloc_pct:   " ++ decimal (percent (Neri.cpu_alloc_ns p) (Neri.cpu_total_ns p)) ++ bstr "%" ++ [10] ++
  bstr "ram_alloc_pct:   " ++ decimal (percent (Neri.ram_alloc_pages p) (Neri.ram_total_pages p)) ++ bstr "%" ++ [10] ++
  bstr "neki_cpu_bias:   " ++ decimal cpu_bias ++ bstr "%" ++ [10] ++
  bstr "nsm_anomaly:     " ++ nth (Z.to_nat lv) level_names [] ++ bstr " (" ++ decimal (Neri.score_byte a) ++ bstr "/255)" ++ [10].

(** kernel/glue.c: the result and the bytes of [buf] it defines. *)
Definition cc_get_machine_fingerprint (s : vfs) (stack : list Z) (buflen : nat) : list Z * Z :=
  if (buflen <? 65)%nat then (stack, -1)
  else if negb (g_cc_ready s) then (splice stack 0 (bstr "unavailable" ++ [10; 0]), -1)
  else (stack, 0).
(** [stack] is what the 66 bytes of [fp] hold before. *)
Definition proc_cc_mid_text (s : vfs) (stack : list Z) : outcome (list Z) :=
  let (fp, r) := cc_get_machine_fingerprint s stack 66 in
  let fp := if r <? 0 then splice fp 0 (bstr "unavailable" ++ [10; 0]) else <[65%nat := 0]> (<[64%nat := 10]> fp) in
  flen ← strnlen fp 66;
  Done (take flen fp).

Definition NERI_IOC_STATUS : Z := 0x4E01.
Definition NERI_IOC_ANOMALY : Z := 0x4E02.
Definition NERI_IOC_CAPS : Z := 0x4E03.
(** The stores through [arg] (address and bytes), and the result. *)
Definition neri_dev_ioctl (s : vfs) (cmd arg : Z) : list (Z * list Z) * Z :=
  let p := pool s in
  if cmd =? NERI_IOC_STATUS then
    if arg =? 0 then ([], - EINVAL)
    else ([(arg, concat (map (le_bytes 8) [u64 (Neri.epoch p); Neri.cpu_total_ns p; Neri.cpu_alloc_ns p; Neri.ram_total_pages p;
                                            Neri.ram_alloc_pages p; Neri.gpu_total_slots p; Neri.gpu_alloc_slots p]))], 0)
  else if cmd =? NERI_IOC_ANOMALY then
    if arg =? 0 then ([], - EINVAL)
    else
      let a := if g_neri_ready s then Neri.neri_sec_get_anomaly (nsec s) else Neri.mk_anomaly 0 0 false 0 in
      ([(arg, le_bytes 1 (Neri.score_byte a)); (arg + 4, le_bytes 4 (u32 (Neri.level a)));
        (arg + 8, le_bytes 1 (if Neri.block_admits a then 1 else 0)); (arg + 16, le_bytes 8 (Neri.score_epoch a))], 0)
  else if cmd =? NERI_IOC_CAPS then
    if arg =? 0 then ([], - EINVAL)
    else ([(arg, le_bytes 4 0xFF ++ le_bytes 2 0 ++ le_bytes 2 5 ++ le_bytes 2 0)], 0)
  else ([], - ENOTTY).

(** ** The tables of operations *)

(** [f->inode->ops->read(f, buf, len)]: the file after, the bytes for [buf], the result;
    [None] for a NULL slot.  [stack] as above. *)
Definition op_read (s : vfs) (stack : list Z) (o : file_ops) (f : file) (len : Z) : option (outcome (file * list Z * Z)) :=
  let one_shot text :=
    if 0 <? offset f then Done (f, [], 0)
    else let (b, copy) := handout text len in Done (mk_file (f_inode f) (u64 (offset f + copy)) (flags f) (open f), b, copy) in
  match o with
  | RamfsOps => Some (ramfs_read s f len)
  | NeriDevOps => Some (let (b, copy) := handout (neri_dev_text s) len in Done (f, b, copy))
  | NullOps => Some (Done (f, [], 0))
  | ZeroOps => Some (Done (f, replicate (Z.to_nat len) 0, len))
  | TtyOps => None
  | ProcNeriStatusOps => Some (one_shot (proc_neri_status_text s))
  | ProcCcMidOps => Some (if 0 <? offset f then Done (f, [], 0) else t ← proc_cc_mid_text s stack; one_shot t)
  end.

Definition serial_all (s : vfs) (l : list Z) : vfs := with_tty s (foldl Printk.serial_putc (tty s) l).
Definition op_write (s : vfs) (junk : list Z) (o : file_ops) (f : file) (buf : list Z) : option (outcome (vfs * file * Z)) :=
  match o with
  | RamfsOps => Some (ramfs_write s junk f buf)
  | NullOps | ZeroOps => Some (Done (s, f, Z.of_nat (length buf)))
  | TtyOps => Some (Done (serial_all s buf, f, Z.of_nat (length buf)))
  | _ => None
  end.

(** ** Descriptors *)

Definition no_file : file := mk_file None 0 0 false.
Definition sizeof_fd_table : Z := FD_TABLE_SIZE * 24 + 8.
Definition fd_table_alloc (s : vfs) : outcome (vfs * option fd_table) :=
  '(h, p) ← kzalloc (heap s) sizeof_fd_table;
  Done (with_heap s h, if p =? 0 then None else Some (replicate (Z.to_nat FD_TABLE_SIZE) no_file)).

Fixpoint fd_alloc_from (t : fd_table) (n : option nat) (i : nat) : option (nat * file) :=
  match t with
  | [] => None
  | f :: t' => if open f then fd_alloc_from t' n (S i) else Some (i, mk_file n 0 0 true)
  end.
Definition fd_alloc (t : fd_table) (n : option nat) : fd_table * Z :=
  match fd_alloc_from t n 0 with
  | Some (i, f) => (<[i := f]> t, Z.of_nat i)
  | None => (t, - EMFILE)
  end.

(** The checks both entry points share: the open file and its operations. *)
Definition fd_file (s : vfs) (t : fd_table) (fd : Z) : option (file * option file_ops) :=
  if FD_TABLE_SIZE <=? u32 fd then None
  else
    let f := nth (Z.to_nat (u32 fd)) t no_file in
    match f_inode f with
    | Some i => if open f then Some (f, ops (inode_at s i)) else None
    | None => None
    end.

(** The table after, the bytes stored at [buf], the result; [buf] is whether the pointer
    is non-NULL. *)
Definition vfs_read (s : vfs) (stack : list Z) (t : option fd_table) (fd : Z) (buf : bool) (len : Z) : outcome (option fd_table * list Z * Z) :=
  if negb buf || (len =? 0) then Done (t, [], - EINVAL)
  else if 0x40000000 <? len then Done (t, [], - EINVAL)
  else match t with
       | None => Done (None, [], - EBADF)
       | Some tb =>
           match fd_file s tb fd with
           | None => Done (t, [], - EBADF)
           | Some (f, None) => Done (t, [], - EINVAL)
           | Some (f, Some o) =>
               match op_read s stack o f len with
               | None => Done (t, [], - EINVAL)
               | Some r => '(f, b, n) ← r; Done (Some (<[Z.to_nat (u32 fd) := f]> tb), b, n)
               end
           end
       end.

(** [buf]: the [len] bytes of the caller, [None] for NULL with a length above 0. *)
Definition vfs_write (s : vfs) (junk : list Z) (t : option fd_table) (fd : Z) (buf : option (list Z)) : outcome (vfs * option fd_table * Z) :=
  match buf with
  | None => Done (s, t, - EINVAL)
  | Some buf =>
      if 0x40000000 <? Z.of_nat (length buf) then Done (s, t, - EINVAL)
      else match t with
           | None => if negb (fd =? 1) && negb (fd =? 2) then Done (s, None, - EBADF)
                     else Done (serial_all s buf, None, Z.of_nat (length buf))
           | Some tb =>
               match fd_file s tb fd with
               | None => Done (s, t, - EBADF)
               | Some (f, None) => Done (s, t, - EINVAL)
               | Some (f, Some o) =>
                   match op_write s junk o f buf with
                   | None => Done (s, t, - EINVAL)
                   | Some r => '(s, f, n) ← r; Done (s, Some (<[Z.to_nat (u32 fd) := f]> tb), n)
                   end
               end
           end
  end.

(** ** Initialisation *)

(** [dev_x = mkfile(...); dev_x->type = INODE_CHAR], which dereferences the result. *)
Definition mkchar (s : vfs) (par : option nat) (nm : list Z) (o : file_ops) : outcome vfs :=
  '(s, i) ← mkfile s par nm o;
  match i with None => Fault | Some i => Done (put_inode s i (set_type (inode_at s i) INODE_CHAR)) end.
Definition vfs_init (s : vfs) : outcome vfs :=
  '(s, root) ← mkdir_node s None (bstr "/");
  let s := with_root s root in
  '(s, dev) ← mkdir_node s root (bstr "dev");
  s ← mkchar s dev (bstr "neri") NeriDevOps;
  s ← mkchar s dev (bstr "null") NullOps;
  s ← mkchar s dev (bstr "zero") ZeroOps;
  s ← mkchar s dev (bstr "tty0") TtyOps;
  '(s, proc) ← mkdir_node s root (bstr "proc");
  '(s, proc_neri) ← mkdir_node s proc (bstr "neri");
  '(s, _) ← mkfile s proc_neri (bstr "status") ProcNeriStatusOps;
  '(s, proc_cc) ← mkdir_node s proc (bstr "cortexcrypto");
  '(s, _) ← mkfile s proc_cc (bstr "machine_id") ProcCcMidOps;
  Done s.

End Vfs.
