(* ===== verification/VfsProof.v ===== *)
(** * fs/vfs.c: the theorems

    Path resolution against a recursive specification, the tree [vfs_init] builds,
    ramfs contents, descriptor checks, the size of the status texts. *)

From Stdlib Require Import Ascii String.
From S2P Require Import Prelude Bytes Pmm Vmm VmmMap ListHead Strings Neri Printk Vfs.
Import Bytes Vmm VmmMap ListHead Strings Vfs.

Module VfsProof.

(** ** Directories *)

(** [kids i] are the children of directory [i], in order. *)
Record tree (s : vfs) (kids : nat -> list nat) : Prop := {
  tr_len : length (g_inodes s) = Z.to_nat MAX_INODES;
  tr_next : 1 <= g_next_ino s <= MAX_INODES;
  tr_ring : forall i, (1 <= i < Z.to_nat (g_next_ino s))%nat -> ring (dirs s) (Children i) (Sibling <$> kids i);
  tr_kids : forall i c, (1 <= i < Z.to_nat (g_next_ino s))%nat -> c ∈ kids i -> (1 <= c < Z.to_nat (g_next_ino s))%nat;
  tr_once : forall i j c, (1 <= i < Z.to_nat (g_next_ino s))%nat -> (1 <= j < Z.to_nat (g_next_ino s))%nat -> c ∈ kids i -> c ∈ kids j -> i = j;
  tr_names : forall i, 0 ∉ name (inode_at s i)
}.

Lemma sibling_in c (l : list nat) : Sibling c ∈ Sibling <$> l <-> c ∈ l.
Proof. rewrite list_elem_of_fmap. split; [intros (y & [= ->] & ?); done | eauto]. Qed.
Lemma children_not_in i (l : list nat) : Children i ∉ Sibling <$> l.
Proof. rewrite list_elem_of_fmap. intros (y & [=] & _). Qed.

Lemma inode_at_put s i n j : (i < length (g_inodes s))%nat -> inode_at (put_inode s i n) j = if decide (i = j) then n else inode_at s j.
Proof.
  intros Hi. unfold inode_at, put_inode. cbn [with_inodes g_inodes]. rewrite !nth_lookup. case_decide as E; [subst; by rewrite list_lookup_insert_eq|].
  by rewrite list_lookup_insert_ne.
Qed.

(** Changing an inode, its name apart, leaves the tree alone. *)
Lemma put_inode_tree s kids i n : tree s kids -> 0 ∉ name n -> tree (put_inode s i n) kids.
Proof.
  intros [H1 H2 H3 H4 H5 H6] Hn. split; try done; [cbn; by rewrite length_insert|]. intros j.
  destruct (decide (i < length (g_inodes s))%nat); [rewrite inode_at_put by done; by case_decide|].
  unfold inode_at, put_inode. cbn. rewrite list_insert_ge by lia. apply H6.
Qed.

Definition fresh_kids (kids : nat -> list nat) (i : nat) : nat -> list nat := fun j => if decide (j = i) then [] else kids j.
Definition add_kid (kids : nat -> list nat) (p c : nat) : nat -> list nat := fun j => if decide (j = p) then kids p ++ [c] else kids j.

Lemma inode_alloc_tree s kids nm ty : tree s kids -> g_next_ino s < MAX_INODES -> 0 ∉ nm ->
  let i := Z.to_nat (g_next_ino s) in
  exists s', inode_alloc s nm ty = (s', Some i) /\ tree s' (fresh_kids kids i) /\ g_next_ino s' = g_next_ino s + 1 /\
    is_Some (dirs s' !! Sibling i) /\ (forall j, (1 <= j < i)%nat -> i ∉ kids j) /\ name (inode_at s' i) = take 63 nm /\ g_root s' = g_root s.
Proof.
  intros [H1 H2 H3 H4 H5 H6] Hlt Hnm i. unfold MAX_INODES in *. unfold inode_alloc, MAX_INODES. rewrite (proj2 (Z.leb_gt _ _)) by lia.
  eexists. split; [reflexivity|]. cbn [g_next_ino dirs g_root]. rewrite u32_small by lia.
  assert (i = Z.to_nat (g_next_ino s)) as Ei by done. fold i. clearbody i.
  assert (forall j, (1 <= j < i)%nat -> i ∉ kids j) as Hnew by (intros j Hj Hin; specialize (H4 j i ltac:(lia) Hin); lia).
  assert (0 ∉ take 63 nm) as Htk by (intros Hin; apply Hnm; by eapply (subseteq_take 63 nm)).
  split; [|split; [done|]; split; [unfold list_init; rewrite lookup_insert_eq; eauto|]; split; [done|]; split; [|done]].
  2:{ unfold inode_at. cbn [g_inodes]. rewrite nth_lookup, list_lookup_insert_eq by lia. done. }
  split; cbn [g_inodes g_next_ino dirs].
  - by rewrite length_insert.
  - unfold MAX_INODES. lia.
  - intros j Hj. unfold fresh_kids. case_decide as E.
    + subst j. cbn. unfold list_init at 1. eapply ring_frame; [apply (list_init_ring (dirs s))|].
      intros u Hu. apply list_elem_of_singleton in Hu as ->. by rewrite lookup_insert_ne.
    + eapply ring_frame; [apply (H3 j); lia|]. intros u Hu. unfold list_init. rewrite !lookup_insert_ne; [done|..]; intros <-.
      * apply elem_of_cons in Hu as [[= ->]|Hu]; [done | by apply children_not_in in Hu].
      * apply elem_of_cons in Hu as [[=]|Hu]. apply sibling_in in Hu. apply (Hnew j); [lia | done].
  - intros j c Hj Hc. unfold fresh_kids in Hc. case_decide; [by apply elem_of_nil in Hc|]. specialize (H4 j c ltac:(lia) Hc). lia.
  - intros j1 j2 c Hj1 Hj2 Hc1 Hc2. unfold fresh_kids in Hc1, Hc2. repeat case_decide; try by apply elem_of_nil in Hc1.
    + by apply elem_of_nil in Hc2.
    + eapply (H5 j1 j2 c); try done; lia.
  - intros j. unfold inode_at. cbn [g_inodes]. rewrite nth_lookup. destruct (decide (j = i)) as [->|].
    + rewrite list_lookup_insert_eq by lia. done.
    + rewrite list_lookup_insert_ne by done. rewrite <- nth_lookup. apply H6.
Qed.

Lemma dir_add_tree s kids p c : tree s kids -> (1 <= p < Z.to_nat (g_next_ino s))%nat -> (1 <= c < Z.to_nat (g_next_ino s))%nat ->
  is_Some (dirs s !! Sibling c) -> (forall j, (1 <= j < Z.to_nat (g_next_ino s))%nat -> c ∉ kids j) ->
  exists s', dir_add s p c = Done s' /\ tree s' (add_kid kids p c) /\ g_next_ino s' = g_next_ino s /\ g_root s' = g_root s.
Proof.
  intros Ht Hp Hc Hl Hn. unfold dir_add. set (s1 := put_inode s c _).
  assert (tree s1 kids) as Ht1 by (apply put_inode_tree; [done | apply Ht]). destruct Ht1 as [H1 H2 H3 H4 H5 H6].
  destruct (list_add_tail_ring (dirs s1) (Sibling c) (Children p) (Sibling <$> kids p) (H3 p Hp) Hl) as (m & -> & Hr & Hf).
  { intros Hin. apply elem_of_cons in Hin as [[=]|Hin]. apply sibling_in in Hin. by apply (Hn p). }
  cbn [faulting mbind outcome_bind]. eexists. split; [reflexivity|]. split; [|done].
  split; cbn [with_dirs g_inodes g_next_ino dirs]; try done.
  - intros i Hi. unfold add_kid. case_decide as E; [subst; by rewrite fmap_app|]. eapply ring_frame; [by apply H3|]. intros u Hu. apply Hf.
    + intros ->. apply elem_of_cons in Hu as [[=]|Hu]. apply sibling_in in Hu. by apply (Hn i).
    + intros Hin. apply elem_of_cons in Hu as [->|Hu], Hin as [E'|Hin].
      * injection E' as ->. done.
      * by apply children_not_in in Hin.
      * subst u. by apply children_not_in in Hu.
      * apply list_elem_of_fmap in Hu as (x & -> & Hx). apply sibling_in in Hin. apply E. by apply (H5 i p x).
  - intros i x Hi Hx. unfold add_kid in Hx. case_decide; [|by apply (H4 i)]. apply elem_of_app in Hx as [Hx|Hx]; [by apply (H4 p)|].
    apply list_elem_of_singleton in Hx as ->. done.
  - intros i j x Hi Hj Hx1 Hx2. unfold add_kid in Hx1, Hx2. destruct (decide (i = p)) as [->|], (decide (j = p)) as [->|]; [done|..].
    + apply elem_of_app in Hx1 as [Hx1|Hx1]; [by apply (H5 p j x)|]. apply list_elem_of_singleton in Hx1 as ->. by destruct (Hn j Hj).
    + apply elem_of_app in Hx2 as [Hx2|Hx2]; [by apply (H5 i p x)|]. apply list_elem_of_singleton in Hx2 as ->. by destruct (Hn i Hi).
    + by apply (H5 i j x).
Qed.

(** Both constructors add a child at the end of its parent's list. *)
Lemma new_child_tree s kids p i nm ty upd : tree s kids -> g_next_ino s < MAX_INODES -> 0 ∉ nm -> (1 <= p < Z.to_nat (g_next_ino s))%nat ->
  (forall n, name (upd n) = name n) -> i = Z.to_nat (g_next_ino s) ->
  exists s1 s', inode_alloc s nm ty = (s1, Some i) /\ dir_add (put_inode s1 i (upd (inode_at s1 i))) p i = Done s' /\
    tree s' (add_kid (fresh_kids kids i) p i) /\ g_next_ino s' = g_next_ino s + 1 /\ g_root s' = g_root s.
Proof.
  intros Ht Hlt Hnm Hp Hu ->. destruct (inode_alloc_tree s kids nm ty Ht Hlt Hnm) as (s1 & E1 & Ht1 & En & Hs & Hnew & Hname & Hr).
  exists s1. pose proof (tr_next _ _ Ht). set (i := Z.to_nat (g_next_ino s)) in *. set (s2 := put_inode s1 i (upd (inode_at s1 i))).
  assert (tree s2 (fresh_kids kids i)) as Ht2 by (apply put_inode_tree; [done|]; rewrite Hu; apply Ht1).
  destruct (dir_add_tree s2 (fresh_kids kids i) p i Ht2) as (s' & E & Ht' & En' & Hr'); try done.
  - cbn. rewrite En. lia.
  - cbn. rewrite En. unfold i. lia.
  - intros j Hj. cbn in Hj. rewrite En in Hj. unfold fresh_kids. case_decide; [apply not_elem_of_nil|]. apply Hnew. unfold i in *. lia.
  - exists s'. split; [exact E1|]. split; [exact E|]. split; [exact Ht'|]. cbn in En', Hr'. split; congruence.
Qed.

Lemma mkdir_tree s kids p i nm : tree s kids -> g_next_ino s = Z.of_nat i -> (i < 512)%nat -> 0 ∉ nm -> (1 <= p < i)%nat ->
  exists s', mkdir_node s (Some p) nm = Done (s', Some i) /\ tree s' (add_kid (fresh_kids kids i) p i) /\ g_next_ino s' = Z.of_nat (S i).
Proof.
  intros Ht Ei Hlt Hnm Hp. destruct (new_child_tree s kids p i nm INODE_DIR (fun n => set_mode n 493) Ht) as (s1 & s' & E1 & E2 & H3 & H4 & _);
    [unfold MAX_INODES; lia | done | lia | done | lia |]. exists s'. unfold mkdir_node. rewrite E1, E2. split; [done|]. split; [done | lia].
Qed.
Lemma mkfile_tree s kids p i nm o : tree s kids -> g_next_ino s = Z.of_nat i -> (i < 512)%nat -> 0 ∉ nm -> (1 <= p < i)%nat ->
  exists s', mkfile s (Some p) nm o = Done (s', Some i) /\ tree s' (add_kid (fresh_kids kids i) p i) /\ g_next_ino s' = Z.of_nat (S i).
Proof.
  intros Ht Ei Hlt Hnm Hp. destruct (new_child_tree s kids p i nm INODE_FILE (fun n => set_ops n o) Ht) as (s1 & s' & E1 & E2 & H3 & H4 & _);
    [unfold MAX_INODES; lia | done | lia | done | lia |]. exists s'. unfold mkfile. rewrite E1, E2. split; [done|]. split; [done | lia].
Qed.
Lemma mkchar_tree s kids p i nm o : tree s kids -> g_next_ino s = Z.of_nat i -> (i < 512)%nat -> 0 ∉ nm -> (1 <= p < i)%nat ->
  exists s', mkchar s (Some p) nm o = Done s' /\ tree s' (add_kid (fresh_kids kids i) p i) /\ g_next_ino s' = Z.of_nat (S i).
Proof.
  intros Ht Ei Hlt Hnm Hp. destruct (mkfile_tree s kids p i nm o Ht Ei Hlt Hnm Hp) as (s1 & E & T & N). unfold mkchar. rewrite E. cbn [mbind outcome_bind].
  eexists. split; [reflexivity|]. split; [|done]. apply put_inode_tree; [done | apply T].
Qed.

(** ** Path resolution *)

Lemma strcmp_eq a : forall b, 0 ∉ a -> 0 ∉ b -> exists r, strcmp (a ++ [0]) (b ++ [0]) = Done r /\ (r = 0 <-> a = b).
Proof.
  induction a as [|x a IH]; intros [|y b] Ha Hb; cbn [app strcmp].
  - exists 0. done.
  - apply not_elem_of_cons in Hb as [Hy _]. exists (0 - y). split; [done|]. split; [intros; lia | done].
  - apply not_elem_of_cons in Ha as [Hx _]. unfold truthy. rewrite (proj2 (Z.eqb_neq x 0)) by congruence. cbn [negb andb].
    exists (x - 0). split; [done|]. split; [intros; lia | done].
  - apply not_elem_of_cons in Ha as [Hx Ha], Hb as [Hy Hb]. unfold truthy. rewrite (proj2 (Z.eqb_neq x 0)) by congruence. cbn [negb andb].
    destruct (Z.eqb_spec x y) as [->|Hne].
    + destruct (IH b Ha Hb) as (r & E & Hr). exists r. split; [done|]. rewrite Hr. split; [by intros -> | by intros [=]].
    + exists (x - y). split; [done|]. split; [intros; lia | intros [=]; done].
Qed.

(** The first of the inodes [l] with that name. *)
Fixpoint first_named (s : vfs) (l : list nat) (nm : list Z) : option nat :=
  match l with [] => None | c :: l' => if decide (name (inode_at s c) = nm) then Some c else first_named s l' nm end.
Definition child_named (s : vfs) (kids : nat -> list nat) (d : nat) (nm : list Z) : option nat :=
  if type (inode_at s d) =? INODE_DIR then first_named s (kids d) nm else None.
(** The specification: follow the components. *)
Fixpoint resolve (s : vfs) (kids : nat -> list nat) (cur : nat) (comps : list (list Z)) : option nat :=
  match comps with [] => Some cur | nm :: comps' => c ← child_named s kids cur nm; resolve s kids c comps' end.

Lemma find_child_ok s l nm : (forall i, 0 ∉ name (inode_at s i)) -> 0 ∉ nm -> find_child s (Sibling <$> l) nm = Done (first_named s l nm).
Proof.
  intros Hs Hn. induction l as [|c l IH]; cbn [fmap list_fmap find_child first_named]; [done|].
  destruct (strcmp_eq (name (inode_at s c)) nm (Hs c) Hn) as (r & -> & Hr). cbn [mbind outcome_bind].
  destruct (Z.eqb_spec r 0) as [E|E]; case_decide as D; tauto.
Qed.
Lemma dir_lookup_ok s kids d nm : tree s kids -> (1 <= d < Z.to_nat (g_next_ino s))%nat -> 0 ∉ nm ->
  dir_lookup s (Some d) nm = Done (child_named s kids d nm).
Proof.
  intros Ht Hd Hn. unfold dir_lookup, child_named. destruct (type (inode_at s d) =? INODE_DIR); cbn [negb]; [|done].
  pose proof (tr_ring _ _ Ht d Hd) as R. rewrite (for_each_ring (dirs s) (Children d) _ _ R (ring_bounded _ _ _ R)).
  cbn [faulting mbind outcome_bind]. apply find_child_ok; [apply Ht | done].
Qed.
Lemma child_named_valid s kids d nm c : tree s kids -> (1 <= d < Z.to_nat (g_next_ino s))%nat -> child_named s kids d nm = Some c ->
  (1 <= c < Z.to_nat (g_next_ino s))%nat.
Proof.
  intros Ht Hd. unfold child_named. destruct (_ =? _); [|done]. intros H. apply (tr_kids _ _ Ht d c Hd). clear Hd. revert H.
  induction (kids d) as [|x l IH]; cbn [first_named]; [done|]. case_decide; [intros [= ->]; apply list_elem_of_here | intros Hx; apply list_elem_of_further; auto].
Qed.

(** A component of a path, and the path of several. *)
Definition component_ok (c : list Z) : Prop := c <> [] /\ (0 ∉ c) /\ (47 ∉ c) /\ (length c < 64)%nat.
Fixpoint join (comps : list (list Z)) : list Z :=
  match comps with [] => [] | [c] => c | c :: comps' => c ++ 47 :: join comps' end.

Lemma strchr_slash c rest : forall i, 0 ∉ c -> 47 ∉ c -> strchr_from (c ++ 47 :: rest) 47 i = Done (Some (i + length c)%nat) /\
  strchr_from (c ++ 0 :: rest) 47 i = Done None.
Proof.
  induction c as [|x c IH]; intros i H0 H47; cbn [app strchr_from length].
  - split; [|done]. by rewrite Nat.add_0_r.
  - apply not_elem_of_cons in H0 as [Hx0 H0], H47 as [Hx H47]. change (u8 47) with 47.
    rewrite (proj2 (Z.eqb_neq x 0)), (proj2 (Z.eqb_neq x 47)) by congruence. destruct (IH (S i) H0 H47) as [-> ->]. by rewrite Nat.add_succ_r.
Qed.

Lemma lookup_none s p fuel : p <> [] -> lookup_loop s p None (S fuel) = Done None.
Proof. intros Hp. cbn [lookup_loop]. destruct p; [done|]. rewrite bool_decide_eq_true_2 by done. by rewrite orb_true_r. Qed.

Lemma lookup_loop_ok s kids rest : tree s kids -> forall comps cur fuel, Forall component_ok comps -> comps <> [] ->
  (length comps < fuel)%nat -> (1 <= cur < Z.to_nat (g_next_ino s))%nat ->
  lookup_loop s (join comps ++ 0 :: rest) (Some cur) fuel = Done (resolve s kids cur comps).
Proof.
  intros Ht. induction comps as [|c comps IH]; intros cur fuel HF Hne Hf Hcur; [done|]. apply Forall_cons in HF as [(Hc & H0 & H47 & Hlen) HF].
  destruct fuel as [|f]; [cbn in Hf; lia|]. cbn [length] in Hf.
  assert (exists x c', c = x :: c' /\ x <> 0) as (x & c' & Ec & Hx0).
  { destruct c as [|x c']; [done|]. apply not_elem_of_cons in H0 as [? _]. exists x, c'. split; [done | congruence]. }
  assert (forall q, lookup_loop s (c ++ q) (Some cur) (S f) =
    (slash ← strchr (c ++ q) 47; len ← match slash with Some n => Done n | None => strlen (c ++ q) end;
    if (64 <=? len)%nat then Done None
    else cur ← dir_lookup s (Some cur) (take len (c ++ q));
         match (match slash with Some n => drop (n + 1) (c ++ q) | None => drop len (c ++ q) end) with
         | [] => Fault | c :: p' => if c =? 0 then Done cur else lookup_loop s (c :: p') cur f end)) as Eun.
  { intros q. rewrite Ec. cbn [app lookup_loop]. rewrite (proj2 (Z.eqb_neq x 0)), bool_decide_eq_false_2 by done. cbn [orb].
    destruct (strchr _ 47) as [[n|]| |]; cbn [mbind outcome_bind]; [| |done|done].
    - destruct (64 <=? n)%nat; [done|]. destruct (dir_lookup _ _ _) as [o| |]; cbn [mbind outcome_bind]; [|done|done]. by destruct (drop _ _).
    - destruct (strlen _) as [n| |]; cbn [mbind outcome_bind]; [|done|done]. destruct (64 <=? n)%nat; [done|].
      destruct (dir_lookup _ _ _) as [o| |]; cbn [mbind outcome_bind]; [|done|done]. by destruct (drop _ _). }
  destruct comps as [|c2 comps].
  - cbn [join resolve]. rewrite Eun. unfold strchr. rewrite (proj2 (strchr_slash c rest 0 H0 H47)). cbn [mbind outcome_bind].
    rewrite strlen_terminated by done. cbn [mbind outcome_bind]. rewrite (proj2 (Nat.leb_gt _ _)) by lia.
    rewrite take_app_length, drop_app_length, (dir_lookup_ok s kids) by done. cbn [mbind outcome_bind]. by destruct (child_named _ _ _ _).
  - change (join (c :: c2 :: comps)) with (c ++ 47 :: join (c2 :: comps)). rewrite <- app_assoc. rewrite Eun. cbn [app].
    unfold strchr. rewrite (proj1 (strchr_slash c (join (c2 :: comps) ++ 0 :: rest) 0 H0 H47)). cbn [mbind outcome_bind Nat.add].
    rewrite (proj2 (Nat.leb_gt _ _)) by lia. rewrite take_app_length, (dir_lookup_ok s kids) by done. cbn [mbind outcome_bind].
    replace (drop (length c + 1) _) with (join (c2 :: comps) ++ 0 :: rest).
    2:{ rewrite <- drop_drop, drop_app_length. done. }
    assert (exists y q, join (c2 :: comps) ++ 0 :: rest = y :: q /\ y <> 0) as (y & q & Ey & Hy).
    { apply Forall_cons in HF as [(Hc2 & H2 & _ & _) _]. destruct c2 as [|y c2]; [done|]. apply not_elem_of_cons in H2 as [? _].
      destruct comps; eexists y, _; (split; [reflexivity | congruence]). }
    rewrite Ey. rewrite (proj2 (Z.eqb_neq y 0)) by done. rewrite <- Ey. cbn [resolve].
    destruct (child_named s kids cur c) as [d|] eqn:Ed; cbn [mbind option_bind].
    + apply IH; [done | done | cbn in *; lia | by eapply child_named_valid].
    + destruct f as [|f]; [cbn in Hf; lia|]. apply lookup_none. by rewrite Ey.
Qed.

(** ** Theorems *)

(** (C23) Path resolution: on any directory tree, for an absolute path of components
    shorter than 64 characters, [vfs_lookup] returns what following the components
    one by one returns, taking at each directory the first child of that name. *)
Theorem vfs_lookup_resolves s kids root comps rest : tree s kids -> g_root s = Some root -> (1 <= root < Z.to_nat (g_next_ino s))%nat ->
  Forall component_ok comps ->
  vfs_lookup s (Some (47 :: join comps ++ 0 :: rest)) = Done (resolve s kids root comps).
Proof.
  intros Ht Hr Hroot HF. unfold vfs_lookup. cbn [Z.eqb Pos.eqb negb]. rewrite Hr. destruct comps as [|c comps]; [done|].
  assert (exists y q, join (c :: comps) ++ 0 :: rest = y :: q /\ y <> 0) as (y & q & Ey & Hy).
  { pose proof HF as HF'. apply Forall_cons in HF' as [(Hc2 & H2 & _ & _) _]. destruct c as [|y c]; [done|]. apply not_elem_of_cons in H2 as [? _].
    destruct comps; eexists y, _; (split; [reflexivity | congruence]). }
  rewrite Ey, (proj2 (Z.eqb_neq y 0)) by done. rewrite <- Ey. apply lookup_loop_ok; try done.
  rewrite length_app. cbn [length]. assert (forall l, Forall component_ok l -> (length l <= length (join l))%nat) as Hl.
  { induction l as [|a l IH]; intros Hl; [done|]. apply Forall_cons in Hl as [(Ha & _) Hl]. specialize (IH Hl). destruct a as [|? a]; [done|].
    destruct l; cbn [join] in *; [cbn; lia|]. rewrite length_app. cbn [length] in *. lia. }
  specialize (Hl _ HF). cbn [length] in *. lia.
Qed.

(** ** The tree at boot *)

(** The file's static data before [vfs_init]; the rest of the kernel is arbitrary. *)
Section boot.
Context (h : vmm) (con : Printk.console) (np : Neri.neri_pool) (nk : Neri.neki) (ns : Neri.sec).

Definition vfs_bss : vfs := mk_vfs (replicate (Z.to_nat MAX_INODES) zero_inode) 1 ∅ None h con np nk ns false false.
Definition booted_vfs : vfs := match vfs_init vfs_bss with Done s => s | _ => vfs_bss end.
Definition boot_kids (i : nat) : list nat :=
  (match i with 1 => [2; 7] | 2 => [3; 4; 5; 6] | 7 => [8; 10] | 8 => [9] | 10 => [11] | _ => [] end)%nat.

Lemma bss_tree : tree vfs_bss (fun _ => []).
Proof.
  split; cbn.
  - by rewrite length_replicate.
  - unfold MAX_INODES. lia.
  - intros i Hi. lia.
  - intros i c Hi. lia.
  - intros i j c Hi. lia.
  - intros i. unfold inode_at. cbn [vfs_bss g_inodes]. rewrite nth_lookup. destruct (replicate _ _ !! i) eqn:E; [|apply not_elem_of_nil].
    apply lookup_replicate in E as [-> _]. apply not_elem_of_nil.
Qed.

Lemma tree_ext s kids kids' : tree s kids -> (forall i, (1 <= i < Z.to_nat (g_next_ino s))%nat -> kids i = kids' i) -> tree s kids'.
Proof.
  intros [H1 H2 H3 H4 H5 H6] E. split; try done.
  - intros i Hi. rewrite <- E by done. by apply H3.
  - intros i c Hi. rewrite <- E by done. by apply H4.
  - intros i j c Hi Hj. rewrite <- !E by done. by apply H5.
Qed.

(** The root: a directory without a parent. *)
Lemma root_tree : exists s, mkdir_node vfs_bss None (bstr "/") = Done (s, Some 1%nat) /\ tree (with_root s (Some 1%nat)) (fun _ => []) /\ g_next_ino s = 2.
Proof.
  destruct (inode_alloc_tree vfs_bss (fun _ => []) (bstr "/") INODE_DIR bss_tree) as (s & E & T & N & _); [done | by apply (bool_decide_unpack _)|].
  unfold mkdir_node. rewrite E. eexists. split; [reflexivity|]. split; [|exact N].
  apply (tree_ext _ (fresh_kids (fun _ => []) 1%nat)); [|intros i _; unfold fresh_kids; by case_decide].
  assert (tree (put_inode s 1 (set_mode (inode_at s 1) 493)) (fresh_kids (fun _ => []) 1%nat)) as T' by (apply put_inode_tree; [exact T | apply T]).
  by destruct T'.
Qed.

Lemma boot_tree : vfs_init vfs_bss = Done booted_vfs /\ tree booted_vfs boot_kids /\ g_root booted_vfs = Some 1%nat /\ g_next_ino booted_vfs = 12.
Proof.
  assert (exists s, vfs_init vfs_bss = Done s /\ tree s boot_kids) as (s & E & T).
  { destruct root_tree as (s0 & E0 & T0 & N0). unfold vfs_init. rewrite E0. cbn [mbind outcome_bind].
    destruct (mkdir_tree _ _ 1 2 (bstr "dev") T0) as (s1 & -> & T1 & N1); [done | lia | by apply (bool_decide_unpack _) | lia|]. cbn [mbind outcome_bind].
    destruct (mkchar_tree _ _ 2 3 (bstr "neri") NeriDevOps T1) as (s2 & -> & T2 & N2); [done | lia | by apply (bool_decide_unpack _) | lia|]. cbn [mbind outcome_bind].
    destruct (mkchar_tree _ _ 2 4 (bstr "null") NullOps T2) as (s3 & -> & T3 & N3); [done | lia | by apply (bool_decide_unpack _) | lia|]. cbn [mbind outcome_bind].
    destruct (mkchar_tree _ _ 2 5 (bstr "zero") ZeroOps T3) as (s4 & -> & T4 & N4); [done | lia | by apply (bool_decide_unpack _) | lia|]. cbn [mbind outcome_bind].
    destruct (mkchar_tree _ _ 2 6 (bstr "tty0") TtyOps T4) as (s5 & -> & T5 & N5); [done | lia | by apply (bool_decide_unpack _) | lia|]. cbn [mbind outcome_bind].
    destruct (mkdir_tree _ _ 1 7 (bstr "proc") T5) as (s6 & -> & T6 & N6); [done | lia | by apply (bool_decide_unpack _) | lia|]. cbn [mbind outcome_bind].
    destruct (mkdir_tree _ _ 7 8 (bstr "neri") T6) as (s7 & -> & T7 & N7); [done | lia | by apply (bool_decide_unpack _) | lia|]. cbn [mbind outcome_bind].
    destruct (mkfile_tree _ _ 8 9 (bstr "status") ProcNeriStatusOps T7) as (s8 & -> & T8 & N8); [done | lia | by apply (bool_decide_unpack _) | lia|]. cbn [mbind outcome_bind].
    destruct (mkdir_tree _ _ 7 10 (bstr "cortexcrypto") T8) as (s9 & -> & T9 & N9); [done | lia | by apply (bool_decide_unpack _) | lia|]. cbn [mbind outcome_bind].
    destruct (mkfile_tree _ _ 10 11 (bstr "machine_id") ProcCcMidOps T9) as (s10 & -> & T10 & N10); [done | lia | by apply (bool_decide_unpack _) | lia|]. cbn [mbind outcome_bind].
    exists s10. split; [done|]. eapply tree_ext; [exact T10|]. rewrite N10. intros i Hi. do 12 (destruct i as [|i]; [try lia; reflexivity|]). lia. }
  assert (booted_vfs = s) as Eb by (unfold booted_vfs; by rewrite E). rewrite Eb. split; [done|]. split; [done|]. rewrite <- Eb. clear. split; vm_compute; reflexivity.
Qed.

End boot.

Section booted.
Context (h : vmm) (con : Printk.console) (np : Neri.neri_pool) (nk : Neri.neki) (ns : Neri.sec).

(** The nodes [vfs_init] announces, their numbers and operations. *)
Definition announced : list (string * nat * option file_ops) :=
  [("dev/neri", 3, Some NeriDevOps); ("dev/null", 4, Some NullOps); ("dev/zero", 5, Some ZeroOps); ("dev/tty0", 6, Some TtyOps);
   ("proc/neri/status", 9, Some ProcNeriStatusOps); ("proc/cortexcrypto/machine_id", 11, Some ProcCcMidOps);
   ("dev", 2, None); ("proc", 7, None)]%string%nat.

(** Every node [vfs_init] announces is found, with its operations; other names are
    not. *)
Theorem vfs_init_tree : vfs_init (vfs_bss h con np nk ns) = Done (booted_vfs h con np nk ns) /\
  Forall (fun x => vfs_lookup (booted_vfs h con np nk ns) (Some (47 :: bstr x.1.1 ++ [0])) = Done (Some x.1.2) /\
                   ops (inode_at (booted_vfs h con np nk ns) x.1.2) = x.2) announced /\
  vfs_lookup (booted_vfs h con np nk ns) (Some (47 :: bstr "dev/null/x" ++ [0])) = Done None /\
  vfs_lookup (booted_vfs h con np nk ns) (Some (bstr "dev" ++ [0])) = Done None.
Proof.
  split; [apply boot_tree|]. split; [|split; vm_compute; reflexivity].
  unfold announced. repeat (apply Forall_cons; split; [split; vm_compute; reflexivity|]). by apply Forall_nil.
Qed.
End booted.

(** ** ramfs *)

(** The buffer of a file, its used part, and an inode in the table. *)
Record ramfs_ok (s : vfs) (i : nat) : Prop := {
  rf_in : (i < length (g_inodes s))%nat;
  rf_data : data (inode_at s i) <> 0;
  rf_cap : data_cap (inode_at s i) = Z.of_nat (length (bytes (inode_at s i)));
  rf_len : 0 <= data_len (inode_at s i) <= data_cap (inode_at s i);
  rf_small : data_cap (inode_at s i) < 2 ^ 63
}.


(** Files cannot grow: the new buffer is a multiple of 4096 bytes and comes from
    vmalloc.  A write beyond the buffer faults or returns an error, and the
    contents stay. *)
Theorem ramfs_never_grows s junk f i buf : f_inode f = Some i -> in_vmalloc (heap s) -> map obj_size (slabs (heap s)) = slab_sz ->
  0 <= data_cap (inode_at s i) -> 0 <= offset f < 2 ^ 63 -> data_cap (inode_at s i) < offset f + Z.of_nat (length buf) < 2 ^ 64 ->
  ramfs_write s junk f buf = Fault \/
  exists s' e, ramfs_write s junk f buf = Done (s', f, e) /\ e < 0 /\ g_inodes s' = g_inodes s.
Proof.
  intros Hf Hv Hs Hc Ho Hl. unfold ramfs_write. rewrite Hf. unfold ramfs_grow. rewrite (u64_small (offset f + _)), (proj2 (Z.ltb_lt _ _)) by lia.
  destruct (_ || _) eqn:Eb; cbn [mbind outcome_bind]; [right; by exists s, (- EFBIG)|]. apply orb_false_iff in Eb as [Eb _]. apply orb_false_iff in Eb as [E1 E2].
  apply Z.ltb_ge in E1, E2. assert (2048 < ALIGN (offset f + Z.of_nat (length buf)) 4096 <= 2 ^ 47) as Ha.
  { change 4096 with (2 ^ 12). rewrite ALIGN_spec by lia. change (2 ^ 12) with 4096. change (2 ^ 47) with 0x800000000000. zdm. }
  destruct (kmalloc_fails_large (heap s) _ Hv Hs Ha) as [->|(h & -> & _)]; [by left|]. right. cbn [mbind outcome_bind Z.eqb].
  eexists _, (- ENOMEM). split; [reflexivity|]. done.
Qed.

(** ** Texts and descriptors *)

Lemma length_digits v base upper fuel : (length (Printk.digits_of v base upper fuel) <= fuel)%nat.
Proof. revert v. induction fuel as [|f IH]; intros v; cbn [Printk.digits_of]; [done|]. destruct (truthy v); cbn; [|lia]. specialize (IH (v / base)). lia. Qed.
Lemma digits_short fuel : forall v k, 0 <= v < 10 ^ Z.of_nat k -> (length (Printk.digits_of v 10 false fuel) <= k)%nat.
Proof.
  induction fuel as [|f IH]; intros v k Hv; cbn [Printk.digits_of]; [cbn; lia|]. unfold truthy. destruct (Z.eqb_spec v 0); cbn [negb length]; [lia|].
  destruct k as [|k]; [cbn in Hv; lia|]. rewrite Nat2Z.inj_succ, Z.pow_succ_r in Hv by lia.
  specialize (IH (v / 10) k). assert (0 <= v / 10 < 10 ^ Z.of_nat k) by (split; [apply Z.div_pos; lia | apply Z.div_lt_upper_bound; lia]). specialize (IH H). lia.
Qed.
Lemma decimal_short v k : (1 <= k)%nat -> 0 <= v < 10 ^ Z.of_nat k -> (1 <= length (decimal v) <= k)%nat.
Proof.
  intros Hk Hv. unfold decimal, truthy. destruct (Z.eqb_spec v 0) as [->|Hne]; cbn [negb]; [cbn; lia|]. rewrite length_rev.
  split; [|by apply digits_short]. cbn [Printk.digits_of]. unfold truthy. rewrite (proj2 (Z.eqb_neq _ _)) by done. cbn. lia.
Qed.

(** A terminator within reach bounds the length. *)
Lemma strnlen_bound l : forall n k, l !! k = Some 0 -> (k < n)%nat -> exists m, strnlen l n = Done m /\ (m <= k)%nat.
Proof.
  induction l as [|c l IH]; intros [|n] k Hk Hn; [done|done|lia|]. cbn [strnlen]. destruct (Z.eqb_spec c 0); [exists 0%nat; split; [done | lia]|].
  destruct k as [|k]; [cbn in Hk; congruence|]. destruct (IH n k Hk ltac:(lia)) as (m & -> & Hm). exists (S m). split; [done | lia].
Qed.
Lemma mid_text_short s stack : length stack = 66%nat -> exists t, proc_cc_mid_text s stack = Done t /\ (length t <= 65)%nat.
Proof.
  intros Hst. unfold proc_cc_mid_text, cc_get_machine_fingerprint. cbn [Nat.ltb Nat.leb].
  set (un := bstr "unavailable" ++ [10; 0]). assert (length un = 13%nat) as Lu by done.
  set (fp := if g_cc_ready s then <[65%nat := 0]> (<[64%nat := 10]> stack) else splice (splice stack 0 un) 0 un).
  assert (exists k, fp !! k = Some 0 /\ (k < 66)%nat) as (k & Hk & Hk66).
  { unfold fp. destruct (g_cc_ready s).
    - exists 65%nat. rewrite list_lookup_insert_eq by (rewrite length_insert; lia). split; [done | lia].
    - exists 12%nat. rewrite lookup_splice by (rewrite ?length_splice; lia). rewrite decide_True by lia. split; [done | lia]. }
  destruct (strnlen_bound fp 66 k Hk Hk66) as (m & Em & Hm). exists (take m fp).
  split; [|rewrite length_take; lia]. destruct (g_cc_ready s); cbv beta iota zeta delta [negb]; rewrite ?Em; unfold fp in Em;
    [change (0 <? 0) with false | change (-1 <? 0) with true]; cbv iota; by rewrite Em.
Qed.

(** The texts built on the kernel stack fit their buffers, whatever the resource
    manager's counters are: the status line fits [tmp[128]], the status report
    [tmp[512]], the machine identifier [fp[66]], and no number has more digits than
    the scratch arrays [rev[20]] and [num[24]] hold. *)
Theorem vfs_texts_fit s stack : 0 <= Neri.cpu_alloc_ns (pool s) -> 0 <= Neri.cpu_total_ns (pool s) -> 0 <= Neri.ram_total_pages (pool s) ->
  0 <= Neri.g_cpu_bias_pct (neki s) < 2 ^ 32 -> 0 <= Neri.score_byte (Neri.neri_sec_get_anomaly (nsec s)) < 256 -> length stack = 66%nat ->
  (length (neri_dev_text s) < 128)%nat /\ (length (proc_neri_status_text s) < 512)%nat /\
  (exists t, proc_cc_mid_text s stack = Done t /\ (length t <= 65)%nat) /\
  (forall v, 0 <= v < 2 ^ 64 -> (length (decimal v) <= 20)%nat).
Proof.
  intros H1 H2 H3 H4 H5 Hst.
  assert (forall v, 0 <= v < 2 ^ 64 -> (1 <= length (decimal v) <= 20)%nat) as Hd by (intros v Hv; apply decimal_short; cbn; lia).
  assert (forall a b, 0 <= b -> 0 <= percent a b < 2 ^ 64) as Hp.
  { intros a b Hb. unfold percent, truthy. destruct (Z.eqb_spec b 0); cbn [negb]; [lia|]. pose proof (u64_range (a * 100)).
    split; [apply Z.div_pos; lia|]. apply Z.div_lt_upper_bound; nia. }
  split; [|split; [|split]].
  - unfold neri_dev_text. rewrite !length_app. pose proof (Hd (u64 (Neri.epoch (pool s))) (u64_range _)). cbn [length]. change (length (bstr "neri epoch=")) with 11%nat. lia.
  - unfold proc_neri_status_text. cbn [Neri.neki_get_policy]. rewrite !length_app. cbn [length].
    set (lv := nth _ level_names []). assert (length lv <= 8)%nat as Hlv.
    { unfold lv. destruct (Z.to_nat _) as [|[|[|[|[|k]]]]]; cbn; lia. }
    pose proof (Hd (u64 (Neri.epoch (pool s))) (u64_range _)). pose proof (Hd _ (Hp (Neri.cpu_alloc_ns (pool s)) _ H2)).
    pose proof (Hd _ (Hp (Neri.ram_alloc_pages (pool s)) _ H3)). pose proof (Hd (Neri.g_cpu_bias_pct (neki s)) ltac:(lia)).
    pose proof (Hd (Neri.score_byte (Neri.neri_sec_get_anomaly (nsec s))) ltac:(lia)).
    repeat match goal with |- context [length (bstr ?t)] => let k := eval vm_compute in (length (bstr t)) in change (length (bstr t)) with k end. lia.
  - apply mid_text_short. done.
  - intros v Hv. apply Hd. done.
Qed.

(** A descriptor that names an open file. *)
Definition live_fd (t : fd_table) (fd : Z) : Prop := 0 <= u32 fd < FD_TABLE_SIZE /\ exists f i, t !! Z.to_nat (u32 fd) = Some f /\ open f = true /\ f_inode f = Some i.

Lemma fd_file_dead s t fd : length t = Z.to_nat FD_TABLE_SIZE -> ~ live_fd t fd -> fd_file s t fd = None.
Proof.
  intros Hl Hd. unfold fd_file. destruct (Z.leb_spec FD_TABLE_SIZE (u32 fd)); [done|]. pose proof (u32_range fd). rewrite nth_lookup.
  destruct (t !! Z.to_nat (u32 fd)) as [f|] eqn:E; [|done]. cbn [from_option id]. destruct (f_inode f) as [i|] eqn:Ei; [|done].
  destruct (open f) eqn:Eo; [|done]. destruct Hd. split; [lia|]. by exists f, i.
Qed.

Lemma fd_alloc_ok t n : match fd_alloc_from t n 0 with
  | Some (i, f) => (exists g, t !! i = Some g /\ open g = false) /\ f = mk_file n 0 0 true
  | None => Forall (fun f => open f = true) t end.
Proof.
  assert (forall k, match fd_alloc_from t n k with
    | Some (i, f) => (exists g, t !! (i - k)%nat = Some g /\ open g = false) /\ (k <= i)%nat /\ f = mk_file n 0 0 true
    | None => Forall (fun f => open f = true) t end) as H.
  { induction t as [|f t IH]; intros k; cbn [fd_alloc_from]; [constructor|]. destruct (open f) eqn:E.
    - specialize (IH (S k)). destruct (fd_alloc_from t n (S k)) as [[i g]|]; [|by constructor]. destruct IH as ((g' & H1 & H2) & H3 & H4).
      split; [|split; [lia | done]]. exists g'. replace (i - k)%nat with (S (i - S k)) by lia. done.
    - split; [|split; [lia | done]]. exists f. by rewrite Nat.sub_diag. }
  specialize (H 0%nat). destruct (fd_alloc_from t n 0) as [[i f]|]; [|done]. rewrite Nat.sub_0_r in H. tauto.
Qed.

(** Descriptors are checked: a descriptor that is negative, too large, closed or
    without a table is refused with -EBADF and nothing changes (early output to 1
    and 2 goes to the serial line); [fd_alloc] takes a free slot and makes it live
    for that inode, or fails exactly when all are in use. *)
Theorem vfs_descriptors s stack junk t fd len buf : length t = Z.to_nat FD_TABLE_SIZE -> 0 < len <= 0x40000000 -> Z.of_nat (length buf) <= 0x40000000 ->
  (~ live_fd t fd ->
     vfs_read s stack (Some t) fd true len = Done (Some t, [], - EBADF) /\ vfs_write s junk (Some t) fd (Some buf) = Done (s, Some t, - EBADF)) /\
  vfs_read s stack None fd true len = Done (None, [], - EBADF) /\
  vfs_write s junk None fd (Some buf) =
    (if (fd =? 1) || (fd =? 2) then Done (serial_all s buf, None, Z.of_nat (length buf)) else Done (s, None, - EBADF)) /\
  (forall i, let (t', r) := fd_alloc t (Some i) in
     if r <? 0 then t' = t /\ r = - EMFILE /\ Forall (fun f => open f = true) t
     else live_fd t' r /\ ~ live_fd t r /\ fd_file s t' r = Some (mk_file (Some i) 0 0 true, ops (inode_at s i))).
Proof.
  intros Hl Hlen Hbuf. unfold vfs_read, vfs_write. rewrite (proj2 (Z.eqb_neq len 0)), !(proj2 (Z.ltb_ge _ _)) by lia. cbn [negb orb].
  split; [intros Hd; by rewrite !fd_file_dead by done|]. split; [done|]. split; [by destruct (fd =? 1), (fd =? 2)|].
  intros i. unfold fd_alloc. pose proof (fd_alloc_ok t (Some i)) as H. destruct (fd_alloc_from t (Some i) 0) as [[k f]|].
  - destruct H as ((g & Hg & Ho) & ->). pose proof (lookup_lt_Some _ _ _ Hg) as Hk. rewrite Hl in Hk. unfold FD_TABLE_SIZE in *.
    rewrite (proj2 (Z.ltb_ge _ _)) by lia. unfold live_fd, fd_file, FD_TABLE_SIZE. rewrite u32_small, Nat2Z.id, (proj2 (Z.leb_gt _ _)) by lia.
    rewrite nth_lookup, list_lookup_insert_eq by lia. split; [|split; [|done]].
    + split; [lia|]. eexists _, i. done.
    + intros (_ & f & j & Hf & Hof & _). congruence.
  - done.
Qed.

(** ** Concrete runs *)

Definition no_vmm : vmm := mk_vmm Pmm.pmm_bss 0 0 [] ∅.
Definition con_ex : Printk.console := Printk.mk_console true [] (replicate 2000 0) 0 0 7.
Definition pool_ex : Neri.neri_pool := Neri.mk_pool 1000 250 4096 16 256 0 7 0.
Definition neki_ex : Neri.neki := Neri.mk_neki [] 0 0 0 0 0 50 0 4 64.
Definition sec_ex : Neri.sec := Neri.mk_sec [] false (Neri.mk_anomaly 12 0 false 0) Neri.zero_feat.
Definition fs_ex : vfs := booted_vfs no_vmm con_ex pool_ex neki_ex sec_ex.

Definition path_ex : list (list Z) := [bstr "proc"; bstr "neri"; bstr "status"].
Lemma vfs_lookup_resolves_witness : vfs_lookup fs_ex (Some (47 :: join path_ex ++ 0 :: [1; 2; 3])) = Done (Some 9%nat).
Proof.
  destruct (boot_tree no_vmm con_ex pool_ex neki_ex sec_ex) as (_ & T & R & N).
  assert (resolve fs_ex boot_kids 1 path_ex = Some 9%nat) as E by (vm_compute; reflexivity).
  assert (1 <= 1 < Z.to_nat (g_next_ino fs_ex))%nat as Hr by (unfold fs_ex; rewrite N; lia).
  pose proof (vfs_lookup_resolves fs_ex boot_kids 1 path_ex [1; 2; 3] T R Hr) as H. rewrite E in H. apply H. unfold path_ex.
  repeat (apply Forall_cons; split; [split; [discriminate|]; split; [by apply (bool_decide_unpack _)|]; split; [by apply (bool_decide_unpack _) | cbn; lia]|]).
  by apply Forall_nil.
Defined.

(** A file with a buffer of eight bytes, three of them used. *)
Definition file_fs : vfs := put_inode fs_ex 12 (mk_inode 12 INODE_FILE 420 3 0x5000 [1; 2; 3; 9; 9; 9; 9; 9] 3 8 (Some RamfsOps) None []).

Lemma vfs_texts_fit_witness : (length (proc_neri_status_text fs_ex) < 512)%nat /\ length (neri_dev_text fs_ex) = 13%nat.
Proof.
  split; [|reflexivity]. apply (vfs_texts_fit fs_ex (replicate 66 0)); [vm_compute; discriminate..|vm_compute; split; [discriminate | reflexivity]| |reflexivity].
  vm_compute. split; [discriminate | reflexivity].
Defined.

Lemma vfs_descriptors_witness : vfs_read fs_ex [] (Some (replicate 32 no_file)) (-1) true 8 = Done (Some (replicate 32 no_file), [], - EBADF).
Proof.
  apply (vfs_descriptors fs_ex [] [] (replicate 32 no_file) (-1) 8 [] eq_refl ltac:(lia) ltac:(cbn; lia)). intros [H _]. vm_compute in H. destruct H as [_ H]. discriminate H.
Defined.

End VfsProof.
