(* ===== verification/Boot.v ===== *)
(** * init/nekros_main.c: the memory map, the machine fingerprint, finding tasks

    [parse_multiboot2] reads the loader's structure byte by byte through the same
    memory the page allocator stores its links in, so a link written over the
    structure is seen.  The loops of the parser have no bound in the source; [fuel]
    bounds the iterations of each, and [None] is a parser that is still running. *)

From Stdlib Require Import Ascii String.
From S2P Require Import Prelude Bytes Pmm PmmLists PmmInv PmmBoot PmmSpec Sha256 Hal ListHead Neri Sched.
Import Bytes Pmm PmmLists Sha256 ListHead.

Module Boot.

(** ** Loads of 1, 4 and 8 bytes *)

Definition byte_at (m : memory) (a : Z) : Z := u8 (Z.shiftr (mread m (a - a mod 8)) (8 * (a mod 8))).
Definition ld (m : memory) (a : Z) (n : nat) : Z := le_load (map (fun i => byte_at m (u64 (a + Z.of_nat i))) (seq 0 n)).

(** ** The memory map *)

Definition MB2_TAG_MMAP : Z := 6.
Definition MB2_MMAP_AVAILABLE : Z := 1.

(** What becomes of a region of RAM: the first [bm_bytes] are left for a bitmap. *)
Definition use_region (s : pmm) (base_addr len : Z) : pmm :=
  let bpa := ALIGN base_addr PAGE_SIZE in
  let pages := len / PAGE_SIZE in
  let bm_bytes := ALIGN (pages / 8 + 1) PAGE_SIZE in
  if bm_bytes <? len then pmm_add_region s (u64 (bpa + bm_bytes)) (u64 (len - bm_bytes)) else s.

(** One [mb2_mmap_entry]: [base_addr], [length], [type] at 0, 8, 16. *)
Definition mmap_entry (s : pmm) (e total_ram bitmap_pa : Z) : pmm * Z * Z :=
  let base_addr := ld (mem s) e 8 in
  let len := ld (mem s) (u64 (e + 8)) 8 in
  if ld (mem s) (u64 (e + 16)) 4 =? MB2_MMAP_AVAILABLE then
    let total_ram := u64 (total_ram + len) in
    if 0x400000 <=? base_addr then
      (use_region s base_addr len, total_ram, if bitmap_pa =? 0 then ALIGN base_addr PAGE_SIZE else bitmap_pa)
    else (s, total_ram, bitmap_pa)
  else (s, total_ram, bitmap_pa).

(** [while (entry_ptr < mmap_end)]; [entry_size] is at 8 of the tag. *)
Fixpoint mmap_entries (s : pmm) (mmap entry_ptr mmap_end total_ram bitmap_pa : Z) (fuel : nat) : option (pmm * Z * Z) :=
  if entry_ptr <? mmap_end then
    match fuel with
    | O => None
    | S f =>
        let '(s, total_ram, bitmap_pa) := mmap_entry s entry_ptr total_ram bitmap_pa in
        mmap_entries s mmap (u64 (entry_ptr + ld (mem s) (u64 (mmap + 8)) 4)) mmap_end total_ram bitmap_pa f
    end
  else Some (s, total_ram, bitmap_pa).

(** [while (tag_ptr < end_ptr)]; a tag is [type], [size] and its contents. *)
Fixpoint mb2_tags (s : pmm) (tag_ptr end_ptr total_ram bitmap_pa : Z) (inner fuel : nat) : option (pmm * Z * Z) :=
  if tag_ptr <? end_ptr then
    match fuel with
    | O => None
    | S f =>
        let type := ld (mem s) tag_ptr 4 in
        if type =? 0 then Some (s, total_ram, bitmap_pa)
        else
          '(s, total_ram, bitmap_pa) ←
            (if type =? MB2_TAG_MMAP then
               mmap_entries s tag_ptr (u64 (tag_ptr + 16)) (u64 (tag_ptr + ld (mem s) (u64 (tag_ptr + 4)) 4)) total_ram bitmap_pa inner
             else Some (s, total_ram, bitmap_pa));
          let advance := u32 (ALIGN (ld (mem s) (u64 (tag_ptr + 4)) 4) 8) in
          let advance := if advance <? 8 then 8 else advance in
          mb2_tags s (u64 (tag_ptr + advance)) end_ptr total_ram bitmap_pa inner f
    end
  else Some (s, total_ram, bitmap_pa).

(** The allocator, [*total_ram_out], [*bitmap_pa_out]. *)
Definition parse_multiboot2 (s : pmm) (mb2_phys : Z) (fuel : nat) : option (pmm * Z * Z) :=
  let info := phys_to_virt mb2_phys in
  '(s, total_ram, bitmap_pa) ←
    mb2_tags s (u64 (info + 8)) (u64 (info + ld (mem s) info 4)) 0 0x200000 fuel fuel;
  Some (s, total_ram / PAGE_SIZE, bitmap_pa).

(** ** The machine fingerprint *)

Definition compute_machine_fp (u : sha256_ctx) (hw : Hal.cpu) (tsc : Z) : list Z :=
  let '(_, ebx, ecx, edx) := Hal.cpuid hw 0 0 in
  let '(eax, _, _, _) := Hal.cpuid hw 1 0 in
  let buf := replicate 64 0 in
  let buf := splice buf 0 (le_bytes 4 ebx) in
  let buf := splice buf 4 (le_bytes 4 ecx) in
  let buf := splice buf 8 (le_bytes 4 edx) in
  let buf := splice buf 12 (le_bytes 4 eax) in
  let buf := splice buf 16 (le_bytes 4 (Z.land tsc 0xFFFFFFFF)) in
  let buf := splice buf 20 (bytes_of_string "nekros-bind-v1") in
  sha256 u buf.

(** ** Finding tasks, starting and stopping the resource manager *)

(** [list_for_each_entry] over the nodes of [all_tasks_list] in order. *)
Fixpoint find_pid (s : Sched.sys) (nodes : list Sched.snode) (pid : Z) : outcome (option Z) :=
  match nodes with
  | [] => Done None
  | Sched.AllNode ta :: rest =>
      t ← Sched.deref s ta;
      if Sched.pid t =? pid then Done (Some ta) else find_pid s rest pid
  | _ :: _ => Fault
  end.
Definition task_find_by_pid (s : Sched.sys) (pid : Z) : outcome (option Z) :=
  nx ← faulting (get_next (Sched.links s) (Some Sched.AllHead));
  nodes ← faulting (for_each (Sched.links s) Sched.AllHead nx (S (size (Sched.links s))));
  find_pid s nodes pid.

Definition neri_module_init (u : sha256_ctx) (msr : Z -> Z) (tsc tsc2 : Z) (n : Neri.neri) (machine_fp : list Z) (ram_pages ncpus gpu_slots : Z) : Neri.neri * Z :=
  let ps := Neri.neri_pool_init (Neri.admitted (Neri.n_ps n)) (Neri.neri_admitted_count (Neri.n_ps n)) ram_pages ncpus gpu_slots tsc in
  let ut := Neri.neri_utb_init msr tsc2 in
  (Neri.mk_neri ps ut (Neri.n_nzra n) (Neri.n_neki n) (Neri.neri_sec_init u machine_fp), 0).
Definition neri_module_exit (n : Neri.neri) : Neri.neri :=
  Neri.mk_neri (Neri.n_ps n) (Neri.n_utb n) (Neri.n_nzra n) (Neri.n_neki n) (Neri.neri_sec_exit (Neri.n_sec n)).

(** ** Registering memory leaves the first 16 MB alone *)

(** The direct map of the memory below [PMM_RESERVED]. *)
Definition low (a : Z) : Prop := KERNEL_VIRT_BASE <= a < KERNEL_VIRT_BASE + PMM_RESERVED.
Definition low_kept (m m' : memory) : Prop := forall a, low a -> mread m' a = mread m a.
Definition page_above (b : Z) : Prop := 0 <= b /\ (4096 | b) /\ ~ low b.
Definition heads_above (s : pmm) : Prop := forall i k, page_above (head (node s i) k).

#[local] Instance low_kept_preorder : PreOrder low_kept.
Proof. split; [by intros m a | intros m1 m2 m3 H1 H2 a Ha; by rewrite (H2 a Ha), (H1 a Ha)]. Qed.

Lemma page_above_words b : page_above b -> ~ low b /\ ~ low (b + 8).
Proof. intros (H0 & [c ->] & Hl). split; [done|]. unfold low, KERNEL_VIRT_BASE, PMM_RESERVED in *. zdm. Qed.
Lemma low_kept_write m a v : ~ low a -> low_kept m (mwrite m a v).
Proof. intros Ha b Hb. apply mread_mwrite_ne. by intros ->. Qed.
Lemma page_above_va pa : (4096 | pa) -> PMM_RESERVED <= pa < 2 ^ 53 -> page_above (phys_to_virt pa).
Proof.
  intros [c ->] H. unfold page_above, phys_to_virt, low, u64. split; [apply Z.mod_pos_bound; lia|].
  unfold KERNEL_VIRT_BASE, PMM_RESERVED in *. split; [apply Z.mod_divide; [lia|]|]; zdm.
Qed.

Lemma nth_insert {A} (l : list A) i x d j : nth j (<[i := x]> l) d = x \/ nth j (<[i := x]> l) d = nth j l d.
Proof. rewrite !nth_lookup, list_lookup_insert. case_decide; [by left | by right]. Qed.
Lemma heads_above_insert s m i k b : heads_above s -> page_above b -> heads_above (with_node (with_mem s m) i (set_head (node s i) k b)).
Proof.
  intros Hs Hb j k'. unfold node at 1. cbn [pmm_nodes with_node with_mem].
  destruct (nth_insert (pmm_nodes s) i (set_head (node s i) k b) zero_node j) as [->| ->]; [|apply Hs].
  unfold head. cbn [free set_head]. destruct (nth_insert (free (node s i)) k b 0 k') as [->| ->]; [exact Hb | apply (Hs i)].
Qed.
Lemma fl_push_frame s i k pa : heads_above s -> page_above (phys_to_virt pa) ->
  heads_above (fl_push s i k pa) /\ low_kept (mem s) (mem (fl_push s i k pa)).
Proof.
  intros Hs Hb. split; [by apply heads_above_insert|]. unfold fl_push. cbn.
  destruct (page_above_words _ Hb) as [W1 W2]. destruct (page_above_words _ (Hs i k)) as [_ W3].
  destruct (truthy _); repeat (etrans; [|by apply low_kept_write]); done.
Qed.
Lemma heads_above_ext s s' : (forall j, free (node s' j) = free (node s j)) -> heads_above s -> heads_above s'.
Proof. intros E Hs i k. unfold head. rewrite E. apply Hs. Qed.
(** Replacing a node by one with the same lists. *)
Lemma same_lists ns i nd : free nd = free (nth i ns zero_node) -> forall j, free (nth j (<[i := nd]> ns) zero_node) = free (nth j ns zero_node).
Proof.
  intros E j. rewrite nth_lookup, list_lookup_insert. case_decide as H; [|by rewrite <- nth_lookup]. destruct H as [-> _]. exact E.
Qed.

Lemma add_blocks_low i end_ fuel : forall s pa, heads_above s -> (4096 | pa) -> PMM_RESERVED <= pa -> end_ <= 2 ^ 52 ->
  heads_above (add_blocks s i pa end_ fuel) /\ low_kept (mem s) (mem (add_blocks s i pa end_ fuel)).
Proof.
  induction fuel as [|f IH]; intros s pa Hs Hpa Hlo Hend; cbn [add_blocks]; [done|].
  destruct (Z.ltb_spec pa end_) as [Hlt|]; [|done]. set (k := fit_order pa end_ 10).
  destruct (fl_push_frame s i k pa Hs) as [Hs1 Hm1]; [apply page_above_va; [done | unfold PMM_RESERVED in *; lia]|].
  assert (k <= 10)%nat as Hk.
  { unfold k. generalize 10%nat. intros o. induction o as [|o IHo]; cbn [fit_order]; [done|]. destruct (_ || _); lia. }
  assert (shl64 PAGE_SIZE (Z.of_nat k) = 4096 * 2 ^ Z.of_nat k /\ 0 < 2 ^ Z.of_nat k <= 1024) as [Esz Hsz].
  { assert (0 < 2 ^ Z.of_nat k <= 2 ^ 10) by (split; [apply pow2_pos; lia | apply Z.pow_le_mono_r; lia]).
    unfold shl64, PAGE_SIZE. rewrite Z.shiftl_mul_pow2 by lia. rewrite u64_small by lia. lia. }
  rewrite Esz, (u64_small (pa + _)) by (unfold PMM_RESERVED in *; lia).
  set (s2 := with_node _ i _). destruct (IH s2 (pa + 4096 * 2 ^ Z.of_nat k)) as [H1 H2].
  - apply (heads_above_ext (fl_push s i k pa)); [|exact Hs1]. by apply same_lists.
  - apply Z.divide_add_r; [done | by apply Z.divide_factor_l].
  - lia.
  - done.
  - split; [exact H1|]. etrans; [exact Hm1 | exact H2].
Qed.

Lemma fill_node_low s i start end_ : heads_above s -> (4096 | start) -> PMM_RESERVED <= start -> end_ <= 2 ^ 52 ->
  heads_above (fill_node s i start end_) /\ low_kept (mem s) (mem (fill_node s i start end_)).
Proof.
  intros Hs Hd Hlo Hend. unfold fill_node. set (s1 := mk_pmm _ _ _ _ _ _ _ _).
  apply (add_blocks_low i end_ _ s1 start); try done. apply (heads_above_ext s); [|done]. by apply same_lists.
Qed.
Lemma add_region_low s b len : heads_above s -> 0 <= b -> 0 <= len -> b + len <= 2 ^ 52 ->
  heads_above (pmm_add_region s b len) /\ low_kept (mem s) (mem (pmm_add_region s b len)).
Proof.
  intros Hs Hb Hl Hend. unfold pmm_add_region. change PAGE_SIZE with (2 ^ 12).
  rewrite u64_small, ALIGN_spec, ALIGN_DOWN_spec by lia. set (st := (b + _ - 1) / _ * _). set (en := _ / _ * _).
  assert (en <= 2 ^ 52) by (unfold en; zdm). destruct (_ <=? _); [done|].
  set (st' := if st <? PMM_RESERVED then PMM_RESERVED else st).
  assert ((4096 | st') /\ PMM_RESERVED <= st') as [Hd Hlo].
  { unfold st'. destruct (Z.ltb_spec st PMM_RESERVED); [split; [by exists 4096 | done]|]. split; [by eexists | done]. }
  destruct (_ <=? _); [done|]. destruct (pmm_node_of s st') as [i|]; [|destruct (_ <=? _); [done|]];
    (match goal with |- context [fill_node ?s1 ?i st' en] => destruct (fill_node_low s1 i st' en) as [H1 H2] end; try done);
    (apply (heads_above_ext s); [|exact Hs]; apply same_lists; by repeat case_match).
Qed.
Lemma use_region_low s b len : heads_above s -> 0 <= b -> 0 <= len -> b + len <= 2 ^ 51 ->
  heads_above (use_region s b len) /\ low_kept (mem s) (mem (use_region s b len)).
Proof.
  intros Hs Hb Hl He. unfold use_region. change PAGE_SIZE with (2 ^ 12). rewrite !ALIGN_spec by zdm.
  set (bpa := (b + _ - 1) / _ * _). set (bm := _ / _ * _). assert (0 <= bpa <= b + 4096) by (unfold bpa; zdm). assert (0 <= bm) by (unfold bm; zdm).
  destruct (Z.ltb_spec bm len); [|done]. rewrite !u64_small by lia. apply add_region_low; [done|lia..].
Qed.

(** ** The structure a loader leaves *)

Record entry := mk_mmap_entry { e_base : Z; e_len : Z; e_type : Z }.
Inductive tag := Mmap (entry_size version : Z) (l : list entry) | Other (type : Z) (body : list Z).

Definition entry_bytes (es : Z) (e : entry) : list Z :=
  le_bytes 8 (e_base e) ++ le_bytes 8 (e_len e) ++ le_bytes 4 (e_type e) ++ replicate (Z.to_nat es - 20) 0.
Definition tag_type (t : tag) : Z := match t with Mmap _ _ _ => MB2_TAG_MMAP | Other ty _ => ty end.
Definition tag_body (t : tag) : list Z :=
  match t with
  | Mmap es v l => le_bytes 4 es ++ le_bytes 4 v ++ concat (map (entry_bytes es) l)
  | Other _ b => b
  end.
Definition tag_size (t : tag) : Z := 8 + Z.of_nat (length (tag_body t)).
(** Tags start at multiples of eight. *)
Definition tag_bytes (t : tag) : list Z :=
  le_bytes 4 (tag_type t) ++ le_bytes 4 (tag_size t) ++ tag_body t ++ replicate (Z.to_nat (- tag_size t mod 8)) 0.
Definition tags_bytes (l : list tag) : list Z := concat (map tag_bytes l) ++ le_bytes 4 0 ++ le_bytes 4 8.
Definition total_size (l : list tag) : Z := 8 + Z.of_nat (length (tags_bytes l)).
Definition info_bytes (l : list tag) : list Z := le_bytes 4 (total_size l) ++ le_bytes 4 0 ++ tags_bytes l.

Definition entry_ok (e : entry) : Prop := 0 <= e_base e /\ 0 <= e_len e /\ e_base e + e_len e <= 2 ^ 51 /\ 0 <= e_type e < 2 ^ 32.
Definition tag_ok (t : tag) : Prop :=
  match t with
  | Mmap es _ l => 20 <= es < 2 ^ 24 /\ Forall entry_ok l
  | Other ty _ => 0 < ty < 2 ^ 32 /\ ty <> MB2_TAG_MMAP
  end.

(** What the map says: all entries in order, the RAM among them, the RAM in use. *)
Definition tag_entries (t : tag) : list entry := match t with Mmap _ _ l => l | Other _ _ => [] end.
Definition available (e : entry) : bool := e_type e =? MB2_MMAP_AVAILABLE.
Definition use_entry (s : pmm) (e : entry) : pmm :=
  if available e && (0x400000 <=? e_base e) then use_region s (e_base e) (e_len e) else s.
Definition count_entry (total : Z) (e : entry) : Z := if available e then u64 (total + e_len e) else total.

Definition holds (m : memory) (a : Z) (l : list Z) : Prop := forall i b, l !! i = Some b -> byte_at m (a + Z.of_nat i) = b.

Lemma holds_app m a l1 l2 : holds m a (l1 ++ l2) <-> holds m a l1 /\ holds m (a + Z.of_nat (length l1)) l2.
Proof.
  split.
  - intros H. split; intros i b Hb.
    + apply H. rewrite lookup_app_l; [done|]. by apply lookup_lt_Some in Hb.
    + rewrite <- Z.add_assoc, <- Nat2Z.inj_add. apply H. rewrite lookup_app_r by lia. by replace (length l1 + i - length l1)%nat with i by lia.
  - intros [H1 H2] i b Hb. apply lookup_app_Some in Hb as [Hb|[Hi Hb]]; [by apply H1|].
    rewrite <- (H2 _ _ Hb). f_equal. lia.
Qed.
Lemma ld_holds m a n v : holds m a (le_bytes n v) -> 0 <= a -> a + Z.of_nat n <= 2 ^ 64 -> 0 <= v < 2 ^ (8 * Z.of_nat n) -> ld m a n = v.
Proof.
  intros H Ha Hn Hv. unfold ld. replace (map _ (seq 0 n)) with (le_bytes n v); [rewrite le_load_bytes; by apply Z.mod_small|].
  apply list_eq. intros i. rewrite list_lookup_fmap. destruct (decide (i < n)%nat) as [Hi|Hi].
  - rewrite lookup_seq_lt by done. cbn. destruct (le_bytes n v !! i) as [b|] eqn:E.
    + rewrite u64_small, (H i b E) by lia. done.
    + apply lookup_ge_None in E. rewrite length_le_bytes in E. lia.
  - rewrite !lookup_ge_None_2 by (rewrite ?length_seq, ?length_le_bytes; lia). done.
Qed.
(** What lies below 16 MB is still there after memory was registered. *)
Lemma holds_kept m m' a l : low_kept m m' -> KERNEL_VIRT_BASE <= a -> a + Z.of_nat (length l) <= KERNEL_VIRT_BASE + PMM_RESERVED ->
  holds m a l -> holds m' a l.
Proof.
  intros Hk Ha He H i b Hb. rewrite <- (H i b Hb). pose proof (lookup_lt_Some _ _ _ Hb). unfold byte_at. rewrite Hk; [done|].
  unfold low, KERNEL_VIRT_BASE, PMM_RESERVED in *. zdm.
Qed.

(** ** The parser on such a structure *)

Lemma length_entry_bytes es e : 20 <= es -> length (entry_bytes es e) = Z.to_nat es.
Proof. intros. unfold entry_bytes. rewrite !length_app, !length_le_bytes, length_replicate. lia. Qed.
Lemma length_entries es l : 20 <= es -> Z.of_nat (length (concat (map (entry_bytes es) l))) = es * Z.of_nat (length l).
Proof.
  intros. induction l as [|e l IH]; [cbn; lia|]. cbn [map concat length]. rewrite length_app, length_entry_bytes by done. lia.
Qed.
Lemma use_entry_low s e : heads_above s -> entry_ok e -> heads_above (use_entry s e) /\ low_kept (mem s) (mem (use_entry s e)).
Proof. intros Hs (H1 & H2 & H3 & _). unfold use_entry. destruct (_ && _); [by apply use_region_low | done]. Qed.

Lemma mmap_entry_ok s a total bm es e : KERNEL_VIRT_BASE <= a -> a + 20 <= 2 ^ 64 -> entry_ok e -> bm <> 0 ->
  holds (mem s) a (entry_bytes es e) -> mmap_entry s a total bm = (use_entry s e, count_entry total e, bm).
Proof.
  intros Ha Hb (H1 & H2 & H3 & H4) Hbm H. unfold entry_bytes in H. rewrite !holds_app, !length_le_bytes in H. destruct H as (Hbase & Hlen & Hty & _).
  unfold KERNEL_VIRT_BASE in Ha. unfold mmap_entry, use_entry, count_entry, available. rewrite <- Z.add_assoc in Hty.
  rewrite (u64_small (a + 8)), (u64_small (a + 16)), (ld_holds _ a 8 _ Hbase), (ld_holds _ (a + 8) 8 _ Hlen), (ld_holds _ (a + 16) 4 _ Hty) by lia.
  destruct (e_type e =? MB2_MMAP_AVAILABLE); [|done]. cbn [andb]. destruct (0x400000 <=? e_base e); [|done]. by rewrite (proj2 (Z.eqb_neq bm 0)).
Qed.

Lemma mmap_entries_ok mmap es l : forall s a total bm fuel, heads_above s -> 20 <= es < 2 ^ 24 -> Forall entry_ok l -> bm <> 0 ->
  KERNEL_VIRT_BASE <= mmap -> mmap + 12 <= KERNEL_VIRT_BASE + PMM_RESERVED ->
  KERNEL_VIRT_BASE <= a -> a + es * Z.of_nat (length l) <= KERNEL_VIRT_BASE + PMM_RESERVED ->
  holds (mem s) (mmap + 8) (le_bytes 4 es) -> holds (mem s) a (concat (map (entry_bytes es) l)) -> (length l <= fuel)%nat ->
  mmap_entries s mmap a (a + es * Z.of_nat (length l)) total bm fuel = Some (fold_left use_entry l s, fold_left count_entry l total, bm) /\
  heads_above (fold_left use_entry l s) /\ low_kept (mem s) (mem (fold_left use_entry l s)).
Proof.
  induction l as [|e l IH]; intros s a total bm fuel Hs Hes Hok Hbm Hm1 Hm2 Ha Hend Hsize H Hf.
  { destruct fuel; cbn [mmap_entries fold_left length]; rewrite Z.mul_0_r, Z.add_0_r, Z.ltb_irrefl; done. }
  destruct fuel as [|fuel]; cbn [length] in Hf; [lia|]. cbn [map concat length] in *. apply Forall_cons in Hok as [He Hok].
  apply holds_app in H as [H1 H2]. rewrite length_entry_bytes, Z2Nat.id in H2 by lia.
  destruct (use_entry_low s e Hs He) as [Hs' Hk]. assert (0 < PMM_RESERVED <= 2 ^ 30) by (unfold PMM_RESERVED; lia). assert (0 <= es * Z.of_nat (length l)) by lia. unfold KERNEL_VIRT_BASE in *.
  cbn [mmap_entries]. rewrite (proj2 (Z.ltb_lt _ _)) by lia. rewrite (mmap_entry_ok s a total bm es e) by (done || unfold KERNEL_VIRT_BASE; lia).
  assert (holds (mem (use_entry s e)) (mmap + 8) (le_bytes 4 es)) as Hsize'.
  { apply (holds_kept (mem s)); [exact Hk|unfold KERNEL_VIRT_BASE; lia| |done]. rewrite length_le_bytes. unfold KERNEL_VIRT_BASE. lia. }
  rewrite (u64_small (mmap + 8)), (ld_holds _ _ 4 es) by (done || lia). rewrite (u64_small (a + es)) by lia.
  destruct (IH (use_entry s e) (a + es) (count_entry total e) bm fuel) as (E & Hs2 & Hk2); try (done || lia).
  { apply (holds_kept (mem s)); [exact Hk|unfold KERNEL_VIRT_BASE; lia| |exact H2]. rewrite length_entries by lia. unfold KERNEL_VIRT_BASE. lia. }
  replace (a + es * Z.of_nat (S (length l))) with (a + es + es * Z.of_nat (length l)) by lia. rewrite E.
  split; [done|]. split; [exact Hs2|]. etrans; [exact Hk | exact Hk2].
Qed.

Lemma ALIGN_8 x : 0 <= x < 2 ^ 32 - 8 -> ALIGN x 8 = x + - x mod 8.
Proof. intros. change 8 with (2 ^ 3) at 1. rewrite ALIGN_spec by lia. change (2 ^ 3) with 8. zdm. Qed.
Lemma length_tag_bytes t : Z.of_nat (length (tag_bytes t)) = tag_size t + - tag_size t mod 8.
Proof.
  unfold tag_bytes. rewrite !length_app, !length_le_bytes, length_replicate. unfold tag_size in *.
  pose proof (Z.mod_pos_bound (- (8 + Z.of_nat (length (tag_body t)))) 8). lia.
Qed.

(** The fields of a tag, and the loop over its entries when it is the map. *)
Lemma tag_fields s a t : holds (mem s) a (tag_bytes t) -> tag_ok t -> KERNEL_VIRT_BASE <= a -> a + tag_size t <= KERNEL_VIRT_BASE + PMM_RESERVED ->
  ld (mem s) a 4 = tag_type t /\ ld (mem s) (u64 (a + 4)) 4 = tag_size t /\ holds (mem s) (a + 8) (tag_body t).
Proof.
  intros H Hok Ha He. unfold tag_bytes in H. rewrite !holds_app, !length_le_bytes in H. destruct H as (Hty & Hsz & Hb & _).
  unfold KERNEL_VIRT_BASE, PMM_RESERVED in *. assert (8 <= tag_size t) by (unfold tag_size; lia).
  assert (0 <= tag_type t < 2 ^ 32) by (destruct t; cbn in *; unfold MB2_TAG_MMAP; lia).
  rewrite u64_small, (ld_holds _ a 4 _ Hty), (ld_holds _ (a + 4) 4 _ Hsz) by lia. by rewrite <- Z.add_assoc in Hb.
Qed.
Lemma mmap_tag_ok s a es v l total bm inner : heads_above s -> tag_ok (Mmap es v l) -> bm <> 0 -> (length l <= inner)%nat ->
  KERNEL_VIRT_BASE <= a -> a + tag_size (Mmap es v l) <= KERNEL_VIRT_BASE + PMM_RESERVED -> holds (mem s) (a + 8) (tag_body (Mmap es v l)) ->
  mmap_entries s a (u64 (a + 16)) (u64 (a + tag_size (Mmap es v l))) total bm inner =
    Some (fold_left use_entry l s, fold_left count_entry l total, bm) /\
  heads_above (fold_left use_entry l s) /\ low_kept (mem s) (mem (fold_left use_entry l s)).
Proof.
  intros Hs [Hes Hok] Hbm Hin Ha He H. cbn [tag_body] in H. rewrite !holds_app, !length_le_bytes in H. destruct H as (Hsz & _ & Hl).
  assert (tag_size (Mmap es v l) = 16 + es * Z.of_nat (length l)) as Esz.
  { unfold tag_size. cbn [tag_body]. rewrite !length_app, !length_le_bytes. pose proof (length_entries es l ltac:(lia)). lia. }
  rewrite Esz in *. assert (0 <= es * Z.of_nat (length l)) by lia. unfold KERNEL_VIRT_BASE, PMM_RESERVED in *.
  rewrite !u64_small by lia. rewrite Z.add_assoc. replace (a + 8 + Z.of_nat 4 + Z.of_nat 4) with (a + 16) in Hl by lia.
  apply (mmap_entries_ok a es l s (a + 16)); unfold KERNEL_VIRT_BASE, PMM_RESERVED; (done || lia).
Qed.

Definition entries (l : list tag) : list entry := concat (map tag_entries l).

Lemma mb2_tags_ok l : forall s a total bm inner fuel, heads_above s -> Forall tag_ok l -> bm <> 0 ->
  KERNEL_VIRT_BASE <= a -> a + Z.of_nat (length (tags_bytes l)) <= KERNEL_VIRT_BASE + PMM_RESERVED ->
  holds (mem s) a (tags_bytes l) -> (length l < fuel)%nat -> (length (entries l) <= inner)%nat ->
  mb2_tags s a (a + Z.of_nat (length (tags_bytes l))) total bm inner fuel =
    Some (fold_left use_entry (entries l) s, fold_left count_entry (entries l) total, bm).
Proof.
  induction l as [|t l IH]; intros s a total bm inner fuel Hs Hok Hbm Ha He H Hf Hin; (destruct fuel as [|fuel]; cbn [length] in Hf; [lia|]).
  { unfold tags_bytes in *. cbn [map concat app] in *. apply holds_app in H as [H _]. cbn [mb2_tags]. rewrite (proj2 (Z.ltb_lt _ _)) by (rewrite length_app, !length_le_bytes; lia).
    unfold KERNEL_VIRT_BASE, PMM_RESERVED in *. rewrite length_app, !length_le_bytes in He. by rewrite (ld_holds _ a 4 _ H) by lia. }
  apply Forall_cons in Hok as [Ht Hok]. unfold tags_bytes in H, He. cbn [map concat] in H, He. rewrite <- app_assoc in H, He. fold (tags_bytes l) in H, He.
  rewrite length_app in He. apply holds_app in H as [H1 H2]. pose proof (length_tag_bytes t) as Hlt. pose proof (Z.mod_pos_bound (- tag_size t) 8 ltac:(lia)).
  assert (8 <= tag_size t) by (unfold tag_size; lia).
  destruct (tag_fields s a t H1 Ht Ha ltac:(lia)) as (Ety & Esz & Hb).
  assert ((tag_type t =? 0) = false) as Hnz by (apply Z.eqb_neq; destruct t; cbn in *; unfold MB2_TAG_MMAP; lia).
  assert (tags_bytes (t :: l) = tag_bytes t ++ tags_bytes l) as Etb by (unfold tags_bytes; cbn [map concat]; by rewrite <- app_assoc).
  rewrite Etb, length_app. cbn [mb2_tags]. rewrite (proj2 (Z.ltb_lt _ _)) by lia. rewrite Ety, Hnz.
  set (s1 := fold_left use_entry (tag_entries t) s). set (total1 := fold_left count_entry (tag_entries t) total).
  unfold entries in Hin. cbn [map concat] in Hin. fold (entries l) in Hin. rewrite length_app in Hin.
  assert ((if tag_type t =? MB2_TAG_MMAP
           then mmap_entries s a (u64 (a + 16)) (u64 (a + ld (mem s) (u64 (a + 4)) 4)) total bm inner
           else Some (s, total, bm)) = Some (s1, total1, bm) /\ heads_above s1 /\ low_kept (mem s) (mem s1)) as (E1 & Hs1 & Hk1).
  { rewrite Esz. destruct t as [es v es_l|ty b]; cbn [tag_type tag_entries] in *.
    - rewrite Z.eqb_refl. apply mmap_tag_ok; (done || lia).
    - destruct Ht as [_ Hne]. by rewrite (proj2 (Z.eqb_neq ty _)) by done. }
  rewrite E1. cbn [mbind option_bind].
  assert (forall b x, KERNEL_VIRT_BASE <= b -> b + Z.of_nat (length x) <= KERNEL_VIRT_BASE + PMM_RESERVED -> holds (mem s) b x -> holds (mem s1) b x) as Hkeep
    by (intros b x ? ?; by apply holds_kept).
  destruct (tag_fields s1 a t (Hkeep a (tag_bytes t) Ha ltac:(lia) H1) Ht Ha ltac:(lia)) as (_ & Esz1 & _). rewrite Esz1.
  unfold KERNEL_VIRT_BASE, PMM_RESERVED in He, Ha. rewrite ALIGN_8 by lia. rewrite (u32_small (_ + _)) by lia.
  rewrite (proj2 (Z.ltb_ge _ 8)) by lia. rewrite <- Hlt, u64_small by lia. rewrite Nat2Z.inj_add, Z.add_assoc.
  rewrite IH; try done; unfold KERNEL_VIRT_BASE, PMM_RESERVED; try lia.
  - unfold entries. cbn [map concat]. by rewrite !fold_left_app.
  - apply Hkeep; unfold KERNEL_VIRT_BASE, PMM_RESERVED; (done || lia).
Qed.

Lemma counts_bounded l : Forall tag_ok l -> (length l + length (entries l) <= length (tags_bytes l))%nat.
Proof.
  induction 1 as [|t l Ht _ IH]; [cbn; lia|]. unfold entries, tags_bytes in *. cbn [map concat length]. rewrite <- app_assoc, !length_app in *.
  assert (1 + length (tag_entries t) <= length (tag_bytes t))%nat; [|lia].
  unfold tag_bytes. rewrite !length_app, !length_le_bytes. destruct t as [es v l'|]; cbn [tag_entries tag_body length]; [|lia].
  destruct Ht as [Hes _]. pose proof (length_entries es l' ltac:(lia)). rewrite !length_app. nia.
Qed.

Lemma parse_ok s mb2_phys l fuel : heads_above s -> Forall tag_ok l -> 0 <= mb2_phys -> mb2_phys + total_size l <= PMM_RESERVED ->
  holds (mem s) (phys_to_virt mb2_phys) (info_bytes l) -> (length (tags_bytes l) < fuel)%nat ->
  parse_multiboot2 s mb2_phys fuel =
    Some (fold_left use_entry (entries l) s, fold_left count_entry (entries l) 0 / PAGE_SIZE, 0x200000).
Proof.
  intros Hs Hok Hp He H Hf. unfold info_bytes in H. rewrite !holds_app, !length_le_bytes in H. destruct H as (Htot & _ & H).
  assert (16 <= total_size l) by (unfold total_size, tags_bytes; rewrite !length_app, !length_le_bytes; lia).
  unfold parse_multiboot2. set (info := phys_to_virt mb2_phys) in *. assert (info = mb2_phys + KERNEL_VIRT_BASE) as Ei.
  { unfold info, phys_to_virt. apply u64_small. unfold PMM_RESERVED, KERNEL_VIRT_BASE in *. lia. }
  unfold PMM_RESERVED, KERNEL_VIRT_BASE in *. rewrite (ld_holds _ info 4 _ Htot), !u64_small by lia.
  rewrite <- Z.add_assoc in H. unfold total_size in *. rewrite Z.add_assoc. pose proof (counts_bounded l Hok).
  rewrite (mb2_tags_ok l s (info + 8)); try done; unfold PMM_RESERVED, KERNEL_VIRT_BASE; lia.
Qed.

(** (C26) The memory map: on every structure a loader may leave below 16 MB, of any tags
    and any entry size from 20 on, the parser ends, registers exactly the available
    entries from 4 MB on, in order, each without the part kept for a bitmap, counts
    the available memory, and never reads what it has itself overwritten. *)
Theorem parse_multiboot2_correct s mb2_phys l fuel : heads_above s -> Forall tag_ok l -> 0 <= mb2_phys -> mb2_phys + total_size l <= PMM_RESERVED ->
  holds (mem s) (phys_to_virt mb2_phys) (info_bytes l) -> (length (tags_bytes l) < fuel)%nat ->
  parse_multiboot2 s mb2_phys fuel =
    Some (fold_left use_entry (entries l) s, fold_left count_entry (entries l) 0 / PAGE_SIZE, 0x200000).
Proof. apply parse_ok. Qed.

(** A structure in memory, to run the parser on. *)
Fixpoint put_bytes (m : memory) (a : Z) (l : list Z) (fuel : nat) : memory :=
  match fuel, l with
  | S f, _ :: _ => put_bytes (mwrite m a (le_load (take 8 l))) (a + 8) (drop 8 l) f
  | _, _ => m
  end.
Definition holdsb (m : memory) (a : Z) (l : list Z) : bool :=
  forallb (fun p => byte_at m (a + Z.of_nat p.1) =? p.2) (imap pair l).
Lemma holdsb_holds m a l : holdsb m a l = true -> holds m a l.
Proof.
  intros H i b Hb. unfold holdsb in H. rewrite forallb_forall in H. apply Z.eqb_eq, (H (i, b)).
  apply list_elem_of_In, list_elem_of_lookup. exists i. by rewrite list_lookup_imap, Hb.
Qed.
Definition loaded (l : list tag) : pmm :=
  let s := pmm_init pmm_bss PmmSpec.no_bytes 0x200000 0x100000 in
  with_mem s (put_bytes (mem s) (phys_to_virt 0x10000) (info_bytes l) 1000).
Lemma nth_same {A} n (x : A) k : nth k (replicate n x) x = x.
Proof. revert k. induction n as [|n IH]; intros [|k]; cbn; done. Qed.
Lemma loaded_heads l : heads_above (loaded l).
Proof.
  intros i k. unfold loaded, node, head. cbn [pmm_nodes with_mem pmm_init pmm_bss].
  rewrite nth_same. cbn [free zero_node]. rewrite nth_same.
  split; [done|]. split; [by exists 0|]. unfold low, KERNEL_VIRT_BASE. lia.
Qed.

Definition map_ex : list tag :=
  [Other 1 (bytes_of_string "console=ttyS0"); Mmap 24 0 [mk_mmap_entry 0 0x9FC00 1; mk_mmap_entry 0x2000000 0x4000000 1; mk_mmap_entry 0xFEE00000 0x1000 2]].
Lemma parse_multiboot2_correct_witness : exists s, parse_multiboot2 (loaded map_ex) 0x10000 200 = Some (s, 16543, 0x200000) /\
  PmmInv.ranges s = [(0x2001000, 0x6000000)].
Proof.
  exists (fold_left use_entry (entries map_ex) (loaded map_ex)). split; [|vm_compute; reflexivity].
  apply (parse_multiboot2_correct (loaded map_ex) 0x10000 map_ex 200).
  - apply loaded_heads.
  - repeat constructor; cbn; lia || done.
  - lia.
  - vm_compute; discriminate.
  - apply holdsb_holds. vm_compute. reflexivity.
  - vm_compute. lia.
Defined.

(** ** Where the code departs from its intent *)

(** A map whose entries have size 0 is never finished: the inner loop does not move. *)
Theorem zero_entry_size_hangs s a end_ total bm inner fuel : a < end_ -> 0 <= a -> a + 36 <= 2 ^ 64 ->
  ld (mem s) a 4 = MB2_TAG_MMAP -> 16 < ld (mem s) (a + 4) 4 -> a + ld (mem s) (a + 4) 4 < 2 ^ 64 ->
  ld (mem s) (a + 8) 4 = 0 -> ld (mem s) (a + 32) 4 <> MB2_MMAP_AVAILABLE ->
  mb2_tags s a end_ total bm inner fuel = None.
Proof.
  intros Hlt H0 Ha Hty Hsz Hend Hes Htype. destruct fuel as [|fuel]; cbn [mb2_tags]; rewrite (proj2 (Z.ltb_lt a end_)) by done; [done|].
  rewrite Hty. cbn [Z.eqb MB2_TAG_MMAP Pos.eqb]. rewrite !u64_small by lia.
  assert (forall n, mmap_entries s a (a + 16) (a + ld (mem s) (a + 4) 4) total bm n = None) as ->; [|done].
  induction n as [|n IH]; cbn [mmap_entries]; rewrite (proj2 (Z.ltb_lt _ _)) by lia; [done|].
  unfold mmap_entry. rewrite (u64_small (a + 16 + 16)) by lia. replace (a + 16 + 16) with (a + 32) by lia. rewrite (proj2 (Z.eqb_neq _ _) Htype).
  rewrite (u64_small (a + 8)), Hes, Z.add_0_r, u64_small by lia. exact IH.
Qed.

(** The map of a PC: RAM below 640 KB and one block from 1 MB on.  No available entry
    starts at 4 MB or above, so nothing is registered and no page can be allocated. *)
Definition pc_map : list entry :=
  [mk_mmap_entry 0 0x9FC00 1; mk_mmap_entry 0x9FC00 0x400 2; mk_mmap_entry 0xF0000 0x10000 2;
   mk_mmap_entry 0x100000 0x7EE0000 1; mk_mmap_entry 0x7FE0000 0x20000 2].
Theorem pc_map_registers_nothing s :
  fold_left use_entry pc_map s = s /\
  (pmm_alloc_page (fold_left use_entry pc_map (pmm_init pmm_bss PmmSpec.no_bytes 0x200000 0x100000))).2 = 0.
Proof. split; reflexivity. Qed.

(** The part left for a bitmap moves the start of a region off its alignment: a region
    of 4 KB to 16 GB on a 4 MB boundary is registered from an address that is not on
    one, the situation of [PmmSpec.unaligned_node_double_allocates]. *)
Theorem use_region_unaligned s b len : (2 ^ 22 | b) -> 0 <= b < 2 ^ 51 -> 4096 < len <= 2 ^ 34 ->
  exists start n, use_region s b len = pmm_add_region s start n /\ b < start < b + 2 ^ 22 /\ start + n = b + len /\ ~ (2 ^ 22 | start).
Proof.
  intros [c Hc] Hb Hl. unfold use_region. change PAGE_SIZE with (2 ^ 12). rewrite !ALIGN_spec by zdm.
  set (bm := (_ / 8 + 1 + _ - 1) / _ * _). assert (4096 <= bm <= 2 ^ 19 + 4096 /\ (len <= 4096 * 8 -> bm = 4096)) as [H1 H2] by (unfold bm; zdm).
  assert (bm < len) as H3 by (unfold bm in *; zdm). rewrite (proj2 (Z.ltb_lt _ _) H3).
  replace ((b + 2 ^ 12 - 1) / 2 ^ 12 * 2 ^ 12) with b by zdm. rewrite !u64_small by lia.
  exists (b + bm), (len - bm). split; [done|]. split; [lia|]. split; [lia|]. intros [d Hd]. lia.
Qed.

(** ** Finding tasks *)

Lemma find_pid_first s p l : (forall ta, ta ∈ l -> is_Some (Sched.heap s !! ta)) ->
  find_pid s (map Sched.AllNode l) p =
    Done (list.head (filter (fun ta => option_map Sched.pid (Sched.heap s !! ta) = Some p) l)).
Proof.
  induction l as [|ta l IH]; intros Hl; [done|]. cbn [map find_pid]. destruct (Hl ta ltac:(by left)) as [t Et].
  unfold Sched.deref. rewrite Et. cbn [faulting mbind outcome_bind]. rewrite filter_cons, Et. cbn [option_map]. destruct (Z.eqb_spec (Sched.pid t) p) as [->|Hne].
  - by rewrite decide_True.
  - rewrite decide_False by congruence. apply IH. intros x Hx. apply Hl. by right.
Qed.
(** [task_find_by_pid] returns the first task of the list with that number, or NULL. *)
Theorem task_find_by_pid_first s l p : ring (Sched.links s) Sched.AllHead (map Sched.AllNode l) -> (forall ta, ta ∈ l -> is_Some (Sched.heap s !! ta)) ->
  task_find_by_pid s p = Done (list.head (filter (fun ta => option_map Sched.pid (Sched.heap s !! ta) = Some p) l)).
Proof.
  intros R Hl. unfold task_find_by_pid. pose proof (for_each_ring _ _ _ _ R (ring_bounded _ _ _ R)) as E.
  destruct (get_next (Sched.links s) (Some Sched.AllHead)) as [nx|]; [|done]. cbn in E |- *. rewrite E. by apply find_pid_first.
Qed.

End Boot.
