(* ===== verification/NeriScore.v ===== *)
(** * What the anomaly monitor can report

    The score of the security module as the kernel computes it: the features from the
    accumulators and the telemetry in [float], the conversion to fixed point, the network.
    Nothing in the kernel changes an accumulator but the tick counter, so only the two power
    readings move the score.  Interval arithmetic over the network, on a bisection of the
    square of the two inputs, bounds it for all of them. *)

From Stdlib Require Import SpecFloat.
From S2P Require Import Prelude Bytes Sha256 Float Neri NeriProof Boot.
Import Bytes Float Neri NeriProof.

Module NeriScore.

(** ** Intervals through the network *)

Definition net (x : list Z) : Z :=
  sigmoid_q8 ((B2 * 256 + dot W2 (zip_with (fun w b => tanh_q8 ((b * 256 + dot w x) / 256)) W1 B1)) / 256).

Definition itv : Type := Z * Z.
Definition inside (x : Z) (i : itv) : Prop := i.1 <= x <= i.2.

Definition imul (w : Z) (i : itv) : itv := if 0 <=? w then (w * i.1, w * i.2) else (w * i.2, w * i.1).
Fixpoint idot (w : list Z) (l : list itv) : itv :=
  match w, l with
  | a :: w, i :: l => let m := imul a i in let s := idot w l in (m.1 + s.1, m.2 + s.2)
  | _, _ => (0, 0)
  end.
(** A monotone function of [(b * 256 + dot) / 256]. *)
Definition iact (f : Z -> Z) (b : Z) (s : itv) : itv := (f ((b * 256 + s.1) / 256), f ((b * 256 + s.2) / 256)).
Definition inet (l : list itv) : itv :=
  iact sigmoid_q8 B2 (idot W2 (zip_with (fun w b => iact tanh_q8 b (idot w l)) W1 B1)).

Lemma imul_inside w x i : inside x i -> inside (w * x) (imul w i).
Proof. unfold inside, imul. destruct (Z.leb_spec 0 w); simpl; nia. Qed.

Lemma foldl_acc (l : list (Z * Z)) acc :
  foldl (fun acc '(wi, xi) => acc + wi * xi) acc l = acc + foldl (fun acc '(wi, xi) => acc + wi * xi) 0 l.
Proof.
  revert acc. induction l as [|[a v] l IH]; intros acc; cbn [foldl]; [lia|]. rewrite IH, (IH (0 + a * v)). lia.
Qed.
Lemma dot_cons a w v x : dot (a :: w) (v :: x) = a * v + dot w x.
Proof. unfold dot. cbn [zip zip_with foldl]. by rewrite foldl_acc. Qed.

Lemma idot_inside w x l : Forall2 inside x l -> inside (dot w x) (idot w l).
Proof.
  revert x l. induction w as [|a w IH]; intros x l H; [by destruct H|]. destruct H as [|v i x l Hv H]; [done|].
  rewrite dot_cons.
  pose proof (imul_inside a v i Hv). pose proof (IH x l H). unfold inside in *. simpl in *. lia.
Qed.

Lemma iact_inside f b x s : (forall u v, u <= v -> f u <= f v) -> inside x s ->
  inside (f ((b * 256 + x) / 256)) (iact f b s).
Proof. intros Hf [? ?]. split; apply Hf, Z.div_le_mono; lia. Qed.

Lemma inet_inside x l : Forall2 inside x l -> inside (net x) (inet l).
Proof.
  intros H. apply iact_inside; [apply sigmoid_mono|]. apply idot_inside.
  generalize W1 B1. intros ws. induction ws as [|w ws IH]; intros [|b bs]; simpl; constructor; [|apply IH].
  apply iact_inside; [apply tanh_mono | by apply idot_inside].
Qed.

(** ** The square of the two inputs that vary *)

(** The inputs of the network when the accumulators are zero: package power, DRAM power, and
    1.0 for the time since the last unlock. *)
Definition inputs {A} (a b zero top : A) : list A := [a; zero; zero; b; zero; zero; zero; zero; zero; zero; top; zero].

Fixpoint within (fuel : nat) (lo hi a b c d : Z) : bool :=
  let i := inet (inputs (a, b) (c, d) (0, 0) (255, 255)) in
  if (lo <=? i.1) && (i.2 <=? hi) then true
  else match fuel with
       | O => false
       | S k =>
           if d - c <=? b - a
           then let m := (a + b) / 2 in within k lo hi a m c d && within k lo hi (m + 1) b c d
           else let m := (c + d) / 2 in within k lo hi a b c m && within k lo hi a b (m + 1) d
       end.

Lemma within_sound fuel lo hi a b c d : within fuel lo hi a b c d = true ->
  forall x y, a <= x <= b -> c <= y <= d -> lo <= net (inputs x y 0 255) <= hi.
Proof.
  revert a b c d. induction fuel as [|k IH]; intros a b c d; cbn [within];
    set (i := inet _); destruct ((lo <=? i.1) && (i.2 <=? hi)) eqn:E; intros H x y Hx Hy; try discriminate H.
  1, 2: apply andb_true_iff in E as [E1 E2]; b2p;
    assert (inside (net (inputs x y 0 255)) i) as [? ?]
      by (apply inet_inside; unfold inputs, inside; repeat constructor; simpl; lia); lia.
  destruct (d - c <=? b - a).
  - apply andb_true_iff in H as [H1 H2]. destruct (Z.le_gt_cases x ((a + b) / 2)).
    + apply (IH _ _ _ _ H1); lia.
    + apply (IH _ _ _ _ H2); lia.
  - apply andb_true_iff in H as [H1 H2]. destruct (Z.le_gt_cases y ((c + d) / 2)).
    + apply (IH _ _ _ _ H1); lia.
    + apply (IH _ _ _ _ H2); lia.
Qed.

Lemma net_range x y : 0 <= x <= 255 -> 0 <= y <= 255 -> 166 <= net (inputs x y 0 255) <= 225.
Proof. apply (within_sound 16). vm_compute. reflexivity. Qed.

(** ** The features *)

(** The accumulators when only the tick counter has moved, and a power reading as a feature. *)
Definition quiet (t : Z) : nsm_feature_acc_t := mk_feat 0 0 0 0 0 0 0 0 0 t 0.
Definition power (u : fpu) (mw scale : Z) : spec_float :=
  to_float u (fmul u (fadd u (S754_zero false) (fdiv u (fconst u mw) (fconst u scale))) (half u)).

Lemma features_quiet u t sn : build_features u (quiet t) (Some sn)
  = inputs (power u (pkg_power_mw sn) 100000) (power u (dram_power_mw sn) 50000) (S754_zero false) (fconst u 1).
Proof. destruct u as [|[]]; reflexivity. Qed.

Lemma mlp_exact_net f : mlp_exact f = net (map (fun q => Z.max 0 (Z.min 255 q)) f).
Proof. unfold mlp_exact, net. cbv zeta. reflexivity. Qed.

Definition byte_of (u : fpu) (x : spec_float) : Z := Z.max 0 (Z.min 255 (q8 u x)).
Lemma clamped_inputs u v w : mlp_exact (map (q8 u) (inputs v w (S754_zero false) (fconst u 1)))
  = net (inputs (byte_of u v) (byte_of u w) 0 255).
Proof.
  assert (byte_of u (S754_zero false) = 0) as Hz by (by destruct u as [|[]]).
  assert (byte_of u (fconst u 1) = 255) as Ho by (by destruct u as [|[]]).
  rewrite mlp_exact_net.
  f_equal. rewrite map_map. change (map (byte_of u) (inputs v w (S754_zero false) (fconst u 1))
    = inputs (byte_of u v) (byte_of u w) 0 255).
  unfold inputs. cbn [map]. by rewrite Hz, Ho.
Qed.

(** Whatever the two powers are, the clamp leaves the network inputs in a byte. *)
Lemma score_range u t sn : 166 <= mlp_anomaly u (build_features u (quiet t) (Some sn)) <= 225.
Proof.
  rewrite mlp_is_exact, features_quiet, clamped_inputs.
  apply net_range; unfold byte_of; lia.
Qed.

Lemma power_upto u mw scale j : 15 <= j <= 16 -> at_least j (fconst u scale) = true -> 0 <= mw <= 2 ^ 19 ->
  upto 9 (power u mw scale).
Proof.
  intros Hj Hs Hm. pose proof (fconst_upto u mw 19 ltac:(lia) Hm) as H1.
  pose proof (fdiv_upto u _ _ _ j Hs H1 ltac:(lia)) as H2. unfold power. rewrite (fadd_zero_l _ _ _ H2).
  pose proof (fmul_upto u _ _ _ _ H2 (half_upto u) ltac:(lia)) as H3.
  apply (upto_mono (20 - j + 1 + 0 + 1 + 2)); [lia|]. apply to_float_upto; [lia | done].
Qed.

(** Telemetry within the limits of the sanitiser. *)
Definition powers_ok (sn : snapshot) : Prop :=
  0 <= pkg_power_mw sn <= UTB_MAX_PKG_POWER_MW /\ 0 <= dram_power_mw sn <= UTB_MAX_DRAM_POWER_MW.

Lemma features_convert u t sn : powers_ok sn ->
  Forall (fun x => s32_defined (fmul u x (fconst u 256)) = true) (build_features u (quiet t) (Some sn)).
Proof.
  intros [Hp Hd]. rewrite features_quiet. unfold UTB_MAX_PKG_POWER_MW, UTB_MAX_DRAM_POWER_MW in *.
  assert (forall x, upto 9 x -> s32_defined (fmul u x (fconst u 256)) = true) as H.
  { intros x Hx. apply (upto_defined (9 + 9 + 1)); [lia|]. apply fmul_upto; [done | | lia].
    apply (fconst_upto u 256 8); lia. }
  assert (upto 9 (power u (pkg_power_mw sn) 100000)) by (apply (power_upto u _ _ 16); [lia | by destruct u | lia]).
  assert (upto 9 (power u (dram_power_mw sn) 50000)) by (apply (power_upto u _ _ 15); [lia | by destruct u | lia]).
  assert (upto 9 (fconst u 1)) by (apply (upto_mono 1); [lia|]; apply (fconst_upto u 1 0); lia).
  unfold inputs. repeat constructor; by apply H.
Qed.

(** ** Runs of the resource manager *)

(** From [neri_module_init] on: ticks, on any hardware, and the other functions of the
    drivers, which write the pool, the weights and the optimiser and neither the telemetry
    nor the security module. *)
Inductive neri_run : neri -> Prop :=
| run_init c msr tsc tsc2 n fp ram ncpus gpu :
    neri_run (Boot.neri_module_init c msr tsc tsc2 n fp ram ncpus gpu).1
| run_tick n tsc_to_ns msr hfi ncpus now now2 total_p free_p u n' :
    neri_run n -> (forall t, 0 <= tsc_to_ns t) ->
    neri_sched_tick n tsc_to_ns msr hfi ncpus now now2 total_p free_p u = Some n' -> neri_run n'
| run_other n ps z k : neri_run n -> neri_run (mk_neri ps (n_utb n) z k (n_sec n)).

(** What such a run keeps: a score not computed yet, or one in the range. *)
Record monitored (n : neri) : Prop := {
  mo_ready : g_nsm_ready (n_sec n) = true;
  mo_feat : exists t, g_feat (n_sec n) = quiet t;
  mo_score : let a := g_anomaly (n_sec n) in
    a = mk_anomaly 0 0 false 0 \/ 166 <= score_byte a <= 225 /\ level a = level_of (score_byte a) /\ block_admits a = false;
  mo_power : powers_ok (g_utb_snapshot (n_utb n))
}.

Lemma to_mw_nonneg u d e : 0 <= e -> 0 <= rapl_delta_to_mw u d e.
Proof.
  intros. unfold rapl_delta_to_mw. destruct (Z.eqb_spec e 0); [done|]. apply Z.div_pos; [apply u64_range | lia].
Qed.

Lemma sample_powers u msr hfi tsc_to_ns ncpus now ep : (forall t, 0 <= tsc_to_ns t) -> powers_ok (g_utb_snapshot u) ->
  powers_ok (g_utb_snapshot (neri_utb_sample u msr hfi tsc_to_ns ncpus now ep)).
Proof.
  intros Ht H. unfold neri_utb_sample. destruct (negb _); [done|]. unfold powers_ok, utb_sanitize_snapshot.
  cbn [g_utb_snapshot pkg_power_mw dram_power_mw].
  split; (casei; b2p; [done|]; split; [apply to_mw_nonneg, Ht | lia]).
Qed.

Lemma rescore_monitored u s p sn : g_nsm_ready s = true -> (exists t, g_feat s = quiet t) ->
  let s' := neri_sec_rescore u s p sn in
  g_nsm_ready s' = true /\ (exists t, g_feat s' = quiet t) /\
  166 <= score_byte (g_anomaly s') <= 225 /\ level (g_anomaly s') = level_of (score_byte (g_anomaly s')) /\
  block_admits (g_anomaly s') = false.
Proof.
  intros Hr [t Ht]. unfold neri_sec_rescore, neri_sec_tick. rewrite Hr, Ht. pose proof (score_range u t sn).
  cbn [negb g_nsm_ready g_feat g_anomaly score_byte level block_admits]. rewrite level_critical.
  split; [done|]. split; [by eexists|]. split; [done|]. split; [done|]. apply Z.leb_gt. lia.
Qed.

Lemma run_monitored n : neri_run n -> monitored n.
Proof.
  induction 1 as [c msr tsc tsc2 n fp ram ncpus gpu | n tn msr hfi ncpus now now2 tp fp u n' _ IH Ht E | n ps z k _ IH].
  - split; [done | by exists 0 | by left | split; vm_compute; split; discriminate].
  - destruct IH as [Hr Hf Hs Hp]. unfold neri_sched_tick in E. destruct (tick_pool _ _ _ _ _) as [p [ep|]];
      [|injection E as <-; by split].
    destruct (if Z.land ep 63 =? 0 then _ else _) as [[k z]|]; [|done]. injection E as <-.
    pose proof (sample_powers (n_utb n) msr hfi tn ncpus now2 ep Ht Hp) as Hp'.
    destruct (Z.land ep 31 =? 0); [|by split].
    destruct (rescore_monitored u (n_sec n) p (g_utb_snapshot (neri_utb_sample (n_utb n) msr hfi tn ncpus now2 ep)) Hr Hf)
      as (? & ? & ? & ?). split; [done | done | by right | done].
  - destruct IH. by split.
Qed.

(** (C39) The security module in the kernel as it is: from [neri_module_init] on, in every run of
    the resource manager, every conversion of a feature to fixed point is defined in C (on
    SSE and on the x87, with or without excess precision), the score is 0 before the first
    rescoring and from 166 to 225 after it, so that the level reported is MEDIUM or HIGH
    even on an idle machine and never CRITICAL, and admission is never closed: whether
    [neri_sched_admit] refuses a process does not depend on the security module. *)
Theorem nsm_never_blocks n : neri_run n ->
  (forall u, Forall (fun x => s32_defined (fmul u x (fconst u 256)) = true)
    (build_features u (g_feat (n_sec n)) (Some (g_utb_snapshot (n_utb n))))) /\
  (let a := neri_sec_get_anomaly (n_sec n) in
   score_byte a = 0 /\ level a = NERI_SEC_LEVEL_NORMAL \/
   166 <= score_byte a <= 225 /\ (level a = NERI_SEC_LEVEL_MEDIUM \/ level a = NERI_SEC_LEVEL_HIGH)) /\
  neri_sec_admit_allowed (n_sec n) = true.
Proof.
  intros H. destruct (run_monitored n H) as [Hr [t Ht] Hs Hp]. split; [|split].
  - intros u. rewrite Ht. by apply features_convert.
  - unfold neri_sec_get_anomaly. destruct Hs as [-> | (? & -> & _)]; [by left|]. right. split; [done|].
    unfold level_of. repeat casei; b2p; (lia || by auto).
  - unfold neri_sec_admit_allowed. rewrite Hr. destruct Hs as [-> | (_ & _ & ->)]; done.
Qed.

Definition start_neri : neri :=
  mk_neri (mk_ps (mk_pool 0 0 0 0 0 0 0 0) ∅ 0 false) (neri_utb_init (fun _ => 0) 0) neri_nzra_init neki_start
    (mk_sec [] false (mk_anomaly 0 0 false 0) zero_feat).

(** The 32nd epoch of a machine that draws nothing: the level is HIGH. *)
Definition idle_32 : option neri :=
  let n := (Boot.neri_module_init Sha256.zero_ctx (fun _ => 0) 0 0 start_neri (replicate 32 7) 1000 1 0).1 in
  let p := pool (n_ps n) in
  neri_sched_tick (mk_neri (mk_ps (mk_pool (cpu_total_ns p) (cpu_alloc_ns p) (ram_total_pages p) (ram_alloc_pages p)
      (gpu_total_slots p) (gpu_alloc_slots p) 31 0) ∅ 0 true) (n_utb n) (n_nzra n) (n_neki n) (n_sec n))
    (fun t => Z.max 0 t) (fun _ => 0) None 1 10000000 10000000 1000 900 (X87 false).

Lemma idle_32_run n : idle_32 = Some n -> neri_run n.
Proof.
  intros E. eapply run_tick; [| |exact E]; [|intros t; lia].
  exact (run_other _ _ _ _ (run_init Sha256.zero_ctx (fun _ => 0) 0 0 start_neri (replicate 32 7) 1000 1 0)).
Qed.

Lemma nsm_never_blocks_witness : exists n, idle_32 = Some n /\
  neri_sec_get_anomaly (n_sec n) = mk_anomaly 179 NERI_SEC_LEVEL_HIGH false 32 /\
  neri_sec_admit_allowed (n_sec n) = true.
Proof.
  destruct idle_32 as [n|] eqn:E; [|vm_compute in E; discriminate E]. exists n. split; [reflexivity|]. split.
  - assert ((fun o => match o with Some m => g_anomaly (n_sec m) | None => mk_anomaly 0 0 false 0 end) idle_32
      = mk_anomaly 179 NERI_SEC_LEVEL_HIGH false 32) as H by (vm_compute; reflexivity). rewrite E in H. exact H.
  - apply nsm_never_blocks. by apply idle_32_run.
Defined.

(** The gate itself works: a hundred calls of [neri_sec_record_admit_failure], which nothing
    in the kernel makes, would close admission at the next rescoring of an idle machine. *)
Theorem recorded_failures_block u p :
  let s := Nat.iter 100 neri_sec_record_admit_failure sec_ex in
  let s' := neri_sec_rescore u s p zero_snapshot in
  score_byte (neri_sec_get_anomaly s') = 232 /\ neri_sec_admit_allowed s' = false.
Proof. destruct u as [|[]], p; vm_compute; split; reflexivity. Qed.

End NeriScore.
