(* ===== verification/CcProc.v ===== *)
(** * drivers/cortexcrypto/core/cc_proc.c: attestation, secure memory, encrypted channels

    Every operation.  Buffers of the callers are lists of bytes ([None] for NULL),
    and an access beyond the end of one is a [Fault]; the rings of the channels and
    the secure regions are kernel memory behind the page tables of [Vmm].

    aes256_gcm_encrypt and aes256_gcm_decrypt are those of crypto/aes_gcm.c, called
    with the argument order of crypto/crypto.h (key, iv, aad, alen, text, len, ...).
    cc_proc.c passes the text before the additional data, so what it means as the
    text is authenticated only, and what it means as additional data is encrypted.
    In the calls of aes256_gcm_decrypt the positions of length and tag receive a
    pointer and a small number. *)

From Stdlib Require Import Ascii String.
From S2P Require Import Prelude Bytes Pmm Vmm VmmSlab VmmMap Sha256 Sha256Proof AesGcm AesProof ListHead Neri Sched Boot.
Import Bytes Vmm VmmMap Sha256 AesGcm.

Module CcProc.

Definition hmac_sha256_impl (u : sha256_ctx) (key msg : list Z) : list Z :=
  let k := replicate 64 0 in
  let k := if 64 <? Z.of_nat (length key) then splice k 0 (sha256 u key) else splice k 0 key in
  let ipad := map (fun b => Z.lxor b 0x36) k in
  let opad := map (fun b => Z.lxor b 0x5C) k in
  let ctx := sha256_update (sha256_update (sha256_init u) ipad) msg in
  let (ctx, tmp) := sha256_final ctx in
  let ctx := sha256_update (sha256_update (sha256_init ctx) opad) tmp in
  (sha256_final ctx).2.

Fixpoint ct_memcmp (a b : list Z) (n : nat) : Z :=
  match n with
  | O => 0
  | S n' => Z.lor (ct_memcmp a b n') (Z.lxor (at_ a n') (at_ b n'))
  end.

(** ** State *)

Definition ATTEST_PLAIN_LEN : Z := 96.
Definition ATTEST_TOKEN_LEN : Z := ATTEST_PLAIN_LEN + 16 + 12.
Definition MAX_SECURE_REGIONS : Z := 64.
Definition MAX_IPC_CHANNELS : Z := 128.
Definition IPC_RING_PAGES : Z := 4.
Definition IPC_RING_BYTES : Z := IPC_RING_PAGES * PAGE_SIZE.

Record secure_region := mk_region { vaddr : Z; pages : Z; policy : Z; dek : list Z; r_active : bool }.
Record ipc_channel := mk_chan {
  pid_a : Z; pid_b : Z; flags : Z;
  session_key : list Z;
  ring_a2b : Z; ring_b2a : Z;
  head_a2b : Z; tail_a2b : Z; head_b2a : Z; tail_b2a : Z;
  active : bool;
  fd_a : Z; fd_b : Z
}.
Record cc := mk_cc {
  g_machine_key : list Z; g_attest_key : list Z; g_ipc_key : list Z; g_secure_alloc_key : list Z;
  g_cc_ready : bool;
  g_attest_nonce_ctr : Z; g_secmem_nonce_ctr : Z; g_ipc_nonce_ctr : Z;      (* as [u32] *)
  g_boot_timestamp : Z;
  g_sec_regions : list secure_region;
  g_ipc_channels : list ipc_channel;
  g_next_fd : Z; g_fd_gen : Z;
  vm : vmm
}.
Definition with_ctrs (s : cc) (a m i : Z) : cc :=
  mk_cc (g_machine_key s) (g_attest_key s) (g_ipc_key s) (g_secure_alloc_key s) (g_cc_ready s) a m i
    (g_boot_timestamp s) (g_sec_regions s) (g_ipc_channels s) (g_next_fd s) (g_fd_gen s) (vm s).
Definition with_vm (s : cc) (v : vmm) : cc :=
  mk_cc (g_machine_key s) (g_attest_key s) (g_ipc_key s) (g_secure_alloc_key s) (g_cc_ready s)
    (g_attest_nonce_ctr s) (g_secmem_nonce_ctr s) (g_ipc_nonce_ctr s)
    (g_boot_timestamp s) (g_sec_regions s) (g_ipc_channels s) (g_next_fd s) (g_fd_gen s) v.
Definition with_regions (s : cc) (l : list secure_region) : cc :=
  mk_cc (g_machine_key s) (g_attest_key s) (g_ipc_key s) (g_secure_alloc_key s) (g_cc_ready s)
    (g_attest_nonce_ctr s) (g_secmem_nonce_ctr s) (g_ipc_nonce_ctr s)
    (g_boot_timestamp s) l (g_ipc_channels s) (g_next_fd s) (g_fd_gen s) (vm s).
Definition with_channels (s : cc) (l : list ipc_channel) (fd gen : Z) : cc :=
  mk_cc (g_machine_key s) (g_attest_key s) (g_ipc_key s) (g_secure_alloc_key s) (g_cc_ready s)
    (g_attest_nonce_ctr s) (g_secmem_nonce_ctr s) (g_ipc_nonce_ctr s)
    (g_boot_timestamp s) (g_sec_regions s) l fd gen (vm s).
Definition set_channel (s : cc) (i : nat) (ch : ipc_channel) : cc :=
  with_channels s (<[i := ch]> (g_ipc_channels s)) (g_next_fd s) (g_fd_gen s).

(** ** Nonces *)

Inductive ctr := Attest | Secmem | IpcCtr.
Definition count_of (s : cc) (c : ctr) : Z :=
  match c with Attest => g_attest_nonce_ctr s | Secmem => g_secmem_nonce_ctr s | IpcCtr => g_ipc_nonce_ctr s end.
Definition set_count (s : cc) (c : ctr) (n : Z) : cc :=
  match c with
  | Attest => with_ctrs s n (g_secmem_nonce_ctr s) (g_ipc_nonce_ctr s)
  | Secmem => with_ctrs s (g_attest_nonce_ctr s) n (g_ipc_nonce_ctr s)
  | IpcCtr => with_ctrs s (g_attest_nonce_ctr s) (g_secmem_nonce_ctr s) n
  end.
Definition gen_nonce (tsc : Z) (s : cc) (c : ctr) : outcome (cc * list Z) :=
  let count := u32 (count_of s c + 1) in
  if count =? 0 then Panic
  else Done (set_count s c count, put_be32 count ++ le_bytes 8 tsc).

(** What the three sealing operations do with their output: the nonce at 0, what
    [aes256_gcm_encrypt] writes as ciphertext at 12, the tag at [tag_off]. *)
Definition seal_out (tsc : Z) (s : cc) (c : ctr) (key : list Z) (text : outcome (list Z)) (aad out : list Z) (tag_off : Z) : outcome (cc * list Z) :=
  '(s, nonce) ← gen_nonce tsc s c;
  out ← store_bytes out 0 nonce;
  text ← text;
  let (ct, tag) := aes256_gcm_encrypt key nonce text aad in
  out ← store_bytes out 12 ct;
  out ← store_bytes out tag_off tag;
  Done (s, out).

Definition cc_proc_init (u : sha256_ctx) (tsc : Z) (s : cc) (machine_fingerprint : list Z) : cc :=
  let mk := hmac_sha256_impl u machine_fingerprint (bytes_of_string "nekros-master-v1") in
  mk_cc mk (hmac_sha256_impl u mk (bytes_of_string "nekros-attest-v1"))
    (hmac_sha256_impl u mk (bytes_of_string "nekros-ipc-v1"))
    (hmac_sha256_impl u mk (bytes_of_string "nekros-secmem-v1"))
    true (g_attest_nonce_ctr s) (g_secmem_nonce_ctr s) (g_ipc_nonce_ctr s) tsc
    (g_sec_regions s) (g_ipc_channels s) (g_next_fd s) (g_fd_gen s) (vm s).

(** ** Attestation *)

(** [*(uN * )(buf + off) = v]. *)
Definition put (buf : list Z) (off n : nat) (v : Z) : list Z := splice buf off (le_bytes n v).

Definition attest_plain (u : sha256_ctx) (s : cc) (sy : Sched.sys) (t : Sched.task) (pid : Z) : list Z :=
  let plain := replicate 96 0 in
  let plain := put plain 0 4 pid in
  let plain := put plain 4 4 (Sched.priority t) in
  let plain := put plain 8 8 (Neri.cpu_granted_ns (Sched.neri t)) in
  let plain := put plain 16 8 (Neri.ram_granted_pages (Sched.neri t)) in
  let plain := put plain 24 1 (if Sched.neri_ready sy then Neri.score_byte (Neri.neri_sec_get_anomaly (Neri.n_sec (Sched.nr sy))) else 0) in
  let plain := splice plain 32 (sha256 u (take 31 (Sched.name t))) in
  let plain := put plain 64 8 (g_boot_timestamp s) in
  splice plain 72 (take 24 (g_machine_key s)).

(** The state, the caller's buffer, [*size], the result. *)
Definition cc_kernel_attest_process (u : sha256_ctx) (tsc : Z) (s : cc) (sy : Sched.sys) (pid : Z) (token : option (list Z)) (size : option Z)
    : outcome (cc * option (list Z) * option Z * Z) :=
  match token, size with
  | Some tok, Some sz =>
      if negb (g_cc_ready s) then Done (s, token, size, - EINVAL)
      else if sz <? ATTEST_TOKEN_LEN then Done (s, token, Some ATTEST_TOKEN_LEN, - EINVAL)
      else
        ta ← Boot.task_find_by_pid sy pid;
        match ta with
        | None => Done (s, token, size, - ESRCH)
        | Some ta =>
            t ← Sched.deref sy ta;
            let plain := attest_plain u s sy t pid in
            '(s, tok) ← seal_out tsc s Attest (g_attest_key s) (Done plain) (le_bytes 4 pid) tok (12 + ATTEST_PLAIN_LEN);
            Done (s, Some tok, Some ATTEST_TOKEN_LEN, 0)
        end
  | _, _ => Done (s, token, size, - EINVAL)
  end.

(** The call the verifiers make: [text_len] is the address of a local array, and the
    tag is read from a small address ([low] is what is there).  The plaintext goes to a
    buffer of [room] bytes. *)
Definition gcm_decrypt_call (key nonce : list Z) (aad text : list Z) (text_len : Z) (low : list Z) (room : Z) : outcome (Z + list Z) :=
  ct ← load_bytes text 0 text_len;
  match aes256_gcm_decrypt key nonce aad ct low with
  | inl e => Done (inl e)
  | inr pt => if room <? Z.of_nat (length pt) then Fault else Done (inr pt)
  end.

(** [sp] is the address of [aad]; [token] the bytes readable from the pointer on. *)
Definition cc_kernel_verify_attestation (s : cc) (sp : Z) (low : list Z) (token : option (list Z)) (size expected_pid : Z) : outcome Z :=
  match token with
  | None => Done (- EINVAL)
  | Some tok =>
      if negb (g_cc_ready s) then Done (- EINVAL)
      else if size <? ATTEST_TOKEN_LEN then Done (- EINVAL)
      else
        nonce ← load_bytes tok 0 12;
        ciphertext ← load_bytes tok 12 ATTEST_PLAIN_LEN;
        r ← gcm_decrypt_call (g_attest_key s) nonce ciphertext (drop 108 tok) sp low ATTEST_PLAIN_LEN;
        match r with
        | inl _ => Done (- EACCES)
        | inr plain =>
            let claimed_pid := s32 (le_load (slice plain 0 4)) in
            if truthy expected_pid && negb (claimed_pid =? expected_pid) then Done (- EACCES)
            else if truthy (ct_memcmp (drop 72 plain) (g_machine_key s) 24) then Done (- EACCES)
            else Done 0
        end
  end.

(** ** Secure memory *)

Fixpoint first_free {A} (act : A -> bool) (l : list A) (i : nat) : option nat :=
  match l with
  | [] => None
  | x :: l' => if act x then first_free act l' (S i) else Some i
  end.

(** The state and the address, 0 for NULL. *)
Definition cc_kernel_secure_alloc (u : sha256_ctx) (s : cc) (pages_ policy_ : Z) : outcome (cc * Z) :=
  if negb (g_cc_ready s) then Done (s, 0)
  else
    let (v, mem) := vmm_alloc (vm s) pages_ VMM_WRITE in
    if mem =? 0 then Done (with_vm s v, 0)
    else
      v ← memset0 v mem (u64 (pages_ * PAGE_SIZE));
      match first_free r_active (g_sec_regions s) 0 with
      | None => Done (with_vm s (vmm_free v mem pages_), 0)
      | Some i =>
          let dek_ := hmac_sha256_impl u (g_secure_alloc_key s) (le_bytes 8 mem ++ le_bytes 8 pages_) in
          Done (with_regions (with_vm s v) (<[i := mk_region mem pages_ policy_ dek_ true]> (g_sec_regions s)), mem)
      end.

Fixpoint find_region (l : list secure_region) (ptr : Z) (i : nat) : option (nat * secure_region) :=
  match l with
  | [] => None
  | r :: l' => if r_active r && (vaddr r =? ptr) then Some (i, r) else find_region l' ptr (S i)
  end.
Definition cc_kernel_secure_free (s : cc) (ptr pages_ : Z) : outcome cc :=
  if ptr =? 0 then Done s
  else
    s ← match find_region (g_sec_regions s) ptr 0 with
        | None => Done s
        | Some (i, r) =>
            v ← memset0 (vm s) ptr (u64 (pages_ * PAGE_SIZE));
            Done (with_regions (with_vm s v) (<[i := mk_region (vaddr r) (pages r) (policy r) (replicate 32 0) false]> (g_sec_regions s)))
        end;
    Done (with_vm s (vmm_free (vm s) ptr pages_)).

(** [data] is what is readable at [va]; the state, the buffer [out], [*size], the result. *)
Definition cc_kernel_seal_memory (tsc : Z) (s : cc) (data : list Z) (va pages_ : Z) (out : option (list Z)) (size : Z)
    : outcome (cc * option (list Z) * Z * Z) :=
  match out with
  | None => Done (s, out, size, - EINVAL)
  | Some o =>
      if negb (g_cc_ready s) then Done (s, out, size, - EINVAL)
      else
        let data_len := u64 (pages_ * PAGE_SIZE) in
        let needed := u32 (12 + data_len + 16) in
        if size <? needed then Done (s, out, needed, - EINVAL)
        else
          '(s, o) ← seal_out tsc s Secmem (g_secure_alloc_key s) (load_bytes data 0 (u32 data_len)) (le_bytes 8 va) o (12 + data_len);
          Done (s, Some o, needed, 0)
  end.

(** ** Checkpoints *)

Definition checkpoint_plain (t : Sched.task) (rbx rbp : Z) : list Z :=
  let plain := replicate 256 0 in
  let plain := put plain 0 4 (Sched.pid t) in
  let plain := put plain 4 4 (Sched.state t) in
  let plain := put plain 8 8 (Sched.ctx_rsp t) in
  let plain := put plain 16 8 (Sched.ctx_rip t) in
  let plain := put plain 24 8 (Sched.ctx_rflags t) in
  let plain := put plain 32 8 rbx in
  let plain := put plain 40 8 rbp in
  let plain := put plain 48 8 (Neri.cpu_granted_ns (Sched.neri t)) in
  let plain := put plain 56 8 (Neri.ram_granted_pages (Sched.neri t)) in
  let plain := put plain 64 8 (Sched.cpu_time_ns t) in
  splice plain 72 (take 31 (Sched.name t) ++ [0]).

(** [rbx], [rbp] are the saved registers of the task. *)
Definition cc_kernel_checkpoint (tsc : Z) (s : cc) (t : option Sched.task) (rbx rbp : Z) (out : option (list Z)) (size : Z)
    : outcome (cc * option (list Z) * Z * Z) :=
  match t, out with
  | Some t, Some o =>
      if negb (g_cc_ready s) then Done (s, out, size, - EINVAL)
      else
        let plain := checkpoint_plain t rbx rbp in
        let needed := 12 + 256 + 16 in
        if size <? needed then Done (s, out, needed, - EINVAL)
        else
          '(s, o) ← seal_out tsc s Attest (g_attest_key s) (Done plain) (le_bytes 4 (Sched.pid t)) o (12 + 256);
          Done (s, Some o, needed, 0)
  | _, _ => Done (s, out, size, - EINVAL)
  end.

(** ** Encrypted channels *)

(** Bytes of kernel memory, through the page tables. *)
Definition put_byte (w i b : Z) : Z := Z.lor (Z.land w (not64 (shl64 0xFF (8 * i)))) (shl64 b (8 * i)).
Fixpoint vload (v : vmm) (a : Z) (n : nat) : outcome (vmm * list Z) :=
  match n with
  | O => Done (v, [])
  | S n' =>
      '(v, w) ← load v (a - a mod 8);
      '(v, l) ← vload v (u64 (a + 1)) n';
      Done (v, u8 (Z.shiftr w (8 * (a mod 8))) :: l)
  end.
Fixpoint vstore (v : vmm) (a : Z) (l : list Z) : outcome vmm :=
  match l with
  | [] => Done v
  | b :: l' =>
      '(v, w) ← load v (a - a mod 8);
      v ← store v (a - a mod 8) (put_byte w (a mod 8) b);
      vstore v (u64 (a + 1)) l'
  end.

Definition zero_chan : ipc_channel := mk_chan 0 0 0 (replicate 32 0) 0 0 0 0 0 0 false 0 0.
Definition chan (s : cc) (i : nat) : ipc_channel := nth i (g_ipc_channels s) zero_chan.

(** [junk] is what the four bytes of [sk_input] that are never set hold. *)
Definition cc_ipc_channel_create (u : sha256_ctx) (tsc : Z) (junk : list Z) (s : cc) (self peer flags_ : Z) : cc * Z :=
  if negb (g_cc_ready s) then (s, - ENODEV)
  else
    match first_free active (g_ipc_channels s) 0 with
    | None => (s, - ENOMEM)
    | Some i =>
        let ch := chan s i in
        let (v, a2b) := vmm_alloc (vm s) IPC_RING_PAGES VMM_WRITE in
        let (v, b2a) := vmm_alloc v IPC_RING_PAGES VMM_WRITE in
        let ch := mk_chan (pid_a ch) (pid_b ch) (flags ch) (session_key ch) a2b b2a (head_a2b ch) (tail_a2b ch) (head_b2a ch) (tail_b2a ch) (active ch) (fd_a ch) (fd_b ch) in
        if (a2b =? 0) || (b2a =? 0) then
          let v := if a2b =? 0 then v else vmm_free v a2b IPC_RING_PAGES in
          let v := if b2a =? 0 then v else vmm_free v b2a IPC_RING_PAGES in
          (set_channel (with_vm s v) i ch, - ENOMEM)
        else
          let sk_input := le_bytes 4 (MIN self peer) ++ le_bytes 4 (MAX self peer) ++ le_bytes 8 tsc ++ junk in
          let key := hmac_sha256_impl u (g_ipc_key s) sk_input in
          let '(fd, gen) := if 0x7FFFFF00 <? g_next_fd s then (100, u32 (g_fd_gen s + 1)) else (g_next_fd s, g_fd_gen s) in
          let ch := mk_chan self peer flags_ key a2b b2a 0 0 0 0 true fd (fd + 1) in
          (with_channels (with_vm s v) (<[i := ch]> (g_ipc_channels s)) (fd + 2) gen, fd)
    end.

Fixpoint find_channel (l : list ipc_channel) (fd : Z) (i : nat) : option (nat * ipc_channel) :=
  match l with
  | [] => None
  | ch :: l' => if active ch && ((fd_a ch =? fd) || (fd_b ch =? fd)) then Some (i, ch) else find_channel l' fd (S i)
  end.
Definition set_tail (ch : ipc_channel) (a_to_b : bool) (head tail : Z) : ipc_channel :=
  mk_chan (pid_a ch) (pid_b ch) (flags ch) (session_key ch) (ring_a2b ch) (ring_b2a ch)
    (if a_to_b then head else head_a2b ch) (if a_to_b then tail else tail_a2b ch)
    (if a_to_b then head_b2a ch else head) (if a_to_b then tail_b2a ch else tail) (active ch) (fd_a ch) (fd_b ch).
Definition ring_of (ch : ipc_channel) (a_to_b : bool) : Z := if a_to_b then ring_a2b ch else ring_b2a ch.
Definition head_of (ch : ipc_channel) (a_to_b : bool) : Z := if a_to_b then head_a2b ch else head_b2a ch.
Definition tail_of (ch : ipc_channel) (a_to_b : bool) : Z := if a_to_b then tail_a2b ch else tail_b2a ch.

Definition cc_ipc_send (tsc : Z) (s : cc) (fd : Z) (buf : option (list Z)) : outcome (cc * Z) :=
  match buf with
  | None | Some [] => Done (s, - EINVAL)
  | Some data =>
      let len := Z.of_nat (length data) in
      if negb (g_cc_ready s) then Done (s, - EINVAL)
      else if IPC_RING_BYTES / 2 <? len then Done (s, - EMSGSIZE)
      else
        match find_channel (g_ipc_channels s) fd 0 with
        | None => Done (s, - EBADF)
        | Some (i, ch) =>
            '(s, nonce) ← gen_nonce tsc s IpcCtr;
            let a_to_b := fd_a ch =? fd in
            let frame_sz := u32 (12 + 4 + len + 16) in
            if IPC_RING_BYTES <? u32 (tail_of ch a_to_b + frame_sz) then Done (s, - ENOBUFS)
            else
              let dst := u64 (ring_of ch a_to_b + tail_of ch a_to_b) in
              v ← vstore (vm s) dst nonce;
              v ← vstore v (u64 (dst + 12)) (le_bytes 4 len);
              let (ct, tag) := aes256_gcm_encrypt (session_key ch) nonce data nonce in
              v ← vstore v (u64 (dst + 16)) ct;
              v ← vstore v (u64 (dst + 16 + len)) tag;
              Done (set_channel (with_vm s v) i (set_tail ch a_to_b (head_of ch a_to_b) (u32 (tail_of ch a_to_b + frame_sz))), len)
        end
  end.

(** [low] as for [gcm_decrypt_call]; the state, the bytes stored at [buf], the result. *)
Definition cc_ipc_recv (s : cc) (low : list Z) (fd : Z) (buf : bool) (len : Z) : outcome (cc * option (list Z) * Z) :=
  if negb (g_cc_ready s) || negb buf || (len =? 0) then Done (s, None, - EINVAL)
  else
    match find_channel (g_ipc_channels s) fd 0 with
    | None => Done (s, None, - EBADF)
    | Some (i, ch) =>
        let a_to_b := fd_b ch =? fd in
        let head := head_of ch a_to_b in
        let tail := tail_of ch a_to_b in
        if head =? tail then Done (s, None, - EAGAIN)
        else
          let src := u64 (ring_of ch a_to_b + head) in
          '(v, l) ← vload (vm s) (u64 (src + 12)) 4;
          let plen := le_load l in
          let s := with_vm s v in
          if IPC_RING_BYTES / 2 <? plen then Done (s, None, - EMSGSIZE)
          else if u32 len <? plen then Done (s, None, - EMSGSIZE)
          else if IPC_RING_BYTES <? u32 (head + 12 + 4 + plen + 16) then Done (s, None, - EBADMSG)
          else
            '(v, nonce) ← vload v src 12;
            '(v, ct) ← vload v (u64 (src + 16)) (Z.to_nat plen);
            '(v, text) ← vload v (u64 (src + 16 + plen)) (Z.to_nat src);
            r ← gcm_decrypt_call (session_key ch) nonce ct text src low len;
            let head' := u32 (head + (12 + 4 + plen + 16)) in
            let ch := if tail <=? head' then set_tail ch a_to_b 0 0 else set_tail ch a_to_b head' tail in
            let s := set_channel (with_vm s v) i ch in
            Done (match r with inl _ => (s, None, - EACCES) | inr pt => (s, Some pt, plen) end)
    end.

Definition cc_ipc_close (s : cc) (fd : Z) : cc :=
  match find_channel (g_ipc_channels s) fd 0 with
  | None => s
  | Some (i, ch) =>
      let v := if ring_a2b ch =? 0 then vm s else vmm_free (vm s) (ring_a2b ch) IPC_RING_PAGES in
      let v := if ring_b2a ch =? 0 then v else vmm_free v (ring_b2a ch) IPC_RING_PAGES in
      set_channel (with_vm s v) i
        (mk_chan (pid_a ch) (pid_b ch) (flags ch) (replicate 32 0) 0 0 (head_a2b ch) (tail_a2b ch) (head_b2a ch) (tail_b2a ch) false (fd_a ch) (fd_b ch))
  end.

(** ** Nonces are never reused *)

(** The operations that encrypt into a buffer of the caller, with the time stamp each
    reads; what a successful one discloses is the counter it drew from and the nonce
    at the start of its output. *)
Inductive op :=
| OAttest (tsc : Z) (sy : Sched.sys) (pid : Z) (token : option (list Z)) (size : option Z)
| OCheckpoint (tsc : Z) (t : option Sched.task) (rbx rbp : Z) (out : option (list Z)) (size : Z)
| OSeal (tsc : Z) (data : list Z) (va pages_ : Z) (out : option (list Z)) (size : Z).
Definition disclosed (c : ctr) (out : option (list Z)) (r : Z) : list (ctr * list Z) :=
  match out with Some o => if r =? 0 then [(c, take 12 o)] else [] | None => [] end.
Definition exec (u : sha256_ctx) (s : cc) (o : op) : outcome (cc * list (ctr * list Z)) :=
  match o with
  | OAttest tsc sy pid token size =>
      '(s, tok, _, r) ← cc_kernel_attest_process u tsc s sy pid token size; Done (s, disclosed Attest tok r)
  | OCheckpoint tsc t rbx rbp out size =>
      '(s, o, _, r) ← cc_kernel_checkpoint tsc s t rbx rbp out size; Done (s, disclosed Attest o r)
  | OSeal tsc data va pages_ out size =>
      '(s, o, _, r) ← cc_kernel_seal_memory tsc s data va pages_ out size; Done (s, disclosed Secmem o r)
  end.
Fixpoint exec_all (u : sha256_ctx) (s : cc) (l : list op) : outcome (list (ctr * list Z)) :=
  match l with
  | [] => Done []
  | o :: l' => '(s, d) ← exec u s o; d' ← exec_all u s l'; Done (d ++ d')
  end.

Definition counts_ok (s : cc) : Prop := forall c, 0 <= count_of s c < 2 ^ 32.
Definition nonce_count (n : list Z) : Z := be32 n 0.
(** From [s] to [s'] counter [c] moved on by one and the others did not move. *)
Definition advanced (s s' : cc) (c : ctr) : Prop :=
  count_of s' c = count_of s c + 1 /\ counts_ok s' /\ forall c', c' <> c -> count_of s' c' = count_of s c'.

#[local] Instance ctr_eq_dec : EqDecision ctr.
Proof. solve_decision. Defined.

Lemma be32_app n rest : 0 <= n < 2 ^ 32 -> nonce_count (put_be32 n ++ rest) = n.
Proof. intros. rewrite <- (be32_put n) at 2 by done. reflexivity. Qed.
Lemma gen_nonce_spec tsc s c s' n : counts_ok s -> gen_nonce tsc s c = Done (s', n) ->
  advanced s s' c /\ nonce_count n = count_of s' c /\ length n = 12%nat.
Proof.
  intros Hc. unfold gen_nonce. pose proof (Hc c) as Hcc. destruct (Z.eqb_spec (u32 (count_of s c + 1)) 0) as [|Hne]; [discriminate|].
  intros H. apply (f_equal (fun o => match o with Done p => p | _ => (s, []) end)) in H. apply pair_equal_spec in H as [<- <-].
  assert (u32 (count_of s c + 1) = count_of s c + 1) as E.
  { unfold u32 in *. destruct (Z.eq_dec (count_of s c + 1) (2 ^ 32)) as [E'|]; [by rewrite E', Z.mod_same in Hne by lia|]. apply Z.mod_small. lia. }
  assert (forall c', count_of (set_count s c (u32 (count_of s c + 1))) c' = if decide (c' = c) then count_of s c + 1 else count_of s c') as Ecnt.
  { intros c'. rewrite E. by destruct c, c'. }
  assert (count_of s c + 1 < 2 ^ 32) by (rewrite <- E; unfold u32; apply Z.mod_pos_bound; lia).
  rewrite Ecnt, decide_True by done. split; [|split; [rewrite be32_app, E by (rewrite E; lia); done | by rewrite length_app, length_le_bytes]].
  split; [by rewrite Ecnt, decide_True|]. split.
  - intros c'. rewrite Ecnt. case_decide; [lia | apply Hc].
  - intros c' Hn. by rewrite Ecnt, decide_False.
Qed.

Lemma store_first l src l' : store_bytes l 0 src = Done l' -> take (length src) l' = src.
Proof.
  unfold store_bytes. casei; [|discriminate]. intros [= <-]. unfold splice. change (take (length src) (src ++ drop (0 + length src) l) = src). apply take_app_length.
Qed.
Lemma store_later l off src l' k : store_bytes l off src = Done l' -> Z.of_nat k <= off -> take k l' = take k l.
Proof.
  unfold store_bytes. casei; [|discriminate]. intros [= <-] Hk. b2p. unfold splice. rewrite take_app_le by (rewrite length_take; lia).
  rewrite take_take. f_equal. lia.
Qed.
Lemma seal_out_spec tsc s c key text aad out off s' out' : counts_ok s -> 12 <= off -> seal_out tsc s c key text aad out off = Done (s', out') ->
  advanced s s' c /\ nonce_count (take 12 out') = count_of s' c.
Proof.
  intros Hc Ho H. unfold seal_out in H.
  destruct (gen_nonce tsc s c) as [[s1 n]| |] eqn:En; cbn [mbind outcome_bind] in H; [|discriminate..].
  destruct (gen_nonce_spec _ _ _ _ _ Hc En) as (Hadv & Hn & Hlen).
  destruct (store_bytes out 0 n) as [o1| |] eqn:E1; cbn [mbind outcome_bind] in H; [|discriminate..].
  destruct text as [t| |]; cbn [mbind outcome_bind] in H; [|discriminate..]. destruct (aes256_gcm_encrypt _ _ _ _) as [ct tag].
  destruct (store_bytes o1 12 ct) as [o2| |] eqn:E2; cbn [mbind outcome_bind] in H; [|discriminate..].
  destruct (store_bytes o2 off tag) as [o3| |] eqn:E3; cbn [mbind outcome_bind] in H; [|discriminate..].
  injection H as <- <-. rewrite (store_later _ _ _ _ 12 E3), (store_later _ _ _ _ 12 E2) by done. rewrite <- Hlen, (store_first _ _ _ E1). done.
Qed.

(** An operation discloses at most one nonce, and it is the one after the last. *)
Lemma exec_discloses u s o s' d : counts_ok s -> exec u s o = Done (s', d) ->
  (s' = s /\ d = []) \/ (exists c n, d = [(c, n)] /\ advanced s s' c /\ nonce_count n = count_of s' c).
Proof.
  intros Hc H. destruct o as [tsc sy pid token size|tsc t rbx rbp out size|tsc data va pages_ out size]; cbn [exec] in H.
  - unfold cc_kernel_attest_process in H. destruct token as [tok|], size as [sz|]; try (injection H as <- <-; by left).
    destruct (negb _); [injection H as <- <-; by left|]. destruct (_ <? _); [injection H as <- <-; by left|].
    destruct (Boot.task_find_by_pid sy pid) as [[ta|]| |]; cbn [mbind outcome_bind] in H; [|injection H as <- <-; by left|discriminate..].
    destruct (Sched.deref sy ta) as [t| |]; cbn [mbind outcome_bind] in H; [|discriminate..].
    destruct (seal_out _ _ _ _ _ _ _ _) as [[s1 o]| |] eqn:E; cbn [mbind outcome_bind] in H; [|discriminate..].
    injection H as <- <-. right. exists Attest, (take 12 o). split; [done|]. apply (seal_out_spec _ _ _ _ _ _ _ _ _ _ Hc) in E; [done | unfold ATTEST_PLAIN_LEN; lia].
  - unfold cc_kernel_checkpoint in H. destruct t as [t|], out as [o|]; try (injection H as <- <-; by left).
    destruct (negb _); [injection H as <- <-; by left|]. destruct (_ <? _); [injection H as <- <-; by left|].
    destruct (seal_out _ _ _ _ _ _ _ _) as [[s1 o']| |] eqn:E; cbn [mbind outcome_bind] in H; [|discriminate..].
    injection H as <- <-. right. exists Attest, (take 12 o'). split; [done|]. apply (seal_out_spec _ _ _ _ _ _ _ _ _ _ Hc) in E; [done | lia].
  - unfold cc_kernel_seal_memory in H. destruct out as [o|]; [|injection H as <- <-; by left].
    destruct (negb _); [injection H as <- <-; by left|]. destruct (_ <? _); [injection H as <- <-; by left|].
    destruct (seal_out _ _ _ _ _ _ _ _) as [[s1 o']| |] eqn:E; cbn [mbind outcome_bind] in H; [|discriminate..].
    injection H as <- <-. right. exists Secmem, (take 12 o'). split; [done|]. pose proof (u64_range (pages_ * PAGE_SIZE)).
    apply (seal_out_spec _ _ _ _ _ _ _ _ _ _ Hc) in E; [done | lia].
Qed.

Lemma advanced_mono s s' c c' : advanced s s' c -> count_of s c' <= count_of s' c'.
Proof. intros (H1 & _ & H2). destruct (decide (c' = c)) as [->|Hn]; [lia | by rewrite H2]. Qed.
Lemma exec_all_fresh u l : forall s log, counts_ok s -> exec_all u s l = Done log ->
  Forall (fun p => count_of s p.1 < nonce_count p.2) log /\ NoDup log.
Proof.
  induction l as [|o l IH]; intros s log Hc H; cbn [exec_all] in H; [injection H as <-; by repeat constructor|].
  destruct (exec u s o) as [[s1 d]| |] eqn:E; cbn [mbind outcome_bind] in H; [|discriminate..].
  destruct (exec_all u s1 l) as [d'| |] eqn:E'; cbn [mbind outcome_bind] in H; [|discriminate..]. injection H as <-.
  destruct (exec_discloses _ _ _ _ _ Hc E) as [[-> ->]|(c & n & -> & Hadv & Hn)]; [by apply IH|].
  destruct (IH s1 d' (proj1 (proj2 Hadv)) E') as [Hf Hnd]. cbn [app]. split.
  - constructor; [cbn; destruct Hadv; lia|]. eapply Forall_impl; [exact Hf|]. intros [c' n'] Hlt. cbn in *. pose proof (advanced_mono _ _ _ c' Hadv). lia.
  - constructor; [|done]. intros Hin. rewrite Forall_forall in Hf. specialize (Hf _ Hin). cbn in Hf. lia.
Qed.


Definition cc_bss (v : vmm) : cc := mk_cc (replicate 32 0) (replicate 32 0) (replicate 32 0) (replicate 32 0) false 0 0 0 0
  (replicate 64 (mk_region 0 0 0 (replicate 32 0) false)) (replicate 128 zero_chan) 100 0 v.
Definition cc_ex : cc := cc_proc_init zero_ctx 77 (cc_bss VmmSlab.vmm_ex) (replicate 32 9).
Definition task_ex : Sched.task := Sched.set_state Sched.zero_task Sched.TASK_READY.
Definition ops_ex : list op :=
  [OCheckpoint 5 (Some task_ex) 1 2 (Some (replicate 284 0)) 284; OCheckpoint 5 (Some task_ex) 1 2 (Some (replicate 284 0)) 284;
   OCheckpoint 5 (Some task_ex) 1 2 (Some []) 10; OSeal 5 [] 4096 0 (Some (replicate 40 0)) 40].

(** ** Keys *)

Lemma hmac_impl_spec u k m : length (buf u) = 64%nat -> hmac_sha256_impl u k m = Sha256Proof.hmac_spec k m.
Proof. intros Hu. rewrite <- (Sha256Proof.hmac_ok u k m Hu). unfold hmac_sha256_impl, hmac_sha256. reflexivity. Qed.
(** The four keys are HMACs along a tree from the machine's fingerprint. *)
Theorem keys_derived u tsc s fp : length (buf u) = 64%nat ->
  let s' := cc_proc_init u tsc s fp in
  g_machine_key s' = Sha256Proof.hmac_spec fp (bytes_of_string "nekros-master-v1") /\
  g_attest_key s' = Sha256Proof.hmac_spec (g_machine_key s') (bytes_of_string "nekros-attest-v1") /\
  g_ipc_key s' = Sha256Proof.hmac_spec (g_machine_key s') (bytes_of_string "nekros-ipc-v1") /\
  g_secure_alloc_key s' = Sha256Proof.hmac_spec (g_machine_key s') (bytes_of_string "nekros-secmem-v1").
Proof.
  intros Hu s'. unfold s', cc_proc_init. cbn [g_machine_key g_attest_key g_ipc_key g_secure_alloc_key].
  rewrite !hmac_impl_spec by done. done.
Qed.

(** ** Where the code departs from its intent *)

(** The text is not in the output: between the encrypted additional data and the tag,
    where the ciphertext belongs, the caller's buffer is as it was. *)
Theorem sealed_text_missing tsc s c key text aad out off s' out' : (12 + length aad <= off)%nat ->
  seal_out tsc s c key text aad out (Z.of_nat off) = Done (s', out') ->
  slice out' (12 + length aad) (off - (12 + length aad)) = slice out (12 + length aad) (off - (12 + length aad)).
Proof.
  intros Ho H. unfold seal_out in H.
  destruct (gen_nonce tsc s c) as [[s1 n]| |] eqn:En; cbn [mbind outcome_bind] in H; [|discriminate..].
  assert (length n = 12%nat) as Hn.
  { unfold gen_nonce in En. destruct (_ =? 0); [discriminate|]. injection En as _ <-. reflexivity. }
  destruct (store_bytes out 0 n) as [o1| |] eqn:E1; cbn [mbind outcome_bind] in H; [|discriminate..].
  destruct text as [t| |]; cbn [mbind outcome_bind] in H; [|discriminate..].
  destruct (aes256_gcm_encrypt _ _ _ _) as [ct tag] eqn:Ee. apply (f_equal (fun p => length p.1)) in Ee.
  cbn [fst aes256_gcm_encrypt] in Ee. rewrite (proj2 (AesProof.ctr_involutive key n 2 aad ltac:(lia))) in Ee.
  destruct (store_bytes o1 12 ct) as [o2| |] eqn:E2; cbn [mbind outcome_bind] in H; [|discriminate..].
  destruct (store_bytes o2 _ tag) as [o3| |] eqn:E3; cbn [mbind outcome_bind] in H; [|discriminate..]. injection H as _ <-.
  unfold store_bytes in E1, E2, E3. casei_in E1; [|discriminate]. casei_in E2; [|discriminate]. casei_in E3; [|discriminate].
  injection E1 as <-. injection E2 as <-. injection E3 as <-. b2p. rewrite Nat2Z.id in *.
  rewrite slice_splice_out by lia. rewrite slice_splice_out by (change (Z.to_nat 12) with 12%nat; lia). apply slice_splice_out; change (Z.to_nat 0) with 0%nat; lia.
Qed.

(** No token verifies: the length argument is the address of a kernel array, and the
    memory readable after the token ends before that many bytes. *)
Theorem verification_never_succeeds s sp low tok size pid : Z.of_nat (length tok) < sp ->
  cc_kernel_verify_attestation s sp low (Some tok) size pid = Done (- EINVAL) \/
  cc_kernel_verify_attestation s sp low (Some tok) size pid = Fault.
Proof.
  intros Hsp. unfold cc_kernel_verify_attestation. destruct (negb _); [by left|]. destruct (_ <? _); [by left|]. right.
  assert (forall n, load_bytes tok n 12 <> Panic /\ load_bytes tok n ATTEST_PLAIN_LEN <> Panic) as Hp by (intros n; unfold load_bytes; split; by casei).
  destruct (load_bytes tok 0 12) as [nonce| |] eqn:E1; [|by destruct (Hp 0)|done]. cbn [mbind outcome_bind].
  destruct (load_bytes tok 12 ATTEST_PLAIN_LEN) as [ct| |] eqn:E2; [|by destruct (Hp 12)|done]. cbn [mbind outcome_bind].
  unfold gcm_decrypt_call, load_bytes. rewrite length_drop, (proj2 (Z.leb_gt (0 + sp) _)) by lia. done.
Qed.

(** An address in vmalloc's range cannot be accessed. *)
Lemma vmalloc_faults v a : VMALLOC_START <= a <= VMALLOC_END + 2 ^ 20 -> load v a = Fault /\ (forall w, store v a w = Fault).
Proof.
  intros H. unfold load, store, mmu. unfold VMALLOC_START, VMALLOC_END, KERNEL_VIRT_BASE in *. rewrite (proj2 (Z.leb_gt _ a)) by lia.
  assert (canonical a = false) as ->; [|done]. apply orb_false_iff. rewrite Z.ltb_ge, Z.leb_gt. lia.
Qed.

(** Secure memory is never handed out, and no message ever enters a channel. *)
Theorem secure_alloc_never_succeeds u s n pol : in_vmalloc (vm s) -> 1 <= n <= 4096 ->
  cc_kernel_secure_alloc u s n pol = Fault \/ exists s', cc_kernel_secure_alloc u s n pol = Done (s', 0).
Proof.
  intros Hv Hn. unfold cc_kernel_secure_alloc. destruct (negb _); [right; by eexists|].
  pose proof (vmm_alloc_range (vm s) n VMM_WRITE Hv ltac:(lia)) as R. destruct (vmm_alloc (vm s) n VMM_WRITE) as [v p]. destruct R as (_ & _ & R).
  destruct (Z.eqb_spec p 0) as [->|Hne]; [right; by eexists|]. left. destruct R as [?|R]; [done|].
  unfold memset0, PAGE_SIZE. rewrite u64_small by lia.
  destruct (Z.to_nat (n * 4096 / 8)) as [|k] eqn:Ek; [zdm|]. cbn [store_zeros].
  destruct (vmalloc_faults v p) as [_ ->]; [|done]. lia.
Qed.

Theorem send_never_succeeds tsc s fd data i ch : find_channel (g_ipc_channels s) fd 0 = Some (i, ch) ->
  (forall b, VMALLOC_START <= ring_of ch b <= VMALLOC_END /\ 0 <= tail_of ch b <= IPC_RING_BYTES) ->
  forall s' r, cc_ipc_send tsc s fd data = Done (s', r) -> r < 0.
Proof.
  intros Hf Hr s' r H. unfold cc_ipc_send in H. destruct data as [[|x l]|]; [injection H as _ <-; done| |injection H as _ <-; done].
  destruct (negb _); [injection H as _ <-; done|]. destruct (_ <? _); [injection H as _ <-; done|]. rewrite Hf in H.
  unfold gen_nonce in H. destruct (_ =? 0) in H; [discriminate|]. cbn [mbind outcome_bind] in H. destruct (_ <? _) in H; [injection H as _ <-; done|].
  destruct (Hr (fd_a ch =? fd)) as [H1 H2]. set (a := ring_of ch _) in *. set (t := tail_of ch _) in *.
  unfold IPC_RING_BYTES, IPC_RING_PAGES, PAGE_SIZE, VMALLOC_START, VMALLOC_END in *. rewrite (u64_small (a + t)) in H by lia.
  cbn [app put_be32 vstore] in H. destruct (vmalloc_faults (vm (set_count s IpcCtr (u32 (count_of s IpcCtr + 1)))) (a + t - (a + t) mod 8)) as [E _].
  { unfold VMALLOC_START, VMALLOC_END. zdm. }
  rewrite E in H. discriminate H.
Qed.

(** The size check of [cc_kernel_seal_memory] truncates to 32 bits: for 4 GB of memory a
    buffer of 28 bytes passes, and the tag goes 4 GB beyond it. *)
Theorem seal_size_truncated : cc_kernel_seal_memory 5 cc_ex [] 4096 0x100000 (Some (replicate 28 0)) 28 = Fault.
Proof. vm_compute. reflexivity. Qed.

End CcProc.
