(* ===== verification/Syscall.v ===== *)
(** * kernel/syscall.c: system call dispatch and handlers

    The state adds to the scheduler's the per-CPU re-entrancy flags, the work
    budgets, the bytes of user memory, the kernel log, the MSR writes, the file
    system and CortexCrypto.  Calls into the last two go through [callee], a
    parameter here: SyscallProof says what the dispatch needs of it ([Callees]), and
    Kernel supplies the functions of Vfs and CcProc.
    A handler may give the CPU away ([schedule] switches tasks): then it has not
    returned, and the rest of the call runs when the task is switched to again. *)

From S2P Require Import Prelude Pmm Vmm Bytes ListHead Neri Sched Vfs CcProc.
Import Pmm Vmm ListHead Neri Sched.

Module Syscall.

Definition USER_ADDR_MAX : Z := 0x0000800000000000.

Definition uptr_valid (ptr len : Z) : bool :=
  if ptr =? 0 then false
  else if USER_ADDR_MAX <=? ptr then false
  else if (USER_ADDR_MAX <? len) || (USER_ADDR_MAX <? u64 (ptr + len)) then false
  else if ptr <? 4096 then false
  else true.

Definition scrub_arg (arg : Z) : Z :=
  if (USER_ADDR_MAX <=? arg) && negb (arg =? 0) then 0 else arg.

Record nk_budget := mk_budget {
  b_id : Z; b_pid : Z; cpu_ns_left : Z; deadline_tsc : Z; b_flags : Z; b_active : bool
}.
Definition MAX_BUDGETS : Z := 256.
Definition no_budget : nk_budget := mk_budget 0 0 0 0 0 false.

Record kst := mk_kst {
  sy : sys;
  g_syscall_in_progress : list Z;
  g_budgets : list nk_budget;
  next_budget_id : Z;
  umem : gmap Z Z;
  klog : list (Z * list Z);
  msr_writes : list (Z * Z);
  kfs : Vfs.vfs;
  kcc : CcProc.cc
}.

Definition with_sy (k : kst) (s : sys) : kst :=
  mk_kst s (g_syscall_in_progress k) (g_budgets k) (next_budget_id k) (umem k) (klog k) (msr_writes k) (kfs k) (kcc k).
Definition with_flags (k : kst) (f : list Z) : kst :=
  mk_kst (sy k) f (g_budgets k) (next_budget_id k) (umem k) (klog k) (msr_writes k) (kfs k) (kcc k).
Definition with_umem (k : kst) (m : gmap Z Z) : kst :=
  mk_kst (sy k) (g_syscall_in_progress k) (g_budgets k) (next_budget_id k) m (klog k) (msr_writes k) (kfs k) (kcc k).
Definition with_log (k : kst) (l : list (Z * list Z)) : kst :=
  mk_kst (sy k) (g_syscall_in_progress k) (g_budgets k) (next_budget_id k) (umem k) l (msr_writes k) (kfs k) (kcc k).
Definition with_budgets (k : kst) (b : list nk_budget) (n : Z) : kst :=
  mk_kst (sy k) (g_syscall_in_progress k) b n (umem k) (klog k) (msr_writes k) (kfs k) (kcc k).
Definition with_msr (k : kst) (l : list (Z * Z)) : kst :=
  mk_kst (sy k) (g_syscall_in_progress k) (g_budgets k) (next_budget_id k) (umem k) (klog k) l (kfs k) (kcc k).
Definition with_fs (k : kst) (f : Vfs.vfs) : kst :=
  mk_kst (sy k) (g_syscall_in_progress k) (g_budgets k) (next_budget_id k) (umem k) (klog k) (msr_writes k) f (kcc k).
Definition with_cc (k : kst) (c : CcProc.cc) : kst :=
  mk_kst (sy k) (g_syscall_in_progress k) (g_budgets k) (next_budget_id k) (umem k) (klog k) (msr_writes k) (kfs k) c.

(** Bytes of user memory; an unwritten byte reads 0. *)
Definition ubyte (k : kst) (a : Z) : Z := default 0 (umem k !! a).
Definition uread (k : kst) (a : Z) (n : nat) : list Z := map (fun i => ubyte k (a + Z.of_nat i)) (seq 0 n).
Fixpoint uwrite (m : gmap Z Z) (a : Z) (bytes : list Z) : gmap Z Z :=
  match bytes with
  | [] => m
  | b :: r => uwrite (<[a := b]> m) (a + 1) r
  end.
(** The bytes a copy out of user memory gives, and the memory after a copy into it. *)
Definition copy_from_user (k : kst) (uptr len : Z) : list Z + Z :=
  if negb (uptr_valid uptr len) then inr (- EFAULT) else inl (uread k uptr (Z.to_nat len)).
Definition copy_to_user (k : kst) (uptr : Z) (ksrc : list Z) : kst * Z :=
  if negb (uptr_valid uptr (Z.of_nat (length ksrc))) then (k, - EFAULT) else (with_umem k (uwrite (umem k) uptr ksrc), 0).
(** The little-endian bytes of an [n]-byte integer, and back. *)
Definition le (n : nat) (x : Z) : list Z := map (fun i => u8 (Z.shiftr x (8 * Z.of_nat i))) (seq 0 n).
Definition of_le (l : list Z) : Z := foldr (fun b acc => b + 256 * acc) 0 l.
(** The characters before the first NUL. *)
Fixpoint cstr (l : list Z) : list Z :=
  match l with
  | [] => []
  | c :: r => if c =? 0 then [] else c :: cstr r
  end.

(** What a call gives back: a value, or the CPU to another task. *)
Inductive sysret := Ret (v : Z) | Away (from : option Z) (to : Z).
Definition err (e : Z) : sysret := Ret (u64 (- e)).

Inductive callee_id :=
| VfsRead | VfsWrite | NeriDevIoctl | AttestProcess | VerifyAttestation | SecureAlloc | SecureFree
| IpcCreate | IpcSend | IpcRecv | Checkpoint | SealMemory.

Section syscall.
Context (callee : callee_id -> list Z -> kst -> outcome (kst * Z)).
Context (w : hw) (cpu tsc_khz : Z).

Definition curr (k : kst) : option Z := current (sy k) cpu.
(** [sched_current()] dereferenced, when there is one. *)
Definition curr_task (k : kst) : outcome (option (Z * task)) :=
  match curr k with None => Done None | Some ta => t ← deref (sy k) ta; Done (Some (ta, t)) end.
Definition set_task (k : kst) (ta : Z) (t : task) : kst := with_sy k (put (sy k) ta t).

(** The outcome of a call of [schedule] or [task_exit] followed by [return v]. *)
Definition after (k : kst) (r : sys * option (option Z * Z)) (v : Z) : outcome (kst * sysret) :=
  let (s, sw) := r in
  Done (with_sy k s, match sw with None => Ret v | Some (p, n) => Away p n end).
Definition call (k : kst) (c : callee_id) (args : list Z) : outcome (kst * sysret) :=
  '(k, v) ← callee c args k; Done (k, Ret (u64 v)).
Definition ok0 (k : kst) : outcome (kst * sysret) := Done (k, Ret 0).
Definition fail (k : kst) (e : Z) : outcome (kst * sysret) := Done (k, err e).

Definition int (x : Z) : Z := s32 x.

Definition sys_read (k : kst) (fd buf len : Z) : outcome (kst * sysret) :=
  if negb (uptr_valid buf len) then fail k EFAULT else call k VfsRead [int fd; buf; len].
Definition sys_write (k : kst) (fd buf len : Z) : outcome (kst * sysret) :=
  if negb (uptr_valid buf len) then fail k EFAULT else call k VfsWrite [int fd; buf; len].
Definition sys_exit (k : kst) (code : Z) : outcome (kst * sysret) :=
  r ← task_exit (sy k) w cpu (curr k) (int code); after k r 0.
Definition sys_getpid (k : kst) : outcome (kst * sysret) :=
  t ← curr_task k; Done (k, Ret (match t with Some (_, t) => u64 (pid t) | None => 0 end)).
Definition sys_yield (k : kst) : outcome (kst * sysret) := r ← schedule (sy k) w cpu; after k r 0.
Definition sys_ioctl (k : kst) (fd cmd arg : Z) : outcome (kst * sysret) :=
  if int fd =? 3 then call k NeriDevIoctl [u32 cmd; arg] else fail k ENOTTY.

(** ** Intent, budgets *)

Definition NK_INTENT_IO_HEAVY : Z := 5.
Definition imap : list (Z * Z * Z) :=
  [(500000, 8, 0); (4000000, 64, 0); (4000000, 256, 16); (100000, 4, 0); (2000000, 128, 0); (200000, 16, 0)].

Definition set_demand (p : neri_proc) (c r g : Z) : neri_proc :=
  mk_proc (p_pid p) (p_priority p) c r g (cpu_granted_ns p) (ram_granted_pages p) (gpu_granted_slots p)
    (epoch_admitted p) (last_cpu p).

Definition sys_nk_proc_intent (k : kst) (intent burst_ns ram_hint : Z) : outcome (kst * sysret) :=
  t ← curr_task k;
  match t with
  | None => fail k EINVAL
  | Some (ta, t) =>
      if NK_INTENT_IO_HEAVY <? intent then fail k EINVAL
      else
        let '(c, r, g) := nth (Z.to_nat intent) imap (0, 0, 0) in
        let t := set_neri t (set_demand (neri t) (if truthy burst_ns then burst_ns else c)
                               (if truthy ram_hint then ram_hint else r) g) in
        let k := set_task k ta t in
        s ← place (sy k) w ta;
        ok0 (with_sy k s)
  end.

Fixpoint first_inactive (l : list nk_budget) (i : nat) : option nat :=
  match l with
  | [] => None
  | b :: r => if b_active b then first_inactive r (S i) else Some i
  end.

Definition set_priority (t : task) (v : Z) : task :=
  mk_task (pid t) (ppid t) (name t) (state t) v (vruntime t) (weight t) (Sched.timeslice_ns t) (cpu_time_ns t)
    (Sched.cpu_affinity t) (on_cpu t) (kstack_top t) (kstack_pa t) (ctx_rsp t) (ctx_rip t) (ctx_rflags t) (neri t)
    (sig_pending t) (sig_blocked t).

Definition sys_nk_work_budget (k : kst) (cpu_ns deadline_ns flags : Z) : outcome (kst * sysret) :=
  t ← curr_task k;
  match t with
  | None => fail k EINVAL
  | Some (ta, t) =>
      if (cpu_ns =? 0) || (deadline_ns =? 0) then fail k EINVAL
      else match first_inactive (g_budgets k) 0 with
           | None => fail k ENOMEM
           | Some i =>
               let id := next_budget_id k in
               let b := mk_budget id (pid t) cpu_ns (u64 (hw_now w + u64 (deadline_ns * tsc_khz) / 1000000)) (u32 flags) true in
               let k := with_budgets k (<[i := b]> (g_budgets k)) (u64 (id + 1)) in
               Done (set_task k ta (set_priority t (MIN 15 (u32 (Sched.priority t + 2)))), Ret id)
           end
  end.

(** ** CortexCrypto and IPC *)

Definition sys_nk_attest_self (k : kst) (out size : Z) : outcome (kst * sysret) :=
  if negb (uptr_valid out size) || (size <? 96) then fail k EFAULT
  else
    t ← curr_task k;
    match t with None => Fault | Some (_, t) => call k AttestProcess [pid t; out; u32 size] end.
Definition sys_nk_attest_peer (k : kst) (tok sz pid_ : Z) : outcome (kst * sysret) :=
  if (tok =? 0) || (sz =? 0) || (4096 <? sz) then fail k EINVAL
  else if negb (uptr_valid tok sz) then fail k EFAULT
  else call k VerifyAttestation [tok; u32 sz; int pid_].
Definition sys_nk_secure_alloc (k : kst) (pages policy : Z) : outcome (kst * sysret) :=
  if (pages =? 0) || (4096 <? pages) then fail k EINVAL
  else '(k, p) ← callee SecureAlloc [pages; u32 policy] k; if p =? 0 then fail k ENOMEM else Done (k, Ret p).
Definition sys_nk_secure_free (k : kst) (ptr pages : Z) : outcome (kst * sysret) :=
  '(k, _) ← callee SecureFree [ptr; pages] k; ok0 k.
Definition sys_nk_ipc_channel (k : kst) (peer flags : Z) : outcome (kst * sysret) :=
  t ← curr_task k;
  match t with None => fail k ESRCH | Some (_, t) => call k IpcCreate [pid t; int peer; u32 flags] end.
Definition sys_nk_ipc_send (k : kst) (fd buf len : Z) : outcome (kst * sysret) :=
  if negb (uptr_valid buf len) then fail k EFAULT
  else if (len =? 0) || (65536 <? len) then fail k EINVAL
  else call k IpcSend [int fd; buf; len].
Definition sys_nk_ipc_recv (k : kst) (fd buf len : Z) : outcome (kst * sysret) :=
  if negb (uptr_valid buf len) then fail k EFAULT else call k IpcRecv [int fd; buf; len].

(** ** Resource manager *)

Definition pool_of (k : kst) : neri_pool := pool (n_ps (nr (sy k))).

(** [struct neri_uapi_status]: seven 64-bit fields. *)
Definition sys_nk_neri_status (k : kst) (out : Z) : outcome (kst * sysret) :=
  if negb (uptr_valid out 56) then fail k EFAULT
  else if negb (neri_ready (sy k)) then ok0 k
  else
    let p := pool_of k in
    ok0 (with_umem k (uwrite (umem k) out
      (concat (map (le 8) [u64 (epoch p); cpu_total_ns p; cpu_alloc_ns p; ram_total_pages p; ram_alloc_pages p;
                           gpu_total_slots p; gpu_alloc_slots p])))).

Definition sys_nk_neri_tune (k : kst) (c r g : Z) : outcome (kst * sysret) :=
  t ← curr_task k;
  match t with
  | None => fail k ESRCH
  | Some (ta, t) =>
      let p := neri t in
      let p := set_demand p (if truthy c then MIN c 1000000000 else cpu_demand_ns p)
                 (if truthy r then MIN r 65536 else ram_demand_pages p)
                 (if truthy g then MIN g 256 else gpu_demand_slots p) in
      ok0 (set_task k ta (set_neri t p))
  end.

(** [neri_thermal_hint]: the MSR write it makes. *)
Definition sys_nk_thermal_hint (k : kst) (burst_ns intensity : Z) : outcome (kst * sysret) :=
  if 3 <? intensity then fail k EINVAL
  else
    t ← curr_task k;
    match t with
    | Some _ =>
        if neri_ready (sy k) && g_utb_ready (n_utb (nr (sy k))) then
          ok0 (with_msr k (msr_writes k ++
                 [(MSR_PKG_POWER_LIMIT, thermal_limit (hw_msr w MSR_PKG_POWER_LIMIT) (u32 intensity))]))
        else ok0 k
    | None => ok0 k
    end.

(** [struct neri_uapi_anomaly]: a byte at 0, 32 bits at 4, a byte at 8, 64 bits at 16. *)
Definition sys_nk_anomaly_score (k : kst) (out : Z) : outcome (kst * sysret) :=
  if negb (uptr_valid out 24) then fail k EFAULT
  else
    let a := if neri_ready (sy k) then neri_sec_get_anomaly (n_sec (nr (sy k))) else mk_anomaly 0 0 false 0 in
    let m := uwrite (umem k) out (le 1 (score_byte a)) in
    let m := uwrite m (out + 4) (le 4 (u32 (level a))) in
    let m := uwrite m (out + 8) (le 1 (if block_admits a then 1 else 0)) in
    let m := uwrite m (out + 16) (le 8 (score_epoch a)) in
    ok0 (with_umem k m).

(** ** Pledge *)

Definition set_sig (t : task) (pending blocked : Z) : task :=
  mk_task (pid t) (ppid t) (name t) (state t) (Sched.priority t) (vruntime t) (weight t) (Sched.timeslice_ns t)
    (cpu_time_ns t) (Sched.cpu_affinity t) (on_cpu t) (kstack_top t) (kstack_pa t) (ctx_rsp t) (ctx_rip t) (ctx_rflags t)
    (neri t) pending blocked.

Definition sys_nk_pledge (k : kst) (mask : Z) : outcome (kst * sysret) :=
  t ← curr_task k;
  match t with
  | None => fail k ESRCH
  | Some (ta, t) => ok0 (set_task k ta (set_sig t (Z.lor (sig_pending t) (shl64 1 63)) mask))
  end.

(** ** Checkpoints, futex, threads, names, log *)

Definition sys_nk_checkpoint (k : kst) (out sz : Z) : outcome (kst * sysret) :=
  match curr k with
  | None => fail k EINVAL
  | Some ta =>
      if (out =? 0) || (sz =? 0) then fail k EINVAL
      else if negb (uptr_valid out sz) then fail k EFAULT
      else call k Checkpoint [ta; out; u32 sz]
  end.
Definition sys_nk_mem_snapshot (k : kst) (va pages out : Z) : outcome (kst * sysret) :=
  if (va =? 0) || (pages =? 0) || (out =? 0) || (4096 <? pages) then fail k EINVAL
  else if negb (uptr_valid va (u64 (pages * 4096))) then fail k EFAULT
  else
    let out_size := u64 (pages * 4096 + 128) in
    if negb (uptr_valid out out_size) then fail k EFAULT
    else call k SealMemory [va; pages; out; u32 out_size].

Definition sys_nk_futex (k : kst) (addr op val_ : Z) : outcome (kst * sysret) :=
  if negb (uptr_valid addr 4) then fail k EFAULT
  else if op =? 0 then
    if negb (of_le (uread k addr 4) =? u32 val_) then fail k EAGAIN
    else r ← schedule (sy k) w cpu; after k r 0
  else if op =? 1 then ok0 (with_umem k (uwrite (umem k) addr (le 4 (u32 val_))))
  else ok0 k.

(** ".t". *)
Definition thread_suffix : list Z := [46; 116].
Definition sys_nk_thread_create (k : kst) (entry_ arg stack_sz : Z) : outcome (kst * sysret) :=
  if negb (uptr_valid entry_ 1) then fail k EFAULT
  else
    t ← curr_task k;
    match t with
    | None => fail k ESRCH
    | Some (_, t) =>
        let nm := strlcpy (name t) 29 ++ strlcpy thread_suffix 3 in
        '(s, r) ← task_create (sy k) w cpu (Some nm) entry_ arg (Sched.priority t)
                    (cpu_demand_ns (neri t) / 2) (ram_demand_pages (neri t) / 4);
        if IS_ERR r then Done (with_sy k s, Ret (u64 (PTR_ERR r)))
        else nt ← deref s r; Done (with_sy k s, Ret (u64 (pid nt)))
    end.

Definition NERI_CAPS_ALL : Z := 0xFF.
(** [struct neri_uapi_caps]: 32 bits and three 16-bit fields. *)
Definition sys_nk_get_caps (k : kst) (out : Z) : outcome (kst * sysret) :=
  if out =? 0 then fail k EINVAL
  else if negb (uptr_valid out 12) then fail k EFAULT
  else ok0 (with_umem k (uwrite (umem k) out (le 4 NERI_CAPS_ALL ++ le 2 0 ++ le 2 5 ++ le 2 0))).

Definition set_name (t : task) (nm : list Z) : task :=
  mk_task (pid t) (ppid t) nm (state t) (Sched.priority t) (vruntime t) (weight t) (Sched.timeslice_ns t) (cpu_time_ns t)
    (Sched.cpu_affinity t) (on_cpu t) (kstack_top t) (kstack_pa t) (ctx_rsp t) (ctx_rip t) (ctx_rflags t) (neri t)
    (sig_pending t) (sig_blocked t).
Definition sys_nk_set_name (k : kst) (ptr : Z) : outcome (kst * sysret) :=
  t ← curr_task k;
  match t with
  | None => fail k EFAULT
  | Some (ta, t) =>
      if negb (uptr_valid ptr 32) then fail k EFAULT
      else match copy_from_user k ptr 31 with
           | inr _ => fail k EFAULT
           | inl safe_name => ok0 (set_task k ta (set_name t (strlcpy (cstr safe_name) 32)))
           end
  end.

Definition sys_nk_debug_log (k : kst) (ptr len : Z) : outcome (kst * sysret) :=
  if (ptr =? 0) || (len =? 0) || (256 <? len) then fail k EINVAL
  else if negb (uptr_valid ptr len) then fail k EFAULT
  else
    t ← curr_task k;
    ok0 (with_log k (klog k ++ [(match t with Some (_, t) => pid t | None => -1 end, cstr (uread k ptr (Z.to_nat (MIN len 256))))])).

(** ** The table and the dispatch *)

Definition syscall_table (nr_ : Z) (k : kst) (a1 a2 a3 a4 a5 : Z) : option (outcome (kst * sysret)) :=
  match nr_ with
  | 0 => Some (sys_read k a1 a2 a3)
  | 1 => Some (sys_write k a1 a2 a3)
  | 2 => Some (sys_exit k a1)
  | 8 => Some (sys_ioctl k a1 a2 a3)
  | 17 => Some (sys_yield k)
  | 20 => Some (sys_getpid k)
  | 40 => Some (sys_nk_proc_intent k a1 a2 a3)
  | 41 => Some (sys_nk_work_budget k a1 a2 a3)
  | 42 => Some (sys_nk_attest_self k a1 a2)
  | 43 => Some (sys_nk_attest_peer k a1 a2 a3)
  | 44 => Some (sys_nk_secure_alloc k a1 a2)
  | 45 => Some (sys_nk_secure_free k a1 a2)
  | 46 => Some (sys_nk_ipc_channel k a1 a2)
  | 47 => Some (sys_nk_ipc_send k a1 a2 a3)
  | 48 => Some (sys_nk_ipc_recv k a1 a2 a3)
  | 49 => Some (sys_nk_neri_status k a1)
  | 50 => Some (sys_nk_neri_tune k a1 a2 a3)
  | 51 => Some (sys_nk_thermal_hint k a1 a2)
  | 52 => Some (sys_nk_anomaly_score k a1)
  | 53 => Some (sys_nk_pledge k a1)
  | 55 => Some (sys_nk_checkpoint k a1 a2)
  | 57 => Some (sys_nk_mem_snapshot k a1 a2 a3)
  | 58 => Some (sys_nk_futex k a1 a2 a3)
  | 59 => Some (sys_nk_thread_create k a1 a2 a3)
  | 61 => Some (sys_nk_get_caps k a1)
  | 62 => Some (sys_nk_set_name k a1)
  | 63 => Some (sys_nk_debug_log k a1 a2)
  | _ => None
  end.

Definition cpu_index : nat := Z.to_nat (if NCPUS_MAX <=? cpu then 0 else cpu).
Definition flag (k : kst) : Z := nth cpu_index (g_syscall_in_progress k) 0.
Definition set_flag (k : kst) (v : Z) : kst := with_flags k (<[cpu_index := v]> (g_syscall_in_progress k)).

(** [t->sig_pending & (1ULL << 63)] and not [t->sig_blocked & (1ULL << nr)]. *)
Definition pledged (t : task) : bool := truthy (Z.land (sig_pending t) (shl64 1 63)).
Definition allowed (t : task) (nr_ : Z) : bool := truthy (Z.land (sig_blocked t) (shl64 1 nr_)).

(** The handler's call, and clearing the flag once it returns. *)
Definition run_handler (k : kst) (nr_ a1 a2 a3 a4 a5 : Z) : outcome (kst * sysret) :=
  match syscall_table nr_ k a1 a2 a3 a4 a5 with
  | None => fail (set_flag k 0) ENOSYS
  | Some run =>
      '(k, r) ← run;
      match r with Ret v => Done (set_flag k 0, Ret v) | Away p n => Done (k, Away p n) end
  end.

Definition nekros_syscall_dispatch (k : kst) (nr_ a1 a2 a3 a4 a5 : Z) : outcome (kst * sysret) :=
  if 64 <=? nr_ then fail k ENOSYS
  else if truthy (flag k) then fail k ENOSYS
  else
    let k := set_flag k 1 in
    let a1 := scrub_arg a1 in let a2 := scrub_arg a2 in let a3 := scrub_arg a3 in
    let a4 := scrub_arg a4 in let a5 := scrub_arg a5 in
    t ← curr_task k;
    match t with
    | Some (ta, tk) =>
        if pledged tk && negb (allowed tk nr_) then
          let k := set_flag k 0 in
          r ← task_exit (sy k) w cpu (Some ta) (- EPERM);
          after k r (u64 (- EPERM))
        else run_handler k nr_ a1 a2 a3 a4 a5
    | None => run_handler k nr_ a1 a2 a3 a4 a5
    end.

End syscall.

End Syscall.
