(* ===== verification/SyscallProof.v ===== *)
(** * Properties of the system call layer

    Pointer checks, the dispatch's gates, pledge, and what a call may write. *)

From S2P Require Import Prelude Pmm Vmm ListHead Neri Sched SchedProof Printk Vfs CcProc Syscall.
Import Pmm Vmm ListHead Neri Sched SchedProof Syscall.

Module SyscallProof.

(** ** User pointers *)

Lemma uptr_valid_iff ptr len : 0 <= ptr < 2 ^ 64 -> 0 <= len < 2 ^ 64 ->
  uptr_valid ptr len = true <-> 4096 <= ptr /\ ptr < USER_ADDR_MAX /\ ptr + len <= USER_ADDR_MAX.
Proof.
  intros Hp Hl. unfold uptr_valid, USER_ADDR_MAX.
  destruct (Z.eqb_spec ptr 0); [split; [done | lia]|]. destruct (Z.leb_spec 0x800000000000 ptr); [split; [done | lia]|].
  destruct (Z.ltb_spec 0x800000000000 len); simpl; [split; [done | lia]|].
  rewrite u64_small by lia. destruct (Z.ltb_spec 0x800000000000 (ptr + len)); [split; [done | lia]|].
  destruct (Z.ltb_spec ptr 4096); split; (done || lia).
Qed.

(** What the handlers rely on, without a bound on the arguments. *)
Lemma uptr_valid_range ptr len : uptr_valid ptr len = true -> 0 <= len -> 4096 <= ptr /\ ptr + len <= USER_ADDR_MAX.
Proof.
  unfold uptr_valid, USER_ADDR_MAX. destruct (Z.eqb_spec ptr 0); [done|]. destruct (Z.leb_spec 0x800000000000 ptr); [done|].
  destruct (Z.ltb_spec 0x800000000000 len); simpl; [done|]. destruct (Z.ltb_spec ptr 4096).
  - destruct (_ <? u64 _); done.
  - destruct (Z.ltb_spec 0x800000000000 (u64 (ptr + len))) as [|Hle]; [done|]. intros _ Hl.
    rewrite u64_small in Hle by lia. lia.
Qed.

Lemma scrub_arg_range a : 0 <= a -> 0 <= scrub_arg a < USER_ADDR_MAX /\ (a < USER_ADDR_MAX -> scrub_arg a = a).
Proof.
  intros. unfold scrub_arg, USER_ADDR_MAX. destruct (Z.leb_spec 0x800000000000 a); simpl; [|lia].
  rewrite (proj2 (Z.eqb_neq a 0)) by lia. simpl. lia.
Qed.

(** ** What a handler may change *)

(** Only bytes of user memory from [lo] on, and not the re-entrancy flags. *)
Record tame (lo : Z) (k k' : kst) : Prop := {
  tm_user : forall a, umem k' !! a <> umem k !! a -> lo <= a < USER_ADDR_MAX;
  tm_flags : g_syscall_in_progress k' = g_syscall_in_progress k
}.
Definition tame_o (lo : Z) (k : kst) (o : outcome (kst * sysret)) : Prop := forall k' r, o = Done (k', r) -> tame lo k k'.

Lemma tame_refl lo k : tame lo k k.
Proof. by split. Qed.
Lemma tame_same lo k k' : umem k' = umem k -> g_syscall_in_progress k' = g_syscall_in_progress k -> tame lo k k'.
Proof. intros E1 E2. split; [|done]. intros a. by rewrite E1. Qed.

Lemma uwrite_out l : forall m a x, ~ (a <= x < a + Z.of_nat (length l)) -> uwrite m a l !! x = m !! x.
Proof.
  induction l as [|b l IH]; intros m a x Hx; simpl in *; [done|]. rewrite IH by lia. rewrite lookup_insert_ne by lia. done.
Qed.

Lemma tame_write lo k m a l : (forall x, m !! x <> umem k !! x -> lo <= x < USER_ADDR_MAX) ->
  lo <= a -> a + Z.of_nat (length l) <= USER_ADDR_MAX ->
  forall x, uwrite m a l !! x <> umem k !! x -> lo <= x < USER_ADDR_MAX.
Proof.
  intros Hm Ha Hl x Hx. destruct (decide (a <= x < a + Z.of_nat (length l))) as [|Hout]; [lia|].
  rewrite uwrite_out in Hx by done. by apply Hm.
Qed.

Lemma le_length n x : length (le n x) = n.
Proof. unfold le. by rewrite length_map, length_seq. Qed.

(** What the handlers have established of the arguments when they call another
    subsystem: the buffer it writes lies in user space; the ioctl of the resource
    manager gets its pointer unchecked, but scrubbed by the dispatch. *)
Definition in_user (buf size : Z) : Prop := 4096 <= buf /\ 0 <= size /\ buf + size <= USER_ADDR_MAX.
Definition checked (c : callee_id) (args : list Z) : Prop :=
  match c, args with
  | VfsRead, [_; buf; len] | IpcRecv, [_; buf; len] => in_user buf len
  | AttestProcess, [_; out; size] | Checkpoint, [_; out; size] | SealMemory, [_; _; out; size] => in_user out size
  | NeriDevIoctl, [_; arg] => 0 <= arg < USER_ADDR_MAX
  | _, _ => True
  end.
Definition floor_of (c : callee_id) : Z := match c with NeriDevIoctl => 1 | _ => 4096 end.

(** What the subsystems promise to the dispatch: called with checked arguments, they write
    nothing but user memory and leave the dispatch's flags alone. *)
Class Callees (callee : callee_id -> list Z -> kst -> outcome (kst * Z)) : Prop :=
  callee_tame : forall c args k k' v, checked c args -> callee c args k = Done (k', v) -> tame (floor_of c) k k'.

Section handlers.
Context (callee : callee_id -> list Z -> kst -> outcome (kst * Z)) `{!Callees callee}.
Context (w : hw) (cpu tsc_khz : Z).

Lemma o_fail lo k e : tame_o lo k (fail k e).
Proof. intros k' r [= <- _]. apply tame_refl. Qed.
Lemma o_ok lo k k1 : tame lo k k1 -> tame_o lo k (ok0 k1).
Proof. intros H k' r [= <- _]. done. Qed.
Lemma o_ret lo k k1 v : tame lo k k1 -> tame_o lo k (Done (k1, v)).
Proof. intros H k' r [= <- _]. done. Qed.
Lemma o_call k c args : checked c args -> tame_o (floor_of c) k (call callee k c args).
Proof.
  intros Hc k' r. unfold call. destruct (callee c args k) as [[k1 v]| |] eqn:E; simpl; [|done..]. intros [= <- _].
  by eapply callee_tame.
Qed.
Lemma o_after lo k x v : tame_o lo k (after k x v).
Proof. destruct x as [s sw]. intros k' r [= <- _]. by apply tame_same. Qed.
Lemma o_bind {A} lo k (o : outcome A) f : (forall x, o = Done x -> tame_o lo k (f x)) -> tame_o lo k (o ≫= f).
Proof. destruct o as [x| |]; simpl; intros H; [by apply H | done..]. Qed.
Lemma o_if lo k (b : bool) x y : (b = true -> tame_o lo k x) -> (b = false -> tame_o lo k y) -> tame_o lo k (if b then x else y).
Proof. destruct b; auto. Qed.

(** What the pointer check gives for a buffer of which at most [n] bytes are used. *)
Lemma valid_in_user ptr len n : negb (uptr_valid ptr len) = false -> 0 <= n <= len -> in_user ptr n.
Proof. intros E Hn. apply negb_false_iff, uptr_valid_range in E; unfold in_user; lia. Qed.
Lemma u32_below x : 0 <= x -> 0 <= u32 x <= x.
Proof. intros. unfold u32. split; [apply Z.mod_pos_bound; lia | apply Z.mod_le; lia]. Qed.

Create HintDb tame.
#[local] Hint Resolve o_fail o_after tame_refl : tame.
#[local] Hint Extern 1 (tame_o _ _ (ok0 _)) => apply o_ok : tame.
#[local] Hint Extern 1 (tame _ _ _) => apply tame_same; reflexivity : tame.

Ltac check_call := apply o_call; cbn [checked]; first [ exact I | eapply valid_in_user; [eassumption|]; first [lia | apply u32_below; lia] ].
Ltac handler :=
  repeat first
    [ progress eauto 2 with tame
    | check_call
    | apply o_bind; intros ? ?
    | apply o_if; intros ?
    | match goal with |- tame_o _ _ (match ?x with _ => _ end) => destruct x end
    | match goal with |- tame_o _ _ (let '_ := ?x in _) => destruct x end
    | apply o_ret; apply tame_same; reflexivity ].

Lemma status_tame k out : tame_o 4096 k (sys_nk_neri_status k out).
Proof.
  unfold sys_nk_neri_status. apply o_if; intros E; [apply o_fail|]. apply o_if; intros _; [apply o_ok, tame_refl|].
  apply negb_false_iff, uptr_valid_range in E as [? ?]; [|lia]. apply o_ok. split; [|done].
  apply tame_write; [done | lia |]. simpl. lia.
Qed.

Lemma score_tame k out : tame_o 4096 k (sys_nk_anomaly_score k out).
Proof.
  unfold sys_nk_anomaly_score. apply o_if; intros E; [apply o_fail|].
  apply negb_false_iff, uptr_valid_range in E as [? ?]; [|lia]. apply o_ok. split; [|done]. cbn [umem with_umem].
  repeat (apply tame_write; [| lia | rewrite le_length; lia]). done.
Qed.

Lemma caps_tame k out : tame_o 4096 k (sys_nk_get_caps k out).
Proof.
  unfold sys_nk_get_caps. apply o_if; intros _; [apply o_fail|]. apply o_if; intros E; [apply o_fail|].
  apply negb_false_iff, uptr_valid_range in E as [? ?]; [|lia]. apply o_ok. split; [|done].
  apply tame_write; [done | lia |]. rewrite !length_app, !le_length. lia.
Qed.

Lemma futex_tame k addr op v : tame_o 4096 k (sys_nk_futex w cpu k addr op v).
Proof.
  unfold sys_nk_futex. apply o_if; intros E; [apply o_fail|].
  apply negb_false_iff, uptr_valid_range in E as [? ?]; [|lia]. apply o_if; intros _; [handler|].
  apply o_if; intros _; [|apply o_ok, tame_refl]. apply o_ok. split; [|done].
  apply tame_write; [done | lia | rewrite le_length; lia].
Qed.

Lemma attest_tame k out size : tame_o 4096 k (sys_nk_attest_self callee cpu k out size).
Proof.
  unfold sys_nk_attest_self. apply o_if; intros E; [apply o_fail|]. apply orb_false_iff in E as [E1 E2%Z.ltb_ge]. handler; done.
Qed.
Lemma snapshot_tame k va pages out : 0 <= pages -> tame_o 4096 k (sys_nk_mem_snapshot callee k va pages out).
Proof.
  intros Hp. unfold sys_nk_mem_snapshot. apply o_if; intros E; [apply o_fail|].
  apply orb_false_iff in E as [_ E%Z.ltb_ge]. rewrite (u64_small (pages * 4096 + 128)) by lia. handler.
Qed.
Lemma ioctl_tame k fd cmd arg : 0 <= arg < USER_ADDR_MAX -> tame_o 1 k (sys_ioctl callee k fd cmd arg).
Proof. intros. unfold sys_ioctl. apply o_if; intros _; [by apply (o_call k NeriDevIoctl) | apply o_fail]. Qed.

(** Every handler of the table. *)
Definition floor (n : Z) : Z := if n =? 8 then 1 else 4096.
Lemma table_tame n k a1 a2 a3 a4 a5 run : Forall (fun a => 0 <= a < USER_ADDR_MAX) [a1; a2; a3] ->
  syscall_table callee w cpu tsc_khz n k a1 a2 a3 a4 a5 = Some run -> tame_o (floor n) k run.
Proof.
  unfold syscall_table. intros Ha H. rewrite !Forall_cons in Ha. destruct Ha as (H1 & H2 & H3 & _). unfold USER_ADDR_MAX in *.
  repeat match type of H with
  | match ?x with _ => _ end = _ => destruct x; try discriminate H
  end; injection H as <-; cbn [floor Z.eqb Pos.eqb];
  first [ apply status_tame | apply score_tame | apply caps_tame | apply futex_tame | apply attest_tame | apply ioctl_tame; done
        | apply snapshot_tame; lia
        | unfold sys_read, sys_write, sys_exit, sys_yield, sys_getpid, sys_nk_proc_intent, sys_nk_work_budget,
            sys_nk_attest_peer, sys_nk_secure_alloc, sys_nk_secure_free, sys_nk_ipc_channel,
            sys_nk_ipc_send, sys_nk_ipc_recv, sys_nk_neri_tune, sys_nk_thermal_hint, sys_nk_pledge, sys_nk_checkpoint,
            sys_nk_thread_create, sys_nk_set_name, sys_nk_debug_log; handler ];
  (done || (apply o_ret; eapply (callee_tame SecureAlloc); [exact I | eassumption])
        || (apply o_ok; eapply (callee_tame SecureFree); [exact I | eassumption])).
Qed.

(** ** The dispatch *)

Context (Hcpu : 0 <= cpu < 256).

Lemma cpu_index_eq : cpu_index cpu = Z.to_nat cpu.
Proof. unfold cpu_index. by rewrite (proj2 (Z.leb_gt NCPUS_MAX cpu)) by (unfold NCPUS_MAX; lia). Qed.

Lemma flag_set k v : length (g_syscall_in_progress k) = 256%nat -> flag cpu (set_flag cpu k v) = v.
Proof.
  intros Hl. unfold flag, set_flag. cbn. rewrite nth_lookup, list_lookup_insert_eq; [done|]. rewrite cpu_index_eq. lia.
Qed.

(** Setting the flag and clearing it again is no change when it was clear. *)
Lemma flag_restored k l : length (g_syscall_in_progress k) = 256%nat -> flag cpu k = 0 ->
  l = g_syscall_in_progress (set_flag cpu k 1) -> <[cpu_index cpu := 0]> l = g_syscall_in_progress k.
Proof.
  intros Hl Hf ->. unfold set_flag. cbn. rewrite list_insert_insert_eq. apply list_insert_id.
  unfold flag in Hf. rewrite nth_lookup in Hf. rewrite cpu_index_eq in *.
  destruct (lookup_lt_is_Some_2 (g_syscall_in_progress k) (Z.to_nat cpu) ltac:(lia)) as [x Ex]. rewrite Ex in *. simpl in Hf. by rewrite Hf.
Qed.

Definition contained (n : Z) (k k' : kst) (r : sysret) : Prop :=
  (forall a, umem k' !! a <> umem k !! a -> floor n <= a < USER_ADDR_MAX) /\
  match r with
  | Ret _ => g_syscall_in_progress k' = g_syscall_in_progress k
  | Away _ _ => flag cpu k' = 1 \/ g_syscall_in_progress k' = g_syscall_in_progress k
  end.

Lemma contained_refl n k v : contained n k k (Ret v).
Proof. split; [done|done]. Qed.

Lemma run_handler_tame k n a1 a2 a3 a4 a5 k' r : length (g_syscall_in_progress k) = 256%nat -> flag cpu k = 0 ->
  Forall (fun a => 0 <= a < USER_ADDR_MAX) [a1; a2; a3] ->
  run_handler callee w cpu tsc_khz (set_flag cpu k 1) n a1 a2 a3 a4 a5 = Done (k', r) -> contained n k k' r.
Proof.
  intros Hl Hf Ha. unfold run_handler.
  destruct (syscall_table callee w cpu tsc_khz n (set_flag cpu k 1) a1 a2 a3 a4 a5) as [run|] eqn:E.
  - destruct run as [[k1 r1]| |] eqn:Er; cbn; [|done..].
    pose proof (table_tame _ _ _ _ _ _ _ _ Ha E k1 r1 eq_refl) as [U F]. destruct r1 as [v|p q]; intros [= <- <-].
    + split; [exact U|]. cbn. by apply flag_restored.
    + split; [exact U|]. left. unfold flag. rewrite F. by apply flag_set.
  - intros [= <- <-]. split; [done|]. cbn. by apply flag_restored.
Qed.

(** A system call is contained, whatever the subsystems do that keep their promise to the
    dispatch ([Callees]). *)
Theorem syscall_contained k n a1 a2 a3 a4 a5 : length (g_syscall_in_progress k) = 256%nat ->
  Forall (fun a => 0 <= a) [a1; a2; a3] ->
  (64 <= n \/ flag cpu k <> 0 ->
     nekros_syscall_dispatch callee w cpu tsc_khz k n a1 a2 a3 a4 a5 = Done (k, err ENOSYS)) /\
  (forall k' r, nekros_syscall_dispatch callee w cpu tsc_khz k n a1 a2 a3 a4 a5 = Done (k', r) -> contained n k k' r).
Proof.
  intros Hl Ha. unfold nekros_syscall_dispatch, truthy. split.
  - intros [Hn|Hf]; [by rewrite (proj2 (Z.leb_le _ _) Hn)|]. destruct (64 <=? n); [done|]. by rewrite (proj2 (Z.eqb_neq _ _) Hf).
  - intros k' r. destruct (64 <=? n); [intros [= <- <-]; apply contained_refl|].
    destruct (Z.eqb_spec (flag cpu k) 0) as [Hf|]; [|intros [= <- <-]; apply contained_refl].
    cbn [negb]. destruct (curr_task cpu (set_flag cpu k 1)) as [t| |]; cbn [mbind outcome_bind]; [|done..].
    assert (Forall (fun a => 0 <= a < USER_ADDR_MAX) [scrub_arg a1; scrub_arg a2; scrub_arg a3]) as Hs.
    { rewrite !Forall_cons in *. destruct Ha as (? & ? & ? & _). repeat split; try (by apply scrub_arg_range). constructor. }
    pose proof (fun b4 b5 => run_handler_tame k n _ _ _ b4 b5 k' r Hl Hf Hs) as Hrun.
    destruct t as [[ta tk]|]; [|apply Hrun]. destruct (pledged tk && negb (allowed tk n)); [|apply Hrun].
    destruct (task_exit _ _ _ _ _) as [[s sw]| |]; cbn; [|done..]. intros [= <- <-]. split; [done|].
    pose proof (flag_restored k _ Hl Hf eq_refl) as E. destruct sw as [[p q]|]; [by right | done].
Qed.

End handlers.

(** ** Concrete states *)

Definition fs_ex (v : vmm) : Vfs.vfs :=
  Vfs.mk_vfs (replicate 512 Vfs.zero_inode) 1 ∅ None v (Printk.mk_console true [] (replicate 2000 0) 0 0 7)
    (mk_pool 0 0 0 0 0 0 0 0) neki_start (mk_sec [] false (mk_anomaly 0 0 false 0) zero_feat) false false.
Definition kst_ex (s : sys) : kst :=
  mk_kst s (replicate 256 0) (replicate 256 no_budget) 1 ∅ [] [] (fs_ex (Sched.vm s)) (CcProc.cc_bss (Sched.vm s)).
Definition no_callee : callee_id -> list Z -> kst -> outcome (kst * Z) := fun _ _ k => Done (k, 0).
#[export] Instance no_callee_tame : Callees no_callee.
Proof. intros c args k k' v _ [= <- _]. apply tame_refl. Qed.
Definition alone (t : task) : sys := sys_ex {[0x1000 := t]} ∅ [Some 0x1000].

(** User pointers: for 64-bit arguments the check accepts a buffer exactly when it
    starts at or above 4096 and ends at or below 2^47, whatever its length (no
    wrap-around), and scrubbing leaves user values alone and maps every other
    argument to 0. *)
Theorem uptr_valid_correct ptr len a : 0 <= ptr < 2 ^ 64 -> 0 <= len < 2 ^ 64 -> 0 <= a < 2 ^ 64 ->
  (uptr_valid ptr len = true <-> 4096 <= ptr /\ ptr < USER_ADDR_MAX /\ ptr + len <= USER_ADDR_MAX) /\
  scrub_arg a = (if a <? USER_ADDR_MAX then a else 0).
Proof.
  intros. split; [by apply uptr_valid_iff|]. unfold scrub_arg.
  destruct (Z.leb_spec USER_ADDR_MAX a), (Z.ltb_spec a USER_ADDR_MAX); simpl; try lia.
  unfold USER_ADDR_MAX in *. rewrite (proj2 (Z.eqb_neq a 0)) by lia. done.
Qed.

Lemma uptr_valid_correct_witness : uptr_valid 0x7FFFFFFFF000 4096 = true /\ scrub_arg (2 ^ 63) = 0.
Proof.
  destruct (uptr_valid_correct 0x7FFFFFFFF000 4096 (2 ^ 63)) as [H ->]; [lia..|].
  split; [apply H; unfold USER_ADDR_MAX; lia | reflexivity].
Defined.

(** ** Pledge *)

Section pledge.
Context (callee : callee_id -> list Z -> kst -> outcome (kst * Z)) (w : hw) (cpu tsc_khz : Z).
Context (k : kst) (ta : Z) (t : task).
Context (Hcur : current (sy k) cpu = Some ta) (Ht : heap (sy k) !! ta = Some t) (Hf : flag cpu k = 0).

Lemma curr_task_eq k1 : sy k1 = sy k -> curr_task cpu k1 = Done (Some (ta, t)).
Proof. intros E. unfold curr_task, curr, deref. rewrite E, Hcur, Ht. done. Qed.

Lemma dispatch_task n a1 a2 a3 a4 a5 : n < 64 ->
  nekros_syscall_dispatch callee w cpu tsc_khz k n a1 a2 a3 a4 a5 =
  if pledged t && negb (allowed t n)
  then r ← task_exit (sy k) w cpu (Some ta) (- EPERM); after (set_flag cpu (set_flag cpu k 1) 0) r (u64 (- EPERM))
  else run_handler callee w cpu tsc_khz (set_flag cpu k 1) n (scrub_arg a1) (scrub_arg a2) (scrub_arg a3) (scrub_arg a4) (scrub_arg a5).
Proof.
  intros Hn. unfold nekros_syscall_dispatch. rewrite (proj2 (Z.leb_gt _ _) Hn). rewrite Hf.
  change (truthy 0) with false. rewrite curr_task_eq by done. done.
Qed.

End pledge.

Lemma allowed_bit t n : 0 <= n < 64 -> allowed t n = Z.testbit (sig_blocked t) n.
Proof. intros Hn. unfold allowed. by apply truthy_mask. Qed.
Lemma pledged_bit t : pledged t = Z.testbit (sig_pending t) 63.
Proof. unfold pledged. by apply truthy_mask. Qed.
Lemma pledge_passes t n : 0 <= n < 64 -> (Z.testbit (sig_pending t) 63 = true -> Z.testbit (sig_blocked t) n = true) ->
  pledged t && negb (allowed t n) = false.
Proof.
  intros Hn Hok. rewrite allowed_bit, pledged_bit by done.
  destruct (Z.testbit (sig_pending t) 63); [by rewrite Hok | done].
Qed.

(** (C33) Pledge is enforced before any handler runs: for a task that pledged, a call whose
    bit is not in its mask goes to [task_exit] and nothing else; a call whose bit is
    in the mask runs its handler on the scrubbed arguments.  And since the caller is
    the running task, whose queue links are NULL, the kill itself follows a NULL
    pointer. *)
Theorem pledge_enforced callee w cpu tsc_khz k ta t n a1 a2 a3 a4 a5 :
  current (sy k) cpu = Some ta -> heap (sy k) !! ta = Some t -> flag cpu k = 0 -> 0 <= n < 64 ->
  Z.testbit (sig_pending t) 63 = true ->
  (Z.testbit (sig_blocked t) n = true ->
   nekros_syscall_dispatch callee w cpu tsc_khz k n a1 a2 a3 a4 a5 =
   run_handler callee w cpu tsc_khz (set_flag cpu k 1) n (scrub_arg a1) (scrub_arg a2) (scrub_arg a3) (scrub_arg a4) (scrub_arg a5)) /\
  (Z.testbit (sig_blocked t) n = false ->
   nekros_syscall_dispatch callee w cpu tsc_khz k n a1 a2 a3 a4 a5 =
     (r ← task_exit (sy k) w cpu (Some ta) (- EPERM); after (set_flag cpu (set_flag cpu k 1) 0) r (u64 (- EPERM))) /\
   (links (sy k) !! RqNode ta = Some (mk_lh None None) ->
    nekros_syscall_dispatch callee w cpu tsc_khz k n a1 a2 a3 a4 a5 = Fault)).
Proof.
  intros Hc Ht Hf Hn Hp. rewrite (dispatch_task callee w cpu tsc_khz k ta t Hc Ht Hf) by lia.
  rewrite allowed_bit, pledged_bit, Hp by done. split; intros E; rewrite E; cbn [andb negb]; [done|]. split; [done|].
  intros Hl. by rewrite exit_faults.
Qed.

Definition pledged_task (mask : Z) : task := set_sig (set_state zero_task TASK_RUNNING) (2 ^ 63) mask.

Lemma pledge_enforced_witness :
  let k := kst_ex (with_links (alone (pledged_task 3)) {[RqNode 0x1000 := mk_lh None None]}) in
  nekros_syscall_dispatch no_callee hw_ex 0 1000 k 2 0 0 0 0 0 = Fault.
Proof.
  cbv zeta. eapply pledge_enforced; [reflexivity | apply lookup_insert_eq | reflexivity | lia | reflexivity | reflexivity | reflexivity].
Defined.

(** What pledging leaves: the mask is replaced by the (scrubbed) argument, whatever
    it was, so a task whose mask still allows nk_pledge can widen it again; and a
    mask with any of the bits 47 to 63 is scrubbed to 0, after which no call at all
    is allowed. *)
Theorem pledge_replaces_mask callee w cpu tsc_khz k ta t mask :
  current (sy k) cpu = Some ta -> heap (sy k) !! ta = Some t -> flag cpu k = 0 -> 0 <= mask < 2 ^ 64 ->
  (Z.testbit (sig_pending t) 63 = true -> Z.testbit (sig_blocked t) 53 = true) ->
  exists k' t', nekros_syscall_dispatch callee w cpu tsc_khz k 53 mask 0 0 0 0 = Done (k', Ret 0) /\
    heap (sy k') !! ta = Some t' /\ Z.testbit (sig_pending t') 63 = true /\
    sig_blocked t' = (if mask <? USER_ADDR_MAX then mask else 0) /\
    (USER_ADDR_MAX <= mask -> forall n, 0 <= n < 64 -> allowed t' n = false).
Proof.
  intros Hc Ht Hf Hm Hok. rewrite (dispatch_task callee w cpu tsc_khz k ta t Hc Ht Hf) by lia.
  rewrite pledge_passes by (lia || done).
  unfold run_handler. cbn [syscall_table]. unfold sys_nk_pledge.
  rewrite (curr_task_eq cpu k ta t Hc Ht) by done. cbn [mbind outcome_bind ok0].
  eexists _, _. split; [reflexivity|]. split; [apply lookup_insert_eq|]. cbn [sig_pending sig_blocked set_sig].
  assert (scrub_arg mask = (if mask <? USER_ADDR_MAX then mask else 0)) as Es.
  { unfold scrub_arg. destruct (Z.leb_spec USER_ADDR_MAX mask), (Z.ltb_spec mask USER_ADDR_MAX); simpl; try lia.
    unfold USER_ADDR_MAX in *. rewrite (proj2 (Z.eqb_neq mask 0)) by lia. done. }
  split; [|split].
  - rewrite Z.lor_spec. change (Z.testbit (shl64 1 63) 63) with true. by rewrite orb_true_r.
  - exact Es.
  - intros Hge n Hn. rewrite allowed_bit by done. cbn [sig_blocked set_sig]. rewrite Es, (proj2 (Z.ltb_ge _ _) Hge). apply Z.bits_0.
Qed.

(** The mask init asks for (nekros_main.c): bits 0, 1, 2, 17, 20, 40, 49, 52, 53, 62, 63. *)
Definition init_mask : Z := 0xC032010000120007.

Lemma pledge_replaces_mask_witness : exists k' t',
  nekros_syscall_dispatch no_callee hw_ex 0 1000 (kst_ex (alone zero_task)) 53 init_mask 0 0 0 0 = Done (k', Ret 0) /\
  heap (sy k') !! 0x1000 = Some t' /\ allowed t' 0 = false.
Proof.
  destruct (pledge_replaces_mask no_callee hw_ex 0 1000 (kst_ex (alone zero_task)) 0x1000 zero_task init_mask)
    as (k' & t' & E & Ht & _ & _ & H).
  - reflexivity.
  - apply lookup_insert_eq.
  - reflexivity.
  - unfold init_mask. lia.
  - discriminate.
  - exists k', t'. split; [exact E|]. split; [exact Ht|]. apply H; [vm_compute; discriminate | lia].
Defined.

(** A yield that switches from the running task to another locks the CPU out of
    system calls: the flag is still set when the next task runs, so every call it makes is taken for a nested one and
    refused with -ENOSYS. *)
Theorem yield_locks_out callee w cpu tsc_khz k ta t s p n : 0 <= cpu < 256 ->
  length (g_syscall_in_progress k) = 256%nat -> flag cpu k = 0 ->
  current (sy k) cpu = Some ta -> heap (sy k) !! ta = Some t ->
  (Z.testbit (sig_pending t) 63 = true -> Z.testbit (sig_blocked t) 17 = true) ->
  schedule (sy k) w cpu = Done (s, Some (p, n)) ->
  exists k', nekros_syscall_dispatch callee w cpu tsc_khz k 17 0 0 0 0 0 = Done (k', Away p n) /\ sy k' = s /\
    forall nr_ a1 a2 a3 a4 a5,
      nekros_syscall_dispatch callee w cpu tsc_khz k' nr_ a1 a2 a3 a4 a5 = Done (k', err ENOSYS).
Proof.
  intros Hcpu Hl Hf Hc Ht Hok Hs. exists (with_sy (set_flag cpu k 1) s). split; [|split; [done|]].
  - rewrite (dispatch_task callee w cpu tsc_khz k ta t Hc Ht Hf), pledge_passes by done.
    unfold run_handler. cbn [syscall_table]. unfold sys_yield. cbn [sy set_flag with_flags]. rewrite Hs. done.
  - intros. unfold nekros_syscall_dispatch. casei; [done|].
    change (flag cpu (with_sy (set_flag cpu k 1) s)) with (flag cpu (set_flag cpu k 1)). by rewrite flag_set.
Qed.

(** The task at 0x1000 runs on CPU 3, the one at 0x2000 waits in its run queue. *)
Definition yielding : sys :=
  let s := sched_init (sys_ex ∅ ∅ []) in
  let s := with_links (with_heap s {[0x1000 := set_state zero_task TASK_RUNNING; 0x2000 := task_ex]})
    (<[RqNode 0x1000 := mk_lh None None]> (list_init (links s) (RqNode 0x2000))) in
  match enqueue (with_current s (<[3%nat := Some 0x1000]> (current_task s))) 0x2000 with Done s => s | _ => s end.
Definition yielded : sys := match schedule yielding hw_ex 3 with Done (s, _) => s | _ => yielding end.

Lemma yield_locks_out_witness : exists k',
  nekros_syscall_dispatch no_callee hw_ex 3 1000 (kst_ex yielding) 17 0 0 0 0 0 = Done (k', Away (Some 0x1000) 0x2000) /\
  current (sy k') 3 = Some 0x2000 /\
  nekros_syscall_dispatch no_callee hw_ex 3 1000 k' 20 0 0 0 0 0 = Done (k', err ENOSYS).
Proof.
  destruct (yield_locks_out no_callee hw_ex 3 1000 (kst_ex yielding) 0x1000 (set_state zero_task TASK_RUNNING)
    yielded (Some 0x1000) 0x2000) as (k' & E1 & E2 & E3).
  - lia.
  - reflexivity.
  - reflexivity.
  - vm_compute. reflexivity.
  - vm_compute. reflexivity.
  - discriminate.
  - vm_compute. reflexivity.
  - exists k'. split; [exact E1|]. split; [rewrite E2; vm_compute; reflexivity | apply E3].
Defined.

End SyscallProof.
