(* ===== verification/Kernel.v ===== *)
(** * The system calls over the file system and CortexCrypto

    [kernel_callee] is what the handlers of kernel/syscall.c call: the functions of
    fs/vfs.c and drivers/cortexcrypto/core/cc_proc.c on the user memory the arguments
    point to.  The components share the heap and the resource manager, which live in
    [sy]; a call gets them from there and the heap is put back after it.  No code sets
    a task's descriptor table, so file operations run without one.  The instance of
    [Callees] discharges what the dispatch needs of its callees. *)

From S2P Require Import Prelude Bytes Vmm Sha256 ListHead Printk Neri Sched SchedProof Vfs CcProc Syscall SyscallProof.
Import Bytes Vmm Sha256 Syscall SyscallProof.

Module Kernel.

(** What the callees read and this model does not compute: the hash context left on the
    stack, the time stamp, what uninitialised memory holds, the bytes readable at
    addresses below a page, the address of a local array, the saved registers. *)
Record ambient := mk_ambient {
  a_ctx : sha256_ctx; a_tsc : Z; a_junk : list Z; a_low : list Z; a_sp : Z; a_rbx : Z; a_rbp : Z
}.

Definition ambient_ex : ambient := mk_ambient zero_ctx 7 (replicate 66 0) [] 0xFFFF800000300000 0 0.

(** ** The components over what they share *)

Definition fs_over (f : Vfs.vfs) (s : Sched.sys) (cc_ready : bool) : Vfs.vfs :=
  Vfs.mk_vfs (Vfs.g_inodes f) (Vfs.g_next_ino f) (Vfs.dirs f) (Vfs.g_root f) (Sched.vm s) (Vfs.tty f)
    (Neri.pool (Neri.n_ps (Sched.nr s))) (Neri.n_neki (Sched.nr s)) (Neri.n_sec (Sched.nr s))
    (Neri.g_neri_ready (Neri.n_ps (Sched.nr s))) cc_ready.
Definition fs_of (k : kst) : Vfs.vfs := fs_over (kfs k) (sy k) (CcProc.g_cc_ready (kcc k)).
Definition cc_of (k : kst) : CcProc.cc := CcProc.with_vm (kcc k) (Sched.vm (sy k)).
Definition put_fs (k : kst) (f : Vfs.vfs) : kst := with_fs (with_sy k (Sched.with_vm (sy k) (Vfs.heap f))) f.
Definition put_cc (k : kst) (c : CcProc.cc) : kst := with_cc (with_sy k (Sched.with_vm (sy k) (CcProc.vm c))) c.

(** Bytes stored through a user pointer; one at or above 2^47 is not canonical and faults. *)
Definition user_store (k : kst) (a : Z) (l : list Z) : outcome kst :=
  if USER_ADDR_MAX <? a + Z.of_nat (length l) then Fault else Done (with_umem k (uwrite (umem k) a l)).
Fixpoint user_stores (k : kst) (l : list (Z * list Z)) : outcome kst :=
  match l with
  | [] => Done k
  | (a, b) :: l' => k ← user_store k a b; user_stores k l'
  end.
(** The caller's buffer as [size] bytes, and back. *)
Definition ubuf (k : kst) (a size : Z) : list Z := uread k a (Z.to_nat size).
Definition put_ubuf (k : kst) (a : Z) (l : option (list Z)) : kst :=
  match l with Some l => with_umem k (uwrite (umem k) a l) | None => k end.

Section kernel.
Context (e : ambient).

Definition kernel_callee (c : callee_id) (args : list Z) (k : kst) : outcome (kst * Z) :=
  match c, args with
  | VfsRead, [fd; buf; len] =>
      '(_, b, n) ← Vfs.vfs_read (fs_of k) (a_junk e) None fd (negb (buf =? 0)) len;
      Done (with_umem k (uwrite (umem k) buf b), n)
  | VfsWrite, [fd; buf; len] =>
      '(f, _, n) ← Vfs.vfs_write (fs_of k) (a_junk e) None fd (Some (ubuf k buf len));
      Done (put_fs k f, n)
  | NeriDevIoctl, [cmd; arg] =>
      let (stores, n) := Vfs.neri_dev_ioctl (fs_of k) cmd arg in
      k ← user_stores k stores;
      Done (k, n)
  | AttestProcess, [pid; out; size] =>
      '(c, tok, _, n) ← CcProc.cc_kernel_attest_process (a_ctx e) (a_tsc e) (cc_of k) (sy k) pid (Some (ubuf k out size)) (Some size);
      Done (put_ubuf (put_cc k c) out tok, n)
  | VerifyAttestation, [tok; sz; pid] =>
      n ← CcProc.cc_kernel_verify_attestation (cc_of k) (a_sp e) (a_low e) (Some (ubuf k tok (USER_ADDR_MAX - tok))) sz pid;
      Done (k, n)
  | SecureAlloc, [pages; policy] =>
      '(c, p) ← CcProc.cc_kernel_secure_alloc (a_ctx e) (cc_of k) pages policy;
      Done (put_cc k c, p)
  | SecureFree, [ptr; pages] => c ← CcProc.cc_kernel_secure_free (cc_of k) ptr pages; Done (put_cc k c, 0)
  | IpcCreate, [self; peer; flags] =>
      let (c, fd) := CcProc.cc_ipc_channel_create (a_ctx e) (a_tsc e) (a_junk e) (cc_of k) self peer flags in
      Done (put_cc k c, fd)
  | IpcSend, [fd; buf; len] =>
      '(c, n) ← CcProc.cc_ipc_send (a_tsc e) (cc_of k) fd (Some (ubuf k buf len));
      Done (put_cc k c, n)
  | IpcRecv, [fd; buf; len] =>
      '(c, b, n) ← CcProc.cc_ipc_recv (cc_of k) (a_low e) fd (negb (buf =? 0)) len;
      Done (put_ubuf (put_cc k c) buf b, n)
  | Checkpoint, [ta; out; sz] =>
      t ← Sched.deref (sy k) ta;
      '(c, o, _, n) ← CcProc.cc_kernel_checkpoint (a_tsc e) (cc_of k) (Some t) (a_rbx e) (a_rbp e) (Some (ubuf k out sz)) sz;
      Done (put_ubuf (put_cc k c) out o, n)
  | SealMemory, [va; pages; out; sz] =>
      '(c, o, _, n) ← CcProc.cc_kernel_seal_memory (a_tsc e) (cc_of k) (ubuf k va (u64 (pages * 4096))) va pages (Some (ubuf k out sz)) sz;
      Done (put_ubuf (put_cc k c) out o, n)
  | _, _ => Fault
  end.

(** A system call of the kernel, by its number and five argument registers. *)
Definition syscall (w : Sched.hw) (cpu tsc_khz : Z) (k : kst) (nr a1 a2 a3 a4 a5 : Z) : outcome (kst * sysret) :=
  nekros_syscall_dispatch kernel_callee w cpu tsc_khz k nr a1 a2 a3 a4 a5.

(** ** The callees keep their promise *)

Lemma put_ubuf_tame k c a l size : in_user a size -> Z.of_nat (length l) <= size -> tame 4096 k (put_ubuf (put_cc k c) a (Some l)).
Proof. intros (H1 & H2 & H3) Hl. split; [|done]. cbn [put_ubuf umem with_umem put_cc with_cc with_sy]. apply tame_write; [done | lia | lia]. Qed.

Lemma ubuf_length k a size : length (ubuf k a size) = Z.to_nat size.
Proof. unfold ubuf, uread. by rewrite length_map, length_seq. Qed.

Lemma store_bytes_length buf off src r : store_bytes buf off src = Done r -> length r = length buf.
Proof.
  unfold store_bytes. destruct (Z.leb_spec 0 off); [|done]. destruct (Z.leb_spec (off + Z.of_nat (length src)) (Z.of_nat (length buf))); [|done].
  intros [= <-]. apply length_splice. lia.
Qed.
Lemma seal_out_length tsc s c key text aad out off s' o : CcProc.seal_out tsc s c key text aad out off = Done (s', o) -> length o = length out.
Proof.
  unfold CcProc.seal_out. destruct (CcProc.gen_nonce tsc s c) as [[s1 nonce]| |]; cbn [mbind outcome_bind]; [|done..].
  destruct (store_bytes out 0 nonce) as [o1| |] eqn:E1; cbn [mbind outcome_bind]; [|done..].
  destruct text as [tx| |]; cbn [mbind outcome_bind]; [|done..]. destruct (AesGcm.AesGcm.aes256_gcm_encrypt key nonce tx aad) as [ct tag].
  destruct (store_bytes o1 12 ct) as [o2| |] eqn:E2; cbn [mbind outcome_bind]; [|done..].
  destruct (store_bytes o2 off tag) as [o3| |] eqn:E3; cbn [mbind outcome_bind]; [|done..]. intros [= _ <-].
  by rewrite (store_bytes_length _ _ _ _ E3), (store_bytes_length _ _ _ _ E2), (store_bytes_length _ _ _ _ E1).
Qed.

Lemma attest_length u tsc s y pid l size s' tok sz n :
  CcProc.cc_kernel_attest_process u tsc s y pid (Some l) size = Done (s', tok, sz, n) -> exists o, tok = Some o /\ length o = length l.
Proof.
  unfold CcProc.cc_kernel_attest_process. destruct size as [size|]; [|intros [= _ <- _ _]; eauto].
  casei; [intros [= _ <- _ _]; eauto|]. casei; [intros [= _ <- _ _]; eauto|].
  destruct (Boot.Boot.task_find_by_pid y pid) as [[ta|]| |]; cbn [mbind outcome_bind]; [|intros [= _ <- _ _]; eauto|done..].
  destruct (Sched.deref y ta) as [t| |]; cbn [mbind outcome_bind]; [|done..].
  destruct (CcProc.seal_out _ _ _ _ _ _ _ _) as [[s1 o]| |] eqn:Es; cbn [mbind outcome_bind]; [|done..].
  intros [= _ <- _ _]. eexists. split; [done|]. by eapply seal_out_length.
Qed.
Lemma checkpoint_length tsc s t rbx rbp l size s' o sz n :
  CcProc.cc_kernel_checkpoint tsc s (Some t) rbx rbp (Some l) size = Done (s', o, sz, n) -> exists o', o = Some o' /\ length o' = length l.
Proof.
  unfold CcProc.cc_kernel_checkpoint. casei; [intros [= _ <- _ _]; eauto|]. casei; [intros [= _ <- _ _]; eauto|].
  destruct (CcProc.seal_out _ _ _ _ _ _ _ _) as [[s1 o1]| |] eqn:Es; cbn [mbind outcome_bind]; [|done..].
  intros [= _ <- _ _]. eexists. split; [done|]. by eapply seal_out_length.
Qed.
Lemma seal_length tsc s data va pages l size s' o sz n :
  CcProc.cc_kernel_seal_memory tsc s data va pages (Some l) size = Done (s', o, sz, n) -> exists o', o = Some o' /\ length o' = length l.
Proof.
  unfold CcProc.cc_kernel_seal_memory. casei; [intros [= _ <- _ _]; eauto|]. casei; [intros [= _ <- _ _]; eauto|].
  destruct (CcProc.seal_out _ _ _ _ _ _ _ _) as [[s1 o1]| |] eqn:Es; cbn [mbind outcome_bind]; [|done..].
  intros [= _ <- _ _]. eexists. split; [done|]. by eapply seal_out_length.
Qed.
(** What a receive stores fits the caller's buffer. *)
Lemma recv_length s low fd buf len s' b n : CcProc.cc_ipc_recv s low fd buf len = Done (s', Some b, n) -> Z.of_nat (length b) <= len.
Proof.
  unfold CcProc.cc_ipc_recv. repeat first [done | casei | match goal with |- context [match ?x with Some _ => _ | None => _ end] => destruct x as [[i ch]|] end].
  repeat match goal with
  | |- mbind _ (CcProc.vload ?v ?a ?n) = _ -> _ => destruct (CcProc.vload v a n) as [[? ?]| |]; cbn [mbind outcome_bind]; [|done..]
  | |- _ => casei; [done|]
  end.
  unfold CcProc.gcm_decrypt_call. destruct (load_bytes _ _ _) as [ct| |]; cbn [mbind outcome_bind]; [|done..].
  destruct (AesGcm.AesGcm.aes256_gcm_decrypt _ _ _ _ _) as [e'|pt]; [done|]. destruct (Z.ltb_spec len (Z.of_nat (length pt))); cbn [mbind outcome_bind]; [done|].
  intros [= _ <- _]. done.
Qed.

Lemma user_stores_tame l : forall k k1 k', Forall (fun s => 1 <= s.1) l -> tame 1 k k1 -> user_stores k1 l = Done k' -> tame 1 k k'.
Proof.
  induction l as [|[a b] l IH]; intros k k1 k' Hl Hk; cbn [user_stores]; [by intros [= <-]|].
  apply Forall_cons in Hl as [Ha Hl]. unfold user_store. destruct (Z.ltb_spec USER_ADDR_MAX (a + Z.of_nat (length b))); cbn [mbind outcome_bind]; [done|].
  apply IH; [done|]. destruct Hk as [U F]. split; [|done]. cbn [umem with_umem]. apply tame_write; [done | done | lia].
Qed.
Lemma ioctl_stores f cmd arg : 0 <= arg -> Forall (fun s => 1 <= s.1) (Vfs.neri_dev_ioctl f cmd arg).1.
Proof.
  intros Ha. unfold Vfs.neri_dev_ioctl.
  repeat (casei; [destruct (Z.eqb_spec arg 0); cbn [fst]; [constructor|]; repeat (constructor; [cbn; lia|]); constructor|]).
  constructor.
Qed.

(** Without a descriptor table a read stores nothing. *)
Lemma read_without_table f junk fd buf len t b n : Vfs.vfs_read f junk None fd buf len = Done (t, b, n) -> b = [].
Proof. unfold Vfs.vfs_read. casei; [by intros [= _ <- _]|]. casei; by intros [= _ <- _]. Qed.

Ltac called H := match type of H with mbind _ ?o = _ => destruct o as [?r| |] eqn:?E; cbn [mbind outcome_bind] in H; [|discriminate H..] end.
Ltac refill len := let El := fresh "El" in destruct len as (? & -> & El);
  eapply put_ubuf_tame; [eassumption | rewrite El, ubuf_length; unfold in_user in *; lia].

(** The file system and CortexCrypto, called from the handlers, write only user memory. *)
#[export] Instance kernel_callees : Callees kernel_callee.
Proof.
  intros c args k k' v Hc H. unfold kernel_callee in H.
  destruct c; repeat match type of H with match ?x with _ => _ end = _ => destruct x eqn:?; try discriminate H end;
    cbn [checked floor_of] in *; repeat (called H); repeat match goal with p : (_ * _)%type |- _ => destruct p; cbn [mbind outcome_bind] in * end;
    repeat (called H); repeat match goal with p : (_ * _)%type |- _ => destruct p end;
    try (injection H as <- _; first [apply tame_same; reflexivity | idtac]).
  - rewrite (read_without_table _ _ _ _ _ _ _ _ E). apply tame_same; reflexivity.
  - eapply user_stores_tame; [|apply tame_refl | exact E].
    match goal with Hi : Vfs.neri_dev_ioctl ?f ?c ?a = (?l, _) |- _ => pose proof (ioctl_stores f c a ltac:(lia)) as Hs; rewrite Hi in Hs; exact Hs end.
  - refill (attest_length _ _ _ _ _ _ _ _ _ _ _ E).
  - match goal with o : option (list Z) |- _ => destruct o as [b|] end; [|apply tame_same; reflexivity].
    eapply put_ubuf_tame; [eassumption|]. by eapply recv_length.
  - refill (checkpoint_length _ _ _ _ _ _ _ _ _ _ _ E0).
  - refill (seal_length _ _ _ _ _ _ _ _ _ _ _ E).
Qed.


(** ** Calls of the running task *)

Section running.
Context (w : Sched.hw) (cpu tsc_khz : Z).

(** [t], at [ta], runs on this CPU, which is in no system call. *)
Record running (k : kst) (ta : Z) (t : Sched.task) : Prop := {
  ru_cpu : 0 <= cpu < 256;
  ru_current : Sched.current (sy k) cpu = Some ta;
  ru_task : Sched.heap (sy k) !! ta = Some t;
  ru_flags : length (g_syscall_in_progress k) = 256%nat;
  ru_flag : flag cpu k = 0
}.
(** It has not pledged, or its mask has the call. *)
Definition permits (t : Sched.task) (n : Z) : Prop := Z.testbit (Sched.sig_pending t) 63 = true -> Z.testbit (Sched.sig_blocked t) n = true.

Lemma running_same k k' ta t : sy k' = sy k -> g_syscall_in_progress k' = g_syscall_in_progress k -> running k ta t -> running k' ta t.
Proof. intros E1 E2 [H1 H2 H3 H4 H5]. unfold flag in *. split; unfold flag; rewrite ?E1, ?E2; done. Qed.

Context (k : kst) (ta : Z) (t : Sched.task) (R : running k ta t).

(** A permitted call is its handler's, on the scrubbed arguments. *)
Lemma permitted_call n a1 a2 a3 a4 a5 : 0 <= n < 64 -> permits t n ->
  syscall w cpu tsc_khz k n a1 a2 a3 a4 a5 =
  run_handler kernel_callee w cpu tsc_khz (set_flag cpu k 1) n (scrub_arg a1) (scrub_arg a2) (scrub_arg a3) (scrub_arg a4) (scrub_arg a5).
Proof.
  intros Hn Hp. unfold syscall. rewrite (dispatch_task _ _ _ _ k ta t (ru_current _ _ _ R) (ru_task _ _ _ R) (ru_flag _ _ _ R)) by lia.
  by rewrite (pledge_passes t n Hn Hp).
Qed.

(** Once the handler returns the flags are what they were. *)
Lemma settle k1 : g_syscall_in_progress k1 = <[cpu_index cpu := 1]> (g_syscall_in_progress k) ->
  set_flag cpu k1 0 = with_flags k1 (g_syscall_in_progress k).
Proof.
  intros E. unfold set_flag. rewrite E. f_equal. apply (flag_restored cpu (ru_cpu _ _ _ R) k); [apply R | apply R | done].
Qed.
(** A handler that returns. *)
Lemma returned n k1 v a1 a2 a3 a4 a5 : g_syscall_in_progress k1 = <[cpu_index cpu := 1]> (g_syscall_in_progress k) ->
  syscall_table kernel_callee w cpu tsc_khz n (set_flag cpu k 1) a1 a2 a3 a4 a5 = Some (Done (k1, Ret v)) ->
  run_handler kernel_callee w cpu tsc_khz (set_flag cpu k 1) n a1 a2 a3 a4 a5 = Done (with_flags k1 (g_syscall_in_progress k), Ret v).
Proof. intros Hf E. unfold run_handler. rewrite E. cbn [mbind outcome_bind]. by rewrite settle. Qed.
Lemma with_flags_id k1 : g_syscall_in_progress k1 = g_syscall_in_progress k -> with_flags k1 (g_syscall_in_progress k) = k1.
Proof. intros <-. by destruct k1. Qed.

Lemma with_vm_id (s : Sched.sys) : Sched.with_vm s (Sched.vm s) = s.
Proof. by destruct s. Qed.
Lemma curr_task_running k1 : sy k1 = sy k -> curr_task cpu k1 = Done (Some (ta, t)).
Proof. apply (curr_task_eq cpu k ta t); apply R. Qed.

Lemma scrub_user a : 0 <= a < USER_ADDR_MAX -> scrub_arg a = a.
Proof. intros. apply scrub_arg_range; lia. Qed.
Lemma user_valid buf len : in_user buf len -> buf < USER_ADDR_MAX -> uptr_valid buf len = true.
Proof. intros (H1 & H2 & H3) H4. apply uptr_valid_iff; unfold USER_ADDR_MAX in *; lia. Qed.

(** Writing to standard output sends the bytes to the serial line and changes nothing else. *)
Lemma write_call fd buf len a4 a5 : permits t 1 -> fd = 1 \/ fd = 2 -> in_user buf len -> buf < USER_ADDR_MAX -> len <= 0x40000000 ->
  syscall w cpu tsc_khz k 1 fd buf len a4 a5 = Done (with_fs k (Vfs.serial_all (fs_of k) (ubuf k buf len)), Ret len).
Proof.
  intros Hp Hfd Hb Hlt Hle. pose proof Hb as (H1 & H2 & H3). rewrite permitted_call by (lia || done).
  rewrite (scrub_user buf), (scrub_user len) by (unfold USER_ADDR_MAX in *; lia).
  assert (int (scrub_arg fd) = fd) as Ef by (destruct Hfd as [-> | ->]; reflexivity).
  rewrite (returned 1 (put_fs (set_flag cpu k 1) (Vfs.serial_all (fs_of k) (ubuf k buf len))) len); [| done |].
  - unfold put_fs. cbn. by rewrite with_vm_id.
  - cbn [syscall_table]. unfold sys_write. rewrite (user_valid _ _ Hb Hlt). cbn [negb]. unfold call. rewrite Ef.
    cbn [kernel_callee Vfs.vfs_write]. change (ubuf (set_flag cpu k 1) buf len) with (ubuf k buf len). rewrite ubuf_length, Z2Nat.id by lia.
    rewrite (proj2 (Z.ltb_ge _ _) Hle).
    assert (negb (fd =? 1) && negb (fd =? 2) = false) as -> by (destruct Hfd as [-> | ->]; reflexivity).
    cbn [mbind outcome_bind]. by rewrite u64_small by lia.
Qed.

(** The counters of the pool, and the anomaly, as the calls that report them store them. *)
Definition status_bytes (p : Neri.neri_pool) : list Z :=
  concat (map (le 8) [u64 (Neri.epoch p); Neri.cpu_total_ns p; Neri.cpu_alloc_ns p; Neri.ram_total_pages p; Neri.ram_alloc_pages p;
                      Neri.gpu_total_slots p; Neri.gpu_alloc_slots p]).
Definition anomaly_of (s : Sched.sys) : Neri.anomaly :=
  if Sched.neri_ready s then Neri.neri_sec_get_anomaly (Neri.n_sec (Sched.nr s)) else Neri.mk_anomaly 0 0 false 0.
Definition anomaly_mem (m : gmap Z Z) (out : Z) (a : Neri.anomaly) : gmap Z Z :=
  uwrite (uwrite (uwrite (uwrite m out (le 1 (Neri.score_byte a))) (out + 4) (le 4 (u32 (Neri.level a))))
    (out + 8) (le 1 (if Neri.block_admits a then 1 else 0))) (out + 16) (le 8 (Neri.score_epoch a)).

Lemma status_call out a2 a3 a4 a5 : permits t 49 -> in_user out 56 ->
  syscall w cpu tsc_khz k 49 out a2 a3 a4 a5 =
  Done (if Sched.neri_ready (sy k) then with_umem k (uwrite (umem k) out (status_bytes (pool_of k))) else k, Ret 0).
Proof.
  intros Hp Hb. pose proof Hb as (H1 & H2 & H3). rewrite permitted_call by (lia || done).
  rewrite (scrub_user out), (returned 49 (if Sched.neri_ready (sy k) then with_umem (set_flag cpu k 1) (uwrite (umem k) out (status_bytes (pool_of k)))
    else set_flag cpu k 1) 0) by first [lia | by destruct (Sched.neri_ready (sy k)) |
    cbn [syscall_table]; unfold sys_nk_neri_status; rewrite (user_valid _ _ Hb ltac:(lia)); cbn [negb];
    change (sy (set_flag cpu k 1)) with (sy k); destruct (Sched.neri_ready (sy k)); reflexivity].
  destruct (Sched.neri_ready (sy k)); [done | by destruct k].
Qed.

Lemma anomaly_call out a2 a3 a4 a5 : permits t 52 -> in_user out 24 ->
  syscall w cpu tsc_khz k 52 out a2 a3 a4 a5 = Done (with_umem k (anomaly_mem (umem k) out (anomaly_of (sy k))), Ret 0).
Proof.
  intros Hp Hb. pose proof Hb as (H1 & H2 & H3). rewrite permitted_call by (lia || done).
  rewrite (scrub_user out), (returned 52 (with_umem (set_flag cpu k 1) (anomaly_mem (umem k) out (anomaly_of (sy k)))) 0); [done | done | | lia].
  cbn [syscall_table]; unfold sys_nk_anomaly_score. by rewrite (user_valid _ _ Hb ltac:(lia)).
Qed.

Lemma getpid_call a1 a2 a3 a4 a5 : permits t 20 -> syscall w cpu tsc_khz k 20 a1 a2 a3 a4 a5 = Done (k, Ret (u64 (Sched.pid t))).
Proof.
  intros Hp. rewrite permitted_call by (lia || done). rewrite (returned 20 (set_flag cpu k 1) (u64 (Sched.pid t))); [by destruct k | done |].
  cbn [syscall_table]. unfold sys_getpid. by rewrite curr_task_running.
Qed.

Lemma set_name_call ptr a2 a3 a4 a5 : permits t 62 -> in_user ptr 32 ->
  syscall w cpu tsc_khz k 62 ptr a2 a3 a4 a5 =
  Done (with_sy k (Sched.put (sy k) ta (set_name t (Sched.strlcpy (cstr (ubuf k ptr 31)) 32))), Ret 0).
Proof.
  intros Hp Hb. pose proof Hb as (H1 & H2 & H3). rewrite permitted_call by (lia || done).
  rewrite (scrub_user ptr), (returned 62 (set_task (set_flag cpu k 1) ta (set_name t (Sched.strlcpy (cstr (ubuf k ptr 31)) 32))) 0); [done | done | | lia].
  cbn [syscall_table]. unfold sys_nk_set_name. rewrite curr_task_running by done. cbn [mbind outcome_bind].
  rewrite (user_valid _ _ Hb) by lia. unfold copy_from_user. rewrite (user_valid ptr 31) by (unfold in_user in *; lia). done.
Qed.

Lemma pledge_call mask a2 a3 a4 a5 : permits t 53 ->
  syscall w cpu tsc_khz k 53 mask a2 a3 a4 a5 =
  Done (with_sy k (Sched.put (sy k) ta (set_sig t (Z.lor (Sched.sig_pending t) (shl64 1 63)) (scrub_arg mask))), Ret 0).
Proof.
  intros Hp. rewrite permitted_call by (lia || done).
  rewrite (returned 53 (set_task (set_flag cpu k 1) ta (set_sig t (Z.lor (Sched.sig_pending t) (shl64 1 63)) (scrub_arg mask))) 0); [done | done |].
  cbn [syscall_table]. unfold sys_nk_pledge. by rewrite curr_task_running.
Qed.

(** A call that is not permitted ends the task, and changes nothing before that. *)
Lemma refused_call n a1 a2 a3 a4 a5 : 0 <= n < 64 -> Z.testbit (Sched.sig_pending t) 63 = true -> Z.testbit (Sched.sig_blocked t) n = false ->
  syscall w cpu tsc_khz k n a1 a2 a3 a4 a5 =
  (r ← Sched.task_exit (sy k) w cpu (Some ta) (- EPERM); after k r (u64 (- EPERM))).
Proof.
  intros Hn Hp Hb. unfold syscall. rewrite (dispatch_task _ _ _ _ k ta t (ru_current _ _ _ R) (ru_task _ _ _ R) (ru_flag _ _ _ R)) by lia.
  rewrite pledged_bit, Hp, allowed_bit, Hb by done. cbn [andb negb].
  rewrite (settle (set_flag cpu k 1)) by done. change (with_flags (set_flag cpu k 1) (g_syscall_in_progress k)) with (with_flags k (g_syscall_in_progress k)).
  by rewrite with_flags_id.
Qed.

(** Attesting gives 0 or an error, never the length of the token. *)
Theorem attest_gives_no_length out size a3 a4 a5 k' v : permits t 42 ->
  syscall w cpu tsc_khz k 42 out size a3 a4 a5 = Done (k', Ret v) -> v = 0 \/ s64 v < 0.
Proof.
  intros Hp. rewrite permitted_call by (lia || done). unfold run_handler. cbn [syscall_table]. unfold sys_nk_attest_self.
  casei; [intros [= _ <-]; by right|]. rewrite curr_task_running by done. cbn [mbind outcome_bind]. unfold call. cbn [kernel_callee].
  destruct (CcProc.cc_kernel_attest_process _ _ _ _ _ _ _) as [[[[c tok] sz] n]| |] eqn:Ea; cbn [mbind outcome_bind]; [|done..].
  assert (n = 0 \/ n = - EINVAL \/ n = - ESRCH) as Hn.
  { unfold CcProc.cc_kernel_attest_process in Ea. repeat casei_in Ea; try (injection Ea as _ _ _ <-; auto).
    destruct (Boot.Boot.task_find_by_pid _ _) as [[ta'|]| |]; cbn [mbind outcome_bind] in Ea; [|injection Ea as _ _ _ <-; auto | done..].
    destruct (Sched.deref _ _) as [t'| |]; cbn [mbind outcome_bind] in Ea; [|done..].
    destruct (CcProc.seal_out _ _ _ _ _ _ _ _) as [[s1 o]| |]; cbn [mbind outcome_bind] in Ea; [|done..]. injection Ea as _ _ _ <-; auto. }
  intros [= _ <-]. destruct Hn as [->|[->| ->]]; [by left | by right..].
Qed.
(** Reading never succeeds and changes nothing: no task has a descriptor table. *)
Theorem read_never_succeeds fd buf len a4 a5 : permits t 0 ->
  exists x, syscall w cpu tsc_khz k 0 fd buf len a4 a5 = Done (k, err x) /\ (x = EFAULT \/ x = EINVAL \/ x = EBADF).
Proof.
  intros Hp. rewrite permitted_call by (lia || done).
  assert (exists x, syscall_table kernel_callee w cpu tsc_khz 0 (set_flag cpu k 1) (scrub_arg fd) (scrub_arg buf) (scrub_arg len) (scrub_arg a4) (scrub_arg a5)
    = Some (Done (set_flag cpu k 1, err x)) /\ (x = EFAULT \/ x = EINVAL \/ x = EBADF)) as (x & E & Hx).
  { cbn [syscall_table]. unfold sys_read, fail. casei; [by exists EFAULT; auto|]. unfold call. cbn [kernel_callee]. unfold Vfs.vfs_read.
    assert (with_umem (set_flag cpu k 1) (umem (set_flag cpu k 1)) = set_flag cpu k 1) as Eu by (by destruct k).
    repeat casei; cbn [mbind outcome_bind uwrite]; rewrite Eu; eexists; (split; [reflexivity|]); auto. }
  exists x. split; [|done]. unfold err in *. rewrite (returned 0 (set_flag cpu k 1) (u64 (- x))); [by destruct k | done | done].
Qed.

End running.

End kernel.


End Kernel.
