(* ===== verification/KernelTypes.v ===== *)
(** * The kernel state stays well typed

    What the C types say of the state the system calls work on: memory holds bytes, the
    static arrays keep their sizes, keys are 32 bytes, the counters fit their widths.  Every
    system call preserves it, with the file system and CortexCrypto behind it. *)

From S2P Require Import Prelude Bytes Vmm Sha256 Sha256Proof AesGcm AesProof AesEquiv GhashEquiv ListHead Neri Sched SchedProof Vfs CcProc Syscall SyscallProof Kernel.
Import Bytes Vmm Syscall SyscallProof Kernel.

Module KernelTypes.

Definition key32 (k : list Z) : Prop := length k = 32%nat /\ bytes_ok k.
Definition word32 (x : Z) : Prop := 0 <= x < 2 ^ 32.

Record cc_typed (c : CcProc.cc) : Prop := {
  ct_machine : key32 (CcProc.g_machine_key c);
  ct_attest : key32 (CcProc.g_attest_key c);
  ct_ipc : key32 (CcProc.g_ipc_key c);
  ct_secmem : key32 (CcProc.g_secure_alloc_key c);
  ct_ctrs : forall x, word32 (CcProc.count_of c x);
  ct_regions : length (CcProc.g_sec_regions c) = 64%nat;
  ct_deks : Forall (fun r => key32 (CcProc.dek r)) (CcProc.g_sec_regions c);
  ct_channels : length (CcProc.g_ipc_channels c) = 128%nat;
  ct_sessions : Forall (fun ch => key32 (CcProc.session_key ch)) (CcProc.g_ipc_channels c)
}.
Record typed (k : kst) : Prop := {
  ty_umem : map_Forall (fun _ b => byte_ok b) (umem k);
  ty_flags : length (g_syscall_in_progress k) = 256%nat /\ Forall (fun f => f = 0 \/ f = 1) (g_syscall_in_progress k);
  ty_budgets : length (g_budgets k) = 256%nat;
  ty_next : 0 <= next_budget_id k < 2 ^ 64;
  ty_cc : cc_typed (kcc k)
}.

(** Equal results, without computing them. *)
Lemma done_inj {A} (x y : A) : Done x = Done y -> x = y.
Proof. congruence. Qed.
Lemma done_pair {A B} (x x' : A) (y y' : B) : Done (x, y) = Done (x', y') -> x = x' /\ y = y'.
Proof. by intros [E1 E2]%done_inj%pair_equal_spec. Qed.

(** ** Bytes *)

Lemma u8_ok x : byte_ok (u8 x).
Proof. unfold byte_ok, u8. apply Z.mod_pos_bound. lia. Qed.
Lemma le_ok n x : bytes_ok (le n x).
Proof. unfold le. apply Forall_forall. intros b (i & -> & _)%list_elem_of_fmap. apply u8_ok. Qed.
Lemma concat_ok l : Forall bytes_ok l -> bytes_ok (concat l).
Proof. induction 1; cbn [concat]; [constructor | by apply Forall_app]. Qed.
Lemma uwrite_ok l : forall m a, bytes_ok l -> map_Forall (fun _ b => byte_ok b) m -> map_Forall (fun _ b => byte_ok b) (uwrite m a l).
Proof.
  induction l as [|b l IH]; intros m a Hl Hm; cbn [uwrite]; [done|]. apply Forall_cons in Hl as [Hb Hl]. apply IH; [done|]. by apply map_Forall_insert_2.
Qed.
Lemma uread_ok k a n : map_Forall (fun _ b => byte_ok b) (umem k) -> bytes_ok (uread k a n).
Proof.
  intros Hm. unfold uread. apply Forall_forall. intros b (i & -> & _)%list_elem_of_fmap. unfold ubyte.
  destruct (umem k !! _) as [x|] eqn:E; cbn; [apply (Hm _ _ E) | split; [done | reflexivity]].
Qed.
Lemma splice_ok buf off src : bytes_ok buf -> bytes_ok src -> bytes_ok (splice buf off src).
Proof. intros. unfold splice. apply Forall_app. split; [by apply Forall_take|]. apply Forall_app. split; [done | by apply Forall_drop]. Qed.
Lemma store_bytes_ok buf off src r : store_bytes buf off src = Done r -> bytes_ok buf -> bytes_ok src -> bytes_ok r.
Proof. unfold store_bytes. casei; [|done]. intros [= <-]. apply splice_ok. Qed.

(** ** Cryptography *)

Lemma digest_key st : key32 (Sha256.digest_of st).
Proof.
  split; [apply Sha256Proof.length_digest|]. unfold Sha256.digest_of. apply concat_ok, Forall_forall.
  intros b (i & -> & _)%list_elem_of_fmap. apply put_be32_ok.
Qed.
Lemma hmac_key u k m : key32 (CcProc.hmac_sha256_impl u k m).
Proof. unfold CcProc.hmac_sha256_impl, Sha256.sha256_final. cbn [fst snd]. apply digest_key. Qed.
Lemma block_ok key inp : bytes_ok inp -> bytes_ok (AesGcm.aes256_encrypt_block key inp).
Proof. intros. rewrite AesEquiv.encrypt_block_rk. by apply AesEquiv.block_same. Qed.
Lemma ctr_ok key iv ctr input : bytes_ok iv -> bytes_ok input -> bytes_ok (AesGcm.aes256_ctr_crypt key iv ctr input).
Proof.
  intros Hiv. unfold AesGcm.aes256_ctr_crypt. generalize (length input). intros fuel.
  revert ctr input. induction fuel as [|f IH]; intros ctr input Hi; [by apply Forall_nil|].
  cbn [AesGcm.ctr_loop]. destruct input as [|x l]; [by apply Forall_nil|].
  apply Forall_app. split; [|apply IH; by apply Forall_drop].
  apply GhashEquiv.xor_bytes_ok; apply Forall_take; [done|]. by apply block_ok, AesEquiv.counter_ok.
Qed.
Lemma gcm_encrypt_ok key iv aad pt : bytes_ok iv -> bytes_ok pt ->
  bytes_ok (AesGcm.aes256_gcm_encrypt key iv aad pt).1 /\ bytes_ok (AesGcm.aes256_gcm_encrypt key iv aad pt).2.
Proof.
  intros Hi Hp. unfold AesGcm.aes256_gcm_encrypt. cbn [fst snd]. split; [by apply ctr_ok|].
  unfold AesGcm.gcm_tag. apply GhashEquiv.xor_bytes_ok.
  - unfold AesGcm.ghash. apply Forall_app. split; apply GhashEquiv.store64_ok.
  - apply block_ok. unfold AesGcm.J0. apply Forall_app. split; [by apply Forall_take | by apply AesEquiv.bytes_ok_dec].
Qed.

(** ** CortexCrypto *)

Section updates.
Context (c : CcProc.cc) (Hc : cc_typed c).

Lemma vm_typed v : cc_typed (CcProc.with_vm c v).
Proof. destruct Hc. by split. Qed.
Lemma count_typed x n : word32 n -> cc_typed (CcProc.set_count c x n).
Proof.
  intros Hn. destruct Hc. destruct x; split; try done; intros y; pose proof (ct_ctrs0 CcProc.Attest); pose proof (ct_ctrs0 CcProc.Secmem);
    pose proof (ct_ctrs0 CcProc.IpcCtr); by destruct y.
Qed.
Lemma regions_typed l : length l = 64%nat -> Forall (fun r => key32 (CcProc.dek r)) l -> cc_typed (CcProc.with_regions c l).
Proof. intros. destruct Hc. by split. Qed.
Lemma channels_typed l fd gen : length l = 128%nat -> Forall (fun ch => key32 (CcProc.session_key ch)) l -> cc_typed (CcProc.with_channels c l fd gen).
Proof. intros. destruct Hc. by split. Qed.
Lemma channel_typed i ch : key32 (CcProc.session_key ch) -> cc_typed (CcProc.set_channel c i ch).
Proof. intros. unfold CcProc.set_channel. apply channels_typed; [rewrite length_insert; apply Hc | apply Forall_insert; [apply Hc | done]]. Qed.

End updates.

Section cortexcrypto.
Context (c : CcProc.cc) (Hc : cc_typed c).

Lemma nonce_typed tsc x c' nonce : CcProc.gen_nonce tsc c x = Done (c', nonce) -> cc_typed c' /\ bytes_ok nonce.
Proof.
  unfold CcProc.gen_nonce. casei; [done|]. intros [= <- <-]. split.
  - apply count_typed; [done|]. unfold word32, u32. apply Z.mod_pos_bound. lia.
  - repeat (apply Forall_cons; split; [apply u8_ok|]). constructor.
Qed.
Lemma seal_typed tsc x key text aad out off c' o : CcProc.seal_out tsc c x key text aad out off = Done (c', o) -> bytes_ok out -> bytes_ok aad ->
  cc_typed c' /\ bytes_ok o.
Proof.
  intros E Ho Ha. unfold CcProc.seal_out in E. destruct (CcProc.gen_nonce tsc c x) as [[c1 nonce]| |] eqn:En; cbn [mbind outcome_bind] in E; [|done..].
  destruct (nonce_typed _ _ _ _ En) as [Hc1 Hn]. destruct (store_bytes out 0 nonce) as [o1| |] eqn:E1; cbn [mbind outcome_bind] in E; [|done..].
  destruct text as [tx| |]; cbn [mbind outcome_bind] in E; [|done..].
  destruct (gcm_encrypt_ok key nonce tx aad Hn Ha) as [B1 B2]. destruct (AesGcm.aes256_gcm_encrypt key nonce tx aad) as [ct tag]. cbn [fst snd] in *.
  destruct (store_bytes o1 12 ct) as [o2| |] eqn:E2; cbn [mbind outcome_bind] in E; [|done..].
  destruct (store_bytes o2 off tag) as [o3| |] eqn:E3; cbn [mbind outcome_bind] in E; [|done..]. injection E as <- <-. split; [done|].
  eapply store_bytes_ok; [exact E3 | | done]. eapply store_bytes_ok; [exact E2 | | done]. by eapply store_bytes_ok.
Qed.

(** The three sealing operations: the state, and the caller's buffer. *)
Definition buf_ok (o : option (list Z)) : Prop := match o with Some l => bytes_ok l | None => True end.
Lemma attest_typed u tsc y pid tok size c' tok' size' n : buf_ok tok ->
  CcProc.cc_kernel_attest_process u tsc c y pid tok size = Done (c', tok', size', n) -> cc_typed c' /\ buf_ok tok'.
Proof.
  intros Ht. unfold CcProc.cc_kernel_attest_process. destruct tok as [l|]; [|by intros [= <- <- _ _]]. destruct size as [sz|]; [|by intros [= <- <- _ _]].
  casei; [by intros [= <- <- _ _]|]. casei; [by intros [= <- <- _ _]|].
  destruct (Boot.Boot.task_find_by_pid y pid) as [[ta|]| |]; cbn [mbind outcome_bind]; [|by intros [= <- <- _ _]|done..].
  destruct (Sched.deref y ta) as [t| |]; cbn [mbind outcome_bind]; [|done..].
  destruct (CcProc.seal_out _ _ _ _ _ _ _ _) as [[s1 o]| |] eqn:Es; cbn [mbind outcome_bind]; [|done..]. intros [= <- <- _ _].
  eapply seal_typed; [exact Es | done | apply le_bytes_ok].
Qed.
Lemma checkpoint_typed tsc t rbx rbp out size c' out' size' n : buf_ok out ->
  CcProc.cc_kernel_checkpoint tsc c t rbx rbp out size = Done (c', out', size', n) -> cc_typed c' /\ buf_ok out'.
Proof.
  intros Ho. unfold CcProc.cc_kernel_checkpoint. destruct t as [t|]; [|by intros [= <- <- _ _]]. destruct out as [l|]; [|by intros [= <- <- _ _]].
  casei; [by intros [= <- <- _ _]|]. casei; [by intros [= <- <- _ _]|].
  destruct (CcProc.seal_out _ _ _ _ _ _ _ _) as [[s1 o]| |] eqn:Es; cbn [mbind outcome_bind]; [|done..]. intros [= <- <- _ _].
  eapply seal_typed; [exact Es | done | apply le_bytes_ok].
Qed.
Lemma snapshot_typed tsc data va pages out size c' out' size' n : buf_ok out ->
  CcProc.cc_kernel_seal_memory tsc c data va pages out size = Done (c', out', size', n) -> cc_typed c' /\ buf_ok out'.
Proof.
  intros Ho. unfold CcProc.cc_kernel_seal_memory. destruct out as [l|]; [|by intros [= <- <- _ _]].
  casei; [by intros [= <- <- _ _]|]. casei; [by intros [= <- <- _ _]|].
  destruct (CcProc.seal_out _ _ _ _ _ _ _ _) as [[s1 o]| |] eqn:Es; cbn [mbind outcome_bind]; [|done..]. intros [= <- <- _ _].
  eapply seal_typed; [exact Es | done | apply le_bytes_ok].
Qed.

Lemma alloc_typed u pages policy c' p : CcProc.cc_kernel_secure_alloc u c pages policy = Done (c', p) -> cc_typed c'.
Proof.
  unfold CcProc.cc_kernel_secure_alloc. casei; [by intros [<- _]%done_pair|]. destruct (vmm_alloc _ _ _) as [v mem]. casei; [intros [<- _]%done_pair; by apply vm_typed|].
  destruct (memset0 v mem _) as [v1| |]; cbn [mbind outcome_bind]; [|done..].
  destruct (CcProc.first_free _ _ _) as [i|]; intros [<- _]%done_pair; [|by apply vm_typed].
  apply regions_typed; [by apply vm_typed | rewrite length_insert; apply Hc | apply Forall_insert; [apply Hc | apply hmac_key]].
Qed.
Lemma zero_key : key32 (replicate 32 0).
Proof. split; [done | by apply AesEquiv.bytes_ok_dec]. Qed.
Lemma free_typed ptr pages c' : CcProc.cc_kernel_secure_free c ptr pages = Done c' -> cc_typed c'.
Proof.
  unfold CcProc.cc_kernel_secure_free. casei; [by intros <-%done_inj|]. destruct (CcProc.find_region _ _ _) as [[i r]|].
  - destruct (memset0 _ _ _) as [v1| |]; cbn [mbind outcome_bind]; [|done..]. intros <-%done_inj.
    apply vm_typed, regions_typed; [by apply vm_typed | rewrite length_insert; apply Hc | apply Forall_insert; [apply Hc | apply zero_key]].
  - intros <-%done_inj. by apply vm_typed.
Qed.
Lemma chan_key i : key32 (CcProc.session_key (CcProc.chan c i)).
Proof.
  unfold CcProc.chan. rewrite nth_lookup. destruct (_ !! i) as [ch|] eqn:E; [|apply zero_key].
  pose proof (ct_sessions _ Hc) as Hs. rewrite Forall_lookup in Hs. apply (Hs _ _ E).
Qed.
Lemma create_typed u tsc junk self peer flags c' fd : CcProc.cc_ipc_channel_create u tsc junk c self peer flags = (c', fd) -> cc_typed c'.
Proof.
  unfold CcProc.cc_ipc_channel_create. casei; [by intros [<- _]%pair_equal_spec|]. destruct (CcProc.first_free _ _ _) as [i|]; [|by intros [<- _]%pair_equal_spec].
  destruct (vmm_alloc (CcProc.vm c) _ _) as [v1 a]. destruct (vmm_alloc v1 _ _) as [v2 b].
  casei; [|casei]; intros [<- _]%pair_equal_spec.
  - apply channel_typed; [by apply vm_typed | apply (chan_key i)].
  - apply channels_typed; [by apply vm_typed | rewrite length_insert; apply Hc | apply Forall_insert; [apply Hc | apply hmac_key]].
  - apply channels_typed; [by apply vm_typed | rewrite length_insert; apply Hc | apply Forall_insert; [apply Hc | apply hmac_key]].
Qed.
Lemma found_key l fd i : forall j ch, Forall (fun ch => key32 (CcProc.session_key ch)) l -> CcProc.find_channel l fd i = Some (j, ch) -> key32 (CcProc.session_key ch).
Proof.
  revert i. induction l as [|x l IH]; intros i j ch Hl; cbn [CcProc.find_channel]; [done|]. apply Forall_cons in Hl as [Hx Hl].
  casei; [by intros [= _ <-] | by apply IH].
Qed.

(** [set_tail] keeps the session key. *)
Lemma send_typed tsc fd buf c' n : CcProc.cc_ipc_send tsc c fd buf = Done (c', n) -> cc_typed c'.
Proof.
  unfold CcProc.cc_ipc_send. destruct buf as [[|x data]|]; try (by intros [<- _]%done_pair).
  casei; [by intros [<- _]%done_pair|]. casei; [by intros [<- _]%done_pair|].
  destruct (CcProc.find_channel _ _ _) as [[i ch]|] eqn:Ef; [|by intros [<- _]%done_pair].
  destruct (CcProc.gen_nonce _ _ _) as [[c1 nonce]| |] eqn:En; cbn [mbind outcome_bind]; [|done..].
  destruct (nonce_typed _ _ _ _ En) as [Hc1 _]. casei; [by intros [<- _]%done_pair|].
  repeat match goal with |- mbind _ (CcProc.vstore ?v ?a ?l) = _ -> _ => destruct (CcProc.vstore v a l) as [?| |]; cbn [mbind outcome_bind]; [|done..]
  | |- (let (_, _) := ?e in _) = _ -> _ => destruct e end.
  intros [<- _]%done_pair. apply channel_typed; [by apply vm_typed|]. by apply (found_key _ _ _ _ _ (ct_sessions _ Hc) Ef).
Qed.
Lemma vload_ok n : forall v a v' l, CcProc.vload v a n = Done (v', l) -> bytes_ok l.
Proof.
  induction n as [|n IH]; intros v a v' l; cbn [CcProc.vload]; [by intros [_ <-]%done_pair|].
  destruct (load v _) as [[v1 w]| |]; cbn [mbind outcome_bind]; [|done..]. destruct (CcProc.vload v1 _ n) as [[v2 l2]| |] eqn:E; cbn [mbind outcome_bind]; [|done..].
  intros [_ <-]%done_pair. constructor; [apply u8_ok | by eapply IH].
Qed.

Lemma decrypt_call_ok key nonce aad text len low room pt : bytes_ok nonce -> bytes_ok text ->
  CcProc.gcm_decrypt_call key nonce aad text len low room = Done (inr pt) -> bytes_ok pt.
Proof.
  intros Hn Ht. unfold CcProc.gcm_decrypt_call, load_bytes. casei; cbn [mbind outcome_bind]; [|done].
  unfold AesGcm.aes256_gcm_decrypt. casei; [by intros ?%done_inj|]. casei; [done|]. intros Epair%done_inj.
  assert (pt = AesGcm.aes256_ctr_crypt key nonce 2 (slice text (Z.to_nat 0) (Z.to_nat len))) as -> by congruence.
  apply ctr_ok; [done|]. unfold slice. by apply Forall_take, Forall_drop.
Qed.
Lemma set_tail_key ch b h t : CcProc.session_key (CcProc.set_tail ch b h t) = CcProc.session_key ch.
Proof. done. Qed.
Lemma done_triple {A B C} (x x' : A) (y y' : B) (z z' : C) : Done (x, y, z) = Done (x', y', z') -> x = x' /\ y = y'.
Proof. by intros [[E1 E2]%pair_equal_spec E3]%done_inj%pair_equal_spec. Qed.
Lemma recv_typed low fd buf len c' b n : CcProc.cc_ipc_recv c low fd buf len = Done (c', b, n) -> cc_typed c' /\ buf_ok b.
Proof.
  unfold CcProc.cc_ipc_recv. casei; [by intros [<- <-]%done_triple|].
  destruct (CcProc.find_channel _ _ _) as [[i ch]|] eqn:Ef; [|by intros [<- <-]%done_triple].
  casei; [by intros [<- <-]%done_triple|].
  destruct (CcProc.vload _ _ 4) as [[v1 l1]| |]; cbn [mbind outcome_bind]; [|done..].
  casei; [intros [<- <-]%done_triple; split; [by apply vm_typed | done]|]. casei; [intros [<- <-]%done_triple; split; [by apply vm_typed | done]|].
  casei; [intros [<- <-]%done_triple; split; [by apply vm_typed | done]|].
  destruct (CcProc.vload v1 _ 12) as [[v2 nonce]| |] eqn:En; cbn [mbind outcome_bind]; [|done..]. apply vload_ok in En.
  destruct (CcProc.vload v2 _ _) as [[v3 ct]| |]; cbn [mbind outcome_bind]; [|done..].
  destruct (CcProc.vload v3 _ _) as [[v4 text]| |] eqn:Et; cbn [mbind outcome_bind]; [|done..]. apply vload_ok in Et.
  destruct (CcProc.gcm_decrypt_call _ _ _ _ _ _ _) as [r| |] eqn:Er; cbn [mbind outcome_bind]; [|done..].
  assert (forall x, cc_typed (CcProc.set_channel (CcProc.with_vm (CcProc.with_vm c v1) v4) i (if x : bool then CcProc.set_tail ch (CcProc.fd_b ch =? fd) 0 0 else
    CcProc.set_tail ch (CcProc.fd_b ch =? fd) (u32 (CcProc.head_of ch (CcProc.fd_b ch =? fd) + (12 + 4 + le_load l1 + 16))) (CcProc.tail_of ch (CcProc.fd_b ch =? fd))))) as Hch.
  { intros x. apply channel_typed; [by apply vm_typed, vm_typed|]. destruct x; rewrite set_tail_key; by apply (found_key _ _ _ _ _ (ct_sessions _ Hc) Ef). }
  destruct r as [e|pt]; intros [<- <-]%done_triple; (split; [apply Hch|]); [exact I|]. exact (decrypt_call_ok _ _ _ _ _ _ _ _ En Et Er).
Qed.

End cortexcrypto.

(** ** System calls *)

Lemma umem_typed k m : typed k -> map_Forall (fun _ b => byte_ok b) m -> typed (with_umem k m).
Proof. intros [] Hm. by split. Qed.
Lemma sy_typed k s : typed k -> typed (with_sy k s).
Proof. intros []. by split. Qed.
Lemma put_cc_typed k c : typed k -> cc_typed c -> typed (put_cc k c).
Proof. intros [] Hc. by split. Qed.
Lemma cc_of_typed k : typed k -> cc_typed (cc_of k).
Proof. intros H. apply vm_typed, H. Qed.
Lemma put_ubuf_typed k a l : typed k -> buf_ok l -> typed (put_ubuf k a l).
Proof. intros H Hl. destruct l as [l|]; [|done]. apply umem_typed; [done|]. apply uwrite_ok; [done | apply H]. Qed.
Lemma stores_typed l : forall k k', typed k -> Forall (fun s => bytes_ok s.2) l -> user_stores k l = Done k' -> typed k'.
Proof.
  induction l as [|[a b] l IH]; intros k k' Hk Hl; cbn [user_stores]; [by intros <-%done_inj|]. apply Forall_cons in Hl as [Hb Hl].
  unfold user_store. casei; cbn [mbind outcome_bind]; [done|]. apply IH; [|done]. apply umem_typed; [done|]. apply uwrite_ok; [done | apply Hk].
Qed.
Lemma ioctl_bytes f cmd arg : Forall (fun s => bytes_ok s.2) (Vfs.neri_dev_ioctl f cmd arg).1.
Proof.
  unfold Vfs.neri_dev_ioctl. cbn zeta.
  repeat match goal with |- Forall _ (if ?c then _ else _).1 => destruct c end; cbn [fst];
    repeat first [apply u8_ok | apply Forall_nil_2 | apply Forall_cons_2; cbn [snd le_bytes concat map app]].
Qed.

Section dispatch.
Context (e : ambient).

Ltac called H := match type of H with mbind _ ?o = _ => destruct o as [?r| |] eqn:?E; cbn [mbind outcome_bind] in H; [|discriminate H..] end.
Lemma callee_typed c args k k' v : typed k -> kernel_callee e c args k = Done (k', v) -> typed k'.
Proof.
  intros Hk H. pose proof (cc_of_typed k Hk) as Hc. assert (forall a n, buf_ok (Some (ubuf k a n))) as Hb by (intros; apply uread_ok, Hk).
  unfold kernel_callee in H. destruct c; repeat match type of H with match ?x with _ => _ end = _ => destruct x eqn:?; try discriminate H end;
    repeat (called H; repeat match goal with p : (_ * _)%type |- _ => destruct p; cbn [mbind outcome_bind] in * end);
    apply done_pair in H as [<- _].
  - rewrite (read_without_table _ _ _ _ _ _ _ _ E). apply umem_typed; [done | apply Hk].
  - destruct Hk. by split.
  - eapply stores_typed; [exact Hk | | exact E].
    match goal with Hi : Vfs.neri_dev_ioctl ?f ?c ?a = (?l, _) |- _ => pose proof (ioctl_bytes f c a) as Hs; rewrite Hi in Hs; exact Hs end.
  - destruct (attest_typed _ Hc _ _ _ _ _ _ _ _ _ _ (Hb _ _) E). by apply put_ubuf_typed; [apply put_cc_typed|].
  - done.
  - apply put_cc_typed; [done|]. by eapply alloc_typed.
  - apply put_cc_typed; [done|]. by eapply free_typed.
  - apply put_cc_typed; [done|]. by eapply create_typed.
  - apply put_cc_typed; [done|]. by eapply send_typed.
  - destruct (recv_typed _ Hc _ _ _ _ _ _ _ E). by apply put_ubuf_typed; [apply put_cc_typed|].
  - destruct (checkpoint_typed _ Hc _ _ _ _ _ _ _ _ _ _ (Hb _ _) E0). by apply put_ubuf_typed; [apply put_cc_typed|].
  - destruct (snapshot_typed _ Hc _ _ _ _ _ _ _ _ _ _ (Hb _ _) E). by apply put_ubuf_typed; [apply put_cc_typed|].
Qed.

Context (w : Sched.hw) (cpu tsc_khz : Z).
Definition typed_o (o : outcome (kst * sysret)) : Prop := forall k' r, o = Done (k', r) -> typed k'.

Lemma t_ret k r : typed k -> typed_o (Done (k, r)).
Proof. intros Hk k' r' [<- _]%done_pair. done. Qed.
Lemma t_fail k x : typed k -> typed_o (fail k x).
Proof. apply t_ret. Qed.
Lemma t_ok k : typed k -> typed_o (ok0 k).
Proof. apply t_ret. Qed.
Lemma t_call k c args : typed k -> typed_o (call (kernel_callee e) k c args).
Proof.
  intros Hk k' r. unfold call. destruct (kernel_callee e c args k) as [[k1 v]| |] eqn:E; cbn [mbind outcome_bind]; [|done..].
  intros [<- _]%done_pair. by eapply callee_typed.
Qed.
Lemma t_after k x v : typed k -> typed_o (after k x v).
Proof. intros Hk. destruct x as [s sw]. apply t_ret. by apply sy_typed. Qed.
Lemma t_bind {A} (o : outcome A) f : (forall x, o = Done x -> typed_o (f x)) -> typed_o (o ≫= f).
Proof. destruct o as [x| |]; cbn [mbind outcome_bind]; intros H; [by apply H | done..]. Qed.
Lemma t_if (b : bool) x y : typed_o x -> typed_o y -> typed_o (if b then x else y).
Proof. by destruct b. Qed.
Lemma write_typed k a l : typed k -> bytes_ok l -> typed (with_umem k (uwrite (umem k) a l)).
Proof. intros Hk Hl. apply umem_typed; [done|]. apply uwrite_ok; [done | apply Hk]. Qed.
Lemma log_typed k l : typed k -> typed (with_log k l).
Proof. intros []. by split. Qed.
Lemma msr_typed k l : typed k -> typed (with_msr k l).
Proof. intros []. by split. Qed.
Lemma flag_typed k v : typed k -> v = 0 \/ v = 1 -> typed (set_flag cpu k v).
Proof.
  intros [? [? ?] ? ? ?] Hv. split; try done. cbn. split; [by rewrite length_insert | by apply Forall_insert].
Qed.
Lemma budgets_typed k i b n : typed k -> typed (with_budgets k (<[i := b]> (g_budgets k)) (u64 n)).
Proof. intros []. split; try done; cbn; [by rewrite length_insert | apply Z.mod_pos_bound; lia]. Qed.

Create HintDb typed.
#[local] Hint Resolve t_ret t_fail t_ok t_call t_after write_typed log_typed msr_typed budgets_typed sy_typed : typed.
#[local] Hint Extern 1 (typed (set_task _ _ _)) => apply sy_typed : typed.
Ltac handler := repeat first
  [ progress eauto 4 with typed
  | apply t_bind; intros ? ?
  | apply t_if
  | match goal with |- typed_o (match ?x with _ => _ end) => destruct x end
  | match goal with |- typed_o (let '_ := ?x in _) => destruct x end ].

Lemma status_typed k out : typed k -> typed_o (sys_nk_neri_status k out).
Proof.
  intros Hk. unfold sys_nk_neri_status. apply t_if; [by apply t_fail|]. apply t_if; [by apply t_ok|]. apply t_ok, write_typed; [done|].
  apply concat_ok. repeat (constructor; [apply le_ok|]). constructor.
Qed.
Lemma score_typed k out : typed k -> typed_o (sys_nk_anomaly_score k out).
Proof.
  intros Hk. unfold sys_nk_anomaly_score. apply t_if; [by apply t_fail|]. cbn zeta. apply t_ok, umem_typed; [done|].
  do 4 (apply uwrite_ok; [apply le_ok|]). apply Hk.
Qed.
Lemma caps_typed k out : typed k -> typed_o (sys_nk_get_caps k out).
Proof.
  intros Hk. unfold sys_nk_get_caps. do 2 (apply t_if; [by apply t_fail|]). apply t_ok, write_typed; [done|].
  repeat (apply Forall_app; split; [apply le_ok|]). apply le_ok.
Qed.
Lemma futex_typed k addr op v : typed k -> typed_o (sys_nk_futex w cpu k addr op v).
Proof.
  intros Hk. unfold sys_nk_futex. apply t_if; [by apply t_fail|]. apply t_if; [handler|]. apply t_if; [|by apply t_ok].
  apply t_ok, write_typed; [done | apply le_ok].
Qed.
Lemma table_typed n k a1 a2 a3 a4 a5 run : typed k ->
  syscall_table (kernel_callee e) w cpu tsc_khz n k a1 a2 a3 a4 a5 = Some run -> typed_o run.
Proof.
  unfold syscall_table. intros Hk H.
  repeat match type of H with match ?x with _ => _ end = _ => destruct x; try discriminate H end; injection H as <-;
  first [ by apply status_typed | by apply score_typed | by apply caps_typed | by apply futex_typed
        | unfold sys_read, sys_write, sys_ioctl, sys_exit, sys_yield, sys_getpid, sys_nk_proc_intent, sys_nk_work_budget, sys_nk_attest_self,
            sys_nk_attest_peer, sys_nk_secure_alloc, sys_nk_secure_free, sys_nk_ipc_channel,
            sys_nk_ipc_send, sys_nk_ipc_recv, sys_nk_neri_tune, sys_nk_thermal_hint, sys_nk_pledge, sys_nk_checkpoint,
            sys_nk_mem_snapshot, sys_nk_thread_create, sys_nk_set_name, sys_nk_debug_log; handler ];
  first [ by intros ? ? ? | apply t_ret; eapply callee_typed; [exact Hk | eassumption] ].
Qed.

Lemma run_handler_typed k n a1 a2 a3 a4 a5 : typed k -> typed_o (run_handler (kernel_callee e) w cpu tsc_khz k n a1 a2 a3 a4 a5).
Proof.
  intros Hk. unfold run_handler. destruct (syscall_table _ _ _ _ _ _ _ _ _ _ _) as [run|] eqn:E.
  - apply t_bind. intros [k1 r] Er. pose proof (table_typed _ _ _ _ _ _ _ _ Hk E _ _ Er) as H1.
    destruct r; apply t_ret; [apply flag_typed; auto | done].
  - apply t_fail, flag_typed; auto.
Qed.


End dispatch.

(** The state before the first call, with the keys of a boot. *)
Definition k0 : kst := with_cc (kst_ex (alone Sched.zero_task)) CcProc.cc_ex.
Lemma k0_typed : typed k0.
Proof.
  split.
  - apply map_Forall_empty.
  - split; [reflexivity | apply Forall_replicate; by left].
  - reflexivity.
  - cbn. lia.
  - split; try (apply hmac_key); try reflexivity.
    + intros []; split; (reflexivity || (cbn; discriminate)).
    + apply Forall_replicate, zero_key.
    + apply Forall_replicate, zero_key.
Qed.

End KernelTypes.
