(* ===== verification/Tools.v ===== *)
(** * User programs

    The programs under tools/ are freestanding: a program computes and makes system
    calls.  [prog] is the type of such programs, a tree whose nodes are the calls (and
    reads of the time stamp counter); a call's arguments are values and addresses of
    buffers of the program, given with what the buffers hold, and the program goes on
    with the value of rax and what the buffers hold then.  [Stuck] is an access outside
    an object, or code after a call that must not return.

    [OS] is what a program runs on; [nekros] is the kernel of Kernel from
    [nekros_syscall_dispatch] on (the trap itself is in Asm), with the buffers of
    a call placed in user memory from [sp] on and arbitrary values in the registers the
    call does not set. *)

From Stdlib Require Import Ascii String.
From S2P Require Import Prelude Bytes Strings Printk Neri Sched Vfs Syscall SyscallProof Kernel.
Import Bytes Strings Syscall SyscallProof Kernel.

Module Tools.

(** ** Programs *)

Inductive arg := Val (v : Z) | Ptr (b : list Z).

Inductive prog (A : Type) : Type :=
| Return (a : A)
| Call (nr : Z) (args : list arg) (cont : Z -> list (list Z) -> prog A)
| Rdtsc (cont : Z -> prog A)
| Stuck.
Arguments Return {A}.
Arguments Call {A}.
Arguments Rdtsc {A}.
Arguments Stuck {A}.

Fixpoint bind {A B} (p : prog A) (f : A -> prog B) : prog B :=
  match p with
  | Return a => f a
  | Call nr args cont => Call nr args (fun v bufs => bind (cont v bufs) f)
  | Rdtsc cont => Rdtsc (fun t => bind (cont t) f)
  | Stuck => Stuck
  end.
Definition lift {A} (o : outcome A) : prog A := match o with Done a => Return a | _ => Stuck end.

#[export] Instance prog_ret : MRet prog := @Return.
#[export] Instance prog_bind : MBind prog := fun A B f p => bind p f.

(** [int $0x80] with the number in rax and the arguments in rdi, rsi, rdx, and what it
    gives: rax, and the first buffer. *)
Definition syscall (nr : Z) (args : list arg) : prog Z := Call nr args (fun v _ => Return v).
Definition syscall_out (nr : Z) (args : list arg) : prog (Z * list Z) := Call nr args (fun v bufs => Return (v, nth 0 bufs [])).

(** ** What programs run on *)

(** A call gives the state after it, and the answer unless the CPU went to another task. *)
Class OS (S : Type) := {
  os_call : S -> Z -> list arg -> outcome (S * option (Z * list (list Z)));
  os_tsc : S -> Z
}.

Fixpoint run {S} `{OS S} {A} (p : prog A) (s : S) : outcome (S * option A) :=
  match p with
  | Return a => Done (s, Some a)
  | Call nr args cont =>
      '(s, r) ← os_call s nr args;
      match r with None => Done (s, None) | Some (v, bufs) => run (cont v bufs) s end
  | Rdtsc cont => run (cont (os_tsc s)) s
  | Stuck => Fault
  end.

Lemma run_bind {S} `{OS S} {A B} (p : prog A) (f : A -> prog B) : forall s,
  run (bind p f) s = ('(s, r) ← run p s; match r with None => Done (s, None) | Some a => run (f a) s end).
Proof.
  induction p as [a|nr args cont IH|cont IH|]; intros s; cbn [bind run]; [done | | apply IH | done].
  destruct (os_call s nr args) as [[s1 [[v bufs]|]]| |]; cbn [mbind outcome_bind]; [apply IH | done..].
Qed.

(** ** Nekros *)

(** User memory with the buffers in it, and the argument registers. *)
Fixpoint place (sp : Z) (m : gmap Z Z) (l : list arg) : gmap Z Z * list Z :=
  match l with
  | [] => (m, [])
  | Val v :: l' => let (m, vs) := place sp m l' in (m, v :: vs)
  | Ptr b :: l' => let (m, vs) := place (sp + Z.of_nat (length b)) (uwrite m sp b) l' in (m, sp :: vs)
  end.
(** What the buffers hold. *)
Fixpoint fetch (sp : Z) (k : kst) (l : list arg) : list (list Z) :=
  match l with
  | [] => []
  | Val _ :: l' => fetch sp k l'
  | Ptr b :: l' => uread k sp (length b) :: fetch (sp + Z.of_nat (length b)) k l'
  end.

Record machine := mk_machine { m_env : ambient; m_hw : Sched.hw; m_cpu : Z; m_khz : Z; m_sp : Z; m_regs : list Z }.
Definition nekros_call (m : machine) (k : kst) (nr : Z) (args : list arg) : outcome (kst * option (Z * list (list Z))) :=
  let (mem, vs) := place (m_sp m) (umem k) args in
  let r i := nth i vs (nth i (m_regs m) 0) in
  '(k, r) ← Kernel.syscall (m_env m) (m_hw m) (m_cpu m) (m_khz m) (with_umem k mem) nr (r 0%nat) (r 1%nat) (r 2%nat) (r 3%nat) (r 4%nat);
  Done (k, match r with Ret v => Some (v, fetch (m_sp m) k args) | Away _ _ => None end).
Definition nekros (m : machine) : OS kst := {| os_call := nekros_call m; os_tsc _ := Sched.hw_now (m_hw m) |}.

(** ** String literals *)

(** [\n] and [\033] in a literal. *)
Fixpoint unescape (l : list Z) : list Z :=
  match l with
  | 92 :: 110 :: l' => 10 :: unescape l'
  | 92 :: 48 :: 51 :: 51 :: l' => 27 :: unescape l'
  | c :: l' => c :: unescape l'
  | [] => []
  end.
(** The characters, and the object with its terminator. *)
Definition chars (s : string) : list Z := unescape (bytes_of_string s).
Definition lit (s : string) : list Z := chars s ++ [0].

(** ** Numbers *)

(** [while (v) { tmp[n++] = hx[v % base]; v /= base; }] into an array of [cap] bytes; 64
    rounds are enough for any base. *)
Fixpoint digits (v base : Z) (cap fuel : nat) {struct fuel} : outcome (list Z) :=
  match fuel with
  | O => Fault
  | S f =>
      if truthy v then
        match cap with
        | O => Fault
        | S cap => l ← digits (v / base) base cap f; Done (at_ hx (Z.to_nat (v mod base)) :: l)
        end
      else Done []
  end.
(** The digits reversed into an array of [cap] bytes, and the terminator after them: the array
    up to there. *)
Definition reversed (tmp : list Z) (cap : nat) : outcome (list Z) :=
  if (cap <? length tmp + 1)%nat then Fault else Done (rev tmp ++ [0]).


(** [for (i = 0; i < n; i++) body(i)], from [i] on. *)
Fixpoint for_range {A} (i n : nat) (a : A) (body : nat -> A -> prog A) : prog A :=
  match n with O => Return a | S n' => a ← body i a; for_range (S i) n' a body end.

(** ** The structures of the resource manager, as the programs declare them *)

Record neri_status := mk_status {
  epoch : Z; cpu_total_ns : Z; cpu_alloc_ns : Z; ram_total_pages : Z; ram_alloc_pages : Z; gpu_total_slots : Z; gpu_alloc_slots : Z
}.
Definition status_of (b : list Z) : neri_status :=
  let f i := of_le (slice b (8 * i) 8) in mk_status (f 0%nat) (f 1%nat) (f 2%nat) (f 3%nat) (f 4%nat) (f 5%nat) (f 6%nat).
Record neri_anomaly := mk_anomaly { score : Z; level : Z; blocked : Z; a_epoch : Z }.
Definition anomaly_at (b : list Z) : neri_anomaly :=
  mk_anomaly (of_le (slice b 0 1)) (of_le (slice b 4 4)) (of_le (slice b 8 1)) (of_le (slice b 16 8)).

Definition level_names : list (list Z) := map lit ["NORMAL"; "MEDIUM"; "HIGH"; "CRITICAL"]%string.
Definition level_colors : list (list Z) := map lit ["\033[32m"; "\033[33m"; "\033[31m"; "\033[1;31m"]%string.
(** [x < 4 ? x : 3]. *)
Definition clamp3 (x : Z) : nat := Z.to_nat (if x <? 4 then x else 3).

(** ** Memory of the caller *)

Lemma lookup_uwrite_in l : forall m a i b, l !! i = Some b -> uwrite m a l !! (a + Z.of_nat i) = Some b.
Proof.
  induction l as [|c l IH]; intros m a i b Hi; [done|]. destruct i as [|i]; cbn [uwrite].
  - injection Hi as ->. rewrite uwrite_out by lia. by rewrite Z.add_0_r, lookup_insert_eq.
  - replace (a + Z.of_nat (S i)) with (a + 1 + Z.of_nat i) by lia. by apply IH.
Qed.
Lemma uread_length k a n : length (uread k a n) = n.
Proof. unfold uread. by rewrite length_map, length_seq. Qed.
Lemma uread_lookup k a n i : (i < n)%nat -> uread k a n !! i = Some (ubyte k (a + Z.of_nat i)).
Proof. intros Hi. unfold uread. rewrite list_lookup_fmap, lookup_seq_lt by done. done. Qed.
Lemma uread_uwrite k m a l n : (n <= length l)%nat -> uread (with_umem k (uwrite m a l)) a n = take n l.
Proof.
  intros Hn. apply list_eq. intros i. destruct (decide (i < n)%nat) as [Hi|Hi].
  - rewrite uread_lookup, lookup_take_lt by done. unfold ubyte. cbn [umem with_umem].
    destruct (lookup_lt_is_Some_2 l i ltac:(lia)) as [b Eb]. by rewrite (lookup_uwrite_in _ _ _ _ _ Eb), Eb.
  - rewrite !lookup_ge_None_2; [done | rewrite length_take; lia | rewrite uread_length; lia].
Qed.
Lemma uread_uwrite_out k m a l a' n : (a' + Z.of_nat n <= a \/ a + Z.of_nat (length l) <= a') ->
  uread (with_umem k (uwrite m a l)) a' n = uread (with_umem k m) a' n.
Proof.
  intros Hd. unfold uread. apply map_ext_in. intros i Hi%in_seq. unfold ubyte. cbn [umem with_umem]. by rewrite uwrite_out by lia.
Qed.
Lemma slice_uread k a n off len : (off + len <= n)%nat -> slice (uread k a n) off len = uread k (a + Z.of_nat off) len.
Proof.
  intros H. apply list_eq. intros i. rewrite lookup_slice. case_decide as Hi.
  - rewrite !uread_lookup by lia. do 2 f_equal. lia.
  - rewrite lookup_ge_None_2; [done|]. rewrite uread_length. lia.
Qed.

Lemma uread_app k a n1 n2 : uread k a (n1 + n2) = uread k a n1 ++ uread k (a + Z.of_nat n1) n2.
Proof.
  apply list_eq. intros i. destruct (decide (i < n1 + n2)%nat) as [Hi|Hi].
  - rewrite uread_lookup by done. destruct (decide (i < n1)%nat) as [H1|H1].
    + by rewrite lookup_app_l, uread_lookup by (rewrite ?uread_length; done).
    + rewrite lookup_app_r, uread_length, uread_lookup by (rewrite ?uread_length; lia). do 2 f_equal. lia.
  - rewrite !lookup_ge_None_2; [done | rewrite length_app, !uread_length; lia | rewrite uread_length; lia].
Qed.
(** A string copied out of the caller's memory. *)
Lemma cstr_app l r : 0 ∉ l -> cstr (l ++ 0 :: r) = l.
Proof.
  induction l as [|c l IH]; intros Hl; [done|]. cbn [app cstr]. apply not_elem_of_cons in Hl as [Hc Hl].
  rewrite (proj2 (Z.eqb_neq c 0)) by done. by rewrite IH.
Qed.
Lemma cstr_uread k m a l n : 0 ∉ l -> (length l < n)%nat -> cstr (uread (with_umem k (uwrite m a (l ++ [0]))) a n) = l.
Proof.
  intros Hl Hn. replace n with (length (l ++ [0%Z]) + (n - length l - 1))%nat by (rewrite length_app; cbn; lia).
  rewrite uread_app, uread_uwrite, firstn_all, <- app_assoc by lia. by apply cstr_app.
Qed.

Lemma le_step n x : le (S n) x = u8 x :: le n (Z.shiftr x 8).
Proof.
  unfold le. cbn [seq map]. change (8 * Z.of_nat 0) with 0. rewrite Z.shiftr_0_r. f_equal. rewrite <- seq_shift, map_map. apply map_ext_in.
  intros i _. f_equal. rewrite Z.shiftr_shiftr by lia. f_equal. lia.
Qed.
(** Reading back a little-endian integer. *)
Lemma of_le_le n : forall x, 0 <= x -> of_le (le n x) = x mod 256 ^ Z.of_nat n.
Proof.
  induction n as [|n IH]; intros x Hx; [by rewrite Z.mod_1_r|]. rewrite le_step. cbn [of_le foldr].
  fold (of_le (le n (Z.shiftr x 8))). rewrite IH by (apply Z.shiftr_nonneg; done). rewrite Z.shiftr_div_pow2 by lia.
  change (2 ^ 8) with 256. unfold u8. change (2 ^ 8) with 256. rewrite Nat2Z.inj_succ, Z.pow_succ_r by lia.
  rewrite Z.rem_mul_r by (try apply Z.pow_pos_nonneg; lia). done.
Qed.

(** ** Numbers are their digits *)

Lemma digits_printed base fuel2 : 2 <= base <= 16 -> forall fuel cap v, 0 <= v < base ^ Z.of_nat cap -> (cap < fuel)%nat -> (cap <= fuel2)%nat ->
  digits v base cap fuel = Done (Printk.digits_of v base false fuel2) /\ (length (Printk.digits_of v base false fuel2) <= cap)%nat.
Proof.
  intros Hb. induction fuel2 as [|f2 IH]; intros [|fuel] cap v Hv Hc Hc2; try lia; cbn [digits Printk.digits_of]; unfold truthy;
    destruct (Z.eqb_spec v 0) as [->|Hne]; cbn [negb]; try (split; [done | cbn; lia]).
  - assert (cap = 0%nat) as -> by lia. change (Z.of_nat 0) with 0 in Hv. rewrite Z.pow_0_r in Hv. lia.
  - destruct cap as [|cap]; [change (Z.of_nat 0) with 0 in Hv; rewrite Z.pow_0_r in Hv; lia|]. rewrite Nat2Z.inj_succ, Z.pow_succ_r in Hv by lia.
    destruct (IH fuel cap (v / base)) as [E El]; [split; [apply Z.div_pos; lia | apply Z.div_lt_upper_bound; lia] | lia..|].
    rewrite E. cbn [mbind outcome_bind length]. split; [done | lia].
Qed.

Lemma digits_nonzero v base fuel : 2 <= base <= 16 -> 0 <= v -> 0 ∉ Printk.digits_of v base false fuel.
Proof.
  intros Hb. revert v. induction fuel as [|f IH]; intros v Hv; cbn [Printk.digits_of]; [set_solver|].
  casei; [|set_solver]. apply not_elem_of_cons. split; [|apply IH, Z.div_pos; lia].
  pose proof (Z.mod_pos_bound v base ltac:(lia)). intros E0.
  pose proof (proj1 (Printk.digit_char false (v mod base) ltac:(lia))) as D. cbn [at_] in *. rewrite <- E0 in D. discriminate D.
Qed.

(** ** Printing on Nekros *)

Section printing.
Context (m : machine) (s : Sched.sys) (ta : Z) (t : Sched.task).
(** The frame of the program is in user space. *)
Context (Hsp : 4096 <= m_sp m /\ m_sp m + 4096 <= USER_ADDR_MAX).

(** All that has changed is user memory and what the serial line has sent: [txt]. *)
Record printed (k k' : kst) (txt : list Z) : Prop := {
  pr_sy : sy k' = sy k;
  pr_flags : g_syscall_in_progress k' = g_syscall_in_progress k;
  pr_cc : kcc k' = kcc k;
  pr_budgets : g_budgets k' = g_budgets k;
  pr_msr : msr_writes k' = msr_writes k;
  pr_tty : Vfs.tty (kfs k') = foldl Printk.serial_putc (Vfs.tty (kfs k)) txt
}.
Lemma printed_refl k : printed k k [].
Proof. by split. Qed.
Lemma serial_app k k1 k2 l1 l2 : printed k k1 l1 -> printed k1 k2 l2 -> printed k k2 (l1 ++ l2).
Proof. intros [] []. split; try congruence. rewrite foldl_app. congruence. Qed.

(** Run by [t] in the kernel state [s], the program ends with [a] and has printed [txt]. *)
Definition prints {A} (p : prog A) (txt : list Z) (a : A) : Prop :=
  forall k, sy k = s -> running (m_cpu m) k ta t -> exists k', run (H := nekros m) p k = Done (k', Some a) /\ printed k k' txt.

Lemma prints_return {A} (a : A) : prints (Return a) [] a.
Proof. intros k _ _. exists k. split; [done | apply printed_refl]. Qed.
Lemma outputs_bind {A B} (p : prog A) (f : A -> prog B) l1 l2 a b : prints p l1 a -> prints (f a) l2 b -> prints (p ≫= f) (l1 ++ l2) b.
Proof.
  intros Hp Hf k Hs R. destruct (Hp k Hs R) as (k1 & E1 & P1).
  destruct (Hf k1) as (k2 & E2 & P2); [rewrite (pr_sy _ _ _ P1); done | eapply running_same; [apply P1 | apply P1 | done]|].
  exists k2. split; [|by eapply serial_app]. change (p ≫= f) with (bind p f). rewrite run_bind, E1. exact E2.
Qed.
(** Without and with output first. *)
Lemma prints_quiet {A B} (p : prog A) (f : A -> prog B) l a b : prints p [] a -> prints (f a) l b -> prints (p ≫= f) l b.
Proof. intros. by apply (outputs_bind p f [] l a b). Qed.
Lemma prints_last {A B} (p : prog A) (f : A -> prog B) l a b : prints p l a -> prints (f a) [] b -> prints (p ≫= f) l b.
Proof. intros. rewrite <- (app_nil_r l). by eapply outputs_bind. Qed.
Lemma prints_if {A} (b : bool) (p q : prog A) l1 l2 a : prints p l1 a -> prints q l2 a -> prints (if b then p else q) (if b then l1 else l2) a.
Proof. by destruct b. Qed.
Lemma prints_lift {A} (o : outcome A) a : o = Done a -> prints (lift o) [] a.
Proof. intros ->. apply prints_return. Qed.
Lemma prints_for n (body : nat -> unit -> prog unit) (txt : nat -> list Z) : (forall i, prints (body i ()) (txt i) ()) ->
  forall i, prints (for_range i n () body) (concat (map txt (seq i n))) ().
Proof.
  intros Hb. induction n as [|n IH]; intros i; cbn [for_range seq map concat]; [apply prints_return|].
  eapply outputs_bind; [apply Hb | apply IH].
Qed.

Lemma running_umem k mem : running (m_cpu m) k ta t -> running (m_cpu m) (with_umem k mem) ta t.
Proof. by apply running_same. Qed.

Lemma running_put k t' : running (m_cpu m) k ta t -> running (m_cpu m) (with_sy k (Sched.put (sy k) ta t')) ta t'.
Proof. intros [? ? ? ? ?]. split; try done. apply lookup_insert_eq. Qed.

(** Naming the task. *)
Lemma run_set_name k l : permits t 62 -> 0 ∉ l -> (length l < 31)%nat -> running (m_cpu m) k ta t ->
  run (H := nekros m) (syscall 62 [Ptr (l ++ [0])]) k =
  Done (with_sy (with_umem k (uwrite (umem k) (m_sp m) (l ++ [0]))) (Sched.put (sy k) ta (set_name t l)), Some 0).
Proof.
  intros Hp Hl Hn R. unfold syscall. cbn [run os_call nekros]. unfold nekros_call. cbn [place nth].
  pose proof (running_umem k (uwrite (umem k) (m_sp m) (l ++ [0])) R) as R1.
  rewrite (set_name_call (m_env m) (m_hw m) (m_cpu m) (m_khz m) _ ta t R1) by (done || (unfold in_user; lia)).
  cbn [mbind outcome_bind run umem with_umem sy]. unfold ubuf. change (Z.to_nat 31) with 31%nat. rewrite cstr_uread by lia || done.
  unfold Sched.strlcpy. rewrite take_ge by lia. done.
Qed.

(** [write(1, b, n)] for a buffer [b]. *)
Lemma prints_write b n : permits t 1 -> (n <= length b)%nat -> (length b <= 4000)%nat ->
  prints (syscall 1 [Val 1; Ptr b; Val (Z.of_nat n)]) (take n b) (Z.of_nat n).
Proof.
  intros Hp Hn Hb k Hs R. unfold syscall. cbn [run os_call nekros]. unfold nekros_call. cbn [place nth].
  pose proof (running_umem k (uwrite (umem k) (m_sp m) b) R) as R1.
  rewrite (write_call (m_env m) (m_hw m) (m_cpu m) (m_khz m) _ ta t R1) by (unfold in_user; lia || auto).
  cbn [mbind outcome_bind run]. eexists. split; [done|]. split; try done.
  cbn [kfs with_fs]. unfold Vfs.serial_all. cbn [Vfs.tty Vfs.with_tty fs_of fs_over kfs with_umem]. unfold ubuf.
  by rewrite Nat2Z.id, uread_uwrite.
Qed.

(** The calls that report the pool and the anomaly, and the process number. *)
Lemma prints_status b : permits t 49 -> length b = 56%nat ->
  prints (syscall_out 49 [Ptr b]) [] (0, if Sched.neri_ready s then status_bytes (Neri.pool (Neri.n_ps (Sched.nr s))) else b).
Proof.
  intros Hp Hb k Hs R. unfold syscall_out. cbn [run os_call nekros]. unfold nekros_call. cbn [place nth].
  pose proof (running_umem k (uwrite (umem k) (m_sp m) b) R) as R1.
  rewrite (status_call (m_env m) (m_hw m) (m_cpu m) (m_khz m) _ ta t R1) by (done || (unfold in_user; lia)).
  cbn [mbind outcome_bind run fetch nth sy with_umem umem]. rewrite Hs. unfold pool_of. cbn [sy with_umem]. rewrite Hs.
  destruct (Sched.neri_ready s); cbn [fetch]; (rewrite uread_uwrite by (cbn; lia)); rewrite take_ge by (cbn; lia); eexists; (split; [reflexivity|]); by split.
Qed.
Lemma prints_getpid : permits t 20 -> prints (syscall 20 []) [] (u64 (Sched.pid t)).
Proof.
  intros Hp k Hs R. unfold syscall. cbn [run os_call nekros]. unfold nekros_call. cbn [place].
  rewrite (getpid_call (m_env m) (m_hw m) (m_cpu m) (m_khz m) _ ta t (running_umem k (umem k) R)) by done.
  cbn [mbind outcome_bind run]. eexists. split; [done|]. by split.
Qed.

(** What [nk_anomaly_score] leaves in a buffer of 24 bytes. *)
Definition anomaly_ok (a : Neri.anomaly) : Prop :=
  0 <= Neri.score_byte a < 2 ^ 8 /\ 0 <= Neri.level a < 2 ^ 32 /\ 0 <= Neri.score_epoch a < 2 ^ 64.
Definition anomaly_seen (a : Neri.anomaly) : neri_anomaly :=
  mk_anomaly (Neri.score_byte a) (Neri.level a) (if Neri.block_admits a then 1 else 0) (Neri.score_epoch a).
Lemma anomaly_read k mem sp a : anomaly_ok a -> anomaly_at (uread (with_umem k (anomaly_mem mem sp a)) sp 24) = anomaly_seen a.
Proof.
  intros (H1 & H2 & H3). unfold anomaly_at, anomaly_mem. rewrite !slice_uread by lia.
  replace (sp + Z.of_nat 0) with sp by lia. change (Z.of_nat 4) with 4. change (Z.of_nat 8) with 8. change (Z.of_nat 16) with 16.
  rewrite (uread_uwrite k _ (sp + 16)), !(uread_uwrite_out k _ (sp + 16)) by (rewrite ?le_length; lia).
  rewrite (uread_uwrite k _ (sp + 8)), !(uread_uwrite_out k _ (sp + 8)) by (rewrite ?le_length; lia).
  rewrite (uread_uwrite k _ (sp + 4)), !(uread_uwrite_out k _ (sp + 4)) by (rewrite ?le_length; lia).
  rewrite uread_uwrite by (rewrite ?le_length; lia). rewrite !take_ge by (rewrite le_length; lia).
  assert (0 <= u32 (Neri.level a)) by (unfold u32; apply Z.mod_pos_bound; lia).
  rewrite !of_le_le by (try destruct (Neri.block_admits a); lia).
  unfold anomaly_seen, u32. rewrite (Z.mod_small (Neri.level a)) by lia. f_equal; try (apply Z.mod_small; cbn; lia).
  by destruct (Neri.block_admits a).
Qed.
Lemma prints_anomaly b : permits t 52 -> length b = 24%nat -> anomaly_ok (anomaly_of s) ->
  forall {A} (f : Z * list Z -> prog A) txt a, (forall b', anomaly_at b' = anomaly_seen (anomaly_of s) -> prints (f (0, b')) txt a) ->
  prints (syscall_out 52 [Ptr b] ≫= f) txt a.
Proof.
  intros Hp Hb Ha A f txt a Hf k Hs R. unfold syscall_out. cbn [mbind prog_bind bind run os_call nekros]. unfold nekros_call. cbn [place nth].
  pose proof (running_umem k (uwrite (umem k) (m_sp m) b) R) as R1.
  rewrite (anomaly_call (m_env m) (m_hw m) (m_cpu m) (m_khz m) _ ta t R1) by (done || (unfold in_user; lia)).
  cbn [mbind outcome_bind run fetch nth sy with_umem umem]. rewrite Hs.
  match goal with |- exists k', run (f (0, ?b')) ?k1 = _ /\ _ => destruct (Hf b') with (k := k1) as (k' & E & P) end.
  - rewrite Hb. by apply anomaly_read.
  - done.
  - by apply running_umem.
  - exists k'. split; [exact E|]. destruct P. by split.
Qed.
End printing.

End Tools.
