(* ===== verification/Nerictl.v ===== *)
(** * tools/nerictl/nerictl.c: the control tool

    Every command as a program.  A string is the object it lives in, terminator
    included; a local structure that is not initialised is an argument. *)

From Stdlib Require Import Ascii String.
From S2P Require Import Prelude Bytes Strings Printk Neri Sched Vfs Syscall SyscallProof Kernel Tools.
Import Bytes Strings Tools.

Module Nerictl.

Definition SYS_WRITE : Z := 1.
Definition SYS_EXIT : Z := 2.
Definition SYS_GETPID : Z := 20.
Definition NK_PROC_INTENT : Z := 40.
Definition NK_WORK_BUDGET : Z := 41.
Definition NK_ATTEST_SELF : Z := 42.
Definition NK_NERI_STATUS : Z := 49.
Definition NK_THERMAL_HINT : Z := 51.
Definition NK_ANOMALY_SCORE : Z := 52.
Definition NK_SET_NAME : Z := 62.

(** ** Output *)

Definition write_str (s : list Z) : prog unit :=
  n ← lift (strlen s); syscall SYS_WRITE [Val 1; Ptr s; Val (Z.of_nat n)];; Return ().
Definition write_char (c : Z) : prog unit := syscall SYS_WRITE [Val 1; Ptr [c]; Val 1];; Return ().
(** The array of [cap] bytes at [buf], up to its terminator. *)
Definition u64_to_str (v : Z) (cap : nat) (base : Z) : outcome (list Z) :=
  if v =? 0 then reversed [48] cap else tmp ← digits v base 24 65; reversed tmp cap.
Definition write_u64 (v : Z) : prog unit := s ← lift (u64_to_str v 24 10); write_str s.
Definition write_u64_pct (val total : Z) : prog unit :=
  if total =? 0 then write_str (lit "0%") else write_u64 (u64 (val * 100) / total);; write_char 37.
Definition write_bar (val total : Z) (width : nat) : prog unit :=
  let filled := if truthy total then u64 (val * Z.of_nat width) / total else 0 in
  write_char 91;;
  for_range 0 width () (fun i _ => write_str (if Z.of_nat i <? s32 filled then lit "█" else lit "░"));;
  write_char 93.
Definition write_nl : prog unit := write_char 10.

Definition intent_names : list (list Z) := map lit ["INTERACTIVE"; "COMPILE"; "ML_TRAIN"; "DAEMON"; "CRYPTO"; "IO_HEAVY"]%string.

(** ** Commands *)

(** [st0], [anm0]: what the structures on the stack hold before the calls. *)
Definition cmd_status (st0 anm0 : list Z) : prog unit :=
  '(rc, st) ← syscall_out NK_NERI_STATUS [Ptr st0];
  if s64 rc <? 0 then write_str (lit "error: nk_neri_status failed\n") else
  let st := status_of st in
  '(_, anm) ← syscall_out NK_ANOMALY_SCORE [Ptr anm0];
  let anm := anomaly_at anm in
  write_str (lit "\033[1mNekros Resource Pool\033[0m  epoch=");;
  write_u64 (epoch st);;
  write_str (lit "\n\n");;
  write_str (lit "  \033[36mCPU\033[0m  ");;
  write_bar (cpu_alloc_ns st) (cpu_total_ns st) 20;;
  write_char 32;;
  write_u64_pct (cpu_alloc_ns st) (cpu_total_ns st);;
  write_str (lit "  (alloc=");;
  write_u64 (cpu_alloc_ns st / 1000000);; write_str (lit "ms / total=");;
  write_u64 (cpu_total_ns st / 1000000);; write_str (lit "ms)\n");;
  let ram_alloc_mb := u64 (ram_alloc_pages st * 4) / 1024 in
  let ram_total_mb := u64 (ram_total_pages st * 4) / 1024 in
  write_str (lit "  \033[36mRAM\033[0m  ");;
  write_bar (ram_alloc_pages st) (ram_total_pages st) 20;;
  write_char 32;;
  write_u64_pct (ram_alloc_pages st) (ram_total_pages st);;
  write_str (lit "  (");;
  write_u64 ram_alloc_mb;; write_str (lit " MB / ");;
  write_u64 ram_total_mb;; write_str (lit " MB)\n");;
  write_str (lit "  \033[36mGPU\033[0m  ");;
  write_bar (gpu_alloc_slots st) (if truthy (gpu_total_slots st) then gpu_total_slots st else 256) 20;;
  write_char 32;;
  write_u64_pct (gpu_alloc_slots st) (if truthy (gpu_total_slots st) then gpu_total_slots st else 256);;
  write_str (lit "  (slots ");;
  write_u64 (gpu_alloc_slots st);; write_char 47;;
  write_u64 (gpu_total_slots st);; write_str (lit ")\n\n");;
  let lv := clamp3 (level anm) in
  write_str (lit "  NSM    ");;
  write_str (nth lv level_colors []);;
  write_str (nth lv level_names []);;
  write_str (lit "\033[0m  score=");;
  write_u64 (score anm);; write_str (lit "/255");;
  (if truthy (blocked anm) then write_str (lit "  \033[1m\033[1;31m[ADMISSIONS BLOCKED]\033[0m") else Return ());;
  write_str (lit "\n\n");;
  pid ← syscall SYS_GETPID [];
  write_str (lit "  pid=\033[2m");; write_u64 pid;;
  write_str (lit "\033[0m\n").

Definition guidance : list (list Z) := map lit
  ["  Kernel operating normally. Full encryption performance.\n";
   "  Elevated activity detected. KDF cost +50%.\n";
   "  Suspicious behavior. KDF cost +200%. Re-authentication advised.\n";
   "  CRITICAL: Possible attack. New encryptions blocked.\n"]%string.
Definition cmd_anomaly (anm0 : list Z) : prog unit :=
  '(rc, anm) ← syscall_out NK_ANOMALY_SCORE [Ptr anm0];
  if s64 rc <? 0 then write_str (lit "error: nk_anomaly_score failed\n") else
  let anm := anomaly_at anm in
  let lv := clamp3 (level anm) in
  write_str (lit "\033[1mNeri NSM Behavioral Anomaly Score\n\033[0m\n");;
  write_str (lit "  Score  ");;
  write_bar (score anm) 255 30;;
  write_char 32;;
  write_u64 (score anm);;
  write_str (lit "/255\n\n");;
  write_str (lit "  Level  ");;
  write_str (nth lv level_colors []);;
  write_str (lit "\033[1m");;
  write_str (nth lv level_names []);;
  write_str (lit "\033[0m\n");;
  write_str (lit "  Epoch  ");;
  write_u64 (a_epoch anm);;
  write_str (lit "\n\n");;
  write_str (nth lv guidance []);;
  write_nl.

(** The other name of each intent. *)
Definition aliases : list (list Z) := map lit ["interactive"; "compile"; "ml"; "daemon"; "crypto"; "io"]%string.
Definition cmd_intent (type : list Z) (burst_ns : Z) : prog unit :=
  intent ← for_range 0 6 6%nat (fun i intent =>
    r ← lift (strcmp type (nth i intent_names []));
    if r =? 0 then Return i else
    r ← lift (strcmp type (nth i aliases []));
    Return (if r =? 0 then i else intent));
  if (5 <? intent)%nat then write_str (lit "Unknown intent. Use: interactive compile ml daemon crypto io\n") else
  rc ← syscall NK_PROC_INTENT [Val (Z.of_nat intent); Val burst_ns; Val 0];
  write_str (lit "Intent set: ");;
  write_str (nth intent intent_names []);;
  (if s64 rc <? 0 then write_str (lit " (warning: rc=");; write_u64 (u64 (- s64 rc));; write_char 41 else Return ());;
  write_nl.

Definition cmd_budget (cpu_ns deadline_ns : Z) : prog unit :=
  token ← syscall NK_WORK_BUDGET [Val cpu_ns; Val deadline_ns; Val 0];
  if s64 token <? 0 then write_str (lit "Budget denied (resource pressure or NSM blocked)\n") else
  write_str (lit "Work budget granted — token=");;
  write_u64 token;;
  write_str (lit "  cpu=");;
  write_u64 (cpu_ns / 1000000);;
  write_str (lit "ms  deadline=");;
  write_u64 (deadline_ns / 1000000);;
  write_str (lit "ms\n").

Definition cmd_attest (token0 : list Z) : prog unit :=
  '(rc, token) ← syscall_out NK_ATTEST_SELF [Ptr token0; Val 256];
  if s64 rc <? 0 then write_str (lit "Attestation failed\n") else
  write_str (lit "Attestation token (hex):\n  ");;
  for_range 0 (Z.to_nat (MIN rc 48)) () (fun i _ =>
    hex ← lift (u64_to_str (at_ token i) 3 16);
    n ← lift (strlen hex);
    (if (n <? 2)%nat then write_char 48 else Return ());;
    write_str hex;;
    (if ((i + 1) mod 16 =? 0)%nat then write_str (lit "\n  ") else Return ()));;
  write_str (lit "...\n");;
  write_str (lit "Token length: ");; write_u64 rc;; write_str (lit " bytes\n");;
  write_str (lit "Machine-bound: YES\n");;
  write_str (lit "Tamper-evident: YES (AES-256-GCM)\n").

Definition intens : list (list Z) := map lit ["LIGHT"; "MODERATE"; "HEAVY (AVX)"; "MAXIMUM (GPU+CPU)"]%string.
Definition cmd_thermal (burst_ns intensity : Z) : prog unit :=
  syscall NK_THERMAL_HINT [Val burst_ns; Val intensity];;
  write_str (lit "Thermal hint sent:\n");;
  write_str (lit "  Burst duration: ");; write_u64 (burst_ns / 1000000);; write_str (lit " ms\n");;
  write_str (lit "  Intensity: ");;
  write_str (nth (clamp3 intensity) intens []);;
  write_str (lit "\n  Neri will pre-adjust RAPL headroom and migrate cold processes\n").

(** [BENCH(name, iters, code)]; [code] works on a buffer that the rounds share. *)
Definition bench (name : string) (iters : nat) (buf : list Z) (code : list Z -> prog (list Z)) : prog unit :=
  t0 ← Rdtsc Return;
  for_range 0 iters buf (fun _ buf => code buf);;
  t1 ← Rdtsc Return;
  let avg_ns := u64 (t1 - t0) / Z.of_nat iters / 2 in
  write_str (lit "  ");; write_str (lit name);;
  write_str (lit ": ~");; write_u64 avg_ns;; write_str (lit " cycles\n").
(** A call that fills the buffer, and one without. *)
Definition filling (nr : Z) (more : list arg) (buf : list Z) : prog (list Z) := '(_, b) ← syscall_out nr (Ptr buf :: more); Return b.
Definition plain (nr : Z) (args : list arg) (buf : list Z) : prog (list Z) := syscall nr args;; Return buf.
Definition cmd_bench (st0 anm0 tok0 : list Z) : prog unit :=
  write_str (lit "\033[1mNekros novel syscall benchmark\n\033[0m\n");;
  write_str (lit "  Measuring syscall overhead (1000 iterations each)\n\n");;
  bench "nk_neri_status   " 1000 st0 (filling NK_NERI_STATUS []);;
  bench "nk_anomaly_score " 1000 anm0 (filling NK_ANOMALY_SCORE []);;
  bench "nk_proc_intent   " 1000 [] (plain NK_PROC_INTENT [Val 3; Val 0; Val 0]);;
  bench "nk_thermal_hint  " 1000 [] (plain NK_THERMAL_HINT [Val 4000000; Val 1]);;
  bench "nk_attest_self   " 100 tok0 (filling NK_ATTEST_SELF [Val 256]);;
  write_str (lit "\n  Context: on Nekros, a syscall round-trip is a kernel-mode\n");;
  write_str (lit "  switch via int $0x80 + Neri telemetry record.\n");;
  write_str (lit "  Compare: Linux getpid() ~150 cycles, Linux ioctl ~500 cycles.\n\n").

Definition cmd_help : prog unit :=
  write_str (lit ("\033[1mnerictl\033[0m — Nekros kernel control tool\n" ++
    "\n" ++
    "  \033[36mstatus\033[0m                       Live resource pool view\n" ++
    "  \033[36manomaly\033[0m                      NSM behavioral anomaly score\n" ++
    "  \033[36mintent\033[0m <type> [burst_ms]      Set process intent\n" ++
    "     types: interactive compile ml daemon crypto io\n" ++
    "  \033[36mbudget\033[0m <cpu_ms> <deadline_ms>  Request work budget\n" ++
    "  \033[36mattest\033[0m                       Print attestation token\n" ++
    "  \033[36mthermal\033[0m <burst_ms> <0-3>      Hint upcoming compute burst\n" ++
    "  \033[36mbench\033[0m                        Benchmark novel syscalls\n" ++
    "  \033[36mhelp\033[0m                         This screen\n" ++
    "\n" ++
    "Examples:\n" ++
    "  nerictl status\n" ++
    "  nerictl intent compile 2000\n" ++
    "  nerictl budget 4000 8000\n" ++
    "  nerictl thermal 5000 2\n" ++
    "\n")).

(** ** Entry point *)

(** [!strcmp(cmd, name)]. *)
Definition is_cmd (cmd : list Z) (name : string) : prog bool := r ← lift (strcmp cmd (lit name)); Return (r =? 0).
(** [simple_strtoull(s, NULL, 10) * 1000000ULL]. *)
Definition millions (s : list Z) : prog Z := '(v, _) ← lift (simple_strtoull s 10); Return (u64 (v * 1000000)).

(** The stack the commands find: [struct neri_status], [struct neri_anomaly], the token. *)
Record frame := mk_frame { fr_st : list Z; fr_anm : list Z; fr_tok : list Z }.

Definition nerictl_main (fr : frame) (argv : list (list Z)) : prog Z :=
  syscall NK_SET_NAME [Ptr (lit "nerictl")];;
  match argv with
  | [] | [_] => cmd_status (fr_st fr) (fr_anm fr);; Return 0
  | _ :: cmd :: args =>
      b ← is_cmd cmd "status"; if b : bool then cmd_status (fr_st fr) (fr_anm fr);; Return 0 else
      b ← is_cmd cmd "anomaly"; if b : bool then cmd_anomaly (fr_anm fr);; Return 0 else
      b ← is_cmd cmd "attest"; if b : bool then cmd_attest (fr_tok fr);; Return 0 else
      b ← is_cmd cmd "bench"; if b : bool then cmd_bench (fr_st fr) (fr_anm fr) (fr_tok fr);; Return 0 else
      b ← is_cmd cmd "help"; b ← (if b : bool then Return true else is_cmd cmd "--help"); if b : bool then cmd_help;; Return 0 else
      b ← is_cmd cmd "intent"; if b : bool then
        burst_ns ← (match args with _ :: s :: _ => millions s | _ => Return 0 end);
        cmd_intent (match args with s :: _ => s | [] => lit "daemon" end) burst_ns;; Return 0 else
      b ← is_cmd cmd "budget"; if b : bool then
        cpu_ns ← (match args with s :: _ => millions s | [] => Return 0 end);
        dl_ns ← (match args with _ :: s :: _ => millions s | _ => Return 0 end);
        cmd_budget cpu_ns dl_ns;; Return 0 else
      b ← is_cmd cmd "thermal"; if b : bool then
        ns ← (match args with s :: _ => millions s | [] => Return 0 end);
        lvl ← (match args with _ :: s :: _ => '(v, _) ← lift (simple_strtoull s 10); Return v | _ => Return 1 end);
        cmd_thermal ns lvl;; Return 0 else
      write_str (lit "Unknown command: ");; write_str cmd;; write_str (lit "\n");;
      cmd_help;; Return 1
  end.

Definition _start (fr : frame) : prog unit :=
  nerictl_main fr [lit "nerictl"];; syscall SYS_EXIT [Val 0];; Stuck.

End Nerictl.
