(* ===== verification/NerictlProof.v ===== *)
(** * The control tool on the kernel

    What nerictl prints when it runs on the modelled kernel, and what its helpers do. *)

From Stdlib Require Import Ascii String.
From S2P Require Import Prelude Bytes Strings Printk Neri Sched Vfs Syscall SyscallProof Kernel Tools Nerictl.
Import Bytes Strings Syscall SyscallProof Kernel Tools Nerictl.

Module NerictlProof.

(** ** What the helpers print *)

Definition pct_text (val total : Z) : list Z :=
  if total =? 0 then chars "0%" else Vfs.decimal (u64 (val * 100) / total) ++ [37].
(** The number of full cells, out of [width]. *)
Definition filled (val total : Z) (width : nat) : Z := s32 (if truthy total then u64 (val * Z.of_nat width) / total else 0).
Definition bar_text (val total : Z) (width : nat) : list Z :=
  [91] ++ concat (map (fun i => if Z.of_nat i <? filled val total width then chars "█" else chars "░") (seq 0 width)) ++ [93].

Definition status_text (st : neri_status) (anm : neri_anomaly) (pid : Z) : list Z :=
  let gpu := if truthy (gpu_total_slots st) then gpu_total_slots st else 256 in
  chars "\033[1mNekros Resource Pool\033[0m  epoch=" ++ Vfs.decimal (epoch st) ++ chars "\n\n" ++
  chars "  \033[36mCPU\033[0m  " ++ bar_text (cpu_alloc_ns st) (cpu_total_ns st) 20 ++ [32] ++ pct_text (cpu_alloc_ns st) (cpu_total_ns st) ++
  chars "  (alloc=" ++ Vfs.decimal (cpu_alloc_ns st / 1000000) ++ chars "ms / total=" ++ Vfs.decimal (cpu_total_ns st / 1000000) ++ chars "ms)\n" ++
  chars "  \033[36mRAM\033[0m  " ++ bar_text (ram_alloc_pages st) (ram_total_pages st) 20 ++ [32] ++ pct_text (ram_alloc_pages st) (ram_total_pages st) ++
  chars "  (" ++ Vfs.decimal (u64 (ram_alloc_pages st * 4) / 1024) ++ chars " MB / " ++ Vfs.decimal (u64 (ram_total_pages st * 4) / 1024) ++ chars " MB)\n" ++
  chars "  \033[36mGPU\033[0m  " ++ bar_text (gpu_alloc_slots st) gpu 20 ++ [32] ++ pct_text (gpu_alloc_slots st) gpu ++
  chars "  (slots " ++ Vfs.decimal (gpu_alloc_slots st) ++ [47] ++ Vfs.decimal (gpu_total_slots st) ++ chars ")\n\n" ++
  chars "  NSM    " ++ nth (clamp3 (level anm)) (map chars ["\033[32m"; "\033[33m"; "\033[31m"; "\033[1;31m"]%string) [] ++
  nth (clamp3 (level anm)) (map chars ["NORMAL"; "MEDIUM"; "HIGH"; "CRITICAL"]%string) [] ++
  chars "\033[0m  score=" ++ Vfs.decimal (score anm) ++ chars "/255" ++
  (if truthy (blocked anm) then chars "  \033[1m\033[1;31m[ADMISSIONS BLOCKED]\033[0m" else []) ++ chars "\n\n" ++
  chars "  pid=\033[2m" ++ Vfs.decimal pid ++ chars "\033[0m\n".

Definition word (x : Z) : Prop := 0 <= x < 2 ^ 64.

(** A printed number fits the arrays of 24 bytes, its terminator included. *)
Lemma u64_to_str_fits v : word v -> u64_to_str v 24 10 = Done (Vfs.decimal v ++ [0]) /\ (length (Vfs.decimal v) <= 20)%nat /\ 0 ∉ Vfs.decimal v.
Proof.
  intros Hv. unfold word in Hv. unfold u64_to_str, Vfs.decimal, truthy. destruct (Z.eqb_spec v 0) as [->|Hne]; cbn [negb].
  - split; [done|]. split; [cbn; lia | by rewrite list_elem_of_singleton].
  - destruct (digits_printed 10 64 ltac:(lia) 65 24 v) as [E _]; [split; [lia|]; eapply Z.lt_trans; [apply Hv | reflexivity] | lia..|].
    destruct (digits_printed 10 64 ltac:(lia) 65 20 v) as [_ El]; [split; [lia|]; eapply Z.lt_trans; [apply Hv | reflexivity] | lia..|].
    rewrite E. cbn [mbind outcome_bind]. unfold reversed.
    rewrite (proj2 (Nat.ltb_ge _ _)) by lia. rewrite length_rev. split; [done|]. split; [lia|].
    rewrite list_elem_of_In, <- in_rev, <- list_elem_of_In. apply digits_nonzero; lia.
Qed.
(** A byte in hexadecimal fits the array of 3 bytes of [cmd_attest]. *)
Lemma hex_fits v : 0 <= v < 256 -> exists l, u64_to_str v 3 16 = Done (l ++ [0]) /\ (1 <= length l <= 2)%nat /\ 0 ∉ l.
Proof.
  intros Hv. unfold u64_to_str. destruct (Z.eqb_spec v 0) as [->|Hne].
  - exists [48]. split; [done|]. split; [cbn; lia | by rewrite list_elem_of_singleton].
  - destruct (digits_printed 16 64 ltac:(lia) 65 24 v) as [E _]; [split; [lia|]; eapply Z.lt_trans; [apply Hv | reflexivity] | lia..|].
    destruct (digits_printed 16 64 ltac:(lia) 65 2 v) as [_ El]; [split; [lia | apply Hv] | lia..|].
    exists (rev (Printk.digits_of v 16 false 64)). rewrite E. cbn [mbind outcome_bind]. unfold reversed.
    rewrite (proj2 (Nat.ltb_ge _ _)) by lia. rewrite length_rev. split; [done|]. split.
    + split; [|lia]. destruct (Printk.digits_of v 16 false 64) eqn:Ed; [|cbn; lia]. cbn [Printk.digits_of] in Ed. unfold truthy in Ed.
      rewrite (proj2 (Z.eqb_neq _ _) Hne) in Ed. discriminate Ed.
    + rewrite list_elem_of_In, <- in_rev, <- list_elem_of_In. apply digits_nonzero; lia.
Qed.

Section prints.
Context (m : machine) (s : Sched.sys) (ta : Z) (t : Sched.task).
Context (Hsp : 4096 <= m_sp m /\ m_sp m + 4096 <= USER_ADDR_MAX) (H1 : permits t 1).
Abbreviation prints := (prints m s ta t).

Lemma p_str l : 0 ∉ l -> (length l < 4000)%nat -> prints (write_str (l ++ [0])) l ().
Proof.
  intros Hl Hn. unfold write_str. eapply prints_quiet; [by apply prints_lift, strlen_terminated|].
  eapply prints_last; [|apply prints_return].
  pose proof (prints_write m s ta t Hsp (l ++ [0]) (length l) H1) as P. rewrite take_app_length, length_app in P.
  apply P; cbn; lia.
Qed.
(** The literals: checked by computation. *)
Definition printable (l : list Z) : bool := bool_decide (0 ∉ l) && (length l <? 4000)%nat.
Lemma p_chars l : printable l = true -> prints (write_str (l ++ [0])) l ().
Proof. intros [Hl%bool_decide_eq_true Hn%Nat.ltb_lt]%andb_true_iff. by apply p_str. Qed.
Lemma p_lit str : printable (chars str) = true -> prints (write_str (lit str)) (chars str) ().
Proof. apply p_chars. Qed.
Lemma p_char c : prints (write_char c) [c] ().
Proof. unfold write_char. eapply prints_last; [|apply prints_return]. apply (prints_write m s ta t Hsp [c] 1); [done | cbn; lia..]. Qed.
Lemma p_u64 v : word v -> prints (write_u64 v) (Vfs.decimal v) ().
Proof.
  intros Hv. destruct (u64_to_str_fits v Hv) as (E & El & Hz). unfold write_u64.
  eapply prints_quiet; [by apply prints_lift|]. apply p_str; [done | lia].
Qed.

Lemma div_word x y : 0 <= y -> word (u64 x / y).
Proof.
  intros Hy. unfold word, u64. pose proof (Z.mod_pos_bound x (2 ^ 64) ltac:(lia)). destruct (Z.eqb_spec y 0) as [->|]; [rewrite Z.div_0_r; lia|].
  split; [apply Z.div_pos; lia|]. apply Z.div_lt_upper_bound; [lia|]. nia.
Qed.
Lemma word_div x y : word x -> 0 <= y -> word (x / y).
Proof. intros Hx Hy. pose proof (div_word x y Hy) as H. unfold word in Hx. rewrite u64_small in H by lia. done. Qed.
Lemma p_pct val total : 0 <= total -> prints (write_u64_pct val total) (pct_text val total) ().
Proof.
  intros Ht. unfold write_u64_pct, pct_text. apply prints_if; [by apply p_lit|].
  eapply outputs_bind; [by apply p_u64, div_word | apply p_char].
Qed.
Lemma p_bar val total width : prints (write_bar val total width) (bar_text val total width) ().
Proof.
  unfold write_bar, bar_text, filled. eapply outputs_bind; [apply p_char|]. eapply outputs_bind; [|apply p_char].
  apply (prints_for m s ta t width (fun i _ => write_str (if Z.of_nat i <? _ then lit "█" else lit "░"))).
  intros i. casei; by apply p_lit.
Qed.
Lemma p_nth n (l : list string) : (n < length l)%nat -> forallb (fun x => printable (chars x)) l = true ->
  prints (write_str (nth n (map lit l) [])) (nth n (map chars l) []) ().
Proof.
  intros Hn Hp. destruct (lookup_lt_is_Some_2 l n Hn) as [x Ex]. rewrite !nth_lookup, !list_lookup_fmap, Ex. cbn. apply p_lit.
  rewrite forallb_forall in Hp. apply Hp. apply list_elem_of_In. by eapply list_elem_of_lookup_2.
Qed.
Lemma clamp3_lt x : (clamp3 x < 4)%nat.
Proof. unfold clamp3. destruct (Z.ltb_spec x 4); lia. Qed.

Ltac leaf := first [ apply p_lit; reflexivity | apply p_char | apply p_u64; solve [auto with zarith] | apply p_bar | apply p_pct; lia
                   | apply p_nth; [apply clamp3_lt | reflexivity] ].
Ltac print := repeat (eapply outputs_bind; [leaf|]).

(** ** The report *)

Definition words (st : neri_status) : Prop :=
  Forall word [epoch st; cpu_total_ns st; cpu_alloc_ns st; ram_total_pages st; ram_alloc_pages st; gpu_total_slots st; gpu_alloc_slots st].

Lemma cmd_status_prints st0 anm0 st : permits t 20 -> permits t 49 -> permits t 52 -> length st0 = 56%nat -> length anm0 = 24%nat ->
  anomaly_ok (anomaly_of s) ->
  st = status_of (if Sched.neri_ready s then status_bytes (Neri.pool (Neri.n_ps (Sched.nr s))) else st0) -> words st ->
  prints (cmd_status st0 anm0) (status_text st (anomaly_seen (anomaly_of s)) (u64 (Sched.pid t))) ().
Proof.
  intros H20 H49 H52 Hl1 Hl2 Ha Est Hw. unfold cmd_status. eapply prints_quiet; [by apply prints_status|]. cbn [s64 Z.ltb].
  change (s64 0 <? 0) with false. rewrite <- Est. cbn beta iota zeta. apply prints_anomaly; [done..|]. intros b Eb. rewrite Eb. cbn beta iota zeta.
  unfold words in Hw. rewrite !Forall_cons in Hw. destruct Hw as (W1 & W2 & W3 & W4 & W5 & W6 & W7 & _).
  assert (word (u64 (Sched.pid t))) as Wp by (apply Z.mod_pos_bound; lia).
  assert (word (score (anomaly_seen (anomaly_of s)))) as Ws by (destruct Ha as [Ha _]; unfold word; cbn; lia).
  assert (0 <= (if truthy (gpu_total_slots st) then gpu_total_slots st else 256)) as Wg by (unfold word in *; casei; lia).
  assert (0 <= cpu_total_ns st /\ 0 <= ram_total_pages st) as [? ?] by (unfold word in *; lia).
  assert (forall x y, word x -> 0 <= y -> word (x / y)) as Hd by apply word_div. assert (forall x y, 0 <= y -> word (u64 x / y)) as Hd2 by apply div_word.
  unfold status_text, level_colors, level_names. cbn zeta. print.
  eapply outputs_bind; [apply prints_if; [leaf | apply prints_return]|]. print.
  eapply prints_quiet; [by apply prints_getpid|]. print. leaf.
Qed.

End prints.

(** The pool as [struct neri_status] shows it. *)
Definition pool_seen (p : Neri.neri_pool) : neri_status :=
  mk_status (u64 (Neri.epoch p)) (Neri.cpu_total_ns p) (Neri.cpu_alloc_ns p) (Neri.ram_total_pages p) (Neri.ram_alloc_pages p)
    (Neri.gpu_total_slots p) (Neri.gpu_alloc_slots p).
Lemma status_seen p : words (pool_seen p) -> status_of (status_bytes p) = pool_seen p.
Proof.
  intros Hw. unfold words, pool_seen in Hw. cbn in Hw. rewrite !Forall_cons in Hw. destruct Hw as (W1 & W2 & W3 & W4 & W5 & W6 & W7 & _). unfold word in *.
  assert (forall x, 0 <= x < 2 ^ 64 -> of_le (le 8 x) = x) as E by (intros; rewrite of_le_le by lia; apply Z.mod_small; done).
  unfold status_of, status_bytes, pool_seen. f_equal;
    match goal with |- of_le _ = ?x => transitivity (of_le (le 8 x)); [reflexivity | by apply E] end.
Qed.

(** (C9) The control tool reports what the kernel knows: run without arguments by a task that may
    write, it ends with 0 and has sent to the serial line the status text of the
    resource pool, of the anomaly score and of its own number, whatever the stack held,
    wherever in user space its buffers are and whatever the unused registers hold.  Only
    its own name has changed. *)
Theorem nerictl_reports_pool m k ta t fr : 4096 <= m_sp m /\ m_sp m + 4096 <= USER_ADDR_MAX -> running (m_cpu m) k ta t ->
  Forall (permits t) [1; 20; 49; 52; 62] -> Sched.neri_ready (sy k) = true ->
  words (pool_seen (pool_of k)) -> anomaly_ok (anomaly_of (sy k)) ->
  length (fr_st fr) = 56%nat -> length (fr_anm fr) = 24%nat ->
  exists k', run (H := nekros m) (nerictl_main fr [lit "nerictl"]) k = Done (k', Some 0) /\
    Vfs.tty (kfs k') = foldl Printk.serial_putc (Vfs.tty (kfs k))
      (status_text (pool_seen (pool_of k)) (anomaly_seen (anomaly_of (sy k))) (u64 (Sched.pid t))) /\
    sy k' = Sched.put (sy k) ta (set_name t (chars "nerictl")) /\ kcc k' = kcc k.
Proof.
  intros Hsp R Hp Hr Hw Ha Hl1 Hl2. rewrite !Forall_cons in Hp. destruct Hp as (P1 & P20 & P49 & P52 & P62 & _).
  change (nerictl_main fr [lit "nerictl"]) with
    (bind (Tools.syscall 62 [Ptr (chars "nerictl" ++ [0])]) (fun _ => cmd_status (fr_st fr) (fr_anm fr);; Return 0)).
  rewrite run_bind, (run_set_name m ta t Hsp k (chars "nerictl") P62) by first [done | apply (bool_decide_unpack _); vm_compute; exact I | vm_compute; lia].
  cbn [mbind outcome_bind].
  pose proof (running_put m ta t _ (set_name t (chars "nerictl")) (running_umem m ta t k (uwrite (umem k) (m_sp m) (chars "nerictl" ++ [0])) R)) as R2.
  assert (prints m (Sched.put (sy k) ta (set_name t (chars "nerictl"))) ta (set_name t (chars "nerictl"))
    (cmd_status (fr_st fr) (fr_anm fr);; Return 0)
    (status_text (pool_seen (pool_of k)) (anomaly_seen (anomaly_of (sy k))) (u64 (Sched.pid t))) 0) as P.
  { eapply prints_last; [|apply prints_return]. 
    apply (cmd_status_prints m (Sched.put (sy k) ta (set_name t (chars "nerictl"))) ta (set_name t (chars "nerictl")) Hsp P1); [done..| |].
    - change (Sched.neri_ready (Sched.put _ _ _)) with (Sched.neri_ready (sy k)). rewrite Hr. symmetry. by apply status_seen.
    - done. }
  cbn [sy with_umem] in R2. edestruct P as (k' & E & Q); [|exact R2|]; [reflexivity|]. exists k'. split; [exact E|]. destruct Q as [Q1 _ Q2 _ _ Q3]. split; [exact Q3|]. split; [exact Q1 | exact Q2].
Qed.

(** ** Bars *)

Lemma map_cells {A} (x y : A) f : forall n i, (f <= n)%nat ->
  map (fun j => if Z.of_nat j <? Z.of_nat (i + f) then x else y) (seq i n) = replicate f x ++ replicate (n - f) y.
Proof.
  induction f as [|f IH]; intros n i Hf.
  - rewrite Nat.sub_0_r, Nat.add_0_r. cbn [replicate app]. apply list_eq. intros j. rewrite list_lookup_fmap. destruct (decide (j < n)%nat).
    + rewrite lookup_seq_lt, lookup_replicate_2 by done. cbn. by rewrite (proj2 (Z.ltb_ge _ _)) by lia.
    + rewrite lookup_seq_ge, lookup_ge_None_2; [done | rewrite length_replicate; lia | lia].
  - destruct n as [|n]; [lia|]. cbn [seq map replicate app Nat.sub]. rewrite (proj2 (Z.ltb_lt _ _)) by lia. f_equal.
    replace (i + S f)%nat with (S i + f)%nat by lia. apply IH. lia.
Qed.

(** The bars are true to scale: for an amount up to its total (and small enough for the
    product to fit 64 bits) the bar has exactly [width] cells, of which val * width / total
    are full, from the left; the bar is full exactly for the whole total, and the percentage
    beside it is at most 100. *)
Theorem bar_to_scale val total width : 0 <= val <= total -> 0 < total -> val * Z.of_nat width < 2 ^ 64 -> val * 100 < 2 ^ 64 -> 0 < Z.of_nat width < 2 ^ 31 ->
  let f := Z.to_nat (val * Z.of_nat width / total) in
  bar_text val total width = [91] ++ concat (replicate f (chars "█") ++ replicate (width - f) (chars "░")) ++ [93] /\
  (f <= width)%nat /\ (f = width <-> val = total) /\
  pct_text val total = Vfs.decimal (val * 100 / total) ++ [37] /\ 0 <= val * 100 / total <= 100.
Proof.
  intros Hv Ht Hw Hp Hn f. assert (0 <= val * Z.of_nat width / total <= Z.of_nat width) as Hf.
  { split; [apply Z.div_pos; lia | apply Z.div_le_upper_bound; nia]. }
  split; [|split; [subst f; lia | split]].
  - unfold bar_text, filled, truthy. rewrite (proj2 (Z.eqb_neq total 0)) by lia. cbn [negb]. rewrite u64_small by lia.
    unfold s32. rewrite Z.mod_small by lia. replace (_ + 2 ^ 31 - 2 ^ 31) with (Z.of_nat (0 + f)) by (subst f; lia).
    by rewrite map_cells by (subst f; lia).
  - subst f. split; [|intros ->; rewrite Z.mul_comm, Z.div_mul by lia; lia]. intros E.
    pose proof (Z.mul_div_le (val * Z.of_nat width) total Ht). nia.
  - unfold pct_text. rewrite (proj2 (Z.eqb_neq total 0)) by lia. rewrite u64_small by lia. split; [done|].
    split; [apply Z.div_pos; lia | apply Z.div_le_upper_bound; lia].
Qed.
Lemma bar_to_scale_witness : bar_text 1 2 4 = chars "[██░░]" /\ pct_text 1 2 = chars "50%".
Proof.
  destruct (bar_to_scale 1 2 4) as (E & _ & _ & E' & _); [lia | lia | vm_compute; reflexivity | lia | lia|]. rewrite E, E'. split; reflexivity.
Defined.

(** The pool half used, on a machine whose stack holds garbage. *)
Definition pool_ex : Neri.neri_pool := Neri.mk_pool 8000000 4000000 2048 1024 256 64 12 0.
Definition kst_pool : kst :=
  let s := alone (Sched.set_state Sched.zero_task Sched.TASK_RUNNING) in
  let n := Sched.nr s in
  kst_ex (Sched.with_nr s (Neri.mk_neri (Neri.mk_ps pool_ex ∅ 0 true) (Neri.n_utb n) (Neri.n_nzra n) (Neri.n_neki n) (Neri.n_sec n))).
Definition machine_ex : machine := mk_machine ambient_ex SchedProof.SchedProof.hw_ex 0 1000 0x7FFF0000 [].
Definition frame_ex : frame := mk_frame (replicate 56 170) (replicate 24 170) (replicate 256 170).

Lemma nerictl_reports_pool_witness : exists k', run (H := nekros machine_ex) (nerictl_main frame_ex [lit "nerictl"]) kst_pool = Done (k', Some 0) /\
  take 38 (Printk.serial (Vfs.tty (kfs k'))) = chars "\033[1mNekros Resource Pool\033[0m  epoch=12".
Proof.
  destruct (nerictl_reports_pool machine_ex kst_pool 0x1000 (Sched.set_state Sched.zero_task Sched.TASK_RUNNING) frame_ex) as (k' & E & T & _).
  - cbn. unfold USER_ADDR_MAX. lia.
  - split; [cbn; lia | reflexivity | apply lookup_insert_eq | reflexivity | reflexivity].
  - repeat constructor; discriminate.
  - reflexivity.
  - repeat (apply Forall_cons; split; [split; vm_compute; congruence|]). constructor.
  - repeat split; vm_compute; congruence.
  - reflexivity.
  - reflexivity.
  - exists k'. split; [exact E|]. rewrite T. vm_compute. reflexivity.
Defined.

End NerictlProof.
