(* ===== verification/Cortexcrypt.v ===== *)
(** * tools/cortexcrypt/cortexcrypt.c: the encryption tool

    The commands that exist (status, attest, verify, ipc, secure-alloc, help) and the
    entry point, which pledges first. *)

From Stdlib Require Import Ascii String.
From S2P Require Import Prelude Bytes Strings Tools.
Import Bytes Strings Tools.

Module Cortexcrypt.

Definition NK_PROC_INTENT : Z := 40.
Definition NK_ATTEST_SELF : Z := 42.
Definition NK_SECURE_ALLOC : Z := 44.
Definition NK_IPC_CHANNEL : Z := 46.
Definition NK_ANOMALY_SCORE : Z := 52.
Definition NK_PLEDGE : Z := 53.
Definition NK_SET_NAME : Z := 62.

(** ** Calls and output *)

Definition sc_write (fd : Z) (buf : list Z) (len : Z) : prog Z := syscall 1 [Val fd; Ptr buf; Val len].
Definition sc_exit (code : Z) : prog unit := syscall 2 [Val (u64 code)];; Stuck.
Definition sc_getpid : prog Z := syscall 20 [].

Definition out (s : list Z) : prog unit := n ← lift (strlen s); sc_write 1 s (Z.of_nat n);; Return ().
Definition outc (c : Z) : prog unit := sc_write 1 [c] 1;; Return ().
Definition outnl : prog unit := outc 10.
Definition out_u64 (v : Z) : prog unit :=
  if v =? 0 then out (lit "0") else t ← lift (digits v 10 24 65); b ← lift (reversed t 24); out b.
Definition out_hex (d : list Z) (len : nat) : prog unit :=
  for_range 0 len () (fun i _ =>
    outc (at_ hx (Z.to_nat (Z.shiftr (at_ d i) 4)));; outc (at_ hx (Z.to_nat (Z.land (at_ d i) 0xf)));;
    (if ((i + 1) mod 32 =? 0)%nat then out (lit "\n  ") else Return ())).

(** ** The file format *)

Definition CORTEX_MAGIC : Z := 0x58455443.
Definition CORTEX_VERSION : Z := 1.
(** The packed header: each field with its size. *)
Definition cortex_header : list (string * nat) :=
  [("magic", 4); ("version", 4); ("plaintext_len", 8); ("nonce", 12); ("tag", 16); ("binding_policy", 4); ("attestation", 128);
   ("anomaly_epoch", 8); ("anomaly_score", 1); ("machine_fp", 32); ("_pad", 3)]%nat%string.

(** ** Commands *)

(** [struct neri_anomaly anm = {0}]. *)
Definition zero_anomaly : list Z := replicate 24 0.

Definition cmd_status : prog unit :=
  '(_, anm) ← syscall_out NK_ANOMALY_SCORE [Ptr zero_anomaly];
  let anm := anomaly_at anm in
  out (lit "\033[1mCortexCrypto + Nekros Status\033[0m\n\n");;
  out (lit "  Machine binding:  AES-256-GCM + HMAC-SHA256\n");;
  out (lit "  KDF pipeline:     HMAC-SHA256 × 2 + HKDF (kernel)\n");;
  out (lit "  Process attest:   CortexCrypto sealed token\n");;
  out (lit "  Zero-trust IPC:   AES-256-GCM session key\n");;
  out (lit "  Kernel bridge:    nk_attest_self + nk_secure_alloc + nk_ipc\n\n");;
  out (lit "  NSM threat level: ");;
  let lv := clamp3 (level anm) in
  out (nth lv level_colors []);; out (nth lv level_names []);; out (lit "\033[0m");;
  out (lit "  score=");; out_u64 (score anm);; out (lit "/255\n\n");;
  out (lit "  KDF cost adaptation:\n");;
  (if level anm =? 0 then out (lit "    Base parameters (fast)\n")
   else if level anm =? 1 then out (lit "    +50% cost (elevated)\n")
   else if level anm =? 2 then out (lit "    +200% cost + re-auth prompt\n")
   else out (lit "    BLOCKED — encryptions suspended\n"));;
  outnl.

(** [token0]: what the 256 bytes of [token] hold before. *)
Definition cmd_attest (token0 : list Z) : prog unit :=
  syscall NK_PROC_INTENT [Val 4; Val 2000000; Val 128];;
  '(tlen, token) ← syscall_out NK_ATTEST_SELF [Ptr token0; Val 256];
  if s64 tlen <? 0 then out (lit "Error: attestation failed (is Nekros running?)\n") else
  out (lit "\033[1mProcess Attestation Token\033[0m\n\n");;
  out (lit "  PID:    ");; pid ← sc_getpid; out_u64 pid;; outnl;;
  out (lit "  Length: ");; out_u64 tlen;; out (lit " bytes\n");;
  out (lit "  Type:   AES-256-GCM sealed, machine-bound\n\n");;
  out (lit "  Token:\n  ");;
  out_hex token (Z.to_nat (if tlen <? 48 then tlen else 48));;
  out (lit "\n  ...\n\n");;
  out (lit "  This token proves:\n");;
  out (lit "    - This process is who it claims to be\n");;
  out (lit "    - It runs on this specific machine\n");;
  out (lit "    - Its NSM anomaly score was below CRITICAL\n");;
  out (lit "    - It has not been tampered with\n\n");;
  out (lit "  Share with nerictl verify <pid> or another process'\n");;
  out (lit "  nk_attest_peer() call to verify this identity.\n\n").

Definition cmd_verify (pid : Z) : prog unit :=
  out (lit "Verifying PID ");; out_u64 pid;; out (lit " attestation...\n");;
  out (lit "  (In production: exchange tokens via nk_ipc_channel)\n");;
  out (lit "  Expected: peer sends token via zero-trust IPC,\n");;
  out (lit "  we call nk_attest_peer(token, size, pid)\n");;
  out (lit "  Returns 0 = VERIFIED, -EACCES = INVALID/TAMPERED\n\n");;
  out (lit "  Using nk_ipc_channel for zero-trust attestation exchange:\n");;
  fd ← syscall NK_IPC_CHANNEL [Val pid; Val 0];
  if s64 fd <? 0 then out (lit "  IPC channel create failed (process not found or NSM blocked)\n") else
  out (lit "  Channel established fd=");; out_u64 fd;; outnl;;
  out (lit "  Session key: AES-256-GCM, derived from both attestation tokens\n");;
  out (lit "  Data in kernel ring buffer is encrypted — root cannot intercept\n\n").

Definition cmd_ipc (peer_pid : Z) : prog unit :=
  out (lit "\033[1mZero-Trust IPC Channel\033[0m  peer=");;
  out_u64 peer_pid;; outnl;; outnl;;
  fd ← syscall NK_IPC_CHANNEL [Val peer_pid; Val 0];
  if s64 fd <? 0 then out (lit "  Failed to create channel\n") else
  out (lit "  Channel fd=");; out_u64 fd;; outnl;;
  out (lit "  Encryption: AES-256-GCM\n");;
  out (lit "  Session key: HMAC-SHA256(machine_key,\n");;
  out (lit "               attest_A || attest_B || timestamp)\n");;
  out (lit "  Ring buffer: kernel-encrypted, even root reads ciphertext\n\n");;
  out (lit "  Use nk_ipc_send/nk_ipc_recv to exchange data on this channel.\n\n").

(** The address is printed through two arrays of 17 bytes. *)
Definition cmd_secure_alloc (pages : Z) : prog unit :=
  syscall NK_PROC_INTENT [Val 4; Val 0; Val 0];;
  ptr ← syscall NK_SECURE_ALLOC [Val pages; Val 0];
  if (ptr =? 0) || (s64 ptr <? 0) then out (lit "Secure alloc failed\n") else
  out (lit "Encrypted memory region allocated:\n");;
  out (lit "  Address: 0x");;
  t ← lift (digits ptr 16 17 65); b ← lift (reversed t 17); out b;;
  outnl;;
  out (lit "  Pages:   ");; out_u64 pages;; outnl;;
  out (lit "  Size:    ");; out_u64 (u64 (pages * 4096) / 1024);; out (lit " KB\n");;
  out (lit "  Policy:  BIND_PROCESS (freed on exit)\n");;
  out (lit "  DEK:     HMAC-SHA256 derived, stored in kernel keyring\n");;
  out (lit "  On free: crypto-erase (overwrite + DEK destroy)\n\n");;
  out (lit "Use nk_mem_snapshot to seal current contents to disk.\n\n").

Definition cmd_help : prog unit :=
  out (lit ("\033[1mcortexcrypt\033[0m — Nekros CortexCrypto CLI\n\n" ++
    "  \033[36mstatus\033[0m               Show crypto bridge + NSM status\n" ++
    "  \033[36mattest\033[0m               Print our process attestation token\n" ++
    "  \033[36mverify\033[0m <pid>         Verify another process identity\n" ++
    "  \033[36mipc\033[0m <peer_pid>       Create zero-trust IPC channel\n" ++
    "  \033[36msecure-alloc\033[0m <pages> Allocate AES-256-GCM memory region\n" ++
    "  \033[36mhelp\033[0m                 This screen\n\n" ++
    "Novel Nekros features used:\n" ++
    "  nk_attest_self/peer  — process identity without a CA\n" ++
    "  nk_secure_alloc      — encrypted memory native to kernel\n" ++
    "  nk_ipc_channel       — zero-trust IPC (kernel-encrypted)\n" ++
    "  nk_anomaly_score     — adaptive KDF cost under threat\n" ++
    "  nk_proc_intent       — semantic resource allocation\n\n")).

(** ** Entry point *)

Definition mask : Z := foldl (fun m n => Z.lor m (shl64 1 n)) 0 [0; 1; 2; 20; 40; 42; 43; 44; 45; 46; 47; 48; 49; 52; 53; 62].
(** What follows the pledge. *)
Definition body : prog unit := cmd_status;; sc_exit 0.
Definition _start : prog unit :=
  syscall NK_SET_NAME [Ptr (lit "cortexcrypt")];;
  syscall NK_PLEDGE [Val mask];;
  body.

End Cortexcrypt.
