(* ===== verification/InitTool.v ===== *)
(** * tools/init/init.c: the first process

    The program up to its loop, and the loop, which never ends, as an interaction tree
    over the same calls. *)

From Stdlib Require Import Ascii String.
From ITree Require Import ITree.
From Paco Require Import paco.
From S2P Require Import Prelude Bytes Strings Tools.
Import Bytes Strings Tools.

Module InitTool.

Definition NK_PROC_INTENT : Z := 40.
Definition NK_NERI_STATUS : Z := 49.
Definition NK_ANOMALY_SCORE : Z := 52.
Definition NK_PLEDGE : Z := 53.
Definition NK_SET_NAME : Z := 62.

Definition wr (s : list Z) : prog unit := n ← lift (strlen s); syscall 1 [Val 1; Ptr s; Val (Z.of_nat n)];; Return ().
Definition wru64 (v : Z) : prog unit :=
  if v =? 0 then wr (lit "0") else t ← lift (digits v 10 24 65); b ← lift (reversed t 24); wr b.
Definition sc_exit (c : Z) : prog unit := syscall 2 [Val (u64 c)];; Stuck.

Definition print_banner : prog unit :=
  wr (lit "\033[2J\033[H");;
  wr (lit "\033[1;36m");;
  wr (lit "  ███╗   ██╗███████╗██╗  ██╗██████╗  ██████╗ ███████╗\n");;
  wr (lit "  ████╗  ██║██╔════╝██║ ██╔╝██╔══██╗██╔═══██╗██╔════╝\n");;
  wr (lit "  ██╔██╗ ██║█████╗  █████╔╝ ██████╔╝██║   ██║███████╗\n");;
  wr (lit "  ██║╚██╗██║██╔══╝  ██╔═██╗ ██╔══██╗██║   ██║╚════██║\n");;
  wr (lit "  ██║ ╚████║███████╗██║  ██╗██║  ██║╚██████╔╝███████║\n");;
  wr (lit "  ╚═╝  ╚═══╝╚══════╝╚═╝  ╚═╝╚═╝  ╚═╝ ╚═════╝ ╚══════╝\n");;
  wr (lit "\033[0m\n");;
  wr (lit "  \033[1mSecure Developer Kernel\033[0m");;
  wr (lit "  built from scratch\n");;
  wr (lit "  Neri v0.5.0 + CortexCrypto + 24 novel syscalls\n");;
  wr (lit "\n");;
  wr (lit "  Kernel features:\n");;
  wr (lit "    nk_proc_intent      — semantic process placement\n");;
  wr (lit "    nk_work_budget      — temporal CPU guarantees\n");;
  wr (lit "    nk_attest_self/peer — zero-trust process identity\n");;
  wr (lit "    nk_secure_alloc     — AES-256-GCM memory regions\n");;
  wr (lit "    nk_ipc_channel      — encrypted kernel IPC\n");;
  wr (lit "    nk_thermal_hint     — predictive RAPL headroom\n");;
  wr (lit "    nk_anomaly_score    — live NSM threat score\n");;
  wr (lit "    nk_pledge           — irreversible syscall whitelist\n");;
  wr (lit "\n").

Definition print_status : prog unit :=
  '(_, st) ← syscall_out NK_NERI_STATUS [Ptr (replicate 56 0)];
  '(_, anm) ← syscall_out NK_ANOMALY_SCORE [Ptr (replicate 24 0)];
  let st := status_of st in
  let anm := anomaly_at anm in
  wr (lit "  Resource pool  epoch=");; wru64 (epoch st);;
  wr (lit "  CPU ");;
  (if truthy (cpu_total_ns st) then wru64 (u64 (cpu_alloc_ns st * 100) / cpu_total_ns st);; wr (lit "% ") else Return ());;
  wr (lit "  RAM ");;
  (if truthy (ram_total_pages st) then wru64 (u64 (ram_alloc_pages st * 4096) / 1048576);; wr (lit " MB") else Return ());;
  wr (lit "  NSM ");;
  let l := clamp3 (level anm) in
  wr (nth l level_colors []);; wr (nth l level_names []);; wr (lit "\033[0m");;
  wr (lit " score=");; wru64 (score anm);;
  wr (lit "/255\n\n").

Definition pledge : Z := foldl (fun m n => Z.lor m (shl64 1 n)) 0 [0; 1; 2; 17; 20; 40; 42; 49; 52; 53; 62].

(** Up to the pledge, from there to the loop, and a round of the loop. *)
Definition declare : prog unit :=
  syscall NK_SET_NAME [Ptr (lit "init")];;
  syscall NK_PROC_INTENT [Val 3; Val 100000; Val 4];;
  syscall NK_PLEDGE [Val pledge];; Return ().
Definition greet : prog unit :=
  print_banner;;
  print_status;;
  wr (lit "  init: PID 1 ready. ");;
  wr (lit "Waiting for kernel events...\n\n");;
  wr (lit "  To interact:\n");;
  wr (lit "    nerictl status       — resource pool\n");;
  wr (lit "    nerictl anomaly      — NSM threat score\n");;
  wr (lit "    nerictl intent compile 4000  — set intent\n");;
  wr (lit "    cortexcrypt status   — crypto bridge\n");;
  wr (lit "    cortexcrypt attest   — process identity\n\n").
Definition check_anomaly : prog unit :=
  '(_, anm) ← syscall_out NK_ANOMALY_SCORE [Ptr (replicate 24 0)];
  let anm := anomaly_at anm in
  if 2 <=? level anm then
    wr (lit "\033[1;31m  [ALERT] NSM threat level ");;
    wr (nth (clamp3 (level anm)) level_names []);;
    wr (lit " — score=");; wru64 (score anm);;
    wr (lit "/255\033[0m\n")
  else Return ().
(** [tick] before and after. *)
Definition round (tick : Z) : prog Z :=
  syscall 17 [];;
  let tick := u64 (tick + 1) in
  (if Z.land tick 127 =? 0 then check_anomaly else Return ());;
  Return tick.

(** ** The whole program *)

Variant sysE : Type -> Type :=
| SysCall (nr : Z) (args : list arg) : sysE (Z * list (list Z))
| ReadTsc : sysE Z
| Wrong : sysE void.

Fixpoint tree {A} (p : prog A) : itree sysE A :=
  match p with
  | Return a => Ret a
  | Call nr args cont => Vis (SysCall nr args) (fun r => tree (cont r.1 r.2))
  | Rdtsc cont => Vis ReadTsc (fun t => tree (cont t))
  | Stuck => Vis Wrong (fun v => match v : void with end)
  end.
(** The loop [while (1)] from a value of [tick] on. *)
Definition forever (tick : Z) : itree sysE void := ITree.iter (fun tick => ITree.bind (tree (round tick)) (fun t => Ret (inl t))) tick.
Definition main : itree sysE void := ITree.bind (tree (declare;; greet)) (fun _ => forever 0).

End InitTool.
