(* ===== verification/ToolsSafe.v ===== *)
(** * The user programs stay in bounds and in their pledge

    [safe P p Q]: whatever the system answers, the program makes only calls of [P], never
    leaves an object, and ends, if it ends, with a value in [Q].  An answer is a 64-bit
    value and, for each buffer of the call, as many bytes; exit does not answer. *)

From Stdlib Require Import Ascii String.
From ITree Require Import ITree.
From Paco Require Import paco.
From S2P Require Import Prelude Bytes Strings Printk Vfs Syscall Tools Nerictl NerictlProof Cortexcrypt InitTool.
Import Bytes Strings Syscall Tools.

Module ToolsSafe.

Abbreviation word := NerictlProof.word.
Definition buffers (args : list arg) : list (list Z) := omap (fun a => match a with Ptr b => Some b | Val _ => None end) args.
Definition answer_ok (nr : Z) (args : list arg) (v : Z) (bufs : list (list Z)) : Prop :=
  nr <> 2 /\ word v /\ Forall2 (fun b b' => length b' = length b /\ bytes_ok b') (buffers args) bufs.

Fixpoint safe (P : Z -> bool) {A} (p : prog A) (Q : A -> Prop) : Prop :=
  match p with
  | Return a => Q a
  | Call nr args cont => P nr = true /\ forall v bufs, answer_ok nr args v bufs -> safe P (cont v bufs) Q
  | Rdtsc cont => forall t, safe P (cont t) Q
  | Stuck => False
  end.
Definition any {A} (_ : A) : Prop := True.

(** Strings. *)
Definition terminated (s : list Z) : Prop := exists l rest, s = l ++ 0 :: rest /\ 0 ∉ l.
Lemma terminated_str l : 0 ∉ l -> terminated (l ++ [0]).
Proof. intros. by exists l, []. Qed.
Definition nul_free (l : list Z) : bool := bool_decide (0 ∉ l).
Lemma terminated_lit s : nul_free (chars s) = true -> terminated (lit s).
Proof. intros H%bool_decide_eq_true. by apply terminated_str. Qed.
Lemma terminated_nth n (l : list string) : (n < length l)%nat -> forallb (fun x => nul_free (chars x)) l = true -> terminated (nth n (map lit l) []).
Proof.
  intros Hn Hp. destruct (lookup_lt_is_Some_2 l n Hn) as [x Ex]. rewrite nth_lookup, list_lookup_fmap, Ex. cbn. apply terminated_lit.
  rewrite forallb_forall in Hp. apply Hp, list_elem_of_In. by eapply list_elem_of_lookup_2.
Qed.
Lemma strlen_ok s : terminated s -> exists n, strlen s = Done n /\ (n < length s)%nat.
Proof. intros (l & rest & -> & Hl). exists (length l). split; [by apply strlen_terminated | rewrite length_app; cbn; lia]. Qed.
Lemma strcmp_ok a : forall b, terminated a -> terminated b -> exists z, strcmp a b = Done z.
Proof.
  induction a as [|x a IH]; intros b Ha Hb; destruct Ha as (l1 & r1 & E1 & H1); destruct Hb as (l2 & r2 & E2 & H2).
  - destruct l1; discriminate.
  - destruct b as [|y b]; [destruct l2; discriminate|]. cbn [strcmp]. destruct (truthy x && (x =? y)) eqn:E; [|eauto].
    apply andb_true_iff in E as [Ex%negb_true_iff%Z.eqb_neq <-%Z.eqb_eq]. apply IH.
    + destruct l1 as [|c l1]; [injection E1; intros; subst; done|]. injection E1 as -> ->. exists l1, r1. split; [done | set_solver].
    + destruct l2 as [|c l2]; [injection E2; intros; subst; done|]. injection E2 as -> ->. exists l2, r2. split; [done | set_solver].
Qed.
Lemma digits_loop_word base s : terminated s -> forall r i, word r -> exists v j, digits_loop s base r i = Done (v, j) /\ word v.
Proof.
  intros (l & rest & -> & Hl). induction l as [|c l IH]; intros r i Hr; cbn [app digits_loop].
  - change (isxdigit 0) with false. eauto.
  - casei; [|eauto]. casei; [eauto|]. apply IH; [set_solver|]. apply Z.mod_pos_bound; lia.
Qed.
Lemma skip_spaces_ok s : terminated s -> forall i, exists s' j, skip_spaces s i = Done (s', j) /\ terminated s'.
Proof.
  intros (l & rest & -> & Hl). induction l as [|c l IH]; intros i; cbn [app skip_spaces].
  - change (isspace 0) with false. eexists _, _. split; [done|]. by exists [], rest.
  - casei; [apply IH; set_solver|]. eexists _, _. split; [done|]. by exists (c :: l), rest.
Qed.
Lemma strtoull_ok s : terminated s -> exists v i, simple_strtoull s 10 = Done (v, i) /\ word v.
Proof.
  intros Hs. unfold simple_strtoull. destruct (skip_spaces_ok s Hs 0) as (s' & i & -> & Hs'). cbn [mbind outcome_bind].
  change (10 =? 0) with false. apply digits_loop_word; [done|]. split; [done | reflexivity].
Qed.

(** Numbers from memory. *)
Lemma of_le_range l : bytes_ok l -> 0 <= of_le l < 256 ^ Z.of_nat (length l).
Proof.
  induction l as [|b l IH]; intros Hl; [done|]. apply Forall_cons in Hl as [Hb Hl]. specialize (IH Hl). unfold byte_ok in Hb.
  cbn [of_le foldr length]. fold (of_le l). rewrite Nat2Z.inj_succ, Z.pow_succ_r by lia. lia.
Qed.
Lemma field_range b off n : bytes_ok b -> (off + n <= length b)%nat -> 0 <= of_le (slice b off n) < 256 ^ Z.of_nat n.
Proof.
  intros Hb Hl. pose proof (of_le_range (slice b off n)) as H. rewrite (length_slice b off n Hl) in H. apply H. unfold slice. by apply Forall_take, Forall_drop.
Qed.
Lemma status_words b : length b = 56%nat -> bytes_ok b -> NerictlProof.words (status_of b).
Proof.
  intros Hl Hb. unfold NerictlProof.words, status_of. cbn. repeat (constructor; [apply (field_range b _ 8 Hb); lia|]). constructor.
Qed.
Lemma anomaly_words b : length b = 24%nat -> bytes_ok b -> word (score (anomaly_at b)) /\ word (a_epoch (anomaly_at b)).
Proof.
  intros Hl Hb. unfold anomaly_at. cbn [score a_epoch]. split; [|apply (field_range b _ 8 Hb); lia].
  pose proof (field_range b 0 1 Hb ltac:(lia)). unfold NerictlProof.word. change (256 ^ Z.of_nat 1) with 256 in *. lia.
Qed.

Section rules.
Context (P : Z -> bool).

Lemma safe_bind {A B} (p : prog A) (f : A -> prog B) R Q : safe P p R -> (forall a, R a -> safe P (f a) Q) -> safe P (p ≫= f) Q.
Proof.
  intros Hp Hf. induction p as [a|nr args cont IH|cont IH|]; cbn in *; [by apply Hf | | intros t; apply IH, Hp | done].
  destruct Hp as [Hn Hp]. split; [done|]. intros v bufs Ha. by apply IH, Hp.
Qed.
Lemma safe_mono {A} (p : prog A) (Q R : A -> Prop) : safe P p Q -> (forall a, Q a -> R a) -> safe P p R.
Proof.
  intros Hp HQ. induction p as [a|nr args cont IH|cont IH|]; cbn in *; [by apply HQ | | intros t; apply IH, Hp | done].
  destruct Hp as [Hn Hp]. split; [done|]. intros v bufs Ha. by apply IH, Hp.
Qed.
Lemma safe_then {A B} (p : prog A) (q : prog B) Q : safe P p any -> safe P q Q -> safe P (p;; q) Q.
Proof. intros. by eapply safe_bind. Qed.
Lemma safe_lift {A} (o : outcome A) (Q : A -> Prop) a : o = Done a -> Q a -> safe P (lift o) Q.
Proof. by intros ->. Qed.
Lemma safe_return {A} (a : A) (Q : A -> Prop) : Q a -> safe P (Return a) Q.
Proof. done. Qed.
Lemma safe_if {A} (b : bool) (p q : prog A) Q : safe P p Q -> safe P q Q -> safe P (if b then p else q) Q.
Proof. by destruct b. Qed.
Lemma safe_for {A} n (body : nat -> A -> prog A) (R : A -> Prop) j : forall i a, R a -> (i + n = j)%nat ->
  (forall i a, (i < j)%nat -> R a -> safe P (body i a) R) -> safe P (for_range i n a body) R.
Proof.
  induction n as [|n IH]; intros i a Ha Hj Hb; cbn [for_range]; [done|].
  eapply safe_bind; [apply Hb; [lia | done]|]. intros a' Ha'. apply IH; [done | lia | done].
Qed.

(** A call: its value is a word, its first buffer has as many bytes. *)
Lemma safe_syscall nr args : P nr = true -> safe P (syscall nr args) word.
Proof. intros Hn. split; [done|]. by intros v bufs (_ & Hv & _). Qed.
Definition filled_like (b : list Z) (r : Z * list Z) : Prop := word r.1 /\ length r.2 = length b /\ bytes_ok r.2.
Lemma safe_syscall_out nr b args : P nr = true -> safe P (syscall_out nr (Ptr b :: args)) (filled_like b).
Proof.
  intros Hn. split; [done|]. intros v bufs (_ & Hv & Hb). cbn [buffers omap list_omap] in Hb. inversion Hb as [|? b' ? bufs' [Hl Hok] _]; subst.
  by split.
Qed.
Lemma safe_exit {A} v (p : prog A) Q : P 2 = true -> safe P (syscall 2 [Val v];; p) Q.
Proof. intros Hn. split; [done|]. by intros v' bufs [H _]. Qed.

(** ** Output *)

Context (P1 : P 1 = true).

Lemma s_str s : terminated s -> safe P (Nerictl.write_str s) any.
Proof.
  intros Hs. destruct (strlen_ok s Hs) as (n & E & _). unfold Nerictl.write_str. eapply safe_bind; [by apply (safe_lift _ any n)|].
  intros n' _. eapply safe_bind; [by apply safe_syscall | done].
Qed.
Lemma s_lit s : nul_free (chars s) = true -> safe P (Nerictl.write_str (lit s)) any.
Proof. intros. by apply s_str, terminated_lit. Qed.
Lemma s_nth n l : (n < length l)%nat -> forallb (fun x => nul_free (chars x)) l = true -> safe P (Nerictl.write_str (nth n (map lit l) [])) any.
Proof. intros. by apply s_str, terminated_nth. Qed.
Lemma s_char c : safe P (Nerictl.write_char c) any.
Proof. eapply safe_bind; [by apply safe_syscall | done]. Qed.
Lemma s_u64 v : word v -> safe P (Nerictl.write_u64 v) any.
Proof.
  intros Hv. destruct (NerictlProof.u64_to_str_fits v Hv) as (E & _ & Hz). unfold Nerictl.write_u64.
  eapply safe_bind; [by apply (safe_lift _ (fun l => l = Vfs.decimal v ++ [0]) _ E)|]. intros l ->. by apply s_str, terminated_str.
Qed.
Lemma s_pct val total : 0 <= total -> safe P (Nerictl.write_u64_pct val total) any.
Proof. intros. apply safe_if; [by apply s_lit|]. apply safe_then; [by apply s_u64, NerictlProof.div_word | apply s_char]. Qed.
Lemma s_bar val total width : safe P (Nerictl.write_bar val total width) any.
Proof.
  apply safe_then; [apply s_char|]. apply safe_then; [|apply s_char]. eapply safe_for; [done | reflexivity|].
  intros i a _ _. casei; by apply s_lit.
Qed.
(** The other two programs print numbers in their own function, to the same effect. *)
Lemma digits_fit v base cap buf : 2 <= base <= 16 -> 0 <= v < base ^ Z.of_nat cap -> (cap < buf <= 64)%nat ->
  exists t s, digits v base buf 65 = Done t /\ reversed t buf = Done s /\ terminated s.
Proof.
  intros Hb Hv Hc. destruct (digits_printed base 64 Hb 65 cap v Hv) as [_ El]; [lia..|].
  destruct (digits_printed base 64 Hb 65 buf v) as [E _]; [split; [lia|]; eapply Z.lt_le_trans; [apply Hv | apply Z.pow_le_mono_r; lia] | lia..|].
  eexists _, _. split; [exact E|]. unfold reversed. rewrite (proj2 (Nat.ltb_ge _ _)) by lia. split; [done|].
  apply terminated_str. rewrite list_elem_of_In, <- in_rev, <- list_elem_of_In. apply digits_nonzero; lia.
Qed.
Lemma s_out_u64 v : word v -> safe P (Cortexcrypt.out_u64 v) any.
Proof.
  intros Hv. unfold Cortexcrypt.out_u64. apply safe_if; [by apply (s_lit "0")|].
  destruct (digits_fit v 10 20 24) as (t & s & E1 & E2 & Hs); [lia | split; [apply Hv | eapply Z.lt_trans; [apply Hv | reflexivity]] | lia|].
  rewrite E1. cbn [lift mbind prog_bind bind]. rewrite E2. by apply s_str.
Qed.

End rules.

(** Steps through a program: literals and names are checked by computation, numbers by
    their hypotheses. *)
Lemma word_nonneg x : word x -> 0 <= x.
Proof. by intros [? _]. Qed.
Lemma word_if (b : bool) x : word x -> 0 <= (if b then x else 256).
Proof. destruct b; [apply word_nonneg | lia]. Qed.
Lemma u64_word x : word (u64 x).
Proof. apply Z.mod_pos_bound. lia. Qed.
Create HintDb word.
#[export] Hint Resolve NerictlProof.div_word NerictlProof.word_div word_nonneg word_if u64_word : word.
#[export] Hint Extern 1 (0 <= Zpos _) => lia : word.
Ltac word_tac := solve [eauto 3 with word].
Ltac leaf := lazymatch goal with
  | |- safe _ (Nerictl.write_str (lit _)) _ => apply s_lit; [reflexivity | vm_compute; reflexivity]
  | |- safe _ (Nerictl.write_str (nth _ _ _)) _ => apply s_nth; [reflexivity | cbn; first [apply NerictlProof.clamp3_lt | lia] | vm_compute; reflexivity]
  | |- safe _ (Nerictl.write_str _) _ => apply s_str; [reflexivity | assumption]
  | |- safe _ (Nerictl.write_char _) _ => apply s_char; reflexivity
  | |- safe _ (Nerictl.write_u64 _) _ => apply s_u64; [reflexivity | word_tac]
  | |- safe _ (Nerictl.write_u64_pct _ _) _ => apply s_pct; [reflexivity | word_tac]
  | |- safe _ (Nerictl.write_bar _ _ _) _ => apply s_bar; reflexivity
  | |- safe _ (Cortexcrypt.out_u64 _) _ => apply s_out_u64; [reflexivity | word_tac]
  | |- safe _ (Return _) _ => exact I
  end.
Ltac walk := repeat lazymatch goal with
  | |- safe _ (syscall _ _ ≫= _) _ => eapply safe_bind; [apply safe_syscall; reflexivity|]; intros ? ?
  | |- safe _ ((if _ then _ else _) ≫= _) _ => apply safe_then; [apply safe_if|]
  | |- safe _ (_ ≫= _) _ => apply safe_then; [leaf|]
  | |- safe _ (if _ then _ else _) _ => apply safe_if
  | |- _ => leaf
  end.

(** ** The control tool *)

Definition nerictl_calls (nr : Z) : bool := bool_decide (nr ∈ [1; 2; 20; 40; 41; 42; 49; 51; 52; 62]).

Lemma nerictl_status_safe st0 anm0 : length st0 = 56%nat -> length anm0 = 24%nat -> safe nerictl_calls (Nerictl.cmd_status st0 anm0) any.
Proof.
  intros H1 H2. unfold Nerictl.cmd_status. eapply safe_bind; [by apply safe_syscall_out|]. intros [rc st] (_ & Hl & Hb). cbn [fst snd] in *.
  apply safe_if; [leaf|]. eapply safe_bind; [by apply safe_syscall_out|]. intros [rc2 anm] (_ & Hl2 & Hb2). cbn [fst snd] in *.
  destruct (anomaly_words anm ltac:(lia) Hb2) as [Ws We]. pose proof (status_words st ltac:(lia) Hb) as Hw.
  unfold NerictlProof.words in Hw. rewrite !Forall_cons in Hw. destruct Hw as (W1 & W2 & W3 & W4 & W5 & W6 & W7 & _).
  cbn zeta. unfold level_colors, level_names. walk.
Qed.
Lemma nerictl_anomaly_safe anm0 : length anm0 = 24%nat -> safe nerictl_calls (Nerictl.cmd_anomaly anm0) any.
Proof.
  intros H2. unfold Nerictl.cmd_anomaly. eapply safe_bind; [by apply safe_syscall_out|]. intros [rc2 anm] (_ & Hl2 & Hb2). cbn [fst snd] in *.
  destruct (anomaly_words anm ltac:(lia) Hb2) as [Ws We]. cbn zeta. unfold level_colors, level_names, Nerictl.guidance, Nerictl.write_nl. walk.
Qed.
Lemma nerictl_intent_safe type burst : terminated type -> safe nerictl_calls (Nerictl.cmd_intent type burst) any.
Proof.
  intros Ht. unfold Nerictl.cmd_intent. eapply (safe_bind _ _ _ (fun i => i <= 6)%nat).
  - eapply (safe_for _ 6 _ (fun i => i <= 6)%nat 6); [lia | done|]. intros i a Hi Ha.
    destruct (strcmp_ok type (nth i Nerictl.intent_names [])) as [z1 E1]; [done | by apply terminated_nth|].
    destruct (strcmp_ok type (nth i Nerictl.aliases [])) as [z2 E2]; [done | by apply terminated_nth|].
    rewrite E1, E2. cbn. casei; [cbn; lia|]. cbn. casei; lia.
  - intros i Hi. casei; [leaf|]. apply Nat.ltb_ge in E. unfold Nerictl.write_nl. walk.
Qed.
Lemma at_byte b i : bytes_ok b -> 0 <= at_ b i < 256.
Proof.
  intros Hb. unfold at_. rewrite nth_lookup. destruct (b !! i) as [x|] eqn:E; [|cbn; lia].
  rewrite Forall_lookup in Hb. apply (Hb _ _ E).
Qed.
Lemma nerictl_attest_safe tok0 : safe nerictl_calls (Nerictl.cmd_attest tok0) any.
Proof.
  unfold Nerictl.cmd_attest. eapply safe_bind; [by apply safe_syscall_out|]. intros [rc tok] (Hr & Hl & Hb). cbn [fst snd] in *.
  apply safe_if; [leaf|]. apply safe_then; [leaf|]. apply safe_then; [|walk]. eapply safe_for; [done | reflexivity|]. intros i _ _ _.
  destruct (NerictlProof.hex_fits (at_ tok i) (at_byte tok i Hb)) as (l & E & Hn & Hz).
  eapply safe_bind; [by apply (safe_lift _ _ (fun x => x = l ++ [0]) _ E)|]. intros ? ->.
  eapply safe_bind; [by apply (safe_lift _ _ any _ (strlen_terminated l [] Hz))|]. intros n _.
  pose proof (terminated_str l Hz) as Ht. walk.
Qed.
Lemma bench_safe name iters buf code : nul_free (chars name) = true -> (0 < iters)%nat -> (forall b, length b = length buf -> safe nerictl_calls (code b) (fun b' => length b' = length b)) ->
  safe nerictl_calls (Nerictl.bench name iters buf code) any.
Proof.
  intros Hn Hi Hc. unfold Nerictl.bench. apply (safe_bind _ (Rdtsc Return) _ any); [done|]. intros t0 _.
  apply (safe_bind _ _ _ (fun b => length b = length buf)).
  - eapply (safe_for _ iters _ (fun b => length b = length buf)); [done | reflexivity|]. intros i b _ Hb. rewrite <- Hb. by apply Hc.
  - intros _ _. apply (safe_bind _ (Rdtsc Return) _ any); [done|]. intros t1 _. apply safe_then; [leaf|].
    apply safe_then; [by apply s_lit|].
    assert (word (u64 (t1 - t0) / Z.of_nat iters / 2)) by (apply NerictlProof.word_div; [apply NerictlProof.div_word|]; lia). walk.
Qed.
Lemma filling_safe nr more b : nerictl_calls nr = true -> safe nerictl_calls (Nerictl.filling nr more b) (fun b' => length b' = length b).
Proof. intros Hn. eapply safe_bind; [by apply safe_syscall_out|]. by intros [rc b'] (_ & Hl & _). Qed.
Lemma plain_safe nr args b : nerictl_calls nr = true -> safe nerictl_calls (Nerictl.plain nr args b) (fun b' => length b' = length b).
Proof. intros Hn. eapply safe_bind; [by apply safe_syscall|]. done. Qed.
Lemma nerictl_bench_safe st0 anm0 tok0 : safe nerictl_calls (Nerictl.cmd_bench st0 anm0 tok0) any.
Proof.
  unfold Nerictl.cmd_bench. do 2 (apply safe_then; [leaf|]).
  do 5 (apply safe_then; [apply bench_safe; [vm_compute; reflexivity | lia | intros; by first [apply filling_safe | apply plain_safe]]|]).
  walk.
Qed.
Lemma millions_safe s : terminated s -> safe nerictl_calls (Nerictl.millions s) word.
Proof.
  intros Hs. destruct (strtoull_ok s Hs) as (v & i & E & _). unfold Nerictl.millions. rewrite E. apply u64_word.
Qed.
Lemma is_cmd_safe cmd name : terminated cmd -> nul_free (chars name) = true -> safe nerictl_calls (Nerictl.is_cmd cmd name) any.
Proof.
  intros Hc Hn. destruct (strcmp_ok cmd (lit name) Hc (terminated_lit name Hn)) as [z E]. unfold Nerictl.is_cmd. by rewrite E.
Qed.
Lemma nerictl_budget_safe a b : word a -> word b -> safe nerictl_calls (Nerictl.cmd_budget a b) any.
Proof. intros. unfold Nerictl.cmd_budget. walk. Qed.
Lemma nerictl_thermal_safe a b : word a -> safe nerictl_calls (Nerictl.cmd_thermal a b) any.
Proof. intros. unfold Nerictl.cmd_thermal, Nerictl.intens. walk. Qed.
Lemma nerictl_help_safe : safe nerictl_calls Nerictl.cmd_help any.
Proof. unfold Nerictl.cmd_help. leaf. Qed.

Ltac command := eapply safe_bind; [apply is_cmd_safe; [assumption | vm_compute; reflexivity]|]; intros ? _.
Ltac argument := first [apply millions_safe; assumption | apply safe_return; apply (u64_word 0)].
Lemma nerictl_main_safe fr argv : length (Nerictl.fr_st fr) = 56%nat -> length (Nerictl.fr_anm fr) = 24%nat -> Forall terminated argv ->
  safe nerictl_calls (Nerictl.nerictl_main fr argv) (fun r => r = 0 \/ r = 1).
Proof.
  intros Hs Ha Hargv. unfold Nerictl.nerictl_main. eapply safe_bind; [by apply safe_syscall|]. intros _ _.
  assert (safe nerictl_calls (Nerictl.cmd_status (Nerictl.fr_st fr) (Nerictl.fr_anm fr);; Return 0) (fun r => r = 0 \/ r = 1)) as Hst.
  { apply safe_then; [by apply nerictl_status_safe | by left]. }
  destruct argv as [|p [|cmd args]]; [done..|]. rewrite !Forall_cons in Hargv. destruct Hargv as (_ & Hc & Hargs).
  command. apply safe_if; [done|]. command. apply safe_if; [apply safe_then; [by apply nerictl_anomaly_safe | by left]|].
  command. apply safe_if; [apply safe_then; [by apply nerictl_attest_safe | by left]|].
  command. apply safe_if; [apply safe_then; [by apply nerictl_bench_safe | by left]|].
  command. eapply (safe_bind _ _ _ any); [apply safe_if; [done | by apply is_cmd_safe]|]. intros b' _.
  apply safe_if; [apply safe_then; [by apply nerictl_help_safe | by left]|].
  assert (match args with s :: _ => terminated s | [] => True end /\ match args with _ :: s :: _ => terminated s | _ => True end) as [T1 T2].
  { destruct args as [|x [|y r]]; rewrite ?Forall_cons in Hargs; [done | by destruct Hargs | by destruct Hargs as (? & ? & _)]. }
  command. apply safe_if.
  { eapply (safe_bind _ _ _ any); [destruct args as [|x [|y r]]; try done; eapply safe_mono; [by apply millions_safe | done]|]. intros burst _.
    apply safe_then; [apply nerictl_intent_safe; destruct args; [by apply terminated_lit | done] | by left]. }
  command. apply safe_if.
  { eapply (safe_bind _ _ _ word); [destruct args as [|x r]; argument|]. intros c Hcw.
    eapply (safe_bind _ _ _ word); [destruct args as [|x [|y r]]; argument|]. intros d Hdw.
    apply safe_then; [by apply nerictl_budget_safe | by left]. }
  command. apply safe_if.
  { eapply (safe_bind _ _ _ word); [destruct args as [|x r]; argument|]. intros c Hcw.
    eapply (safe_bind _ _ _ any); [destruct args as [|x [|y r]]; try done; destruct (strtoull_ok y T2) as (v & i & -> & _); done|]. intros d _.
    apply safe_then; [by apply nerictl_thermal_safe | by left]. }
  do 3 (apply safe_then; [leaf|]). apply safe_then; [apply nerictl_help_safe | by right].
Qed.


(** ** The encryption tool *)

(** A program is in its pledge: it makes only calls whose bit is in the mask. *)
Definition in_mask (mask : Z) (nr : Z) : bool := (0 <=? nr) && (nr <? 64) && Z.testbit mask nr.
Definition cortexcrypt_calls : Z -> bool := in_mask Cortexcrypt.mask.
(** Its output functions are the control tool's. *)
Ltac same_output :=
  change Cortexcrypt.out with Nerictl.write_str; change Cortexcrypt.outnl with (Nerictl.write_char 10); change InitTool.wr with Nerictl.write_str;
  change InitTool.wru64 with Cortexcrypt.out_u64; unfold level_colors, level_names.

Lemma zero_answer (r : Z * list Z) : filled_like (replicate 24 0) r -> word (score (anomaly_at r.2)) /\ word (a_epoch (anomaly_at r.2)).
Proof. intros (_ & Hl & Hb). by apply anomaly_words. Qed.

Lemma cortexcrypt_status_safe : safe cortexcrypt_calls Cortexcrypt.cmd_status any.
Proof.
  unfold Cortexcrypt.cmd_status. eapply safe_bind; [by apply safe_syscall_out|]. intros [rc anm] [Ws _]%zero_answer. cbn [snd] in Ws.
  cbn zeta. same_output. do 7 (apply safe_then; [leaf|]). walk.
Qed.
Lemma out_hex_safe d len : safe cortexcrypt_calls (Cortexcrypt.out_hex d len) any.
Proof.
  unfold Cortexcrypt.out_hex. eapply safe_for; [done | reflexivity|]. intros i _ _ _. same_output.
  change Cortexcrypt.outc with Nerictl.write_char. walk.
Qed.
Lemma cortexcrypt_attest_safe tok0 : safe cortexcrypt_calls (Cortexcrypt.cmd_attest tok0) any.
Proof.
  unfold Cortexcrypt.cmd_attest. eapply safe_bind; [by apply safe_syscall|]. intros _ _.
  eapply safe_bind; [by apply safe_syscall_out|]. intros [tlen tok] (Hr & _ & _). cbn [fst snd] in *. same_output. apply safe_if; [leaf|].
  do 2 (apply safe_then; [leaf|]). eapply safe_bind; [by apply safe_syscall|]. intros pid Hp.
  do 7 (apply safe_then; [leaf|]). apply safe_then; [apply out_hex_safe | walk].
Qed.
Lemma cortexcrypt_verify_safe pid : word pid -> safe cortexcrypt_calls (Cortexcrypt.cmd_verify pid) any.
Proof. intros Hp. unfold Cortexcrypt.cmd_verify. same_output. walk. Qed.
Lemma cortexcrypt_ipc_safe pid : word pid -> safe cortexcrypt_calls (Cortexcrypt.cmd_ipc pid) any.
Proof. intros Hp. unfold Cortexcrypt.cmd_ipc. same_output. walk. Qed.
Lemma cortexcrypt_alloc_safe pages : word pages -> safe cortexcrypt_calls (Cortexcrypt.cmd_secure_alloc pages) any.
Proof.
  intros Hp. unfold Cortexcrypt.cmd_secure_alloc. same_output. do 2 (eapply safe_bind; [by apply safe_syscall|]; intros ? ?).
  apply safe_if; [leaf|]. do 2 (apply safe_then; [leaf|]).
  match goal with H : word ?v |- safe _ (lift (digits ?v _ _ _) ≫= _) _ =>
    destruct (digits_fit v 16 16 17) as (t & s & E1 & E2 & Hs); [lia | exact H | lia|] end.
  rewrite E1. cbn [lift]. eapply (safe_bind _ (Return t) _ (eq t)); [done|]. intros ? <-. rewrite E2.
  eapply (safe_bind _ (Return s) _ (eq s)); [done|]. intros ? <-. walk.
Qed.
Lemma cortexcrypt_help_safe : safe cortexcrypt_calls Cortexcrypt.cmd_help any.
Proof. unfold Cortexcrypt.cmd_help. same_output. leaf. Qed.

(** ** The first process *)

Definition init_calls : Z -> bool := in_mask InitTool.pledge.
Lemma init_greet_safe : safe init_calls InitTool.greet any.
Proof.
  unfold InitTool.greet, InitTool.print_banner, InitTool.print_status. same_output.
  apply safe_then; [walk|]. apply safe_then; [|walk].
  eapply safe_bind; [by apply safe_syscall_out|]. intros [rc st] (_ & Hl & Hb). cbn [fst snd] in *.
  eapply safe_bind; [by apply safe_syscall_out|]. intros [rc2 anm] [Ws _]%zero_answer. cbn [snd] in *.
  pose proof (status_words st Hl Hb) as Hw. unfold NerictlProof.words in Hw. rewrite !Forall_cons in Hw. destruct Hw as (W1 & W2 & W3 & W4 & W5 & W6 & W7 & _).
  cbn zeta. walk.
Qed.
Lemma init_round_safe tick : safe init_calls (InitTool.round tick) any.
Proof.
  unfold InitTool.round, InitTool.check_anomaly. eapply safe_bind; [by apply safe_syscall|]. intros _ _. cbn zeta. apply safe_then; [|done].
  apply safe_if; [|done]. eapply safe_bind; [by apply safe_syscall_out|]. intros [rc anm] [Ws _]%zero_answer. cbn [snd] in *. same_output.
  cbn zeta. walk.
Qed.

(** A program that never ends and never goes wrong: at every point it computes, or makes one
    of the calls [P] (or reads the counter) and goes on after whatever answer. *)
Inductive goes_onF (P : Z -> bool) (r : itree InitTool.sysE void -> Prop) : itree' InitTool.sysE void -> Prop :=
| go_tau t : r t -> goes_onF P r (TauF t)
| go_call nr args k : P nr = true -> (forall v bufs, answer_ok nr args v bufs -> r (k (v, bufs))) -> goes_onF P r (VisF (InitTool.SysCall nr args) k)
| go_tsc k : (forall t, r (k t)) -> goes_onF P r (VisF InitTool.ReadTsc k).
Definition goes_on_gen (P : Z -> bool) (r : itree InitTool.sysE void -> Prop) (t : itree InitTool.sysE void) : Prop := goes_onF P r (observe t).
Lemma goes_on_mon P : monotone1 (goes_on_gen P).
Proof. intros t r r' H LE. unfold goes_on_gen in *. destruct H; constructor; auto. Qed.
#[local] Hint Resolve goes_on_mon : paco.
Definition goes_on (P : Z -> bool) : itree InitTool.sysE void -> Prop := paco1 (goes_on_gen P) bot1.

(** A safe program, and then one that goes on. *)
Lemma goes_on_after P r {A} (p : prog A) Q (f : A -> itree InitTool.sysE void) :
  safe P p Q -> (forall a, Q a -> paco1 (goes_on_gen P) r (f a)) -> paco1 (goes_on_gen P) r (ITree.bind (InitTool.tree p) f).
Proof.
  intros Hp Hf. induction p as [a|nr args cont IH|cont IH|]; cbn [safe InitTool.tree] in *.
  - specialize (Hf a Hp). apply (paco1_unfold (goes_on_mon P)) in Hf. apply paco1_fold. exact Hf.
  - destruct Hp as [Hn Hp]. pfold. unfold goes_on_gen. cbn. apply go_call; [done|]. intros v bufs Ha. left. by apply IH, Hp.
  - pfold. unfold goes_on_gen. cbn. apply go_tsc. intros t. left. by apply IH, Hp.
  - done.
Qed.
Lemma goes_on_inner P r {A B} (p : prog A) Q (f : A -> itree InitTool.sysE B) (g : B -> itree InitTool.sysE void) :
  safe P p Q -> (forall a, Q a -> paco1 (goes_on_gen P) r (ITree.bind (f a) g)) -> paco1 (goes_on_gen P) r (ITree.bind (ITree.bind (InitTool.tree p) f) g).
Proof.
  intros Hp Hf. induction p as [a|nr args cont IH|cont IH|]; cbn [safe InitTool.tree] in *.
  - specialize (Hf a Hp). apply (paco1_unfold (goes_on_mon P)) in Hf. apply paco1_fold. exact Hf.
  - destruct Hp as [Hn Hp]. pfold. unfold goes_on_gen. cbn. apply go_call; [done|]. intros v bufs Ha. left. by apply IH, Hp.
  - pfold. unfold goes_on_gen. cbn. apply go_tsc. intros t. left. by apply IH, Hp.
  - done.
Qed.

Lemma forever_goes_on : forall tick, goes_on init_calls (InitTool.forever tick).
Proof.
  pcofix CIH. intros tick.
  assert (paco1 (goes_on_gen init_calls) r (ITree.bind (ITree.bind (InitTool.tree (InitTool.round tick)) (fun t => go (RetF (inl t))))
    (fun lr : Z + void => match lr with inl t => Tau (InitTool.forever t) | inr v => go (RetF v) end))) as H.
  { eapply (goes_on_inner _ r _ any _ _ (init_round_safe tick)). intros t _. apply paco1_fold. unfold goes_on_gen. cbn.
    apply go_tau. right. apply CIH. }
  apply (paco1_unfold (goes_on_mon init_calls)) in H. apply paco1_fold. exact H.
Qed.

(** (C11) The first process goes on forever: whatever the kernel answers, its program stays in its
    buffers and strings, never ends, and makes only calls of its pledge. *)
Theorem init_goes_on : goes_on init_calls InitTool.main.
Proof.
  eapply (goes_on_after _ bot1 _ any); [|intros _ _; apply forever_goes_on].
  apply safe_then; [|apply init_greet_safe]. unfold InitTool.declare.
  do 3 (eapply safe_bind; [by apply safe_syscall|]; intros _ _). done.
Qed.

(** The encryption tool stays in its buffers and in its pledge, with every command. *)
Theorem cortexcrypt_safe pid pages tok0 : word pid -> word pages ->
  Forall (fun p => safe (in_mask Cortexcrypt.mask) p any)
    [Cortexcrypt.body; Cortexcrypt.cmd_attest tok0; Cortexcrypt.cmd_verify pid; Cortexcrypt.cmd_ipc pid; Cortexcrypt.cmd_secure_alloc pages; Cortexcrypt.cmd_help].
Proof.
  intros Hp Hg. repeat (apply Forall_cons; split); [| by apply cortexcrypt_attest_safe | by apply cortexcrypt_verify_safe | by apply cortexcrypt_ipc_safe
    | by apply cortexcrypt_alloc_safe | apply cortexcrypt_help_safe | constructor].
  apply safe_then; [apply cortexcrypt_status_safe | by apply safe_exit].
Qed.

Lemma cortexcrypt_safe_witness : safe (in_mask Cortexcrypt.mask) (Cortexcrypt.cmd_secure_alloc 3) any.
Proof.
  assert (word 3) as W by (split; [lia | reflexivity]).
  pose proof (cortexcrypt_safe 3 3 [] W W) as H. rewrite !Forall_cons in H. destruct H as (_ & _ & _ & _ & H & _). exact H.
Defined.

End ToolsSafe.
