(* ===== verification/ToolsRun.v ===== *)
(** * The pledging programs on the kernel

    cortexcrypt and init pledge masks with bits from 47 up, which the dispatch takes for
    kernel addresses. *)

From Stdlib Require Import Ascii String.
From S2P Require Import Prelude Bytes Strings ListHead Sched SchedProof Vfs Syscall SyscallProof Kernel Tools Nerictl NerictlProof Cortexcrypt InitTool ToolsSafe.
Import Bytes Strings ListHead Syscall SyscallProof Kernel Tools.

Module ToolsRun.

Lemma run_fault {S} `{OS S} {A B} (p : prog A) (f : A -> prog B) s : run p s = Fault -> run (p ≫= f) s = Fault.
Proof. intros E. change (p ≫= f) with (bind p f). by rewrite run_bind, E. Qed.

Section run.
Context (m : machine) (ta : Z).

Lemma run_pledge k t mask : permits t 53 -> running (m_cpu m) k ta t ->
  run (H := nekros m) (syscall 53 [Val mask]) k =
  Done (with_sy k (Sched.put (sy k) ta (set_sig t (Z.lor (Sched.sig_pending t) (shl64 1 63)) (scrub_arg mask))), Some 0).
Proof.
  intros Hp R. unfold syscall. cbn [run os_call nekros]. unfold nekros_call. cbn [place nth].
  rewrite (pledge_call (m_env m) (m_hw m) (m_cpu m) (m_khz m) _ ta t (running_umem m ta t k (umem k) R)) by done.
  cbn [mbind outcome_bind run]. by destruct k.
Qed.

(** A task that may make no call at all, and is on no queue. *)
Definition doomed (k : kst) : Prop := exists t, running (m_cpu m) k ta t /\ Z.testbit (Sched.sig_pending t) 63 = true /\ Sched.sig_blocked t = 0 /\
  Sched.links (sy k) !! Sched.RqNode ta = Some (mk_lh None None).

Lemma doomed_call k nr args {A} (cont : Z -> list (list Z) -> prog A) : doomed k -> 0 <= nr < 64 -> run (H := nekros m) (Call nr args cont) k = Fault.
Proof.
  intros (t & R & Hp & Hb & Hl) Hn. cbn [run os_call nekros]. unfold nekros_call. destruct (place (m_sp m) (umem k) args) as [mem vs].
  rewrite (refused_call (m_env m) (m_hw m) (m_cpu m) (m_khz m) _ ta t (running_umem m ta t k mem R)) by (done || (rewrite Hb; apply Z.bits_0)).
  by rewrite SchedProof.exit_faults.
Qed.
Lemma doomed_str k s : doomed k -> ToolsSafe.terminated s -> run (H := nekros m) (Nerictl.write_str s) k = Fault.
Proof.
  intros Hk Hs. destruct (ToolsSafe.strlen_ok s Hs) as (n & E & _). unfold Nerictl.write_str. rewrite E. cbn [lift mbind prog_bind bind]. apply (run_fault (syscall _ _)). by apply doomed_call.
Qed.

Lemma pledge_dooms k t mask : permits t 53 -> running (m_cpu m) k ta t -> USER_ADDR_MAX <= mask ->
  Sched.links (sy k) !! Sched.RqNode ta = Some (mk_lh None None) ->
  exists k', run (H := nekros m) (syscall 53 [Val mask]) k = Done (k', Some 0) /\ doomed k'.
Proof.
  intros Hp R Hm Hl. eexists. split; [by eapply run_pledge|]. eexists. split; [by apply (running_put m ta t)|]. cbn [Sched.sig_pending Sched.sig_blocked set_sig].
  split; [|split; [|done]].
  - rewrite Z.lor_spec. change (Z.testbit (shl64 1 63) 63) with true. by rewrite orb_true_r.
  - unfold scrub_arg. rewrite (proj2 (Z.leb_le _ _) Hm), (proj2 (Z.eqb_neq mask 0)) by (unfold USER_ADDR_MAX in *; lia). done.
Qed.

End run.



End ToolsRun.
