(* ===== verification/Main.v ===== *)
(** * init/nekros_main.c: the start of the kernel

    [nekros_main] up to its idle loop and [init_process], composed of the modelled components in the
    order of the source.  The components share the heap and the resource manager
    through [sys]; the file system and CortexCrypto get them when they start.  What
    is printed is left out. *)

From Stdlib Require Import Ascii String.
From S2P Require Import Prelude Bytes Pmm PmmSpec Vmm VmmMap Sha256 ListHead Printk Hal Float Neri Sched Vfs Boot CcProc Syscall Kernel Tools Nerictl NerictlProof ToolsRun.
Import Bytes Sha256 ListHead Boot.

Module Main.

Record machine := mk_machine {
  con : Printk.console;
  hal : Hal.hal;
  sy : Sched.sys;
  fs : Vfs.vfs;
  cc : CcProc.cc
}.

(** What the loader, the linker and the hardware fix: the loader's structure, the
    bottom of the boot stack, CR3, the bytes at the bitmap, the interrupt stubs, the
    time stamps read on the way, the address of [init_process]. *)
Record start := mk_start {
  mb2_phys : Z; boot_stack : Z; cr3 : Z; old_bytes : Z -> Z; stubs : list Z;
  tsc_fp : Z; tsc_pool : Z; tsc_utb : Z; tsc_cc : Z; init_entry : Z
}.

Definition with_ncpus (w : Sched.hw) (n : Z) : Sched.hw :=
  Sched.mk_hw (Sched.hw_tsc_to_ns w) (Sched.hw_msr w) (Sched.hw_hfi w) n (Sched.hw_now w) (Sched.hw_now2 w) (Sched.hw_fpu w).
(** The file system and CortexCrypto over the current heap and resource manager. *)
Definition share (m : machine) (s : Sched.sys) : machine :=
  mk_machine (con m) (hal m) s (Kernel.fs_over (Vfs.with_tty (fs m) (con m)) s (CcProc.g_cc_ready (cc m))) (CcProc.with_vm (cc m) (Sched.vm s)).

(** From [vmm_init] on, with the memory map read. *)
Definition start_subsystems (u : sha256_ctx) (hw : Hal.cpu) (w : Sched.hw) (b : start) (m : machine) (v : Vmm.vmm) (total_ram_pages : Z) : outcome machine :=
  let v := Vmm.vmm_init v (cr3 b) in
  f ← Vfs.vfs_init (Vfs.with_heap (fs m) v);
  let s := Sched.sched_init (Sched.with_vm (sy m) v) in
  let machine_fp := compute_machine_fp u hw (tsc_fp b) in
  let (n, _) := neri_module_init u (Sched.hw_msr w) (tsc_pool b) (tsc_utb b) (Sched.nr s) machine_fp total_ram_pages (Hal.g_ncpus (hal m)) 256 in
  let c := CcProc.cc_proc_init u (tsc_cc b) (cc m) machine_fp in
  let n := Neri.mk_neri (Neri.n_ps n) (Neri.n_utb n) Neri.neri_nzra_init (Neri.neki_calib_init (Neri.n_neki n)) (Neri.n_sec n) in
  let s := Sched.with_ado (Sched.with_nr s n) Neri.neri_ado_init in
  '(s, r) ← Sched.task_create s (with_ncpus w (Hal.g_ncpus (hal m))) 0 (Some (bytes_of_string "init")) (init_entry b) 0 8 500000 16;
  if IS_ERR r then Panic else Done (share (mk_machine (con m) (hal m) s f c) s).

(** [None] while the parser of the memory map is still running. *)
Definition nekros_main (u : sha256_ctx) (hw : Hal.cpu) (w : Sched.hw) (b : start) (m : machine) (fuel : nat) : option (outcome machine) :=
  let con := Printk.serial_init (con m) in
  match Vmm.kstack_canary_write (Sched.vm (sy m)) (boot_stack b) with
  | Panic => Some Panic
  | Fault => Some Fault
  | Done v =>
      match Hal.hal_init hw (stubs b) (hal m) with
      | Panic => Some Panic
      | Fault => Some Fault
      | Done h =>
          let p := Pmm.pmm_init (Vmm.pm v) (old_bytes b) 0x200000 0x100000 in
          '(p, total_ram_pages, _) ← parse_multiboot2 p (mb2_phys b) fuel;
          Some (start_subsystems u hw w b (mk_machine con h (sy m) (fs m) (cc m)) (Vmm.with_pm v p) total_ram_pages)
      end
  end.

(** ** The first task *)

Definition pledge_mask : Z :=
  foldl (fun m n => Z.lor m (shl64 1 n)) 0 [0; 1; 2; 17; 20; 40; 49; 52; 53; 62; 63].
(** The calls of [init_process] with their numbers and first arguments; its endless
    loop is cut after [n] rounds. *)
Definition init_calls (n : nat) : list (Z * Z) := [(40, 3); (53, pledge_mask)] ++ replicate n (17, 0).
(** The calls in turn, until one does not return: the state and what returned. *)
Fixpoint run_calls (dispatch : Syscall.kst -> Z -> Z -> outcome (Syscall.kst * Syscall.sysret)) (k : Syscall.kst) (l : list (Z * Z)) : outcome (Syscall.kst * list Syscall.sysret) :=
  match l with
  | [] => Done (k, [])
  | (nr, a) :: l' =>
      '(k, r) ← dispatch k nr a;
      match r with
      | Syscall.Away _ _ => Done (k, [r])
      | Syscall.Ret _ => '(k, rs) ← run_calls dispatch k l'; Done (k, r :: rs)
      end
  end.
Definition init_process callee (w : Sched.hw) (cpu tsc_khz : Z) (k : Syscall.kst) (n : nat) : outcome (Syscall.kst * list Syscall.sysret) :=
  run_calls (fun k nr a => Syscall.nekros_syscall_dispatch callee w cpu tsc_khz k nr a 0 0 0 0) k (init_calls n).

(** ** Boots *)

(** Zeroed static storage, the static initialisers, and the loader's structure [l] at
    0x10000. *)
Definition off (l : list tag) : machine :=
  let p := Pmm.with_mem Pmm.pmm_bss (put_bytes ∅ (phys_to_virt 0x10000) (info_bytes l) 1000) in
  let v := Vmm.mk_vmm p 0 VmmMap.VMALLOC_START [] ∅ in
  let c := Printk.mk_console false [] (replicate 2000 0) 0 0 7 in
  let n := Neri.mk_neri (Neri.mk_ps (Neri.mk_pool 0 0 0 0 0 0 0 0) ∅ 0 false) (Neri.neri_utb_init (fun _ => 0) 0) Neri.neri_nzra_init Neri.neki_start
             (Neri.mk_sec [] false (Neri.mk_anomaly 0 0 false 0) Neri.zero_feat) in
  mk_machine c Hal.hal_bss
    (Sched.mk_sys v ∅ (replicate 1024 None) 0 1 (list_init ∅ Sched.AllHead) (replicate 16 0) (replicate 256 None) n Neri.neri_ado_init)
    (Vfs.mk_vfs (replicate 512 Vfs.zero_inode) 1 ∅ None v c (Neri.pool (Neri.n_ps n)) (Neri.n_neki n) (Neri.n_sec n) false false)
    (CcProc.cc_bss v).
Definition start_ex : start := mk_start 0x10000 (phys_to_virt 0x300000) 0x1000 PmmSpec.no_bytes (replicate 256 0x1000) 11 12 13 14 0x5000.
Definition w_ex : Sched.hw := Sched.mk_hw (fun x => x) (fun _ => 0) None 1 0 0 Float.Sse.

(** With the interrupt controller where PCs have it, the kernel does not get past
    [hal_init]. *)
Theorem pc_boot_faults u hw w b m fuel : Hal.mapped hw = Hal.boot_mapped -> (forall v, Hal.refuses hw Hal.APIC_BASE_MSR v = false) ->
  (forall l i, let '(a, b, c, d) := Hal.cpuid hw l i in 0 <= a < 2 ^ 32 /\ 0 <= b < 2 ^ 32 /\ 0 <= c < 2 ^ 32) ->
  length (stubs b) = 256%nat -> Forall (fun h => 0 <= h < 2 ^ 64) (stubs b) -> length (Hal.idt (hal m)) = 256%nat ->
  0 <= Hal.msrs (hal m) Hal.APIC_BASE_MSR < 2 ^ 52 -> Hal.apic_page (hal m) = 0xFEE00000 ->
  KERNEL_VIRT_BASE <= boot_stack b -> nekros_main u hw w b m fuel = Some Fault.
Proof.
  intros H1 H2 H3 H4 H5 H6 H7 H8 H9. unfold nekros_main, Vmm.kstack_canary_write, Vmm.store, Vmm.mmu.
  rewrite (proj2 (Z.eqb_neq _ 0)), (proj2 (Z.leb_le _ _) H9) by (unfold KERNEL_VIRT_BASE in *; lia). cbn [mbind outcome_bind].
  by rewrite (proj2 (Hal.hal_init_outcome hw (stubs b) (hal m) H1 H2 H3 H4 H5 H6 H7) H8).
Qed.

(** The outcome of a boot: the task table, the first task's number, priority and name,
    and the nodes on its run queue. *)
Definition report (o : option (outcome machine)) : option (outcome (list Z * option (Z * Z * list Z) * option (list Sched.snode))) :=
  o ← o;
  Some (m ← o;
        let ts := omap id (Sched.tasks (sy m)) in
        let l := Sched.links (sy m) in
        Done (ts, (fun t => (Sched.pid t, Sched.priority t, Sched.name t)) <$> (ta ← list.head ts; Sched.heap (sy m) !! ta),
              (nx ← get_next l (Some (Sched.RQ 8)); for_each l (Sched.RQ 8) nx 10))).

(** With the controller's registers in low memory: on a PC's memory map no page is
    registered and the kernel stops because it cannot create its first task; with RAM
    that starts above 4 MB it comes up with that task ready to run in its band. *)
Theorem boots :
  report (nekros_main zero_ctx Hal.hw_accepts w_ex start_ex (off [Mmap 24 0 pc_map]) 1000) = Some Panic /\
  exists ta, report (nekros_main zero_ctx Hal.hw_accepts w_ex start_ex (off Boot.map_ex) 1000) =
    Some (Done ([ta], Some (1, 8, bytes_of_string "init"), Some [Sched.RqNode ta])).
Proof. split; [vm_compute; reflexivity | eexists; vm_compute; reflexivity]. Qed.

(** The kernel state when the first [schedule] of the idle loop has switched to the
    first task. *)
Definition first_task_runs (m : machine) : outcome Syscall.kst :=
  '(s, _) ← Sched.schedule (sy m) w_ex 0;
  Done (Syscall.mk_kst s (replicate 256 0) (replicate 256 Syscall.no_budget) 1 ∅ [] [] (fs m) (cc m)).

(** The first task does not survive its first yield: bits from 47 up make the dispatch
    replace its pledge mask by 0, the next call is refused, and ending the running task
    faults. *)
Theorem init_does_not_survive :
  let go n := match nekros_main zero_ctx Hal.hw_accepts w_ex start_ex (off Boot.map_ex) 1000 with
              | Some (Done m) => k ← first_task_runs m; r ← init_process (Kernel.kernel_callee Kernel.ambient_ex) w_ex 0 1000 k n; Done r.2
              | _ => Panic
              end in
  go 0%nat = Done [Syscall.Ret 0; Syscall.Ret 0] /\ go 1%nat = Fault.
Proof. split; vm_compute; reflexivity. Qed.

(** What the serial line sends for a text. *)
Definition sent (l : list Z) : list Z := concat (map (fun c => if c =? 10 then [10; 13] else [c]) l).

(** The control tool run by the first task of a machine that came up: on the serial line it
    reports the pool that the boot set up, with the first task's grants. *)
Theorem booted_tool_reports :
  match nekros_main zero_ctx Hal.hw_accepts w_ex start_ex (off Boot.map_ex) 1000 with
  | Some (Done m) =>
      '(k, r) ← (k ← first_task_runs m; Tools.run (H := Tools.nekros NerictlProof.machine_ex) (Nerictl.nerictl_main NerictlProof.frame_ex []) k);
      Done (r, Printk.serial (Vfs.tty (Syscall.kfs k)))
  | _ => Fault
  end = Done (Some 0, sent (Tools.chars ("\033[1mNekros Resource Pool\033[0m  epoch=2\n\n" ++
    "  \033[36mCPU\033[0m  [█░░░░░░░░░░░░░░░░░░░] 5%  (alloc=0ms / total=10ms)\n" ++
    "  \033[36mRAM\033[0m  [░░░░░░░░░░░░░░░░░░░░] 0%  (0 MB / 63 MB)\n" ++
    "  \033[36mGPU\033[0m  [░░░░░░░░░░░░░░░░░░░░] 0%  (slots 0/256)\n\n" ++
    "  NSM    \033[32mNORMAL\033[0m  score=0/255\n\n" ++
    "  pid=\033[2m1\033[0m\n"))).
Proof. vm_compute. reflexivity. Qed.

End Main.
