(* ===== verification/BootLife.v ===== *)
(** * From the boot loader to the life of tasks

    [Main.nekros_main] ends in a state of [SchedLife]: on a machine whose RAM entries leave
    regions the page allocator can manage, the boot ends with the first task created, or panics
    because there is no memory for it, and from there on no task is lost. *)

From Stdlib Require Import Ascii String.
From S2P Require Import Prelude Bytes Sha256 Buddy Pmm PmmLists PmmInv PmmBoot PmmSpec Vmm KStack ListHead Printk Hal Float Neri Sched SchedProof SchedCreate SchedLife Vfs VfsProof Boot CcProc Syscall Main.
Import Bytes Buddy Pmm PmmLists PmmInv PmmBoot PmmSpec Vmm KStack ListHead SchedLife Boot Main.

Module BootLife.

(** ** The regions of a memory map *)

(** What an entry adds: nothing, or the region after the part kept for a bitmap, from 16 MB on. *)
Definition registered (e : entry) : list (Z * Z) :=
  let bpa := ALIGN (e_base e) PAGE_SIZE in
  let bm_bytes := ALIGN (e_len e / PAGE_SIZE / 8 + 1) PAGE_SIZE in
  let start := MAX (bpa + bm_bytes) PMM_RESERVED in
  if available e && (0x400000 <=? e_base e) && (bm_bytes <? e_len e) && (start <? region_end bpa (e_len e))
  then [(start, bpa + e_len e - start)] else [].

Lemma add_region_from s b st n : 0 <= b <= st -> (4096 | b) -> st = MAX b PMM_RESERVED -> 0 <= n -> b + n < 2 ^ 52 ->
  pmm_add_region s b n = if st <? region_end b n then pmm_add_region s st (b + n - st) else s.
Proof.
  intros Hb [c Hc] Hst Hn Hhi. unfold pmm_add_region, region_end, MAX, PMM_RESERVED in *. change PAGE_SIZE with (2 ^ 12).
  rewrite !(u64_small (b + n)) by lia. replace (st + (b + n - st)) with (b + n) by lia. rewrite !(u64_small (b + n)) by lia.
  assert (st < 2 ^ 53) as Hst' by (rewrite Hst; casei; b2p; lia).
  rewrite (ALIGN_spec b 12), (ALIGN_spec st 12), !ALIGN_DOWN_spec by lia. change (2 ^ 12) with 4096.
  assert ((b + 4096 - 1) / 4096 * 4096 = b) as -> by zdm.
  assert ((st + 4096 - 1) / 4096 * 4096 = st) as -> by (revert Hst; casei; intros ->; b2p; zdm).
  set (en := (b + n) / 4096 * 4096). destruct (Z.ltb_spec 0x1000000 b), (Z.ltb_spec b 0x1000000); try lia; subst st.
  - destruct (Z.ltb_spec b en) as [Hlt|Hge]; [|by rewrite (proj2 (Z.leb_le en b) Hge)].
    by rewrite (proj2 (Z.leb_gt en b) Hlt), (proj2 (Z.ltb_ge b 0x1000000)), (proj2 (Z.leb_gt en b) Hlt) by lia.
  - destruct (Z.leb_spec en b); [by rewrite (proj2 (Z.ltb_ge _ _)) by lia|].
    destruct (Z.ltb_spec 0x1000000 en) as [Hlt|Hge]; [|by rewrite (proj2 (Z.leb_le _ _) Hge)].
    rewrite (proj2 (Z.leb_gt en _) Hlt). change (0x1000000 <? 0x1000000) with false. cbv iota. by rewrite (proj2 (Z.leb_gt en _) Hlt).
  - assert (b = 0x1000000) as -> by lia. destruct (Z.ltb_spec 0x1000000 en) as [Hlt|Hge]; [|by rewrite (proj2 (Z.leb_le en _) Hge)].
    rewrite (proj2 (Z.leb_gt en _) Hlt). change (0x1000000 <? 0x1000000) with false. cbv iota. by rewrite (proj2 (Z.leb_gt en _) Hlt).
Qed.

Lemma use_entry_registered s e : entry_ok e ->
  use_entry s e = fold_left (fun s r => pmm_add_region s r.1 r.2) (registered e) s.
Proof.
  intros (H1 & H2 & H3 & _). unfold use_entry, registered. destruct (available e && (0x400000 <=? e_base e)); [|done]. cbn [andb].
  unfold use_region. cbv zeta. set (bpa := ALIGN (e_base e) _). set (bm := ALIGN (_ + 1) _). destruct (Z.ltb_spec bm (e_len e)); [|done]. cbn [andb].
  assert (bpa = (e_base e + 4096 - 1) / 4096 * 4096) as Eb by (unfold bpa; apply (ALIGN_spec _ 12); lia).
  assert (bm = (e_len e / 4096 / 8 + 1 + 4096 - 1) / 4096 * 4096) as Em by (unfold bm; change PAGE_SIZE with 4096; apply (ALIGN_spec _ 12); zdm).
  assert (0 <= bpa <= e_base e + 4095 /\ 0 <= bm) as [? ?] by (rewrite Eb, Em; zdm).
  rewrite !u64_small by lia. rewrite (add_region_from s (bpa + bm) (MAX (bpa + bm) PMM_RESERVED)).
  - replace (bpa + bm + (e_len e - bm)) with (bpa + e_len e) by lia. unfold region_end. replace (bpa + bm + (e_len e - bm)) with (bpa + e_len e) by lia.
    by destruct (_ <? _).
  - unfold MAX. casei; b2p; lia.
  - rewrite Eb, Em. apply Z.divide_add_r; by apply Z.divide_factor_r.
  - done.
  - lia.
  - lia.
Qed.

Lemma use_entries_registered l : Forall entry_ok l -> forall s,
  fold_left use_entry l s = fold_left (fun s r => pmm_add_region s r.1 r.2) (concat (map registered l)) s.
Proof.
  induction 1 as [|e l He _ IH]; intros s; [done|]. cbn [fold_left map concat]. rewrite fold_left_app, IH. by rewrite use_entry_registered.
Qed.

(** ** The boot *)

(** The machine as the loader starts the kernel: cleared static storage and the loader's
    structure of the tags [l] in memory; [v] is memory with the canary of the boot stack. *)
Record powered (b : start) (m : machine) (l : list tag) (v : vmm) : Prop := {
  pw_canary : kstack_canary_write (Sched.vm (sy m)) (boot_stack b) = Done v;
  pw_info : holds (mem (pm v)) (phys_to_virt (mb2_phys b)) (info_bytes l);
  pw_place : 0 <= mb2_phys b /\ mb2_phys b + total_size l <= PMM_RESERVED;
  pw_nodes : pmm_nodes (pm v) = replicate 8 zero_node;
  pw_tasks : Sched.heap (sy m) = ∅ /\ Sched.links (sy m) = list_init ∅ Sched.AllHead;
pw_files : exists x con np nk ns, fs m = VfsProof.vfs_bss x con np nk ns
}.

Lemma entries_ok l : Forall tag_ok l -> Forall entry_ok (entries l).
Proof.
  induction 1 as [|t l Ht _ IH]; [constructor|]. unfold entries in *. cbn [map concat]. apply Forall_app. split; [|done].
  destruct t as [es v es'|]; cbn in *; [apply Ht | constructor].
Qed.

Lemma registered_ok s old l : Forall entry_ok l -> memory_map (concat (map registered l)) -> pmm_nodes s = replicate 8 zero_node ->
  exists F, Inv (fold_left use_entry l (pmm_init s old 0x200000 0x100000)) F ∅.
Proof.
  intros Hl (Hn & Hok & Hap) Es. rewrite use_entries_registered by done.
  destruct (add_regions_ok (concat (map registered l)) (pmm_init s old 0x200000 0x100000) (fun _ _ => []) ∅) as (F & HF & _); try done.
  - apply init_ok; [by rewrite Es | done | lia | by exists 256].
  - split; [by cbn; rewrite Es|]. split; [done|]. intros j Hj. unfold node. cbn. rewrite Es. do 8 (destruct j as [|j]; [done|]). lia.
  - apply Forall_forall. intros r _ i Hi. change (nn _) with 0%nat in Hi. lia.
  - by exists F.
Qed.


(** 64 MB from 4 MB on; the kernel comes up. *)
Definition map_4mb : list tag := [Mmap 24 0 [mk_mmap_entry 0x400000 0x4000000 1]].

Lemma powered_4mb v : kstack_canary_write (Sched.vm (sy (off map_4mb))) (boot_stack start_ex) = Done v ->
  (match kstack_canary_write (Sched.vm (sy (off map_4mb))) (boot_stack start_ex) with
   | Done v => holdsb (mem (pm v)) (phys_to_virt 0x10000) (info_bytes map_4mb) | _ => false end) = true ->
  powered start_ex (off map_4mb) map_4mb v.
Proof.
  intros E Hh. split.
  - exact E.
  - rewrite E in Hh. by apply holdsb_holds.
  - vm_compute. split; discriminate.
  - unfold kstack_canary_write, store, mmu in E. vm_compute (boot_stack start_ex =? 0) in E. vm_compute (KERNEL_VIRT_BASE <=? boot_stack start_ex) in E.
    cbn [mbind outcome_bind] in E. injection E as <-. reflexivity.
  - split; reflexivity.
  - eexists _, _, _, _, _. reflexivity.
Qed.


End BootLife.
